(** * CHIP-8 emulator drafts: a shallow embedding and its properties

    The repository holds several drafts of one CHIP-8 interpreter.  Three of
    them are complete machines and are embedded here, each in a module of
    its own:

    - [Plain]   : the first [Chip8] class, whose [tick] is one if/elif chain
                  and which decrements the timers at the end of every tick;
    - [Tetris]  : the [Chip8] class with the (mask, pattern, handler)
                  dispatch table, NumPy scalars for [pc] and the stack,
                  bytearrays for memory and video RAM, and a separate
                  [_timer_tick];
    - [Working] : the [Chip8] class with [funcmap], [cycle], [_cpu_tick],
                  [load_rom] and the explicit bounds and stack checks.

    Python integers are unbounded, so they are [Z]; every wrap-around the
    source writes ([& 0xFF], [& 0xFFF], [np.uint16]) is written out. *)

From stdpp Require Import base list.
From Stdlib Require Import ZArith Lia.

Open Scope Z_scope.

(** ** Python values and exceptions *)

Module Py.

(** Messages of the [raise Exception(...)] statements of the source. *)
Inductive message :=
| PC_out_of_bounds (pc : Z)
| Stack_underflow_on_00EE
| Stack_overflow_on_CALL.

Inductive exn :=
| IndexError
| ValueError
| Exception (m : message).

Inductive result (A : Type) :=
| Ok (a : A)
| Raise (e : exn).
Arguments Ok {A} a.
Arguments Raise {A} e.

Definition bind {A B} (m : result A) (k : A -> result B) : result B :=
  match m with
  | Ok a => k a
  | Raise e => Raise e
  end.

(** Truth value of an integer in a condition. *)
Definition truthy (v : Z) : bool := negb (v =? 0).

(** [l[i]]: a negative index counts from the end; anything outside
    [-len, len) raises IndexError. *)
Definition norm_index (len i : Z) : Z := if i <? 0 then i + len else i.

Definition getitem (l : list Z) (i : Z) : result Z :=
  let j := norm_index (Z.of_nat (length l)) i in
  if j <? 0 then Raise IndexError
  else match l !! Z.to_nat j with
       | Some v => Ok v
       | None => Raise IndexError
       end.

(** [l[i] = v] *)
Definition setitem (l : list Z) (i v : Z) : result (list Z) :=
  let j := norm_index (Z.of_nat (length l)) i in
  if j <? 0 then Raise IndexError
  else if j <? Z.of_nat (length l) then Ok (<[Z.to_nat j := v]> l)
  else Raise IndexError.

(** [l.append(v)] and [l.pop()] work at the end of the list. *)
Definition append (l : list Z) (v : Z) : list Z := l ++ [v].

Definition pop (l : list Z) : result (Z * list Z) :=
  match rev l with
  | [] => Raise IndexError
  | v :: r => Ok (v, rev r)
  end.

(** [range(n)] *)
Definition range (n : Z) : list Z := seqZ 0 n.

(** A [for] loop whose body may raise. *)
Fixpoint for_each {S : Type} (body : Z -> S -> result S) (l : list Z) (s : S)
  : result S :=
  match l with
  | [] => Ok s
  | i :: r => bind (body i s) (for_each body r)
  end.

(** [enumerate(l)] *)
Fixpoint enumerate_from (i : Z) (l : list Z) : list (Z * Z) :=
  match l with
  | [] => []
  | b :: r => (i, b) :: enumerate_from (i + 1) r
  end.

Definition enumerate (l : list Z) : list (Z * Z) := enumerate_from 0 l.

(** Slices: a bound below zero counts from the end, and every bound is
    clipped to [0, len]. *)
Definition slice_bound (len : nat) (i : Z) : nat :=
  Z.to_nat (if i <? 0 then Z.max 0 (i + Z.of_nat len)
            else Z.min i (Z.of_nat len)).

(** [l[a:b]] *)
Definition getslice (l : list Z) (a b : Z) : list Z :=
  let a' := slice_bound (length l) a in
  let b' := slice_bound (length l) b in
  take (b' - a') (drop a' l).

(** [l[a:b] = vals]: the slice is replaced, so the length can change. *)
Definition setslice (l : list Z) (a b : Z) (vals : list Z) : list Z :=
  let a' := slice_bound (length l) a in
  let b' := slice_bound (length l) b in
  take a' l ++ vals ++ drop (Nat.max a' b') l.

(** A bytearray only stores values of [range(256)]. *)
Definition is_byte (v : Z) : bool := (0 <=? v) && (v <? 256).

Definition ba_setitem (l : list Z) (i v : Z) : result (list Z) :=
  if is_byte v then setitem l i v else Raise ValueError.

Definition ba_setslice (l : list Z) (a b : Z) (vals : list Z)
  : result (list Z) :=
  if forallb is_byte vals then Ok (setslice l a b vals) else Raise ValueError.

(** [np.uint16(v)] *)
Definition uint16 (v : Z) : Z := v mod 65536.

End Py.

Import Py.

Notation "'let*' x ':=' m 'in' k" := (bind m (fun x => k))
  (at level 10, x name, m at level 100, k at level 200).
Notation "'let*' ' p ':=' m 'in' k" := (bind m (fun x => let 'p := x in k))
  (at level 10, p pattern, m at level 100, k at level 200).

(** The font table, identical in every draft. *)
Definition FONTSET : list Z :=
  [ 0xF0; 0x90; 0x90; 0x90; 0xF0;
    0x20; 0x60; 0x20; 0x20; 0x70;
    0xF0; 0x10; 0xF0; 0x80; 0xF0;
    0xF0; 0x10; 0xF0; 0x10; 0xF0;
    0x90; 0x90; 0xF0; 0x10; 0x10;
    0xF0; 0x80; 0xF0; 0x10; 0xF0;
    0xF0; 0x80; 0xF0; 0x90; 0xF0;
    0xF0; 0x10; 0x20; 0x40; 0x40;
    0xF0; 0x90; 0xF0; 0x90; 0xF0;
    0xF0; 0x90; 0xF0; 0x10; 0xF0;
    0xF0; 0x90; 0xF0; 0x90; 0x90;
    0xE0; 0x90; 0xE0; 0x90; 0xE0;
    0xF0; 0x80; 0x80; 0x80; 0xF0;
    0xE0; 0x90; 0x90; 0x90; 0xE0;
    0xF0; 0x80; 0xF0; 0x80; 0xF0;
    0xF0; 0x80; 0xF0; 0x80; 0x80 ].

(** The countdown both timer routines perform on one timer. *)
Definition countdown (t : Z) : Z := if 0 <? t then t - 1 else t.

(** ** Loops the drafts share

    The sprite loops of DRW and the key scan of WAIT KEY are the same text
    in [Plain.tick] and in the handlers of [Tetris].  The sprite loops
    touch V and the video RAM only, so they are written once over that
    pair; [store] is the item assignment of the video RAM, a list in
    [Plain] and a bytearray in [Tetris]. *)

Section Draw.

Variable store : list Z -> Z -> Z -> result (list Z).

(** The body of [for bit in range(8)]. *)
Definition drw_bit (sprite px py row : Z) (bit : Z) (st : list Z * list Z)
  : result (list Z * list Z) :=
  let '(V, vram) := st in
  if truthy (Z.land sprite (Z.shiftr 0x80 bit)) then
    let vx := (px + bit) mod 64 in
    let vy := (py + row) mod 32 in
    let index := vx + vy * 64 in
    let* cell := getitem vram index in
    let* V := (if cell =? 1 then setitem V 0xF 1 else Ok V) in
    let* cell := getitem vram index in
    let* vram := store vram index (Z.lxor cell 1) in
    Ok (V, vram)
  else Ok (V, vram).

(** The body of [for row in range(n)]. *)
Definition drw_row (memory : list Z) (I px py : Z) (row : Z)
                   (st : list Z * list Z) : result (list Z * list Z) :=
  let* sprite := getitem memory (I + row) in
  for_each (drw_bit sprite px py row) (range 8) st.

End Draw.

(** [for i in range(16): if self.keys[i]: ...; return]: the first [i] whose
    key is down. *)
Fixpoint first_pressed (ks : list Z) (l : list Z) : result (option Z) :=
  match l with
  | [] => Ok None
  | i :: r =>
      let* k := getitem ks i in
      if truthy k then Ok (Some i) else first_pressed ks r
  end.

(** ** The keyboard

    The symbols of [pyglet.window.key] that the drafts name, and every
    other symbol as [other n].  [KEYMAP] is the table of [Plain]; [keymap]
    of [Tetris] and of [Working] has the same entries. *)
Module key.
Inductive symbol :=
| _1 | _2 | _3 | _4
| Q | W | E | R
| A | S | D | F
| Z | X | C | V
| ESCAPE | F1
| other (n : nat).
End key.

#[global] Instance symbol_eq_dec : EqDecision key.symbol.
Proof. solve_decision. Defined.

Definition KEYMAP : list (key.symbol * Z) :=
  [ (key._1, 0x1); (key._2, 0x2); (key._3, 0x3); (key._4, 0xC);
    (key.Q, 0x4); (key.W, 0x5); (key.E, 0x6); (key.R, 0xD);
    (key.A, 0x7); (key.S, 0x8); (key.D, 0x9); (key.F, 0xE);
    (key.Z, 0xA); (key.X, 0x0); (key.C, 0xB); (key.V, 0xF) ].

(** [symbol in KEYMAP] and [KEYMAP[symbol]] in one. *)
Fixpoint keymap_get (d : list (key.symbol * Z)) (symbol : key.symbol)
  : option Z :=
  match d with
  | [] => None
  | (k, v) :: r => if decide (k = symbol) then Some v else keymap_get r symbol
  end.

(** ** Draft [Plain]: [Chip8.tick] as one if/elif chain *)

Module Plain.

Record Chip8 := mkChip8 {
  memory : list Z;
  vram : list Z;
  V : list Z;
  I : Z;
  pc : Z;
  stack : list Z;
  keys : list Z;
  delay : Z;
  sound : Z;
  should_draw : bool
}.

Definition set_memory (s : Chip8) (v : list Z) : Chip8 :=
  mkChip8 v (vram s) (V s) (I s) (pc s) (stack s) (keys s) (delay s)
          (sound s) (should_draw s).
Definition set_vram (s : Chip8) (v : list Z) : Chip8 :=
  mkChip8 (memory s) v (V s) (I s) (pc s) (stack s) (keys s) (delay s)
          (sound s) (should_draw s).
Definition set_V (s : Chip8) (v : list Z) : Chip8 :=
  mkChip8 (memory s) (vram s) v (I s) (pc s) (stack s) (keys s) (delay s)
          (sound s) (should_draw s).
Definition set_I (s : Chip8) (v : Z) : Chip8 :=
  mkChip8 (memory s) (vram s) (V s) v (pc s) (stack s) (keys s) (delay s)
          (sound s) (should_draw s).
Definition set_pc (s : Chip8) (v : Z) : Chip8 :=
  mkChip8 (memory s) (vram s) (V s) (I s) v (stack s) (keys s) (delay s)
          (sound s) (should_draw s).
Definition set_stack (s : Chip8) (v : list Z) : Chip8 :=
  mkChip8 (memory s) (vram s) (V s) (I s) (pc s) v (keys s) (delay s)
          (sound s) (should_draw s).
Definition set_keys (s : Chip8) (v : list Z) : Chip8 :=
  mkChip8 (memory s) (vram s) (V s) (I s) (pc s) (stack s) v (delay s)
          (sound s) (should_draw s).
Definition set_delay (s : Chip8) (v : Z) : Chip8 :=
  mkChip8 (memory s) (vram s) (V s) (I s) (pc s) (stack s) (keys s) v
          (sound s) (should_draw s).
Definition set_sound (s : Chip8) (v : Z) : Chip8 :=
  mkChip8 (memory s) (vram s) (V s) (I s) (pc s) (stack s) (keys s)
          (delay s) v (should_draw s).
Definition set_should_draw (s : Chip8) (v : bool) : Chip8 :=
  mkChip8 (memory s) (vram s) (V s) (I s) (pc s) (stack s) (keys s)
          (delay s) (sound s) v.

(** [self.V[i] = v] and [self.memory[a] = v] as state updates. *)
Definition write_V (i v : Z) (s : Chip8) : result Chip8 :=
  let* l := setitem (V s) i v in Ok (set_V s l).
Definition write_memory (a v : Z) (s : Chip8) : result Chip8 :=
  let* l := setitem (memory s) a v in Ok (set_memory s l).

(** [__init__]: zeroed machine, font table at 0, then the ROM bytes from
    0x200 on, one [self.memory[0x200 + i] = b] per byte. *)
Definition blank : Chip8 :=
  mkChip8 (replicate 4096 0) (replicate (64 * 32) 0) (replicate 16 0) 0 0x200
          [] (replicate 16 0) 0 0 true.

Fixpoint load_bytes (base : Z) (items : list (Z * Z)) (s : Chip8)
  : result Chip8 :=
  match items with
  | [] => Ok s
  | (i, b) :: r => let* s' := write_memory (base + i) b s in load_bytes base r s'
  end.

Definition init (rom : list Z) : result Chip8 :=
  let* s := load_bytes 0 (enumerate (take 80 FONTSET)) blank in
  load_bytes 0x200 (enumerate rom) s.

(** How a branch of [tick] ends: it falls through to the timer code, or
    it leaves [tick] with [return]. *)
Inductive flow :=
| Fall (s : Chip8)
| Return (s : Chip8).

Definition fall (r : result Chip8) : result flow :=
  let* s := r in Ok (Fall s).

Definition skip_if (b : bool) (s : Chip8) : Chip8 :=
  if b then set_pc s (pc s + 2) else s.

(** The opcode chain of [tick], in the order of the source.  [s] is the
    state after [self.pc += 2]. *)
Definition execute (opcode : Z) (s : Chip8) : result flow :=
  let nnn := Z.land opcode 0x0FFF in
  let n := Z.land opcode 0x000F in
  let x := Z.land (Z.shiftr opcode 8) 0xF in
  let y := Z.land (Z.shiftr opcode 4) 0xF in
  let kk := Z.land opcode 0xFF in
  if opcode =? 0x00E0 then                                  (* CLS *)
    Ok (Fall (set_should_draw (set_vram s (replicate (64 * 32) 0)) true))
  else if opcode =? 0x00EE then                             (* RET *)
    let* '(a, st) := pop (stack s) in
    Ok (Fall (set_pc (set_stack s st) a))
  else if Z.land opcode 0xF000 =? 0x1000 then               (* JP *)
    Ok (Fall (set_pc s nnn))
  else if Z.land opcode 0xF000 =? 0x2000 then               (* CALL *)
    Ok (Fall (set_pc (set_stack s (append (stack s) (pc s))) nnn))
  else if Z.land opcode 0xF000 =? 0x3000 then               (* SE Vx, byte *)
    let* vx := getitem (V s) x in
    Ok (Fall (skip_if (vx =? kk) s))
  else if Z.land opcode 0xF000 =? 0x4000 then               (* SNE Vx, byte *)
    let* vx := getitem (V s) x in
    Ok (Fall (skip_if (negb (vx =? kk)) s))
  else if Z.land opcode 0xF00F =? 0x5000 then               (* SE Vx, Vy *)
    let* vx := getitem (V s) x in
    let* vy := getitem (V s) y in
    Ok (Fall (skip_if (vx =? vy) s))
  else if Z.land opcode 0xF000 =? 0x6000 then               (* LD Vx, byte *)
    fall (write_V x kk s)
  else if Z.land opcode 0xF000 =? 0x7000 then               (* ADD Vx, byte *)
    let* vx := getitem (V s) x in
    fall (write_V x (Z.land (vx + kk) 0xFF) s)
  else if Z.land opcode 0xF00F =? 0x8000 then               (* LD Vx, Vy *)
    let* vy := getitem (V s) y in
    fall (write_V x vy s)
  else if Z.land opcode 0xF00F =? 0x8001 then               (* OR *)
    let* vx := getitem (V s) x in
    let* vy := getitem (V s) y in
    fall (write_V x (Z.lor vx vy) s)
  else if Z.land opcode 0xF00F =? 0x8002 then               (* AND *)
    let* vx := getitem (V s) x in
    let* vy := getitem (V s) y in
    fall (write_V x (Z.land vx vy) s)
  else if Z.land opcode 0xF00F =? 0x8003 then               (* XOR *)
    let* vx := getitem (V s) x in
    let* vy := getitem (V s) y in
    fall (write_V x (Z.lxor vx vy) s)
  else if Z.land opcode 0xF00F =? 0x8004 then               (* ADD + carry *)
    let* vx := getitem (V s) x in
    let* vy := getitem (V s) y in
    let total := vx + vy in
    let* s := write_V 0xF (if 0xFF <? total then 1 else 0) s in
    fall (write_V x (Z.land total 0xFF) s)
  else if Z.land opcode 0xF00F =? 0x8005 then               (* SUB *)
    let* vx := getitem (V s) x in
    let* vy := getitem (V s) y in
    let* s := write_V 0xF (if vy <? vx then 1 else 0) s in
    let* vx := getitem (V s) x in
    let* vy := getitem (V s) y in
    fall (write_V x (Z.land (vx - vy) 0xFF) s)
  else if Z.land opcode 0xF00F =? 0x8006 then               (* SHR *)
    let* vx := getitem (V s) x in
    let* s := write_V 0xF (Z.land vx 1) s in
    let* vx := getitem (V s) x in
    fall (write_V x (Z.shiftr vx 1) s)
  else if Z.land opcode 0xF00F =? 0x8007 then               (* SUBN *)
    let* vy := getitem (V s) y in
    let* vx := getitem (V s) x in
    let* s := write_V 0xF (if vx <? vy then 1 else 0) s in
    let* vy := getitem (V s) y in
    let* vx := getitem (V s) x in
    fall (write_V x (Z.land (vy - vx) 0xFF) s)
  else if Z.land opcode 0xF00F =? 0x800E then               (* SHL *)
    let* vx := getitem (V s) x in
    let* s := write_V 0xF (Z.land (Z.shiftr vx 7) 1) s in
    let* vx := getitem (V s) x in
    fall (write_V x (Z.land (Z.shiftl vx 1) 0xFF) s)
  else if Z.land opcode 0xF00F =? 0x9000 then               (* SNE Vx, Vy *)
    let* vx := getitem (V s) x in
    let* vy := getitem (V s) y in
    Ok (Fall (skip_if (negb (vx =? vy)) s))
  else if Z.land opcode 0xF000 =? 0xA000 then               (* LD I, addr *)
    Ok (Fall (set_I s nnn))
  else if Z.land opcode 0xF000 =? 0xD000 then               (* DRW Vx, Vy, n *)
    let* px := getitem (V s) x in
    let* py := getitem (V s) y in
    let* s := write_V 0xF 0 s in
    let* st := for_each (drw_row setitem (memory s) (I s) px py) (range n)
                        (V s, vram s) in
    Ok (Fall (set_should_draw (set_vram (set_V s (fst st)) (snd st)) true))
  else if Z.land opcode 0xF0FF =? 0xE09E then               (* SKP *)
    let* vx := getitem (V s) x in
    let* k := getitem (keys s) vx in
    Ok (Fall (skip_if (truthy k) s))
  else if Z.land opcode 0xF0FF =? 0xE0A1 then               (* SKNP *)
    let* vx := getitem (V s) x in
    let* k := getitem (keys s) vx in
    Ok (Fall (skip_if (negb (truthy k)) s))
  else if Z.land opcode 0xF0FF =? 0xF007 then               (* LD Vx, DT *)
    fall (write_V x (delay s) s)
  else if Z.land opcode 0xF0FF =? 0xF00A then               (* WAIT KEY *)
    let* found := first_pressed (keys s) (range 16) in
    match found with
    | Some i => let* s := write_V x i s in Ok (Return s)
    | None => Ok (Fall (set_pc s (pc s - 2)))
    end
  else if Z.land opcode 0xF0FF =? 0xF015 then               (* LD DT, Vx *)
    let* vx := getitem (V s) x in
    Ok (Fall (set_delay s vx))
  else if Z.land opcode 0xF0FF =? 0xF018 then               (* LD ST, Vx *)
    let* vx := getitem (V s) x in
    Ok (Fall (set_sound s vx))
  else if Z.land opcode 0xF0FF =? 0xF01E then               (* ADD I, Vx *)
    let* vx := getitem (V s) x in
    Ok (Fall (set_I s (Z.land (I s + vx) 0xFFF)))
  else if Z.land opcode 0xF0FF =? 0xF029 then               (* FONT *)
    let* vx := getitem (V s) x in
    Ok (Fall (set_I s (vx * 5)))
  else if Z.land opcode 0xF0FF =? 0xF033 then               (* BCD *)
    let* v := getitem (V s) x in
    let* s := write_memory (I s) (v / 100) s in
    let* s := write_memory (I s + 1) ((v / 10) mod 10) s in
    fall (write_memory (I s + 2) (v mod 10) s)
  else if Z.land opcode 0xF0FF =? 0xF055 then               (* STORE *)
    fall (for_each
            (fun i s => let* v := getitem (V s) i in write_memory (I s + i) v s)
            (range (x + 1)) s)
  else if Z.land opcode 0xF0FF =? 0xF065 then               (* LOAD *)
    fall (for_each
            (fun i s => let* v := getitem (memory s) (I s + i) in write_V i v s)
            (range (x + 1)) s)
  else Ok (Fall s).

(** The timer code at the end of [tick]. *)
Definition timers (s : Chip8) : Chip8 :=
  let s := if 0 <? delay s then set_delay s (delay s - 1) else s in
  if 0 <? sound s then set_sound s (sound s - 1) else s.

(** [opcode = self.memory[self.pc] << 8 | self.memory[self.pc + 1]] *)
Definition fetch (s : Chip8) : result Z :=
  let* hi := getitem (memory s) (pc s) in
  let* lo := getitem (memory s) (pc s + 1) in
  Ok (Z.lor (Z.shiftl hi 8) lo).

Definition tick (s : Chip8) : result Chip8 :=
  let* opcode := fetch s in
  let s := set_pc s (pc s + 2) in
  let* f := execute opcode s in
  match f with
  | Fall s => Ok (timers s)
  | Return s => Ok s
  end.

(** [on_key_press] and [on_key_release] for a symbol that KEYMAP sends to
    key [k]. *)
Definition on_key_press (k : Z) (s : Chip8) : result Chip8 :=
  let* l := setitem (keys s) k 1 in Ok (set_keys s l).
Definition on_key_release (k : Z) (s : Chip8) : result Chip8 :=
  let* l := setitem (keys s) k 0 in Ok (set_keys s l).

(** [on_key_press(symbol, modifiers)] and [on_key_release] with their test
    [if symbol in KEYMAP]. *)
Definition key_press (symbol : key.symbol) (s : Chip8) : result Chip8 :=
  match keymap_get KEYMAP symbol with
  | Some k => on_key_press k s
  | None => Ok s
  end.
Definition key_release (symbol : key.symbol) (s : Chip8) : result Chip8 :=
  match keymap_get KEYMAP symbol with
  | Some k => on_key_release k s
  | None => Ok s
  end.

(** What [on_draw] sends to the window: [self.clear()] and
    [self.pixel.blit(x, y)]. *)
Inductive gfx :=
| Clear
| Blit (x y : Z).

(** [for i in range(2048): if self.vram[i]: ... self.pixel.blit(x, y)] *)
Fixpoint blit_loop (vram : list Z) (idxs : list Z) : result (list gfx) :=
  match idxs with
  | [] => Ok []
  | i :: r =>
      let* c := getitem vram i in
      let* rest := blit_loop vram r in
      Ok (if truthy c
          then Blit (i mod 64 * 10) (310 - i / 64 * 10) :: rest
          else rest)
  end.

Definition on_draw (s : Chip8) : result (list gfx * Chip8) :=
  if negb (should_draw s) then Ok ([], s)
  else
    let* blits := blit_loop (vram s) (range 2048) in
    Ok (Clear :: blits, set_should_draw s false).

(** [draw_frame]: [dispatch_event('on_draw')] calls [on_draw]. *)
Definition draw_frame (s : Chip8) : result (list gfx * Chip8) :=
  if should_draw s then on_draw s else Ok ([], s).

End Plain.

(** ** Draft [Tetris]: dispatch table, NumPy scalars, bytearrays

    [memory] and [vram] are bytearrays, [stack] is [np.zeros(16, uint16)],
    [keys] is [np.zeros(16, uint8)]; [pc] is an [np.uint16] scalar from the
    first tick on, so every assignment to it goes through [uint16].
    [stdout] collects the opcodes printed as unknown. *)

Module Tetris.

Record Chip8 := mkChip8 {
  memory : list Z;
  vram : list Z;
  V : list Z;
  I : Z;
  pc : Z;
  stack : list Z;
  sp : Z;
  keys : list Z;
  delay : Z;
  sound : Z;
  should_draw : bool;
  sound_playing : bool;
  _cps_counter : Z;
  stdout : list Z
}.

Definition set_memory (s : Chip8) (v : list Z) : Chip8 :=
  mkChip8 v (vram s) (V s) (I s) (pc s) (stack s) (sp s) (keys s) (delay s)
          (sound s) (should_draw s) (sound_playing s) (_cps_counter s)
          (stdout s).
Definition set_vram (s : Chip8) (v : list Z) : Chip8 :=
  mkChip8 (memory s) v (V s) (I s) (pc s) (stack s) (sp s) (keys s) (delay s)
          (sound s) (should_draw s) (sound_playing s) (_cps_counter s)
          (stdout s).
Definition set_V (s : Chip8) (v : list Z) : Chip8 :=
  mkChip8 (memory s) (vram s) v (I s) (pc s) (stack s) (sp s) (keys s)
          (delay s) (sound s) (should_draw s) (sound_playing s)
          (_cps_counter s) (stdout s).
Definition set_I (s : Chip8) (v : Z) : Chip8 :=
  mkChip8 (memory s) (vram s) (V s) v (pc s) (stack s) (sp s) (keys s)
          (delay s) (sound s) (should_draw s) (sound_playing s)
          (_cps_counter s) (stdout s).
Definition set_pc (s : Chip8) (v : Z) : Chip8 :=
  mkChip8 (memory s) (vram s) (V s) (I s) v (stack s) (sp s) (keys s)
          (delay s) (sound s) (should_draw s) (sound_playing s)
          (_cps_counter s) (stdout s).
Definition set_stack (s : Chip8) (v : list Z) : Chip8 :=
  mkChip8 (memory s) (vram s) (V s) (I s) (pc s) v (sp s) (keys s) (delay s)
          (sound s) (should_draw s) (sound_playing s) (_cps_counter s)
          (stdout s).
Definition set_sp (s : Chip8) (v : Z) : Chip8 :=
  mkChip8 (memory s) (vram s) (V s) (I s) (pc s) (stack s) v (keys s)
          (delay s) (sound s) (should_draw s) (sound_playing s)
          (_cps_counter s) (stdout s).
Definition set_keys (s : Chip8) (v : list Z) : Chip8 :=
  mkChip8 (memory s) (vram s) (V s) (I s) (pc s) (stack s) (sp s) v (delay s)
          (sound s) (should_draw s) (sound_playing s) (_cps_counter s)
          (stdout s).
Definition set_delay (s : Chip8) (v : Z) : Chip8 :=
  mkChip8 (memory s) (vram s) (V s) (I s) (pc s) (stack s) (sp s) (keys s) v
          (sound s) (should_draw s) (sound_playing s) (_cps_counter s)
          (stdout s).
Definition set_sound (s : Chip8) (v : Z) : Chip8 :=
  mkChip8 (memory s) (vram s) (V s) (I s) (pc s) (stack s) (sp s) (keys s)
          (delay s) v (should_draw s) (sound_playing s) (_cps_counter s)
          (stdout s).
Definition set_should_draw (s : Chip8) (v : bool) : Chip8 :=
  mkChip8 (memory s) (vram s) (V s) (I s) (pc s) (stack s) (sp s) (keys s)
          (delay s) (sound s) v (sound_playing s) (_cps_counter s)
          (stdout s).
Definition set_sound_playing (s : Chip8) (v : bool) : Chip8 :=
  mkChip8 (memory s) (vram s) (V s) (I s) (pc s) (stack s) (sp s) (keys s)
          (delay s) (sound s) (should_draw s) v (_cps_counter s) (stdout s).
Definition set_cps_counter (s : Chip8) (v : Z) : Chip8 :=
  mkChip8 (memory s) (vram s) (V s) (I s) (pc s) (stack s) (sp s) (keys s)
          (delay s) (sound s) (should_draw s) (sound_playing s) v (stdout s).
Definition set_stdout (s : Chip8) (v : list Z) : Chip8 :=
  mkChip8 (memory s) (vram s) (V s) (I s) (pc s) (stack s) (sp s) (keys s)
          (delay s) (sound s) (should_draw s) (sound_playing s)
          (_cps_counter s) v.

Definition write_V (i v : Z) (s : Chip8) : result Chip8 :=
  let* l := setitem (V s) i v in Ok (set_V s l).
Definition write_memory (a v : Z) (s : Chip8) : result Chip8 :=
  let* l := ba_setitem (memory s) a v in Ok (set_memory s l).

(** [__init__]: [memory[:len(fontset)] = fontset] and
    [memory[0x200:0x200 + len(rom)] = rom] are slice assignments. *)
Definition blank : Chip8 :=
  mkChip8 (replicate 4096 0) (replicate (64 * 32) 0) (replicate 16 0) 0 0x200
          (replicate 16 0) 0 (replicate 16 0) 0 0 true true 0 [].

Definition init (rom : list Z) : result Chip8 :=
  let s := blank in
  let* m := ba_setslice (memory s) 0 (Z.of_nat (length FONTSET)) FONTSET in
  let s := set_memory s m in
  let* m := ba_setslice (memory s) 0x200 (0x200 + Z.of_nat (length rom)) rom in
  Ok (set_memory s m).

Definition reg_x (opcode : Z) : Z := Z.land (Z.shiftr opcode 8) 0xF.
Definition reg_y (opcode : Z) : Z := Z.land (Z.shiftr opcode 4) 0xF.

Definition skip_if (b : bool) (s : Chip8) : Chip8 :=
  if b then set_pc s (uint16 (pc s + 2)) else s.

Definition op_CLS (opcode : Z) (s : Chip8) : result Chip8 :=
  Ok (set_should_draw (set_vram s (replicate (length (vram s)) 0)) true).

Definition op_RET (opcode : Z) (s : Chip8) : result Chip8 :=
  if sp s =? 0 then Ok (set_pc s (uint16 0x200))
  else
    let s := set_sp s (sp s - 1) in
    let* a := getitem (stack s) (sp s) in
    Ok (set_pc s a).

Definition op_JP (opcode : Z) (s : Chip8) : result Chip8 :=
  Ok (set_pc s (uint16 (Z.land opcode 0x0FFF))).

Definition op_CALL (opcode : Z) (s : Chip8) : result Chip8 :=
  let* s :=
    (if sp s <? 16 then
       let* st := setitem (stack s) (sp s) (pc s) in
       Ok (set_sp (set_stack s st) (sp s + 1))
     else Ok s) in
  Ok (set_pc s (uint16 (Z.land opcode 0x0FFF))).

Definition op_SE_Vx_kk (opcode : Z) (s : Chip8) : result Chip8 :=
  let x := reg_x opcode in
  let kk := Z.land opcode 0xFF in
  let* vx := getitem (V s) x in
  Ok (skip_if (vx =? kk) s).

Definition op_SNE_Vx_kk (opcode : Z) (s : Chip8) : result Chip8 :=
  let x := reg_x opcode in
  let kk := Z.land opcode 0xFF in
  let* vx := getitem (V s) x in
  Ok (skip_if (negb (vx =? kk)) s).

Definition op_SE_Vx_Vy (opcode : Z) (s : Chip8) : result Chip8 :=
  let x := reg_x opcode in
  let y := reg_y opcode in
  let* vx := getitem (V s) x in
  let* vy := getitem (V s) y in
  Ok (skip_if (vx =? vy) s).

Definition op_LD_Vx_kk (opcode : Z) (s : Chip8) : result Chip8 :=
  let x := reg_x opcode in
  write_V x (Z.land opcode 0xFF) s.

Definition op_ADD_Vx_kk (opcode : Z) (s : Chip8) : result Chip8 :=
  let x := reg_x opcode in
  let kk := Z.land opcode 0xFF in
  let* vx := getitem (V s) x in
  write_V x (Z.land (vx + kk) 0xFF) s.

Definition op_LD_Vx_Vy (opcode : Z) (s : Chip8) : result Chip8 :=
  let x := reg_x opcode in
  let y := reg_y opcode in
  let* vy := getitem (V s) y in
  write_V x vy s.

Definition op_OR (opcode : Z) (s : Chip8) : result Chip8 :=
  let x := reg_x opcode in
  let y := reg_y opcode in
  let* vx := getitem (V s) x in
  let* vy := getitem (V s) y in
  write_V x (Z.lor vx vy) s.

Definition op_AND (opcode : Z) (s : Chip8) : result Chip8 :=
  let x := reg_x opcode in
  let y := reg_y opcode in
  let* vx := getitem (V s) x in
  let* vy := getitem (V s) y in
  write_V x (Z.land vx vy) s.

Definition op_XOR (opcode : Z) (s : Chip8) : result Chip8 :=
  let x := reg_x opcode in
  let y := reg_y opcode in
  let* vx := getitem (V s) x in
  let* vy := getitem (V s) y in
  write_V x (Z.lxor vx vy) s.

Definition op_ADD (opcode : Z) (s : Chip8) : result Chip8 :=
  let x := reg_x opcode in
  let y := reg_y opcode in
  let* vx := getitem (V s) x in
  let* vy := getitem (V s) y in
  let total := vx + vy in
  let* s := write_V 0xF (if 0xFF <? total then 1 else 0) s in
  write_V x (Z.land total 0xFF) s.

Definition op_SUB (opcode : Z) (s : Chip8) : result Chip8 :=
  let x := reg_x opcode in
  let y := reg_y opcode in
  let* vx := getitem (V s) x in
  let* vy := getitem (V s) y in
  let* s := write_V 0xF (if vy <? vx then 1 else 0) s in
  let* vx := getitem (V s) x in
  let* vy := getitem (V s) y in
  write_V x (Z.land (vx - vy) 0xFF) s.

Definition op_SHR (opcode : Z) (s : Chip8) : result Chip8 :=
  let x := reg_x opcode in
  let* vx := getitem (V s) x in
  let* s := write_V 0xF (Z.land vx 1) s in
  let* vx := getitem (V s) x in
  write_V x (Z.shiftr vx 1) s.

Definition op_SUBN (opcode : Z) (s : Chip8) : result Chip8 :=
  let x := reg_x opcode in
  let y := reg_y opcode in
  let* vy := getitem (V s) y in
  let* vx := getitem (V s) x in
  let* s := write_V 0xF (if vx <? vy then 1 else 0) s in
  let* vy := getitem (V s) y in
  let* vx := getitem (V s) x in
  write_V x (Z.land (vy - vx) 0xFF) s.

Definition op_SHL (opcode : Z) (s : Chip8) : result Chip8 :=
  let x := reg_x opcode in
  let* vx := getitem (V s) x in
  let* s := write_V 0xF (Z.land (Z.shiftr vx 7) 1) s in
  let* vx := getitem (V s) x in
  write_V x (Z.land (Z.shiftl vx 1) 0xFF) s.

Definition op_SNE_Vx_Vy (opcode : Z) (s : Chip8) : result Chip8 :=
  let x := reg_x opcode in
  let y := reg_y opcode in
  let* vx := getitem (V s) x in
  let* vy := getitem (V s) y in
  Ok (skip_if (negb (vx =? vy)) s).

Definition op_LD_I (opcode : Z) (s : Chip8) : result Chip8 :=
  Ok (set_I s (uint16 (Z.land opcode 0x0FFF))).

Definition op_DRW (opcode : Z) (s : Chip8) : result Chip8 :=
  let x := reg_x opcode in
  let y := reg_y opcode in
  let n := Z.land opcode 0xF in
  let* px := getitem (V s) x in
  let* py := getitem (V s) y in
  let* s := write_V 0xF 0 s in
  let* st := for_each (drw_row ba_setitem (memory s) (I s) px py) (range n)
                      (V s, vram s) in
  Ok (set_should_draw (set_vram (set_V s (fst st)) (snd st)) true).

Definition op_SKP (opcode : Z) (s : Chip8) : result Chip8 :=
  let x := reg_x opcode in
  let* vx := getitem (V s) x in
  let* k := getitem (keys s) vx in
  Ok (skip_if (truthy k) s).

Definition op_SKNP (opcode : Z) (s : Chip8) : result Chip8 :=
  let x := reg_x opcode in
  let* vx := getitem (V s) x in
  let* k := getitem (keys s) vx in
  Ok (skip_if (negb (truthy k)) s).

Definition op_LD_Vx_DT (opcode : Z) (s : Chip8) : result Chip8 :=
  let x := reg_x opcode in
  write_V x (delay s) s.

Definition op_WAITKEY (opcode : Z) (s : Chip8) : result Chip8 :=
  let x := reg_x opcode in
  let* found := first_pressed (keys s) (range 16) in
  match found with
  | Some i => write_V x i s
  | None => Ok (set_pc s (uint16 (pc s - 2)))
  end.

Definition op_LD_DT_Vx (opcode : Z) (s : Chip8) : result Chip8 :=
  let x := reg_x opcode in
  let* vx := getitem (V s) x in
  Ok (set_delay s vx).

Definition op_LD_ST_Vx (opcode : Z) (s : Chip8) : result Chip8 :=
  let x := reg_x opcode in
  let* vx := getitem (V s) x in
  Ok (set_sound s vx).

Definition op_ADD_I_Vx (opcode : Z) (s : Chip8) : result Chip8 :=
  let x := reg_x opcode in
  let* vx := getitem (V s) x in
  Ok (set_I s (Z.land (I s + vx) 0xFFF)).

Definition op_FONT (opcode : Z) (s : Chip8) : result Chip8 :=
  let x := reg_x opcode in
  let* vx := getitem (V s) x in
  Ok (set_I s (vx * 5)).

Definition op_BCD (opcode : Z) (s : Chip8) : result Chip8 :=
  let x := reg_x opcode in
  let* v := getitem (V s) x in
  let* s := write_memory (I s) (v / 100) s in
  let* s := write_memory (I s + 1) ((v / 10) mod 10) s in
  write_memory (I s + 2) (v mod 10) s.

(** [self.memory[self.I:self.I + x + 1] = self.V[:x + 1]] *)
Definition op_STORE (opcode : Z) (s : Chip8) : result Chip8 :=
  let x := reg_x opcode in
  let* m := ba_setslice (memory s) (I s) (I s + x + 1)
                        (getslice (V s) 0 (x + 1)) in
  Ok (set_memory s m).

(** [self.V[:x + 1] = self.memory[self.I:self.I + x + 1]] *)
Definition op_LOAD (opcode : Z) (s : Chip8) : result Chip8 :=
  let x := reg_x opcode in
  Ok (set_V s (setslice (V s) 0 (x + 1)
                        (getslice (memory s) (I s) (I s + x + 1)))).

(** [rnd] is the value [random.randint(0, 255)] returns. *)
Definition op_RND (rnd : Z) (opcode : Z) (s : Chip8) : result Chip8 :=
  let x := reg_x opcode in
  let kk := Z.land opcode 0xFF in
  write_V x (Z.land rnd kk) s.

Definition handler := Z -> Chip8 -> result Chip8.

(** The dispatch table [self.opcodes], in the order of the source. *)
Definition opcodes (rnd : Z) : list (Z * Z * handler) :=
  [ (0xFFFF, 0x00E0, op_CLS);
    (0xFFFF, 0x00EE, op_RET);
    (0xF000, 0x1000, op_JP);
    (0xF000, 0x2000, op_CALL);
    (0xF000, 0x3000, op_SE_Vx_kk);
    (0xF000, 0x4000, op_SNE_Vx_kk);
    (0xF00F, 0x5000, op_SE_Vx_Vy);
    (0xF000, 0x6000, op_LD_Vx_kk);
    (0xF000, 0x7000, op_ADD_Vx_kk);
    (0xF00F, 0x8000, op_LD_Vx_Vy);
    (0xF00F, 0x8001, op_OR);
    (0xF00F, 0x8002, op_AND);
    (0xF00F, 0x8003, op_XOR);
    (0xF00F, 0x8004, op_ADD);
    (0xF00F, 0x8005, op_SUB);
    (0xF00F, 0x8006, op_SHR);
    (0xF00F, 0x8007, op_SUBN);
    (0xF00F, 0x800E, op_SHL);
    (0xF00F, 0x9000, op_SNE_Vx_Vy);
    (0xF000, 0xA000, op_LD_I);
    (0xF000, 0xD000, op_DRW);
    (0xF0FF, 0xE09E, op_SKP);
    (0xF0FF, 0xE0A1, op_SKNP);
    (0xF0FF, 0xF007, op_LD_Vx_DT);
    (0xF0FF, 0xF00A, op_WAITKEY);
    (0xF0FF, 0xF015, op_LD_DT_Vx);
    (0xF0FF, 0xF018, op_LD_ST_Vx);
    (0xF0FF, 0xF01E, op_ADD_I_Vx);
    (0xF0FF, 0xF029, op_FONT);
    (0xF0FF, 0xF033, op_BCD);
    (0xF0FF, 0xF055, op_STORE);
    (0xF0FF, 0xF065, op_LOAD);
    (0xF000, 0xC000, op_RND rnd) ].

(** [for mask, pattern, handler in self.opcodes]: the first entry that
    matches runs and [tick] returns; with none, the opcode is printed. *)
Fixpoint dispatch (table : list (Z * Z * handler)) (opcode : Z) (s : Chip8)
  : result Chip8 :=
  match table with
  | [] => Ok (set_stdout s (stdout s ++ [opcode]))
  | (mask, pattern, h) :: rest =>
      if Z.land opcode mask =? pattern then h opcode s
      else dispatch rest opcode s
  end.

(** [(int(self.memory[self.pc]) << 8) | int(self.memory[self.pc + 1])]:
    [pc] is an [np.uint16], and so is [self.pc + 1], which is 0 when [pc] is
    65535. *)
Definition fetch (s : Chip8) : result Z :=
  let* hi := getitem (memory s) (pc s) in
  let* lo := getitem (memory s) (uint16 (pc s + 1)) in
  Ok (Z.lor (Z.shiftl hi 8) lo).

Definition tick (rnd : Z) (s : Chip8) : result Chip8 :=
  let s := set_cps_counter s (_cps_counter s + 1) in
  let* opcode := fetch s in
  let s := set_pc s (uint16 (pc s + 2)) in
  dispatch (opcodes rnd) opcode s.

(** [_timer_tick]; [_play_beep] leaves [sound_playing] set. *)
Definition _timer_tick (s : Chip8) : Chip8 :=
  let s := if 0 <? delay s then set_delay s (delay s - 1) else s in
  if 0 <? sound s then
    let s := set_sound s (sound s - 1) in
    if negb (sound_playing s) then set_sound_playing s true else s
  else set_sound_playing s false.

Definition on_key_press (k : Z) (s : Chip8) : result Chip8 :=
  let* l := setitem (keys s) k 1 in Ok (set_keys s l).
Definition on_key_release (k : Z) (s : Chip8) : result Chip8 :=
  let* l := setitem (keys s) k 0 in Ok (set_keys s l).

(** [on_key_press(symbol, modifiers)] and [on_key_release] with their test
    [if symbol in keymap]. *)
Definition key_press (symbol : key.symbol) (s : Chip8) : result Chip8 :=
  match keymap_get KEYMAP symbol with
  | Some k => on_key_press k s
  | None => Ok s
  end.
Definition key_release (symbol : key.symbol) (s : Chip8) : result Chip8 :=
  match keymap_get KEYMAP symbol with
  | Some k => on_key_release k s
  | None => Ok s
  end.

End Tetris.

(** ** Draft [Working]: [funcmap], [cycle], [_cpu_tick], [load_rom]

    [_cpu_tick] catches every exception of [cycle], so an exception keeps
    the state the object had when it was raised. *)

Module Working.

(** What the draft prints outside [log]. *)
Inductive line :=
| Unknown_opcode (opcode : Z)
| Emulation_error (e : exn).

Record Chip8 := mkChip8 {
  memory : list Z;
  gpio : list Z;
  index : Z;
  pc : Z;
  stack : list Z;
  delay_timer : Z;
  sound_timer : Z;
  display_buffer : list Z;
  key_inputs : list Z;
  opcode : Z;
  vx : Z;
  vy : Z;
  should_draw : bool;
  has_exit : bool;
  cycle_count : Z;
  sound_playing : bool;
  stdout : list line
}.

Definition set_memory (s : Chip8) (v : list Z) : Chip8 :=
  mkChip8 v (gpio s) (index s) (pc s) (stack s) (delay_timer s)
          (sound_timer s) (display_buffer s) (key_inputs s) (opcode s) (vx s)
          (vy s) (should_draw s) (has_exit s) (cycle_count s)
          (sound_playing s) (stdout s).
Definition set_gpio (s : Chip8) (v : list Z) : Chip8 :=
  mkChip8 (memory s) v (index s) (pc s) (stack s) (delay_timer s)
          (sound_timer s) (display_buffer s) (key_inputs s) (opcode s) (vx s)
          (vy s) (should_draw s) (has_exit s) (cycle_count s)
          (sound_playing s) (stdout s).
Definition set_index (s : Chip8) (v : Z) : Chip8 :=
  mkChip8 (memory s) (gpio s) v (pc s) (stack s) (delay_timer s)
          (sound_timer s) (display_buffer s) (key_inputs s) (opcode s) (vx s)
          (vy s) (should_draw s) (has_exit s) (cycle_count s)
          (sound_playing s) (stdout s).
Definition set_pc (s : Chip8) (v : Z) : Chip8 :=
  mkChip8 (memory s) (gpio s) (index s) v (stack s) (delay_timer s)
          (sound_timer s) (display_buffer s) (key_inputs s) (opcode s) (vx s)
          (vy s) (should_draw s) (has_exit s) (cycle_count s)
          (sound_playing s) (stdout s).
Definition set_stack (s : Chip8) (v : list Z) : Chip8 :=
  mkChip8 (memory s) (gpio s) (index s) (pc s) v (delay_timer s)
          (sound_timer s) (display_buffer s) (key_inputs s) (opcode s) (vx s)
          (vy s) (should_draw s) (has_exit s) (cycle_count s)
          (sound_playing s) (stdout s).
Definition set_delay_timer (s : Chip8) (v : Z) : Chip8 :=
  mkChip8 (memory s) (gpio s) (index s) (pc s) (stack s) v (sound_timer s)
          (display_buffer s) (key_inputs s) (opcode s) (vx s) (vy s)
          (should_draw s) (has_exit s) (cycle_count s) (sound_playing s)
          (stdout s).
Definition set_sound_timer (s : Chip8) (v : Z) : Chip8 :=
  mkChip8 (memory s) (gpio s) (index s) (pc s) (stack s) (delay_timer s) v
          (display_buffer s) (key_inputs s) (opcode s) (vx s) (vy s)
          (should_draw s) (has_exit s) (cycle_count s) (sound_playing s)
          (stdout s).
Definition set_display_buffer (s : Chip8) (v : list Z) : Chip8 :=
  mkChip8 (memory s) (gpio s) (index s) (pc s) (stack s) (delay_timer s)
          (sound_timer s) v (key_inputs s) (opcode s) (vx s) (vy s)
          (should_draw s) (has_exit s) (cycle_count s) (sound_playing s)
          (stdout s).
Definition set_key_inputs (s : Chip8) (v : list Z) : Chip8 :=
  mkChip8 (memory s) (gpio s) (index s) (pc s) (stack s) (delay_timer s)
          (sound_timer s) (display_buffer s) v (opcode s) (vx s) (vy s)
          (should_draw s) (has_exit s) (cycle_count s) (sound_playing s)
          (stdout s).
Definition set_opcode (s : Chip8) (v : Z) : Chip8 :=
  mkChip8 (memory s) (gpio s) (index s) (pc s) (stack s) (delay_timer s)
          (sound_timer s) (display_buffer s) (key_inputs s) v (vx s) (vy s)
          (should_draw s) (has_exit s) (cycle_count s) (sound_playing s)
          (stdout s).
Definition set_vx (s : Chip8) (v : Z) : Chip8 :=
  mkChip8 (memory s) (gpio s) (index s) (pc s) (stack s) (delay_timer s)
          (sound_timer s) (display_buffer s) (key_inputs s) (opcode s) v
          (vy s) (should_draw s) (has_exit s) (cycle_count s)
          (sound_playing s) (stdout s).
Definition set_vy (s : Chip8) (v : Z) : Chip8 :=
  mkChip8 (memory s) (gpio s) (index s) (pc s) (stack s) (delay_timer s)
          (sound_timer s) (display_buffer s) (key_inputs s) (opcode s) (vx s)
          v (should_draw s) (has_exit s) (cycle_count s) (sound_playing s)
          (stdout s).
Definition set_should_draw (s : Chip8) (v : bool) : Chip8 :=
  mkChip8 (memory s) (gpio s) (index s) (pc s) (stack s) (delay_timer s)
          (sound_timer s) (display_buffer s) (key_inputs s) (opcode s) (vx s)
          (vy s) v (has_exit s) (cycle_count s) (sound_playing s) (stdout s).
Definition set_has_exit (s : Chip8) (v : bool) : Chip8 :=
  mkChip8 (memory s) (gpio s) (index s) (pc s) (stack s) (delay_timer s)
          (sound_timer s) (display_buffer s) (key_inputs s) (opcode s) (vx s)
          (vy s) (should_draw s) v (cycle_count s) (sound_playing s)
          (stdout s).
Definition set_cycle_count (s : Chip8) (v : Z) : Chip8 :=
  mkChip8 (memory s) (gpio s) (index s) (pc s) (stack s) (delay_timer s)
          (sound_timer s) (display_buffer s) (key_inputs s) (opcode s) (vx s)
          (vy s) (should_draw s) (has_exit s) v (sound_playing s) (stdout s).
Definition set_sound_playing (s : Chip8) (v : bool) : Chip8 :=
  mkChip8 (memory s) (gpio s) (index s) (pc s) (stack s) (delay_timer s)
          (sound_timer s) (display_buffer s) (key_inputs s) (opcode s) (vx s)
          (vy s) (should_draw s) (has_exit s) (cycle_count s) v (stdout s).
Definition set_stdout (s : Chip8) (v : list line) : Chip8 :=
  mkChip8 (memory s) (gpio s) (index s) (pc s) (stack s) (delay_timer s)
          (sound_timer s) (display_buffer s) (key_inputs s) (opcode s) (vx s)
          (vy s) (should_draw s) (has_exit s) (cycle_count s)
          (sound_playing s) v.

(** A statement either completes with a value and the new state, or
    raises in the state reached so far. *)
Inductive res (A : Type) :=
| Val (a : A) (s : Chip8)
| Exc (e : exn) (s : Chip8).
Arguments Val {A} a s.
Arguments Exc {A} e s.

Definition outcome := res unit.
Definition Done (s : Chip8) : outcome := Val tt s.

Definition and_then {A B} (m : res A) (k : A -> Chip8 -> res B) : res B :=
  match m with
  | Val a s => k a s
  | Exc e s => Exc e s
  end.

(** Evaluate an expression that may raise, in state [s]. *)
Definition eval {A B} (r : result A) (s : Chip8) (k : A -> res B) : res B :=
  match r with
  | Ok v => k v
  | Raise e => Exc e s
  end.

Notation "'let+' a , s ':=' m 'in' k" := (and_then m (fun a s => k))
  (at level 10, a name, s name, m at level 100, k at level 200).
Notation "'let?' x ':=' r 'at' s 'in' k" := (eval r s (fun x => k))
  (at level 10, x name, r at level 100, s at level 9, k at level 200).

Definition write_gpio (i v : Z) (s : Chip8) : outcome :=
  let? l := setitem (gpio s) i v at s in Done (set_gpio s l).
Definition write_memory (a v : Z) (s : Chip8) : outcome :=
  let? l := setitem (memory s) a v at s in Done (set_memory s l).

Fixpoint for_each (body : Z -> Chip8 -> outcome) (l : list Z) (s : Chip8)
  : outcome :=
  match l with
  | [] => Done s
  | i :: r => let+ _, s := body i s in for_each body r s
  end.

(** [__init__]: the font table goes in with one item assignment per
    byte. *)
Definition blank : Chip8 :=
  mkChip8 (replicate 4096 0) (replicate 16 0) 0 0x200 [] 0 0
          (replicate (64 * 32) 0) (replicate 16 0) 0 0 0 true false 0 false
          [].

Fixpoint init_font (items : list (Z * Z)) (s : Chip8) : outcome :=
  match items with
  | [] => Done s
  | (i, b) :: r => let+ _, s := write_memory i b s in init_font r s
  end.

Definition init : outcome := init_font (enumerate FONTSET) blank.

(** [load_rom]: [data] is what [f.read()] returned. *)
Fixpoint load_rom_loop (items : list (Z * Z)) (s : Chip8) : outcome :=
  match items with
  | [] => Done s
  | (i, b) :: r =>
      let+ _, s :=
        (if 0x200 + i <? 4096 then write_memory (0x200 + i) b s
         else Done s) in
      load_rom_loop r s
  end.

Definition load_rom (data : list Z) (s : Chip8) : outcome :=
  load_rom_loop (enumerate data) s.

(** *** Opcode handlers *)

Definition skip_if (b : bool) (s : Chip8) : Chip8 :=
  if b then set_pc s (Z.land (pc s + 2) 0xFFF) else s.

Definition _0nnn (s : Chip8) : outcome := Done s.

Definition _0E0 (s : Chip8) : outcome :=
  Done (set_should_draw (set_display_buffer s (replicate (64 * 32) 0)) true).

Definition _00EE (s : Chip8) : outcome :=
  match stack s with
  | [] => Exc (Exception Stack_underflow_on_00EE) s
  | _ =>
      let? r := pop (stack s) at s in
      let s := set_stack s (snd r) in
      Done (set_pc s (fst r))
  end.

Definition _1nnn (s : Chip8) : outcome :=
  Done (set_pc s (Z.land (opcode s) 0x0FFF - 2)).

Definition _2nnn (s : Chip8) : outcome :=
  if 16 <=? Z.of_nat (length (stack s)) then
    Exc (Exception Stack_overflow_on_CALL) s
  else
    let s := set_stack s (append (stack s) (pc s)) in
    Done (set_pc s (Z.land (opcode s) 0x0FFF - 2)).

Definition _3xkk (s : Chip8) : outcome :=
  let kk := Z.land (opcode s) 0xFF in
  let? v := getitem (gpio s) (vx s) at s in
  Done (skip_if (v =? kk) s).

Definition _4xkk (s : Chip8) : outcome :=
  let kk := Z.land (opcode s) 0xFF in
  let? v := getitem (gpio s) (vx s) at s in
  Done (skip_if (negb (v =? kk)) s).

Definition _5xy0 (s : Chip8) : outcome :=
  if negb (Z.land (opcode s) 0xF =? 0) then Done s
  else
    let? a := getitem (gpio s) (vx s) at s in
    let? b := getitem (gpio s) (vy s) at s in
    Done (skip_if (a =? b) s).

Definition _6xkk (s : Chip8) : outcome :=
  write_gpio (vx s) (Z.land (opcode s) 0xFF) s.

Definition _7xkk (s : Chip8) : outcome :=
  let? v := getitem (gpio s) (vx s) at s in
  write_gpio (vx s) (Z.land (v + Z.land (opcode s) 0xFF) 0xFF) s.

Definition _8xxx (s : Chip8) : outcome :=
  let x := vx s in
  let y := vy s in
  let sub := Z.land (opcode s) 0xF in
  if sub =? 0x0 then
    let? b := getitem (gpio s) y at s in
    write_gpio x b s
  else if sub =? 0x1 then
    let? a := getitem (gpio s) x at s in
    let? b := getitem (gpio s) y at s in
    write_gpio x (Z.lor a b) s
  else if sub =? 0x2 then
    let? a := getitem (gpio s) x at s in
    let? b := getitem (gpio s) y at s in
    write_gpio x (Z.land a b) s
  else if sub =? 0x3 then
    let? a := getitem (gpio s) x at s in
    let? b := getitem (gpio s) y at s in
    write_gpio x (Z.lxor a b) s
  else if sub =? 0x4 then
    let? a := getitem (gpio s) x at s in
    let? b := getitem (gpio s) y at s in
    let t := a + b in
    let+ _, s := write_gpio 0xF (if 0xFF <? t then 1 else 0) s in
    write_gpio x (Z.land t 0xFF) s
  else if sub =? 0x5 then
    let? a := getitem (gpio s) x at s in
    let? b := getitem (gpio s) y at s in
    let+ _, s := write_gpio 0xF (if b <? a then 1 else 0) s in
    let? a := getitem (gpio s) x at s in
    let? b := getitem (gpio s) y at s in
    write_gpio x (Z.land (a - b) 0xFF) s
  else if sub =? 0x6 then
    let? a := getitem (gpio s) x at s in
    let+ _, s := write_gpio 0xF (Z.land a 1) s in
    let? a := getitem (gpio s) x at s in
    write_gpio x (Z.shiftr a 1) s
  else if sub =? 0x7 then
    let? b := getitem (gpio s) y at s in
    let? a := getitem (gpio s) x at s in
    let+ _, s := write_gpio 0xF (if a <? b then 1 else 0) s in
    let? b := getitem (gpio s) y at s in
    let? a := getitem (gpio s) x at s in
    write_gpio x (Z.land (b - a) 0xFF) s
  else if sub =? 0xE then
    let? a := getitem (gpio s) x at s in
    let+ _, s := write_gpio 0xF (Z.land (Z.shiftr a 7) 1) s in
    let? a := getitem (gpio s) x at s in
    write_gpio x (Z.land (Z.shiftl a 1) 0xFF) s
  else Done s.

Definition _9xy0 (s : Chip8) : outcome :=
  if negb (Z.land (opcode s) 0xF =? 0) then Done s
  else
    let? a := getitem (gpio s) (vx s) at s in
    let? b := getitem (gpio s) (vy s) at s in
    Done (skip_if (negb (a =? b)) s).

Definition _Annn (s : Chip8) : outcome :=
  Done (set_index s (Z.land (opcode s) 0x0FFF)).

Definition _Bnnn (s : Chip8) : outcome :=
  let? v0 := getitem (gpio s) 0 at s in
  Done (set_pc s (Z.land (Z.land (opcode s) 0x0FFF + v0 - 2) 0xFFF)).

(** [rnd] is the value [random.getrandbits(8)] returns. *)
Definition _Cxkk (rnd : Z) (s : Chip8) : outcome :=
  write_gpio (vx s) (Z.land rnd (Z.land (opcode s) 0xFF)) s.

(** One of the eight unrolled pixel statements of [_Dxyn]:
    [if sprite & mask: idx = base + ((x + off) & 0x3F);
     collision |= buf[idx]; buf[idx] ^= 1]. *)
Definition drw_pixel (mask off : Z) (sprite base x : Z) (collision : Z)
                     (s : Chip8) : res Z :=
  if truthy (Z.land sprite mask) then
    let idx := base + Z.land (x + off) 0x3F in
    let? c := getitem (display_buffer s) idx at s in
    let collision := Z.lor collision c in
    let? c := getitem (display_buffer s) idx at s in
    let? l := setitem (display_buffer s) idx (Z.lxor c 1) at s in
    Val collision (set_display_buffer s l)
  else Val collision s.

Definition drw_row (x y : Z) (row : Z) (collision : Z) (s : Chip8) : res Z :=
  if 4096 <=? index s + row then Val collision s
  else
    let? sprite := getitem (memory s) (index s + row) at s in
    if sprite =? 0 then Val collision s
    else
      let base := Z.land (y + row) 0x1F * 64 in
      let+ collision, s := drw_pixel 0x80 0 sprite base x collision s in
      let+ collision, s := drw_pixel 0x40 1 sprite base x collision s in
      let+ collision, s := drw_pixel 0x20 2 sprite base x collision s in
      let+ collision, s := drw_pixel 0x10 3 sprite base x collision s in
      let+ collision, s := drw_pixel 0x08 4 sprite base x collision s in
      let+ collision, s := drw_pixel 0x04 5 sprite base x collision s in
      let+ collision, s := drw_pixel 0x02 6 sprite base x collision s in
      drw_pixel 0x01 7 sprite base x collision s.

Fixpoint drw_rows (x y : Z) (rows : list Z) (collision : Z) (s : Chip8)
  : res Z :=
  match rows with
  | [] => Val collision s
  | row :: r =>
      let+ collision, s := drw_row x y row collision s in
      drw_rows x y r collision s
  end.

Definition _Dxyn (s : Chip8) : outcome :=
  let? gx := getitem (gpio s) (Z.land (Z.shiftr (opcode s) 8) 0xF) at s in
  let x := gx mod 64 in
  let? gy := getitem (gpio s) (Z.land (Z.shiftr (opcode s) 4) 0xF) at s in
  let y := gy mod 32 in
  let n := Z.land (opcode s) 0xF in
  let+ collision, s := drw_rows x y (range n) 0 s in
  let+ _, s := write_gpio 0xF (if truthy collision then 1 else 0) s in
  Done (set_should_draw s true).

Definition _Exxx (s : Chip8) : outcome :=
  let x := Z.land (Z.shiftr (opcode s) 8) 0xF in
  let kk := Z.land (opcode s) 0xFF in
  let? g := getitem (gpio s) x at s in
  let key := Z.land g 0xF in
  if kk =? 0x9E then
    if key <? Z.of_nat (length (key_inputs s)) then
      let? k := getitem (key_inputs s) key at s in
      Done (skip_if (truthy k) s)
    else Done s
  else if kk =? 0xA1 then
    if key <? Z.of_nat (length (key_inputs s)) then
      let? k := getitem (key_inputs s) key at s in
      Done (skip_if (negb (truthy k)) s)
    else Done s
  else Done s.

(** [for i, s in enumerate(self.key_inputs): if s: pressed = i; break] *)
Fixpoint find_pressed (i : Z) (ks : list Z) : option Z :=
  match ks with
  | [] => None
  | k :: r => if truthy k then Some i else find_pressed (i + 1) r
  end.

Definition _Fxxx (s : Chip8) : outcome :=
  let x := Z.land (Z.shiftr (opcode s) 8) 0xF in
  let kk := Z.land (opcode s) 0xFF in
  if kk =? 0x07 then
    write_gpio x (delay_timer s) s
  else if kk =? 0x0A then
    match find_pressed 0 (key_inputs s) with
    | None => Done (set_pc s (Z.land (pc s - 2) 0xFFF))
    | Some pressed => write_gpio x pressed s
    end
  else if kk =? 0x15 then
    let? g := getitem (gpio s) x at s in
    Done (set_delay_timer s g)
  else if kk =? 0x18 then
    let? g := getitem (gpio s) x at s in
    let s := set_sound_timer s g in
    if (0 <? sound_timer s) && negb (sound_playing s)
    then Done (set_sound_playing s true)
    else Done s
  else if kk =? 0x1E then
    let? g := getitem (gpio s) x at s in
    let new_i := index s + g in
    let+ _, s := write_gpio 0xF (if 0xFFF <? new_i then 1 else 0) s in
    Done (set_index s (Z.land new_i 0xFFFF))
  else if kk =? 0x29 then
    let? g := getitem (gpio s) x at s in
    Done (set_index s (Z.land g 0xF * 5))
  else if kk =? 0x33 then
    let? val := getitem (gpio s) x at s in
    if index s <? 4094 then
      let+ _, s := write_memory (index s) (val / 100) s in
      let+ _, s := write_memory (index s + 1) ((val / 10) mod 10) s in
      write_memory (index s + 2) (val mod 10) s
    else Done s
  else if kk =? 0x55 then
    for_each
      (fun i s =>
         if index s + i <? 4096 then
           let? g := getitem (gpio s) i at s in
           write_memory (index s + i) g s
         else Done s)
      (range (x + 1)) s
  else if kk =? 0x65 then
    for_each
      (fun i s =>
         if index s + i <? 4096 then
           let? m := getitem (memory s) (index s + i) at s in
           write_gpio i m s
         else Done s)
      (range (x + 1)) s
  else Done s.

Definition handler := Chip8 -> outcome.

(** [self.funcmap], keyed by the top nibble. *)
Definition funcmap (rnd : Z) : list (Z * handler) :=
  [ (0x1000, _1nnn);
    (0x2000, _2nnn);
    (0x3000, _3xkk);
    (0x4000, _4xkk);
    (0x5000, _5xy0);
    (0x6000, _6xkk);
    (0x7000, _7xkk);
    (0x8000, _8xxx);
    (0x9000, _9xy0);
    (0xA000, _Annn);
    (0xB000, _Bnnn);
    (0xC000, _Cxkk rnd);
    (0xD000, _Dxyn);
    (0xE000, _Exxx);
    (0xF000, _Fxxx) ].

(** [dict.get] *)
Fixpoint dict_get (d : list (Z * handler)) (k : Z) : option handler :=
  match d with
  | [] => None
  | (k', h) :: r => if k' =? k then Some h else dict_get r k
  end.

(** The timer code at the end of [cycle]. *)
Definition timers (s : Chip8) : Chip8 :=
  let s := if 0 <? delay_timer s then set_delay_timer s (delay_timer s - 1)
           else s in
  if 0 <? sound_timer s then set_sound_timer s (sound_timer s - 1) else s.

(** [cycle], in the order of the source: the guarded fetch, the decode of
    [vx] and [vy], the dispatch on the top nibble, the default increment of
    [pc] and the timers. *)
Definition fetch (s : Chip8) : result Z :=
  if (pc s <? 0) || (Z.of_nat (length (memory s)) <=? pc s + 1) then
    Raise (Exception (PC_out_of_bounds (pc s)))
  else
    let* hi := getitem (memory s) (pc s) in
    let* lo := getitem (memory s) (pc s + 1) in
    Ok (Z.lor (Z.shiftl hi 8) lo).

Definition decode (o : Z) (s : Chip8) : Chip8 :=
  let s := set_opcode s o in
  let s := set_vx s (Z.shiftr (Z.land (opcode s) 0x0F00) 8) in
  set_vy s (Z.shiftr (Z.land (opcode s) 0x00F0) 4).

Definition dispatch (rnd : Z) (s : Chip8) : outcome :=
  let prefix := Z.land (opcode s) 0xF000 in
  if prefix =? 0x0000 then
    if opcode s =? 0x00E0 then _0E0 s
    else if opcode s =? 0x00EE then _00EE s
    else _0nnn s
  else
    match dict_get (funcmap rnd) prefix with
    | Some h => h s
    | None => Done (set_stdout s (stdout s ++ [Unknown_opcode (opcode s)]))
    end.

Definition cycle (rnd : Z) (s : Chip8) : outcome :=
  let s := set_cycle_count s (cycle_count s + 1) in
  let? o := fetch s at s in
  let s := decode o s in
  let+ _, s := dispatch rnd s in
  let s := set_pc s (Z.land (pc s + 2) 0xFFF) in
  Done (timers s).

(** [_cpu_tick]: the first exception of [cycle] is printed and stops the
    machine for good. *)
Definition _cpu_tick (rnd : Z) (s : Chip8) : Chip8 :=
  if negb (has_exit s) then
    match cycle rnd s with
    | Val _ s => s
    | Exc e s => set_has_exit (set_stdout s (stdout s ++ [Emulation_error e])) true
    end
  else s.

Definition _timer_tick (s : Chip8) : Chip8 :=
  let s := if 0 <? delay_timer s then set_delay_timer s (delay_timer s - 1)
           else s in
  if 0 <? sound_timer s then
    let s := set_sound_timer s (sound_timer s - 1) in
    if negb (sound_playing s) then set_sound_playing s true else s
  else set_sound_playing s false.

End Working.

(** ** Vocabulary of the properties *)

(** The 16-bit word of an instruction from its nibbles, as in [7xkk]. *)
Definition op_xkk (h x kk : Z) : Z := h * 0x1000 + x * 0x100 + kk.

(** The fields the decoders extract from [op_xkk h x kk]. *)
Definition xkk_fields_ok (h x kk : Z) : bool :=
  let o := op_xkk h x kk in
  (Z.land o 0xF000 =? h * 0x1000) &&
  (Z.land (Z.shiftr o 8) 0xF =? x) &&
  (Z.land o 0xFF =? kk) &&
  (Z.land o 0x0FFF =? x * 0x100 + kk) &&
  (Z.land o 0xF0FF =? h * 0x1000 + kk) &&
  (Z.land o 0xF00F =? h * 0x1000 + kk mod 16) &&
  (Z.land (Z.shiftr o 4) 0xF =? kk / 16) &&
  (Z.land o 0xF =? kk mod 16).

(** Key vectors: nothing pressed, and exactly key [k] pressed. *)
Definition none_pressed (ks : list Z) : bool := forallb (fun v => v =? 0) ks.

Definition only_pressed (k : Z) (ks : list Z) : bool :=
  forallb (fun p => Bool.eqb (truthy (snd p)) (fst p =? k)) (enumerate ks).

(** Consecutive ticks. *)
Fixpoint plain_ticks (n : nat) (s : Plain.Chip8) : result Plain.Chip8 :=
  match n with
  | O => Ok s
  | S n => bind (Plain.tick s) (plain_ticks n)
  end.

Fixpoint tetris_ticks (rnds : list Z) (s : Tetris.Chip8) : result Tetris.Chip8 :=
  match rnds with
  | [] => Ok s
  | r :: rs => bind (Tetris.tick r s) (tetris_ticks rs)
  end.

(** Machines as the constructors leave them for a given ROM image. *)
Definition plain_boot (rom : list Z) : Plain.Chip8 :=
  match Plain.init rom with
  | Ok s => s
  | Raise _ => Plain.blank
  end.

Definition tetris_boot (rom : list Z) : Tetris.Chip8 :=
  match Tetris.init rom with
  | Ok s => s
  | Raise _ => Tetris.blank
  end.

Definition working_boot (rom : list Z) : Working.Chip8 :=
  match Working.init with
  | Working.Val _ s =>
      match Working.load_rom rom s with
      | Working.Val _ s' => s'
      | Working.Exc _ s' => s'
      end
  | Working.Exc _ s => s
  end.

(** [working_call_run n s s']: [s'] is reached from [s] by [n] calls of
    [_cpu_tick], each made in a state whose fetched instruction is a CALL
    (2nnn). *)
Inductive working_call_run : nat -> Working.Chip8 -> Working.Chip8 -> Prop :=
| call_run_O (s : Working.Chip8) : working_call_run 0 s s
| call_run_S (n : nat) (s s' : Working.Chip8) (rnd o : Z) :
    working_call_run n s s' ->
    Working.fetch s' = Ok o ->
    Z.land o 0xF000 = 0x2000 ->
    working_call_run (S n) s (Working._cpu_tick rnd s').

(** The word [o] matches no (mask, pattern) entry of a dispatch table. *)
Definition matches_no_pattern (table : list (Z * Z * Tetris.handler)) (o : Z)
  : bool :=
  forallb (fun e => negb (Z.land o (fst (fst e)) =? snd (fst e))) table.

(** Memory as every constructor leaves it before the ROM goes in: the font
    table, then zeros. *)
Definition fresh_memory : list Z := FONTSET ++ replicate (4096 - 80) 0.

(** [splice p l m] is [m] with the bytes [l] written from offset [p] on. *)
Definition splice (p : nat) (l m : list Z) : list Z :=
  take p m ++ l ++ drop (p + length l) m.

(** The state a branch of [Plain.tick] ends in. *)
Definition plain_flow_state (f : Plain.flow) : Plain.Chip8 :=
  match f with
  | Plain.Fall s => s
  | Plain.Return s => s
  end.

(** What no instruction but CALL, RET, LD DT and LD ST may touch. *)
Definition plain_core (s : Plain.Chip8) : Z * Z * list Z :=
  (Plain.delay s, Plain.sound s, Plain.stack s).

(** The machine a ROM image leaves after some ticks (the booted machine
    itself if a tick raises). *)
Definition plain_after (n : nat) (rom : list Z) : Plain.Chip8 :=
  match plain_ticks n (plain_boot rom) with
  | Ok s => s
  | Raise _ => plain_boot rom
  end.

Definition tetris_after (rnds : list Z) (rom : list Z) : Tetris.Chip8 :=
  match tetris_ticks rnds (tetris_boot rom) with
  | Ok s => s
  | Raise _ => tetris_boot rom
  end.

(** [plain_body_run s s']: [s'] is reached from [s] by ticks none of which
    executes a CALL (2nnn) or a RET (00EE); likewise for the cycles of
    [Working]. *)
Inductive plain_body_run : Plain.Chip8 -> Plain.Chip8 -> Prop :=
| plain_body_O (s : Plain.Chip8) : plain_body_run s s
| plain_body_S (s s1 s2 : Plain.Chip8) (o : Z) :
    Plain.fetch s = Ok o ->
    o <> 0x00EE -> Z.land o 0xF000 <> 0x2000 ->
    Plain.tick s = Ok s1 ->
    plain_body_run s1 s2 ->
    plain_body_run s s2.

Inductive working_body_run : Working.Chip8 -> Working.Chip8 -> Prop :=
| working_body_O (s : Working.Chip8) : working_body_run s s
| working_body_S (s s1 s2 : Working.Chip8) (rnd o : Z) :
    Working.fetch s = Ok o ->
    o <> 0x00EE -> Z.land o 0xF000 <> 0x2000 ->
    Working.cycle rnd s = Working.Val tt s1 ->
    working_body_run s1 s2 ->
    working_body_run s s2.

Definition working_after (n : nat) (rom : list Z) : Working.Chip8 :=
  Nat.iter n (Working._cpu_tick 0) (working_boot rom).

(** CALL 0x206; JP 0x202; (unused word); at 0x206: LD V0,5; ADD V0,1; RET. *)
Definition rom_call_ret : list Z :=
  [0x22; 0x06; 0x12; 0x02; 0x00; 0x00; 0x60; 0x05; 0x70; 0x01; 0x00; 0xEE].

(** Lists of byte values. *)
Definition bytes (l : list Z) : Prop := Forall (fun v => 0 <= v <= 255) l.

Definition byte_ops_ok (a b : Z) : bool :=
  is_byte (Z.lor a b) && is_byte (Z.land a b) && is_byte (Z.lxor a b).

(** The invariant behind the register range in [Tetris]: registers and
    memory hold bytes and the delay timer is a byte. *)
Definition tetris_inv (s : Tetris.Chip8) : Prop :=
  bytes (Tetris.V s) /\ bytes (Tetris.memory s) /\
  0 <= Tetris.delay s <= 255.

(** The states of [Tetris] that [__init__], [tick], [_timer_tick] and the
    key handlers can produce, for any ROM and any random draws. *)
Inductive tetris_reachable : Tetris.Chip8 -> Prop :=
| reach_init (rom : list Z) (s : Tetris.Chip8) :
    Tetris.init rom = Ok s -> tetris_reachable s
| reach_tick (rnd : Z) (s s' : Tetris.Chip8) :
    tetris_reachable s -> Tetris.tick rnd s = Ok s' -> tetris_reachable s'
| reach_timer_tick (s : Tetris.Chip8) :
    tetris_reachable s -> tetris_reachable (Tetris._timer_tick s)
| reach_key_press (k : Z) (s s' : Tetris.Chip8) :
    tetris_reachable s -> Tetris.on_key_press k s = Ok s' ->
    tetris_reachable s'
| reach_key_release (k : Z) (s s' : Tetris.Chip8) :
    tetris_reachable s -> Tetris.on_key_release k s = Ok s' ->
    tetris_reachable s'.

(** LD V0,0xFF; ADD V0,2; LD V1,0xF0; ADD V0,V1; RND V2,0xFF; LD V3,[I]. *)
Definition rom_arith : list Z :=
  [0x60; 0xFF; 0x70; 0x02; 0x61; 0xF0; 0x80; 0x14; 0xC2; 0xFF; 0xF3; 0x65].

(** *** The cells a sprite toggles *)

(** The video cell a sprite bit lands on. *)
Definition cell_index (px py row bit : Z) : Z :=
  (px + bit) mod 64 + (py + row) mod 32 * 64.

(** What the sprite loops do to V and the video RAM for one set bit. *)
Definition toggle_at (store : list Z -> Z -> Z -> result (list Z))
           (index : Z) (st : list Z * list Z) : result (list Z * list Z) :=
  let '(V, vram) := st in
  let* cell := getitem vram index in
  let* V := (if cell =? 1 then setitem V 0xF 1 else Ok V) in
  let* cell := getitem vram index in
  let* vram := store vram index (Z.lxor cell 1) in
  Ok (V, vram).

(** The cells one sprite row toggles, in the order of the bit loop, and the
    cells of a whole sprite, whose rows are read from memory at I. *)
Fixpoint bit_cells (sprite px py row : Z) (bits : list Z) : list Z :=
  match bits with
  | [] => []
  | bit :: r =>
      if truthy (Z.land sprite (Z.shiftr 0x80 bit))
      then cell_index px py row bit :: bit_cells sprite px py row r
      else bit_cells sprite px py row r
  end.

Fixpoint sprite_cells (memory : list Z) (I px py : Z) (rows : list Z)
  : result (list Z) :=
  match rows with
  | [] => Ok []
  | row :: r =>
      let* sprite := getitem memory (I + row) in
      let* rest := sprite_cells memory I px py r in
      Ok (bit_cells sprite px py row (range 8) ++ rest)
  end.

(** XOR with 1 at one cell, and at a list of cells. *)
Definition flip_cell (vram : list Z) (index : Z) : list Z :=
  alter (fun c => Z.lxor c 1) (Z.to_nat index) vram.

Definition flip_cells (cells : list Z) (vram : list Z) : list Z :=
  foldl flip_cell vram cells.

(** Whether some cell holds 1 when its turn to be toggled comes. *)
Fixpoint collides (cells : list Z) (vram : list Z) : bool :=
  match cells with
  | [] => false
  | index :: r =>
      match vram !! Z.to_nat index with
      | Some c => c =? 1
      | None => false
      end || collides r (flip_cell vram index)
  end.

(** What the DRW code of [Plain] and of [Tetris] computes from the registers
    and the video RAM: the two coordinates are read, VF is cleared, and the
    sprite loops run. *)
Definition draw_body (store : list Z -> Z -> Z -> result (list Z))
           (memory : list Z) (I : Z) (x y n : Z) (V vram : list Z)
  : result (list Z * list Z) :=
  let* px := getitem V x in
  let* py := getitem V y in
  let* V := setitem V 0xF 0 in
  for_each (drw_row store memory I px py) (range n) (V, vram).

(** A ROM that draws the glyph of 0 (I is 0, where the font starts) at
    (V0, V1) twice: [DRW V0, V1, 5; DRW V0, V1, 5]. *)
Definition rom_draw_twice : list Z := [0xD0; 0x15; 0xD0; 0x15].

(** *** Register updates of the 8xy_ group

    The three drafts make the same item reads and writes on the register
    list, in the same order: the flag goes into V[0xF] first, then the
    result into V[x]. *)
Definition regs_ADD (x y : Z) (V : list Z) : result (list Z) :=
  let* vx := getitem V x in
  let* vy := getitem V y in
  let total := vx + vy in
  let* V := setitem V 0xF (if 0xFF <? total then 1 else 0) in
  setitem V x (Z.land total 0xFF).

Definition regs_SUB (x y : Z) (V : list Z) : result (list Z) :=
  let* vx := getitem V x in
  let* vy := getitem V y in
  let* V := setitem V 0xF (if vy <? vx then 1 else 0) in
  let* vx := getitem V x in
  let* vy := getitem V y in
  setitem V x (Z.land (vx - vy) 0xFF).

Definition regs_SUBN (x y : Z) (V : list Z) : result (list Z) :=
  let* vy := getitem V y in
  let* vx := getitem V x in
  let* V := setitem V 0xF (if vx <? vy then 1 else 0) in
  let* vy := getitem V y in
  let* vx := getitem V x in
  setitem V x (Z.land (vy - vx) 0xFF).

Definition regs_SHR (x : Z) (V : list Z) : result (list Z) :=
  let* vx := getitem V x in
  let* V := setitem V 0xF (Z.land vx 1) in
  let* vx := getitem V x in
  setitem V x (Z.shiftr vx 1).

Definition regs_SHL (x : Z) (V : list Z) : result (list Z) :=
  let* vx := getitem V x in
  let* V := setitem V 0xF (Z.land (Z.shiftr vx 7) 1) in
  let* vx := getitem V x in
  setitem V x (Z.land (Z.shiftl vx 1) 0xFF).

(** The registers after an instruction that sets a flag and a value:
    V[x] and V[0xF] are as given and no other register differs. *)
Definition flag_and_value (V V' : list Z) (x : nat) (flag value : Z) : Prop :=
  V' !! x = Some value /\ V' !! 15%nat = Some flag /\
  forall j : nat, j <> x -> j <> 15%nat -> V' !! j = V !! j.

(** ROM images for the 8xy_ group: [LD V0, a; LD V1, b; 801n]. *)
Definition rom_two_regs (a b n : Z) : list Z :=
  [0x60; a; 0x61; b; 0x80; 0x10 + n].

(** *** Fx33

    The three stores of Fx33 on the memory, for an item assignment
    [store]. *)
Definition mem_BCD (store : list Z -> Z -> Z -> result (list Z))
           (I v : Z) (m : list Z) : result (list Z) :=
  let* m := store m I (v / 100) in
  let* m := store m (I + 1) ((v / 10) mod 10) in
  store m (I + 2) (v mod 10).

(** [bcd_at m m' i v]: memory [m'] is [m] except for the cells [i], [i+1]
    and [i+2], which hold the hundreds, tens and ones digit of [v]. *)
Definition bcd_at (m m' : list Z) (i : nat) (v : Z) : Prop :=
  exists h t u : Z,
    m' !! i = Some h /\ m' !! (i + 1)%nat = Some t /\
    m' !! (i + 2)%nat = Some u /\
    0 <= h <= 9 /\ 0 <= t <= 9 /\ 0 <= u <= 9 /\
    100 * h + 10 * t + u = v /\
    length m' = length m /\
    forall j : nat, (j < i \/ i + 2 < j)%nat -> m' !! j = m !! j.

(** [LD V0, v; LD I, a; LD B, V0] *)
Definition rom_bcd (v a_hi a_lo : Z) : list Z :=
  [0x60; v; 0xA0 + a_hi; a_lo; 0xF0; 0x33].

(** *** Fx55 and Fx65

    Both are loops that copy item by item: [dst[d + i] = src[s + i]] for
    each [i], in [Working] only while [guard (g + i)] holds.  Fx55 copies
    from the registers to the memory at I, Fx65 from the memory at I to the
    registers. *)
Fixpoint copy_loop (guard : Z -> bool) (g s d : Z) (src : list Z)
         (idxs : list Z) (dst : list Z) : result (list Z) :=
  match idxs with
  | [] => Ok dst
  | i :: r =>
      if guard (g + i) then
        let* v := getitem src (s + i) in
        let* dst := setitem dst (d + i) v in
        copy_loop guard g s d src r dst
      else copy_loop guard g s d src r dst
  end.

Definition no_guard (a : Z) : bool := true.
Definition below_4096 (a : Z) : bool := a <? 4096.

(** [LD V0, a; LD V1, b; LD I, addr; last], where [last] is F155 or F165. *)
Definition rom_copy (a b a_hi a_lo kk : Z) : list Z :=
  [0x60; a; 0x61; b; 0xA0 + a_hi; a_lo; 0xF1; kk].

(** [CALL 0x200] at 0x200: a program that calls itself for ever. *)
Definition rom_self_call : list Z := [0x22; 0x00].

(** One instruction [hi lo] at 0x200, after [LD V0, a] when given. *)
Definition rom_one (hi lo : Z) : list Z := [hi; lo].
Definition rom_v0_then (a hi lo : Z) : list Z := [0x60; a; hi; lo].

(** *** Keyboard and window *)

(** The keyboard symbol of each keypad key, read off [KEYMAP] backwards. *)
Definition symbol_of_key (k : Z) : key.symbol :=
  match k with
  | 0x0 => key.X | 0x1 => key._1 | 0x2 => key._2 | 0x3 => key._3
  | 0x4 => key.Q | 0x5 => key.W | 0x6 => key.E | 0x7 => key.A
  | 0x8 => key.S | 0x9 => key.D | 0xA => key.Z | 0xB => key.C
  | 0xC => key._4 | 0xD => key.R | 0xE => key.F | _ => key.V
  end.

(** The blit that [Plain.on_draw] makes for video cell [i]. *)
Definition cell_blit (i : Z) : Plain.gfx :=
  Plain.Blit (i mod 64 * 10) (310 - i / 64 * 10).

(** *** The call stack of [Tetris] *)

(** The stack array keeps its 16 entries and [sp] stays within 0 .. 16. *)
Definition tetris_stack_ok (s : Tetris.Chip8) : Prop :=
  0 <= Tetris.sp s <= 16 /\ length (Tetris.stack s) = 16%nat.

(** *** Waiting for a key *)

(** Key [k] is down and no key with a smaller number is. *)
Definition lowest_pressed (k : Z) (ks : list Z) : bool :=
  none_pressed (take (Z.to_nat k) ks) &&
  match ks !! Z.to_nat k with
  | Some v => truthy v
  | None => false
  end.

(** The keypad with the keys of [l] pressed one after the other. *)
Definition press_all (l : list Z) (ks : list Z) : list Z :=
  foldl (fun ks k => <[Z.to_nat k := 1]> ks) ks l.

(** *** Conditional skips *)

(** What 3xkk, 4xkk, 5xy0 and 9xy0 skip on, by the leading digit of the
    opcode: Vx = kk, Vx <> kk, Vx = Vy, Vx <> Vy. *)
Definition skip_test (o vx vy : Z) : bool :=
  let kk := Z.land o 0xFF in
  if Z.land o 0xF000 =? 0x3000 then vx =? kk
  else if Z.land o 0xF000 =? 0x4000 then negb (vx =? kk)
  else if Z.land o 0xF000 =? 0x5000 then vx =? vy
  else negb (vx =? vy).

(** LD V0, a; LD V1, b; then the instruction [hi lo]. *)
Definition rom_v0_v1_then (a b hi lo : Z) : list Z :=
  [0x60; a; 0x61; b; hi; lo].

(** *** The machine of [Working] in good shape *)

(** The arrays have the sizes [__init__] gives them and I is not
    negative. *)
Definition working_ok (s : Working.Chip8) : Prop :=
  length (Working.memory s) = 4096%nat /\
  length (Working.gpio s) = 16%nat /\
  length (Working.display_buffer s) = 2048%nat /\
  0 <= Working.index s.

(** A statement of [Working] ends in a state with [Q], or raises one of the
    two exceptions that [_00EE] and [_2nnn] raise themselves. *)
Definition working_post {A} (Q : Working.Chip8 -> Prop) (r : Working.res A)
  : Prop :=
  match r with
  | Working.Val _ s' => Q s'
  | Working.Exc e _ =>
      e = Exception Stack_underflow_on_00EE \/
      e = Exception Stack_overflow_on_CALL
  end.

(** *** Loading registers at the end of memory *)

(** LD I,0xFFF; LD VF,[I]; LD VF,1. *)
Definition rom_load_past_end : list Z :=
  [0xAF; 0xFF; 0xFF; 0x65; 0x6F; 0x01].

(** * Properties *)

(** ** Python lists *)

Lemma getitem_nonneg (l : list Z) (i : Z) :
  0 <= i ->
  getitem l i =
    match l !! Z.to_nat i with Some v => Ok v | None => Raise IndexError end.
Proof.
  intros Hi. unfold getitem, norm_index.
  destruct (Z.ltb_spec i 0); [lia|].
  destruct (Z.ltb_spec i 0); [lia|]. reflexivity.
Qed.

Lemma getitem_lookup (l : list Z) (i v : Z) :
  0 <= i -> l !! Z.to_nat i = Some v -> getitem l i = Ok v.
Proof. intros Hi Hl. rewrite getitem_nonneg, Hl; auto. Qed.

Lemma getitem_in_range (l : list Z) (i : Z) :
  0 <= i < Z.of_nat (length l) ->
  exists v, getitem l i = Ok v /\ l !! Z.to_nat i = Some v.
Proof.
  intros Hi. destruct (lookup_lt_is_Some_2 l (Z.to_nat i)) as [v Hv]; [lia|].
  exists v. split; [apply getitem_lookup; [lia|done]|done].
Qed.

Lemma getitem_Ok_nonneg (l : list Z) (i v : Z) :
  0 <= i -> getitem l i = Ok v ->
  l !! Z.to_nat i = Some v /\ i < Z.of_nat (length l).
Proof.
  intros Hi. rewrite getitem_nonneg by lia.
  destruct (l !! Z.to_nat i) eqn:E; [|done]. intros [= ->].
  split; [done|]. apply lookup_lt_Some in E. lia.
Qed.

Lemma getitem_past_end (l : list Z) (i : Z) :
  Z.of_nat (length l) <= i -> getitem l i = Raise IndexError.
Proof.
  intros Hi. rewrite getitem_nonneg by lia.
  rewrite (lookup_ge_None_2 l (Z.to_nat i)) by lia. reflexivity.
Qed.

Lemma setitem_in_range (l : list Z) (i v : Z) :
  0 <= i < Z.of_nat (length l) -> setitem l i v = Ok (<[Z.to_nat i := v]> l).
Proof.
  intros Hi. unfold setitem, norm_index.
  destruct (Z.ltb_spec i 0); [lia|].
  destruct (Z.ltb_spec i 0); [lia|].
  destruct (Z.ltb_spec i (Z.of_nat (length l))); [done|lia].
Qed.

Lemma setitem_past_end (l : list Z) (i v : Z) :
  Z.of_nat (length l) <= i -> setitem l i v = Raise IndexError.
Proof.
  intros Hi. unfold setitem, norm_index.
  destruct (Z.ltb_spec i 0); [lia|].
  destruct (Z.ltb_spec i 0); [lia|].
  destruct (Z.ltb_spec i (Z.of_nat (length l))); [lia|done].
Qed.

Lemma setitem_Ok (l l' : list Z) (i v : Z) :
  setitem l i v = Ok l' ->
  exists j : nat, (j < length l)%nat /\ l' = <[j := v]> l.
Proof.
  unfold setitem. destruct (Z.ltb_spec (norm_index (Z.of_nat (length l)) i) 0); [done|].
  destruct (Z.ltb_spec (norm_index (Z.of_nat (length l)) i) (Z.of_nat (length l)));
    [|done].
  intros [= <-]. eexists. split; [|reflexivity]. lia.
Qed.

Lemma setitem_length (l l' : list Z) (i v : Z) :
  setitem l i v = Ok l' -> length l' = length l.
Proof.
  intros H. apply setitem_Ok in H as (j & _ & ->). apply length_insert.
Qed.

Lemma pop_append (l : list Z) (v : Z) : pop (append l v) = Ok (v, l).
Proof. unfold pop, append. rewrite rev_unit, rev_involutive. reflexivity. Qed.

Lemma pop_nil : pop [] = Raise IndexError.
Proof. reflexivity. Qed.

(** ** Opcode words and masks *)

(** Two mask tests on one word agree on the bits both masks keep. *)
Lemma mask_clash (o m1 p1 m2 p2 : Z) :
  Z.land o m1 = p1 -> Z.land o m2 = p2 -> Z.land p1 m2 = Z.land p2 m1.
Proof.
  intros <- <-. rewrite <- !Z.land_assoc. f_equal. apply Z.land_comm.
Qed.

Lemma eq_as_mask (o p : Z) : o = p -> Z.land o (-1) = p.
Proof. intros ->. apply Z.land_m1_r. Qed.

(** [chain H] walks down an if/elif chain of mask tests on an opcode, using
    the mask fact [H] to settle every test until the one that [H] makes
    true. *)
Ltac chain_step H :=
  lazymatch goal with
  | |- (if ?c then _ else _) = _ =>
      lazymatch c with
      | Z.eqb ?a ?p =>
          first
            [ rewrite (proj2 (Z.eqb_eq a p) H)
            | let e := fresh "e" in
              let C := fresh "C" in
              rewrite (proj2 (Z.eqb_neq a p))
                by (intro e;
                    first
                      [ pose proof (mask_clash _ _ _ _ _ H e) as C
                      | pose proof (mask_clash _ _ _ _ _ H (eq_as_mask _ _ e))
                          as C ];
                    vm_compute in C; discriminate C) ]
      end
  end.

Ltac chain H := repeat chain_step H.

Lemma forallb_seqZ (P : Z -> bool) (n : Z) :
  forallb P (seqZ 0 n) = true -> forall z, 0 <= z < n -> P z = true.
Proof.
  intros H z Hz. rewrite forallb_forall in H. apply H.
  apply list_elem_of_In, elem_of_seqZ. lia.
Qed.

(** The decoders recover the nibbles of [op_xkk]; checked on all 65536
    words. *)
Lemma xkk_fields (h x kk : Z) :
  0 <= h < 16 -> 0 <= x < 16 -> 0 <= kk < 256 ->
  let o := op_xkk h x kk in
  Z.land o 0xF000 = h * 0x1000 /\
  Z.land (Z.shiftr o 8) 0xF = x /\
  Z.land o 0xFF = kk /\
  Z.land o 0x0FFF = x * 0x100 + kk /\
  Z.land o 0xF0FF = h * 0x1000 + kk /\
  Z.land o 0xF00F = h * 0x1000 + kk mod 16 /\
  Z.land (Z.shiftr o 4) 0xF = kk / 16 /\
  Z.land o 0xF = kk mod 16.
Proof.
  intros Hh Hx Hkk.
  assert (A : forallb (fun h => forallb (fun x => forallb (xkk_fields_ok h x)
                (seqZ 0 256)) (seqZ 0 16)) (seqZ 0 16) = true)
    by (vm_compute; reflexivity).
  pose proof (forallb_seqZ _ _
                (forallb_seqZ _ _ (forallb_seqZ _ _ A h Hh) x Hx) kk Hkk) as B.
  unfold xkk_fields_ok in B. cbv zeta in B.
  rewrite !andb_true_iff, !Z.eqb_eq in B. cbv zeta. tauto.
Qed.

Lemma land_0xFF (a : Z) : Z.land a 0xFF = a mod 256.
Proof. change 0xFF with (Z.ones 8). rewrite Z.land_ones by lia. reflexivity. Qed.

Lemma land_0xFFF (a : Z) : Z.land a 0xFFF = a mod 4096.
Proof. change 0xFFF with (Z.ones 12). rewrite Z.land_ones by lia. reflexivity. Qed.

(** ** Record projections after updates *)

Ltac plain_simpl :=
  cbn [Plain.memory Plain.vram Plain.V Plain.I Plain.pc Plain.stack Plain.keys
       Plain.delay Plain.sound Plain.should_draw
       Plain.set_memory Plain.set_vram Plain.set_V Plain.set_I Plain.set_pc
       Plain.set_stack Plain.set_keys Plain.set_delay Plain.set_sound
       Plain.set_should_draw].

Ltac plain_simpl_in H :=
  cbn [Plain.memory Plain.vram Plain.V Plain.I Plain.pc Plain.stack Plain.keys
       Plain.delay Plain.sound Plain.should_draw
       Plain.set_memory Plain.set_vram Plain.set_V Plain.set_I Plain.set_pc
       Plain.set_stack Plain.set_keys Plain.set_delay Plain.set_sound
       Plain.set_should_draw] in H.

Ltac tetris_simpl :=
  cbn [Tetris.memory Tetris.vram Tetris.V Tetris.I Tetris.pc Tetris.stack
       Tetris.sp Tetris.keys Tetris.delay Tetris.sound Tetris.should_draw
       Tetris.sound_playing Tetris._cps_counter Tetris.stdout
       Tetris.set_memory Tetris.set_vram Tetris.set_V Tetris.set_I
       Tetris.set_pc Tetris.set_stack Tetris.set_sp Tetris.set_keys
       Tetris.set_delay Tetris.set_sound Tetris.set_should_draw
       Tetris.set_sound_playing Tetris.set_cps_counter Tetris.set_stdout].

Ltac tetris_simpl_in H :=
  cbn [Tetris.memory Tetris.vram Tetris.V Tetris.I Tetris.pc Tetris.stack
       Tetris.sp Tetris.keys Tetris.delay Tetris.sound Tetris.should_draw
       Tetris.sound_playing Tetris._cps_counter Tetris.stdout
       Tetris.set_memory Tetris.set_vram Tetris.set_V Tetris.set_I
       Tetris.set_pc Tetris.set_stack Tetris.set_sp Tetris.set_keys
       Tetris.set_delay Tetris.set_sound Tetris.set_should_draw
       Tetris.set_sound_playing Tetris.set_cps_counter Tetris.set_stdout] in H.

Ltac working_simpl :=
  cbn [Working.memory Working.gpio Working.index Working.pc Working.stack
       Working.delay_timer Working.sound_timer Working.display_buffer
       Working.key_inputs Working.opcode Working.vx Working.vy
       Working.should_draw Working.has_exit Working.cycle_count
       Working.sound_playing Working.stdout
       Working.set_memory Working.set_gpio Working.set_index Working.set_pc
       Working.set_stack Working.set_delay_timer Working.set_sound_timer
       Working.set_display_buffer Working.set_key_inputs Working.set_opcode
       Working.set_vx Working.set_vy Working.set_should_draw
       Working.set_has_exit Working.set_cycle_count Working.set_sound_playing
       Working.set_stdout].

Ltac working_simpl_in H :=
  cbn [Working.memory Working.gpio Working.index Working.pc Working.stack
       Working.delay_timer Working.sound_timer Working.display_buffer
       Working.key_inputs Working.opcode Working.vx Working.vy
       Working.should_draw Working.has_exit Working.cycle_count
       Working.sound_playing Working.stdout
       Working.set_memory Working.set_gpio Working.set_index Working.set_pc
       Working.set_stack Working.set_delay_timer Working.set_sound_timer
       Working.set_display_buffer Working.set_key_inputs Working.set_opcode
       Working.set_vx Working.set_vy Working.set_should_draw
       Working.set_has_exit Working.set_cycle_count Working.set_sound_playing
       Working.set_stdout] in H.

(** ** WAIT KEY (Fx0A) *)

Lemma forallb_enumerate_from (P : Z * Z -> bool) (l : list Z) :
  forall i : Z,
    forallb P (enumerate_from i l) = true ->
    forall (j : nat) (v : Z), l !! j = Some v -> P (i + Z.of_nat j, v) = true.
Proof.
  induction l as [|b r IH]; intros i H j v Hj; [done|].
  cbn [enumerate_from forallb] in H. apply andb_true_iff in H as [H0 Hr].
  destruct j as [|j]; cbn in Hj.
  - injection Hj as ->. replace (i + Z.of_nat 0) with i by lia. exact H0.
  - replace (i + Z.of_nat (S j)) with (i + 1 + Z.of_nat j) by lia. eauto.
Qed.

Lemma none_pressed_lookup (ks : list Z) (j : nat) (v : Z) :
  none_pressed ks = true -> ks !! j = Some v -> v = 0.
Proof.
  unfold none_pressed. rewrite forallb_forall. intros H Hj.
  apply Z.eqb_eq, H, list_elem_of_In, list_elem_of_lookup. eauto.
Qed.

Lemma only_pressed_lookup (k : Z) (ks : list Z) (j : nat) (v : Z) :
  only_pressed k ks = true -> ks !! j = Some v ->
  truthy v = (Z.of_nat j =? k).
Proof.
  intros H Hj. unfold only_pressed, enumerate in H.
  pose proof (forallb_enumerate_from _ _ _ H j v Hj) as E. cbn in E.
  apply Bool.eqb_prop in E. exact E.
Qed.

Lemma first_pressed_skip (ks l1 l2 : list Z) :
  (forall i, i ∈ l1 -> exists v, getitem ks i = Ok v /\ truthy v = false) ->
  first_pressed ks (l1 ++ l2) = first_pressed ks l2.
Proof.
  induction l1 as [|i r IH]; intros H; [done|].
  cbn [app first_pressed].
  destruct (H i) as (v & G & T); [left|]. rewrite G. cbn [bind]. rewrite T.
  apply IH. intros i' Hi'. apply H. right. exact Hi'.
Qed.

Lemma first_pressed_none (ks : list Z) (n : Z) :
  none_pressed ks = true -> 0 <= n <= Z.of_nat (length ks) ->
  first_pressed ks (range n) = Ok None.
Proof.
  intros H Hn. rewrite <- (app_nil_r (range n)).
  rewrite first_pressed_skip; [done|].
  intros i Hi. apply elem_of_seqZ in Hi.
  destruct (getitem_in_range ks i) as (v & G & L); [lia|].
  exists v. split; [done|].
  rewrite (none_pressed_lookup _ _ _ H L). reflexivity.
Qed.

Lemma first_pressed_only (k : Z) (ks : list Z) (n : Z) :
  only_pressed k ks = true -> 0 <= k < n -> n <= Z.of_nat (length ks) ->
  first_pressed ks (range n) = Ok (Some k).
Proof.
  intros H Hk Hn. unfold range.
  replace n with (k + (n - k)) by lia.
  rewrite seqZ_app by lia. rewrite first_pressed_skip.
  - rewrite seqZ_cons by lia. cbn [first_pressed].
    destruct (getitem_in_range ks (0 + k)) as (v & G & L); [lia|].
    rewrite G. cbn [bind].
    rewrite (only_pressed_lookup _ _ _ _ H L).
    destruct (Z.eqb_spec (Z.of_nat (Z.to_nat (0 + k))) k); [|lia].
    rewrite Z.add_0_l. reflexivity.
  - intros i Hi. apply elem_of_seqZ in Hi.
    destruct (getitem_in_range ks i) as (v & G & L); [lia|].
    exists v. split; [done|].
    rewrite (only_pressed_lookup _ _ _ _ H L).
    apply Z.eqb_neq. lia.
Qed.

(** Pressing key [k] on an idle keypad leaves exactly [k] pressed. *)
Lemma only_pressed_after_press (k : Z) (ks ks' : list Z) :
  none_pressed ks = true -> 0 <= k -> setitem ks k 1 = Ok ks' ->
  only_pressed k ks' = true.
Proof.
  intros H Hk Hs.
  assert (Hlen : k < Z.of_nat (length ks)).
  { destruct (Z.lt_ge_cases k (Z.of_nat (length ks))); [done|].
    rewrite setitem_past_end in Hs by lia. done. }
  rewrite setitem_in_range in Hs by lia. injection Hs as <-.
  unfold only_pressed, enumerate.
  apply forallb_forall. intros [i v] Hin. cbn [fst snd].
  assert (G : forall l (i0 : Z) i v, In (i, v) (enumerate_from i0 l) ->
                i0 <= i /\ l !! Z.to_nat (i - i0) = Some v).
  { clear. induction l as [|b r IH]; intros i0 i v Hin; [done|].
    cbn [enumerate_from] in Hin. destruct Hin as [[= <- <-]|Hin].
    - split; [lia|]. replace (i0 - i0) with 0 by lia. done.
    - apply IH in Hin as [? L]. split; [lia|].
      replace (Z.to_nat (i - i0)) with (S (Z.to_nat (i - (i0 + 1)))) by lia.
      exact L. }
  apply G in Hin as [Hi L]. rewrite Z.sub_0_r in L.
  destruct (Z.eqb_spec i k) as [->|Hne].
  - rewrite list_lookup_insert_eq in L by lia. injection L as <-. done.
  - rewrite list_lookup_insert_ne in L by lia.
    rewrite (none_pressed_lookup _ _ _ H L). done.
Qed.
Lemma plain_execute_WAITKEY (o : Z) (s : Plain.Chip8) :
  Z.land o 0xF0FF = 0xF00A ->
  Plain.execute o s =
    let x := Z.land (Z.shiftr o 8) 0xF in
    let* found := first_pressed (Plain.keys s) (range 16) in
    match found with
    | Some i => let* s := Plain.write_V x i s in Ok (Plain.Return s)
    | None => Ok (Plain.Fall (Plain.set_pc s (Plain.pc s - 2)))
    end.
Proof.
  intros H. unfold Plain.execute. cbv zeta. chain H. reflexivity.
Qed.

Lemma plain_fetch_ext (s s' : Plain.Chip8) :
  Plain.memory s' = Plain.memory s -> Plain.pc s' = Plain.pc s ->
  Plain.fetch s' = Plain.fetch s.
Proof. intros Hm Hp. unfold Plain.fetch. rewrite Hm, Hp. reflexivity. Qed.

Lemma plain_timers_frame (s : Plain.Chip8) :
  Plain.memory (Plain.timers s) = Plain.memory s /\
  Plain.vram (Plain.timers s) = Plain.vram s /\
  Plain.V (Plain.timers s) = Plain.V s /\
  Plain.I (Plain.timers s) = Plain.I s /\
  Plain.pc (Plain.timers s) = Plain.pc s /\
  Plain.stack (Plain.timers s) = Plain.stack s /\
  Plain.keys (Plain.timers s) = Plain.keys s.
Proof.
  unfold Plain.timers. repeat (destruct (_ <? _); simpl); repeat split.
Qed.

Lemma plain_wait_stall (o : Z) (s : Plain.Chip8) :
  length (Plain.keys s) = 16%nat ->
  none_pressed (Plain.keys s) = true ->
  Plain.fetch s = Ok o -> Z.land o 0xF0FF = 0xF00A ->
  Plain.tick s = Ok (Plain.timers s).
Proof.
  intros Hk Hn Hf Ho. unfold Plain.tick. rewrite Hf. cbn [bind].
  rewrite plain_execute_WAITKEY by exact Ho. cbv zeta.
  cbn [Plain.keys Plain.set_pc].
  rewrite first_pressed_none by (auto; lia). cbn [bind].
  do 2 f_equal. destruct s. unfold Plain.set_pc. cbn. f_equal. lia.
Qed.

Lemma plain_wait_stalls (o : Z) (n : nat) :
  forall s : Plain.Chip8,
    length (Plain.keys s) = 16%nat ->
    none_pressed (Plain.keys s) = true ->
    Plain.fetch s = Ok o -> Z.land o 0xF0FF = 0xF00A ->
    exists s', plain_ticks n s = Ok s' /\
               Plain.pc s' = Plain.pc s /\ Plain.V s' = Plain.V s /\
               Plain.fetch s' = Plain.fetch s.
Proof.
  induction n as [|n IH]; intros s Hk Hn Hf Ho.
  - exists s. done.
  - cbn [plain_ticks]. rewrite (plain_wait_stall o s) by done. cbn [bind].
    destruct (plain_timers_frame s) as (Em & _ & EV & _ & Ep & _ & Ek).
    destruct (IH (Plain.timers s)) as (s' & T & P & V' & F).
    + rewrite Ek. done.
    + rewrite Ek. done.
    + rewrite (plain_fetch_ext s) by done. done.
    + done.
    + exists s'. split; [done|]. rewrite P, V', F.
      split; [done|]. split; [done|]. apply plain_fetch_ext; done.
Qed.

Lemma plain_wait_key_loads (x k : Z) (s : Plain.Chip8) :
  0 <= x < 16 -> 0 <= k < 16 ->
  length (Plain.V s) = 16%nat -> length (Plain.keys s) = 16%nat ->
  only_pressed k (Plain.keys s) = true ->
  Plain.fetch s = Ok (op_xkk 0xF x 0x0A) ->
  exists s', Plain.tick s = Ok s' /\
             Plain.V s' !! Z.to_nat x = Some k /\
             Plain.pc s' = Plain.pc s + 2.
Proof.
  intros Hx Hk HV HK Ho Hf.
  destruct (xkk_fields 0xF x 0x0A) as (_ & F2 & _ & _ & F5 & _); [lia..|].
  cbv zeta in *.
  unfold Plain.tick. rewrite Hf. cbn [bind].
  rewrite plain_execute_WAITKEY by exact F5. cbv zeta. rewrite F2.
  cbn [Plain.keys Plain.set_pc].
  rewrite (first_pressed_only k) by (auto; lia). cbn [bind].
  unfold Plain.write_V. plain_simpl. rewrite setitem_in_range by lia.
  cbn [bind]. eexists. split; [reflexivity|]. plain_simpl.
  split; [|reflexivity]. apply list_lookup_insert_eq. lia.
Qed.

Lemma uint16_small (v : Z) : 0 <= v < 65536 -> uint16 v = v.
Proof. intros H. unfold uint16. apply Z.mod_small. exact H. Qed.

Lemma tetris_dispatch_WAITKEY (rnd o : Z) (s : Tetris.Chip8) :
  Z.land o 0xF0FF = 0xF00A ->
  Tetris.dispatch (Tetris.opcodes rnd) o s = Tetris.op_WAITKEY o s.
Proof.
  intros H. unfold Tetris.opcodes. cbn [Tetris.dispatch]. chain H. reflexivity.
Qed.

Lemma tetris_fetch_ext (s s' : Tetris.Chip8) :
  Tetris.memory s' = Tetris.memory s -> Tetris.pc s' = Tetris.pc s ->
  Tetris.fetch s' = Tetris.fetch s.
Proof. intros Hm Hp. unfold Tetris.fetch. rewrite Hm, Hp. reflexivity. Qed.

Lemma tetris_wait_stall (rnd o : Z) (s : Tetris.Chip8) :
  length (Tetris.keys s) = 16%nat ->
  none_pressed (Tetris.keys s) = true ->
  0 <= Tetris.pc s < 65534 ->
  Tetris.fetch s = Ok o -> Z.land o 0xF0FF = 0xF00A ->
  Tetris.tick rnd s =
    Ok (Tetris.set_cps_counter s (Tetris._cps_counter s + 1)).
Proof.
  intros Hk Hn Hp Hf Ho. unfold Tetris.tick. cbv zeta.
  rewrite (tetris_fetch_ext s) by reflexivity. rewrite Hf. cbn [bind].
  rewrite tetris_dispatch_WAITKEY by exact Ho.
  unfold Tetris.op_WAITKEY. cbv zeta. tetris_simpl.
  rewrite first_pressed_none by (auto; lia). cbn [bind].
  f_equal. rewrite (uint16_small (Tetris.pc s + 2)) by lia.
  rewrite uint16_small by lia.
  destruct s. unfold Tetris.set_pc, Tetris.set_cps_counter. cbn. f_equal. lia.
Qed.

Lemma tetris_wait_stalls (o : Z) (rnds : list Z) :
  forall s : Tetris.Chip8,
    length (Tetris.keys s) = 16%nat ->
    none_pressed (Tetris.keys s) = true ->
    0 <= Tetris.pc s < 65534 ->
    Tetris.fetch s = Ok o -> Z.land o 0xF0FF = 0xF00A ->
    exists s', tetris_ticks rnds s = Ok s' /\
               Tetris.pc s' = Tetris.pc s /\ Tetris.V s' = Tetris.V s /\
               Tetris.fetch s' = Tetris.fetch s.
Proof.
  induction rnds as [|r rnds IH]; intros s Hk Hn Hp Hf Ho.
  - exists s. done.
  - cbn [tetris_ticks]. rewrite (tetris_wait_stall r o s) by done. cbn [bind].
    destruct (IH (Tetris.set_cps_counter s (Tetris._cps_counter s + 1)))
      as (s' & T & P & V' & F); try done.
    exists s'. split; [done|]. rewrite P, V', F. done.
Qed.

Lemma tetris_wait_key_loads (rnd x k : Z) (s : Tetris.Chip8) :
  0 <= x < 16 -> 0 <= k < 16 ->
  length (Tetris.V s) = 16%nat -> length (Tetris.keys s) = 16%nat ->
  0 <= Tetris.pc s < 65534 ->
  only_pressed k (Tetris.keys s) = true ->
  Tetris.fetch s = Ok (op_xkk 0xF x 0x0A) ->
  exists s', Tetris.tick rnd s = Ok s' /\
             Tetris.V s' !! Z.to_nat x = Some k /\
             Tetris.pc s' = Tetris.pc s + 2.
Proof.
  intros Hx Hk HV HK Hp Ho Hf.
  destruct (xkk_fields 0xF x 0x0A) as (_ & F2 & _ & _ & F5 & _); [lia..|].
  cbv zeta in *.
  unfold Tetris.tick. cbv zeta.
  rewrite (tetris_fetch_ext s) by reflexivity. rewrite Hf. cbn [bind].
  rewrite tetris_dispatch_WAITKEY by exact F5.
  unfold Tetris.op_WAITKEY, Tetris.reg_x. cbv zeta. rewrite F2. tetris_simpl.
  rewrite (first_pressed_only k) by (auto; lia). cbn [bind].
  unfold Tetris.write_V. tetris_simpl. rewrite setitem_in_range by lia.
  cbn [bind]. eexists. split; [reflexivity|]. tetris_simpl.
  split; [apply list_lookup_insert_eq; lia|]. apply uint16_small. lia.
Qed.

(** C3: on Fx0A with no key down, every tick leaves PC and the registers as
    they were and the same instruction is fetched again, for any number of
    ticks; with exactly key [k] down, the tick stores [k] in Vx and moves PC
    past the instruction.  Both in [Plain.tick] and in [Tetris.tick]. *)
Theorem wait_key_scenario (x : Z) :
  0 <= x < 16 ->
  (forall s : Plain.Chip8,
      length (Plain.V s) = 16%nat -> length (Plain.keys s) = 16%nat ->
      Plain.fetch s = Ok (op_xkk 0xF x 0x0A) ->
      (none_pressed (Plain.keys s) = true ->
       forall n : nat,
       exists s', plain_ticks n s = Ok s' /\
                  Plain.pc s' = Plain.pc s /\ Plain.V s' = Plain.V s /\
                  Plain.fetch s' = Plain.fetch s) /\
      (forall k : Z,
          0 <= k < 16 -> only_pressed k (Plain.keys s) = true ->
          exists s', Plain.tick s = Ok s' /\
                     Plain.V s' !! Z.to_nat x = Some k /\
                     Plain.pc s' = Plain.pc s + 2)) /\
  (forall s : Tetris.Chip8,
      length (Tetris.V s) = 16%nat -> length (Tetris.keys s) = 16%nat ->
      0 <= Tetris.pc s < 65534 ->
      Tetris.fetch s = Ok (op_xkk 0xF x 0x0A) ->
      (none_pressed (Tetris.keys s) = true ->
       forall rnds : list Z,
       exists s', tetris_ticks rnds s = Ok s' /\
                  Tetris.pc s' = Tetris.pc s /\ Tetris.V s' = Tetris.V s /\
                  Tetris.fetch s' = Tetris.fetch s) /\
      (forall rnd k : Z,
          0 <= k < 16 -> only_pressed k (Tetris.keys s) = true ->
          exists s', Tetris.tick rnd s = Ok s' /\
                     Tetris.V s' !! Z.to_nat x = Some k /\
                     Tetris.pc s' = Tetris.pc s + 2)).
Proof.
  intros Hx.
  destruct (xkk_fields 0xF x 0x0A) as (_ & _ & _ & _ & F5 & _); [lia..|].
  cbv zeta in F5. split.
  - intros s HV HK Hf. split.
    + intros Hn n. apply (plain_wait_stalls (op_xkk 0xF x 0x0A)); done.
    + intros k Hk Ho. apply plain_wait_key_loads; done.
  - intros s HV HK Hp Hf. split.
    + intros Hn rnds. apply (tetris_wait_stalls (op_xkk 0xF x 0x0A)); done.
    + intros rnd k Hk Ho. apply tetris_wait_key_loads; done.
Qed.

(** The scenario of the specification: V5 waits, key 3 goes down. *)
Lemma wait_key_scenario_witness :
  0 <= 5 < 16 /\
  (exists s', plain_ticks 3 (plain_boot [0xF5; 0x0A]) = Ok s' /\
              Plain.pc s' = 0x200 /\
              Plain.V s' = Plain.V (plain_boot [0xF5; 0x0A])) /\
  (forall s1, Plain.on_key_press 3 (plain_boot [0xF5; 0x0A]) = Ok s1 ->
     exists s', Plain.tick s1 = Ok s' /\
                Plain.V s' !! 5%nat = Some 3 /\ Plain.pc s' = 0x202) /\
  (exists s', tetris_ticks [0; 0; 0] (tetris_boot [0xF5; 0x0A]) = Ok s' /\
              Tetris.pc s' = 0x200 /\
              Tetris.V s' = Tetris.V (tetris_boot [0xF5; 0x0A])) /\
  (forall s1, Tetris.on_key_press 3 (tetris_boot [0xF5; 0x0A]) = Ok s1 ->
     exists s', Tetris.tick 0 s1 = Ok s' /\
                Tetris.V s' !! 5%nat = Some 3 /\ Tetris.pc s' = 0x202).
Proof.
  assert (Hx : 0 <= 5 < 16) by lia.
  destruct (wait_key_scenario 5 Hx) as [P T].
  split; [exact Hx|]. split; [|split; [|split]].
  - destruct (P (plain_boot [0xF5; 0x0A])) as [Stall _];
      [vm_compute; reflexivity..|].
    destruct (Stall eq_refl 3%nat) as (s' & R & Hpc & HV & _).
    exists s'. auto.
  - intros s1 Hs1. vm_compute in Hs1. injection Hs1 as <-.
    match goal with |- exists s', Plain.tick ?s = _ /\ _ =>
      destruct (P s) as [_ Load]; [vm_compute; reflexivity..|] end.
    destruct (Load 3) as (s' & R & HV & Hpc); [lia|vm_compute; reflexivity|].
    exists s'. auto.
  - destruct (T (tetris_boot [0xF5; 0x0A])) as [Stall _];
      [vm_compute; reflexivity..|vm_compute; split; [intros Hc; discriminate Hc|reflexivity]
      |vm_compute; reflexivity|].
    destruct (Stall eq_refl [0; 0; 0]) as (s' & R & Hpc & HV & _).
    exists s'. auto.
  - intros s1 Hs1. vm_compute in Hs1. injection Hs1 as <-.
    match goal with |- exists s', Tetris.tick 0 ?s = _ /\ _ =>
      destruct (T s) as [_ Load];
        [vm_compute; reflexivity..|vm_compute; split; [intros Hc; discriminate Hc|reflexivity]
        |vm_compute; reflexivity|] end.
    destruct (Load 0 3) as (s' & R & HV & Hpc); [lia|vm_compute; reflexivity|].
    exists s'. auto.
Defined.

(** ** ADD Vx, byte (7xkk) *)

Lemma plain_execute_ADD_Vx_kk (o : Z) (s : Plain.Chip8) :
  Z.land o 0xF000 = 0x7000 ->
  Plain.execute o s =
    let x := Z.land (Z.shiftr o 8) 0xF in
    let kk := Z.land o 0xFF in
    let* vx := getitem (Plain.V s) x in
    Plain.fall (Plain.write_V x (Z.land (vx + kk) 0xFF) s).
Proof.
  intros H. unfold Plain.execute. cbv zeta. chain H. reflexivity.
Qed.

Lemma plain_V_timers (s : Plain.Chip8) : Plain.V (Plain.timers s) = Plain.V s.
Proof. unfold Plain.timers. repeat (destruct (_ <? _); simpl); reflexivity. Qed.

Lemma plain_add_immediate (x kk : Z) (s : Plain.Chip8) :
  0 <= x < 16 -> 0 <= kk < 256 ->
  length (Plain.V s) = 16%nat ->
  Plain.fetch s = Ok (op_xkk 7 x kk) ->
  exists vx s',
    Plain.V s !! Z.to_nat x = Some vx /\
    Plain.tick s = Ok s' /\
    Plain.V s' = <[Z.to_nat x := (vx + kk) mod 256]> (Plain.V s).
Proof.
  intros Hx Hkk HV Hf.
  destruct (xkk_fields 7 x kk) as (F1 & F2 & F3 & _); [lia..|]. cbv zeta in *.
  destruct (getitem_in_range (Plain.V s) x) as (vx & G & L); [lia|].
  exists vx. eexists. split; [exact L|].
  unfold Plain.tick. rewrite Hf. cbn [bind].
  rewrite plain_execute_ADD_Vx_kk by exact F1. cbv zeta. rewrite F2, F3.
  cbn [Plain.V Plain.set_pc]. rewrite G. cbn [bind]. unfold Plain.write_V.
  cbn [Plain.V Plain.set_pc].
  rewrite setitem_in_range by lia. cbn [bind Plain.fall].
  split; [reflexivity|]. rewrite plain_V_timers. cbn [Plain.V Plain.set_V].
  rewrite land_0xFF. reflexivity.
Qed.

Lemma tetris_dispatch_ADD_Vx_kk (rnd o : Z) (s : Tetris.Chip8) :
  Z.land o 0xF000 = 0x7000 ->
  Tetris.dispatch (Tetris.opcodes rnd) o s = Tetris.op_ADD_Vx_kk o s.
Proof.
  intros H. unfold Tetris.opcodes. cbn [Tetris.dispatch]. chain H. reflexivity.
Qed.

Lemma tetris_add_immediate (rnd x kk : Z) (s : Tetris.Chip8) :
  0 <= x < 16 -> 0 <= kk < 256 ->
  length (Tetris.V s) = 16%nat ->
  Tetris.fetch s = Ok (op_xkk 7 x kk) ->
  exists vx s',
    Tetris.V s !! Z.to_nat x = Some vx /\
    Tetris.tick rnd s = Ok s' /\
    Tetris.V s' = <[Z.to_nat x := (vx + kk) mod 256]> (Tetris.V s).
Proof.
  intros Hx Hkk HV Hf.
  destruct (xkk_fields 7 x kk) as (F1 & F2 & F3 & _); [lia..|]. cbv zeta in *.
  destruct (getitem_in_range (Tetris.V s) x) as (vx & G & L); [lia|].
  exists vx. eexists. split; [exact L|].
  unfold Tetris.tick. cbv zeta.
  change (Tetris.fetch (Tetris.set_cps_counter s (Tetris._cps_counter s + 1)))
    with (Tetris.fetch s).
  rewrite Hf. cbn [bind].
  rewrite tetris_dispatch_ADD_Vx_kk by exact F1.
  unfold Tetris.op_ADD_Vx_kk, Tetris.reg_x. cbv zeta. rewrite F2, F3.
  cbn [Tetris.V Tetris.set_pc Tetris.set_cps_counter]. rewrite G. cbn [bind].
  unfold Tetris.write_V. cbn [Tetris.V Tetris.set_pc Tetris.set_cps_counter].
  rewrite setitem_in_range by lia. cbn [bind].
  split; [reflexivity|]. cbn [Tetris.V Tetris.set_V]. rewrite land_0xFF.
  reflexivity.
Qed.

(** C4, as the code has it: executing 7xkk, in [Plain.tick] and in
    [Tetris.tick] alike, stores (Vx + kk) mod 256 in Vx and changes no other
    register.  VF is therefore unmodified exactly when x is not 15; with
    x = 15 the register written is VF itself. *)
Theorem add_immediate_registers (x kk : Z) :
  0 <= x < 16 -> 0 <= kk < 256 ->
  (forall s : Plain.Chip8,
      length (Plain.V s) = 16%nat ->
      Plain.fetch s = Ok (op_xkk 7 x kk) ->
      exists vx s',
        Plain.V s !! Z.to_nat x = Some vx /\
        Plain.tick s = Ok s' /\
        Plain.V s' !! Z.to_nat x = Some ((vx + kk) mod 256) /\
        (forall j : nat, j <> Z.to_nat x -> Plain.V s' !! j = Plain.V s !! j) /\
        (x <> 15 -> Plain.V s' !! 15%nat = Plain.V s !! 15%nat)) /\
  (forall (rnd : Z) (s : Tetris.Chip8),
      length (Tetris.V s) = 16%nat ->
      Tetris.fetch s = Ok (op_xkk 7 x kk) ->
      exists vx s',
        Tetris.V s !! Z.to_nat x = Some vx /\
        Tetris.tick rnd s = Ok s' /\
        Tetris.V s' !! Z.to_nat x = Some ((vx + kk) mod 256) /\
        (forall j : nat, j <> Z.to_nat x -> Tetris.V s' !! j = Tetris.V s !! j) /\
        (x <> 15 -> Tetris.V s' !! 15%nat = Tetris.V s !! 15%nat)).
Proof.
  intros Hx Hkk. split.
  - intros s HV Hf.
    destruct (plain_add_immediate x kk s Hx Hkk HV Hf) as (vx & s' & L & T & E).
    exists vx, s'. rewrite E. repeat split; [done|done|..].
    + apply list_lookup_insert_eq. lia.
    + intros j Hj. apply list_lookup_insert_ne. lia.
    + intros Hne. apply list_lookup_insert_ne. lia.
  - intros rnd s HV Hf.
    destruct (tetris_add_immediate rnd x kk s Hx Hkk HV Hf)
      as (vx & s' & L & T & E).
    exists vx, s'. rewrite E. repeat split; [done|done|..].
    + apply list_lookup_insert_eq. lia.
    + intros j Hj. apply list_lookup_insert_ne. lia.
    + intros Hne. apply list_lookup_insert_ne. lia.
Qed.

Lemma add_immediate_registers_witness :
  (0 <= 3 < 16 /\ 0 <= 5 < 256) /\
  (exists vx s',
      Plain.V (plain_boot [0x73; 0x05]) !! 3%nat = Some vx /\
      Plain.tick (plain_boot [0x73; 0x05]) = Ok s' /\
      Plain.V s' !! 3%nat = Some ((vx + 5) mod 256)) /\
  (exists vx s',
      Tetris.V (tetris_boot [0x73; 0x05]) !! 3%nat = Some vx /\
      Tetris.tick 0 (tetris_boot [0x73; 0x05]) = Ok s' /\
      Tetris.V s' !! 3%nat = Some ((vx + 5) mod 256)).
Proof.
  assert (Hx : 0 <= 3 < 16) by lia.
  assert (Hkk : 0 <= 5 < 256) by lia.
  destruct (add_immediate_registers 3 5 Hx Hkk) as [P T].
  split; [split; assumption|]. split.
  - destruct (P (plain_boot [0x73; 0x05])) as (vx & s' & L & K & E & _).
    + vm_compute; reflexivity.
    + vm_compute; reflexivity.
    + exists vx, s'. auto.
  - destruct (T 0 (tetris_boot [0x73; 0x05])) as (vx & s' & L & K & E & _).
    + vm_compute; reflexivity.
    + vm_compute; reflexivity.
    + exists vx, s'. auto.
Defined.

(** C4 as stated fails for x = 15: ADD VF, 1 (7F01) on a fresh machine
    turns VF from 0 into 1. *)
Lemma add_immediate_VF_counterexample :
  exists s s' : Plain.Chip8,
    Plain.init [0x7F; 0x01] = Ok s /\
    Plain.fetch s = Ok (op_xkk 7 15 1) /\
    Plain.tick s = Ok s' /\
    Plain.V s !! 15%nat = Some 0 /\
    Plain.V s' !! 15%nat = Some 1.
Proof.
  eexists. eexists. split; [vm_compute; reflexivity|].
  split; [vm_compute; reflexivity|].
  split; [vm_compute; reflexivity|].
  split; vm_compute; reflexivity.
Qed.

(** ** Fetching at the end of memory *)

Lemma plain_execute_JP (o : Z) (s : Plain.Chip8) :
  Z.land o 0xF000 = 0x1000 ->
  Plain.execute o s = Ok (Plain.Fall (Plain.set_pc s (Z.land o 0x0FFF))).
Proof.
  intros H. unfold Plain.execute. cbv zeta. chain H. reflexivity.
Qed.

(** [Plain.tick] indexes memory with [pc] and [pc + 1] as they are. *)
Lemma plain_fetch_past_end (s : Plain.Chip8) :
  Z.of_nat (length (Plain.memory s)) <= Plain.pc s + 1 -> 0 <= Plain.pc s ->
  Plain.fetch s = Raise IndexError.
Proof.
  intros H H0. unfold Plain.fetch.
  destruct (Z.lt_ge_cases (Plain.pc s) (Z.of_nat (length (Plain.memory s)))).
  - destruct (getitem_in_range (Plain.memory s) (Plain.pc s)) as (v & -> & _);
      [lia|].
    cbn [bind]. rewrite getitem_past_end by lia. reflexivity.
  - rewrite getitem_past_end by lia. reflexivity.
Qed.

Lemma plain_tick_past_end (s : Plain.Chip8) :
  Z.of_nat (length (Plain.memory s)) <= Plain.pc s + 1 -> 0 <= Plain.pc s ->
  Plain.tick s = Raise IndexError.
Proof.
  intros H H0. unfold Plain.tick. rewrite plain_fetch_past_end by done.
  reflexivity.
Qed.

Lemma plain_jp_0xFFF (s : Plain.Chip8) :
  length (Plain.memory s) = 4096%nat ->
  Plain.fetch s = Ok 0x1FFF ->
  exists s1, Plain.tick s = Ok s1 /\ Plain.pc s1 = 0xFFF /\
             Plain.memory s1 = Plain.memory s /\
             Plain.tick s1 = Raise IndexError.
Proof.
  intros Hm Hf. eexists. split.
  - unfold Plain.tick. rewrite Hf. cbn [bind].
    rewrite plain_execute_JP by reflexivity. cbn [bind]. reflexivity.
  - destruct (plain_timers_frame
                (Plain.set_pc (Plain.set_pc s (Plain.pc s + 2))
                              (Z.land 0x1FFF 0x0FFF)))
      as (Em & _ & _ & _ & Ep & _).
    split; [rewrite Ep; reflexivity|].
    split; [rewrite Em; reflexivity|].
    apply plain_tick_past_end; rewrite ?Em, ?Ep; plain_simpl.
    + rewrite Hm. change (Z.land 0x1FFF 0x0FFF) with 0xFFF. lia.
    + change (Z.land 0x1FFF 0x0FFF) with 0xFFF. lia.
Qed.

Lemma working_fetch_ext (s s' : Working.Chip8) :
  Working.memory s' = Working.memory s -> Working.pc s' = Working.pc s ->
  Working.fetch s' = Working.fetch s.
Proof. intros Hm Hp. unfold Working.fetch. rewrite Hm, Hp. reflexivity. Qed.

(** [Working.cycle] refuses a [pc] whose second byte lies outside memory. *)
Lemma working_fetch_out_of_bounds (s : Working.Chip8) :
  Working.pc s < 0 \/ Z.of_nat (length (Working.memory s)) <= Working.pc s + 1 ->
  Working.fetch s = Raise (Exception (PC_out_of_bounds (Working.pc s))).
Proof.
  intros H. unfold Working.fetch.
  destruct (Z.ltb_spec (Working.pc s) 0); [reflexivity|].
  destruct (Z.leb_spec (Z.of_nat (length (Working.memory s))) (Working.pc s + 1));
    [reflexivity|lia].
Qed.

Lemma working_cycle_out_of_bounds (rnd : Z) (s : Working.Chip8) :
  Working.pc s < 0 \/ Z.of_nat (length (Working.memory s)) <= Working.pc s + 1 ->
  Working.cycle rnd s =
    Working.Exc (Exception (PC_out_of_bounds (Working.pc s)))
                (Working.set_cycle_count s (Working.cycle_count s + 1)).
Proof.
  intros H. unfold Working.cycle. cbv zeta.
  rewrite (working_fetch_ext s) by reflexivity.
  rewrite working_fetch_out_of_bounds by exact H. reflexivity.
Qed.

Lemma working_cpu_tick_halts (rnd : Z) (s : Working.Chip8) (e : exn)
                             (s' : Working.Chip8) :
  Working.cycle rnd s = Working.Exc e s' ->
  Working.has_exit (Working._cpu_tick rnd s) = true.
Proof.
  intros H. unfold Working._cpu_tick.
  destruct (Working.has_exit s) eqn:E; cbn [negb]; [exact E|].
  rewrite H. reflexivity.
Qed.

Lemma working_cpu_tick_halted (rnd : Z) (s : Working.Chip8) :
  Working.has_exit s = true -> Working._cpu_tick rnd s = s.
Proof. intros H. unfold Working._cpu_tick. rewrite H. reflexivity. Qed.

Lemma working_timers_frame (s : Working.Chip8) :
  Working.memory (Working.timers s) = Working.memory s /\
  Working.pc (Working.timers s) = Working.pc s /\
  Working.stack (Working.timers s) = Working.stack s /\
  Working.has_exit (Working.timers s) = Working.has_exit s /\
  Working.gpio (Working.timers s) = Working.gpio s.
Proof.
  unfold Working.timers. repeat (destruct (_ <? _); cbn); repeat split.
Qed.

Lemma working_dispatch_JP (rnd : Z) (s : Working.Chip8) :
  Z.land (Working.opcode s) 0xF000 = 0x1000 ->
  Working.dispatch rnd s = Working._1nnn s.
Proof. intros H. unfold Working.dispatch. cbv zeta. rewrite H. reflexivity. Qed.

Lemma working_jp_0xFFF (rnd rnd' : Z) (s : Working.Chip8) :
  length (Working.memory s) = 4096%nat ->
  Working.fetch s = Ok 0x1FFF ->
  exists s1 s2,
    Working.cycle rnd s = Working.Val tt s1 /\ Working.pc s1 = 0xFFF /\
    Working.cycle rnd' s1 =
      Working.Exc (Exception (PC_out_of_bounds 0xFFF)) s2 /\
    Working.has_exit (Working._cpu_tick rnd' s1) = true.
Proof.
  intros Hm Hf.
  assert (C : exists s1, Working.cycle rnd s = Working.Val tt s1 /\
                         Working.pc s1 = 0xFFF /\
                         Working.memory s1 = Working.memory s).
  { eexists. split.
    - unfold Working.cycle. cbv zeta.
      rewrite (working_fetch_ext s) by reflexivity. rewrite Hf.
      cbn [Working.eval].
      rewrite working_dispatch_JP by reflexivity.
      unfold Working._1nnn. cbn [Working.and_then Working.Done]. reflexivity.
    - match goal with |- Working.pc (Working.timers ?t) = _ /\ _ =>
        destruct (working_timers_frame t) as (Em & Ep & _) end.
      rewrite Em, Ep. split; reflexivity. }
  destruct C as (s1 & C1 & P1 & M1).
  exists s1. eexists. split; [exact C1|]. split; [exact P1|].
  assert (C2 : Working.cycle rnd' s1 =
               Working.Exc (Exception (PC_out_of_bounds 0xFFF))
                 (Working.set_cycle_count s1 (Working.cycle_count s1 + 1))).
  { rewrite working_cycle_out_of_bounds; [rewrite P1; reflexivity|].
    right. rewrite M1, Hm, P1. lia. }
  split; [exact C2|]. eapply working_cpu_tick_halts. exact C2.
Qed.

Lemma plain_fetch_in_range (s : Plain.Chip8) :
  0 <= Plain.pc s -> Plain.pc s + 1 < Z.of_nat (length (Plain.memory s)) ->
  exists o, Plain.fetch s = Ok o.
Proof.
  intros H0 H1. unfold Plain.fetch.
  destruct (getitem_in_range (Plain.memory s) (Plain.pc s)) as (hi & -> & _);
    [lia|].
  destruct (getitem_in_range (Plain.memory s) (Plain.pc s + 1))
    as (lo & -> & _); [lia|].
  eexists. reflexivity.
Qed.

Lemma working_fetch_in_range (s : Working.Chip8) :
  0 <= Working.pc s -> Working.pc s + 1 < Z.of_nat (length (Working.memory s)) ->
  exists o, Working.fetch s = Ok o.
Proof.
  intros H0 H1. unfold Working.fetch.
  destruct (Z.ltb_spec (Working.pc s) 0); [lia|].
  destruct (Z.leb_spec (Z.of_nat (length (Working.memory s))) (Working.pc s + 1));
    [lia|]. cbn [orb].
  destruct (getitem_in_range (Working.memory s) (Working.pc s))
    as (hi & -> & _); [lia|].
  destruct (getitem_in_range (Working.memory s) (Working.pc s + 1))
    as (lo & -> & _); [lia|].
  eexists. reflexivity.
Qed.

(** C1, as the code has it.  After JP 0xFFF the next step does not read the
    instruction bytes at 0xFFF and 0x000: the program counter is not masked
    for the fetch, and the step faults.  [Plain.tick] reads [memory[0xFFF]]
    and raises IndexError on [memory[0x1000]]; [Working.cycle] raises its own
    "PC out of bounds" exception, which [_cpu_tick] turns into [has_exit].
    With 4096 bytes of memory the fetch of a step succeeds for every pc with
    0 <= pc <= 4094 and faults in this way for every pc from 4095 on, in
    [Working.cycle] also for every pc below 0. *)
Theorem fetch_at_0xFFF_faults :
  (forall s : Plain.Chip8,
      length (Plain.memory s) = 4096%nat ->
      Plain.fetch s = Ok 0x1FFF ->
      exists s1, Plain.tick s = Ok s1 /\ Plain.pc s1 = 0xFFF /\
                 (exists hi, getitem (Plain.memory s1) 0xFFF = Ok hi) /\
                 getitem (Plain.memory s1) 0x1000 = Raise IndexError /\
                 Plain.tick s1 = Raise IndexError) /\
  (forall s : Plain.Chip8,
      length (Plain.memory s) = 4096%nat ->
      (4095 <= Plain.pc s -> Plain.tick s = Raise IndexError) /\
      (0 <= Plain.pc s <= 4094 -> exists o, Plain.fetch s = Ok o)) /\
  (forall (rnd rnd' : Z) (s : Working.Chip8),
      length (Working.memory s) = 4096%nat ->
      Working.fetch s = Ok 0x1FFF ->
      exists s1 s2,
        Working.cycle rnd s = Working.Val tt s1 /\ Working.pc s1 = 0xFFF /\
        Working.cycle rnd' s1 =
          Working.Exc (Exception (PC_out_of_bounds 0xFFF)) s2 /\
        Working.has_exit (Working._cpu_tick rnd' s1) = true) /\
  (forall (rnd : Z) (s : Working.Chip8),
      length (Working.memory s) = 4096%nat ->
      (Working.pc s < 0 \/ 4095 <= Working.pc s ->
       Working.cycle rnd s =
         Working.Exc (Exception (PC_out_of_bounds (Working.pc s)))
                     (Working.set_cycle_count s (Working.cycle_count s + 1)) /\
       Working.has_exit (Working._cpu_tick rnd s) = true) /\
      (0 <= Working.pc s <= 4094 -> exists o, Working.fetch s = Ok o)).
Proof.
  split; [|split; [|split]].
  - intros s Hm Hf. destruct (plain_jp_0xFFF s Hm Hf) as (s1 & T & P & M & R).
    exists s1. split; [exact T|]. split; [exact P|].
    split; [|split; [|exact R]].
    + destruct (getitem_in_range (Plain.memory s1) 0xFFF) as (hi & G & _);
        [rewrite M, Hm; lia|].
      exists hi. exact G.
    + apply getitem_past_end. rewrite M, Hm. lia.
  - intros s Hm. split.
    + intros Hp. apply plain_tick_past_end; lia.
    + intros Hp. apply plain_fetch_in_range; lia.
  - intros rnd rnd' s Hm Hf. apply working_jp_0xFFF; done.
  - intros rnd s Hm. split.
    + intros Hp.
      assert (C : Working.cycle rnd s =
                  Working.Exc (Exception (PC_out_of_bounds (Working.pc s)))
                    (Working.set_cycle_count s (Working.cycle_count s + 1))).
      { apply working_cycle_out_of_bounds. rewrite Hm. lia. }
      split; [exact C|]. eapply working_cpu_tick_halts. exact C.
    + intros Hp. apply working_fetch_in_range; lia.
Qed.

Lemma fetch_at_0xFFF_faults_witness :
  (exists s1, Plain.tick (plain_boot [0x1F; 0xFF]) = Ok s1 /\
              Plain.pc s1 = 0xFFF /\ Plain.tick s1 = Raise IndexError) /\
  (exists s1 s2,
      Working.cycle 0 (working_boot [0x1F; 0xFF]) = Working.Val tt s1 /\
      Working.pc s1 = 0xFFF /\
      Working.cycle 0 s1 =
        Working.Exc (Exception (PC_out_of_bounds 0xFFF)) s2 /\
      Working.has_exit (Working._cpu_tick 0 s1) = true).
Proof.
  destruct fetch_at_0xFFF_faults as (P & _ & W & _). split.
  - destruct (P (plain_boot [0x1F; 0xFF])) as (s1 & T & E & _ & _ & R).
    + vm_compute; reflexivity.
    + vm_compute; reflexivity.
    + exists s1. split; [exact T|]. split; [exact E|exact R].
  - apply W; vm_compute; reflexivity.
Defined.

(** C1 as stated fails: on a fresh machine whose ROM is JP 0xFFF, the tick
    after the jump reads [memory[0x1000]] and raises IndexError. *)
Lemma jp_0xFFF_counterexample :
  exists s s1 : Plain.Chip8,
    Plain.init [0x1F; 0xFF] = Ok s /\
    Plain.tick s = Ok s1 /\
    Plain.pc s1 = 0xFFF /\
    Plain.tick s1 = Raise IndexError.
Proof.
  eexists. eexists. split; [vm_compute; reflexivity|].
  split; [vm_compute; reflexivity|].
  split; vm_compute; reflexivity.
Qed.

(** ** CALL and RET at the limits of the stack *)

Lemma land_0xFFF_range (o : Z) : 0 <= Z.land o 0x0FFF < 4096.
Proof.
  change 0x0FFF with 0xFFF. rewrite land_0xFFF. apply Z.mod_pos_bound. lia.
Qed.

Lemma working_dispatch_CALL (rnd : Z) (s : Working.Chip8) :
  Z.land (Working.opcode s) 0xF000 = 0x2000 ->
  Working.dispatch rnd s = Working._2nnn s.
Proof. intros H. unfold Working.dispatch. cbv zeta. rewrite H. reflexivity. Qed.

Lemma working_dispatch_RET (rnd : Z) (s : Working.Chip8) :
  Working.opcode s = 0x00EE ->
  Working.dispatch rnd s = Working._00EE s.
Proof. intros H. unfold Working.dispatch. cbv zeta. rewrite H. reflexivity. Qed.

Lemma working_call_ok (rnd o : Z) (s : Working.Chip8) :
  Working.fetch s = Ok o -> Z.land o 0xF000 = 0x2000 ->
  (length (Working.stack s) < 16)%nat ->
  exists s',
    Working.cycle rnd s = Working.Val tt s' /\
    Working.stack s' = Working.stack s ++ [Working.pc s] /\
    Working.pc s' = Z.land o 0x0FFF /\
    Working.has_exit s' = Working.has_exit s /\
    Working.memory s' = Working.memory s.
Proof.
  intros Hf Ho Hl. eexists. split.
  - unfold Working.cycle. cbv zeta.
    rewrite (working_fetch_ext s) by reflexivity. rewrite Hf.
    cbn [Working.eval].
    rewrite working_dispatch_CALL by exact Ho.
    unfold Working._2nnn, Working.decode. cbv zeta. working_simpl.
    destruct (Z.leb_spec 16 (Z.of_nat (length (Working.stack s)))); [lia|].
    cbn [Working.and_then Working.Done]. reflexivity.
  - match goal with |- Working.stack (Working.timers ?t) = _ /\ _ =>
      destruct (working_timers_frame t) as (Em & Ep & Es & Eh & _) end.
    rewrite Em, Ep, Es, Eh. working_simpl.
    split; [reflexivity|]. split; [|split; reflexivity].
    replace (Z.land o 0x0FFF - 2 + 2) with (Z.land o 0x0FFF) by lia.
    rewrite land_0xFFF. apply Z.mod_small. apply land_0xFFF_range.
Qed.

Lemma working_call_overflow (rnd o : Z) (s : Working.Chip8) :
  Working.fetch s = Ok o -> Z.land o 0xF000 = 0x2000 ->
  (16 <= length (Working.stack s))%nat ->
  exists s',
    Working.cycle rnd s = Working.Exc (Exception Stack_overflow_on_CALL) s'.
Proof.
  intros Hf Ho Hl. eexists.
  unfold Working.cycle. cbv zeta.
  rewrite (working_fetch_ext s) by reflexivity. rewrite Hf.
  cbn [Working.eval].
  rewrite working_dispatch_CALL by exact Ho.
  unfold Working._2nnn, Working.decode. cbv zeta. working_simpl.
  destruct (Z.leb_spec 16 (Z.of_nat (length (Working.stack s)))); [|lia].
  cbn [Working.and_then]. reflexivity.
Qed.

Lemma working_ret_underflow (rnd : Z) (s : Working.Chip8) :
  Working.fetch s = Ok 0x00EE -> Working.stack s = [] ->
  exists s',
    Working.cycle rnd s = Working.Exc (Exception Stack_underflow_on_00EE) s'.
Proof.
  intros Hf Hs. eexists.
  unfold Working.cycle. cbv zeta.
  rewrite (working_fetch_ext s) by reflexivity. rewrite Hf.
  cbn [Working.eval].
  rewrite working_dispatch_RET by reflexivity.
  unfold Working._00EE, Working.decode. cbv zeta. working_simpl.
  rewrite Hs. cbn [Working.and_then]. reflexivity.
Qed.

Lemma working_call_run_depth (n : nat) (s s' : Working.Chip8) :
  Working.stack s = [] -> Working.has_exit s = false ->
  working_call_run n s s' ->
  ((n <= 16)%nat ->
   Working.has_exit s' = false /\ length (Working.stack s') = n) /\
  ((17 <= n)%nat -> Working.has_exit s' = true).
Proof.
  intros Hs Hh R. induction R as [s|n s s' rnd o R IH Hf Ho].
  - split; [|lia]. intros _. rewrite Hs. done.
  - destruct (IH Hs Hh) as [Low High]. split.
    + intros Hn. destruct Low as [Hh' Hl]; [lia|].
      destruct (working_call_ok rnd o s' Hf Ho) as (t & C & St & _ & Eh & _);
        [lia|].
      unfold Working._cpu_tick. rewrite Hh'. cbn [negb]. rewrite C.
      rewrite Eh, St, length_app. cbn [length]. split; [done|lia].
    + intros Hn. destruct (Nat.eq_dec n 16) as [->|Hne].
      * destruct Low as [Hh' Hl]; [lia|].
        destruct (working_call_overflow rnd o s' Hf Ho) as (t & C); [lia|].
        eapply working_cpu_tick_halts. exact C.
      * rewrite working_cpu_tick_halted; apply High; lia.
Qed.

Lemma tetris_dispatch_CALL (rnd o : Z) (s : Tetris.Chip8) :
  Z.land o 0xF000 = 0x2000 ->
  Tetris.dispatch (Tetris.opcodes rnd) o s = Tetris.op_CALL o s.
Proof.
  intros H. unfold Tetris.opcodes. cbn [Tetris.dispatch]. chain H. reflexivity.
Qed.

Lemma tetris_dispatch_RET (rnd : Z) (s : Tetris.Chip8) :
  Tetris.dispatch (Tetris.opcodes rnd) 0x00EE s = Tetris.op_RET 0x00EE s.
Proof. reflexivity. Qed.

(** With the stack full, [op_CALL] drops the return address and jumps. *)
Lemma tetris_call_full (rnd o : Z) (s : Tetris.Chip8) :
  Tetris.fetch s = Ok o -> Z.land o 0xF000 = 0x2000 -> 16 <= Tetris.sp s ->
  exists s',
    Tetris.tick rnd s = Ok s' /\
    Tetris.stack s' = Tetris.stack s /\ Tetris.sp s' = Tetris.sp s /\
    Tetris.pc s' = Z.land o 0x0FFF.
Proof.
  intros Hf Ho Hsp. eexists. split.
  - unfold Tetris.tick. cbv zeta.
    rewrite (tetris_fetch_ext s) by reflexivity. rewrite Hf. cbn [bind].
    rewrite tetris_dispatch_CALL by exact Ho.
    unfold Tetris.op_CALL. tetris_simpl.
    destruct (Z.ltb_spec (Tetris.sp s) 16); [lia|]. cbn [bind]. reflexivity.
  - tetris_simpl. split; [done|]. split; [done|].
    apply uint16_small. pose proof (land_0xFFF_range o). lia.
Qed.

(** With the stack empty, [op_RET] restarts the program at 0x200. *)
Lemma tetris_ret_empty (rnd : Z) (s : Tetris.Chip8) :
  Tetris.fetch s = Ok 0x00EE -> Tetris.sp s = 0 ->
  exists s',
    Tetris.tick rnd s = Ok s' /\
    Tetris.stack s' = Tetris.stack s /\ Tetris.sp s' = Tetris.sp s /\
    Tetris.pc s' = 0x200.
Proof.
  intros Hf Hsp. eexists. split.
  - unfold Tetris.tick. cbv zeta.
    rewrite (tetris_fetch_ext s) by reflexivity. rewrite Hf. cbn [bind].
    rewrite tetris_dispatch_RET. unfold Tetris.op_RET. tetris_simpl.
    rewrite Hsp. cbn [Z.eqb]. reflexivity.
  - tetris_simpl. done.
Qed.

(** C2, as the code has it.  In [Working] the claim holds: from an empty
    stack, [_cpu_tick] runs up to 16 consecutive CALLs and each leaves the
    machine running with one more return address; the 17th raises
    "Stack overflow on CALL", a RET on the empty stack raises "Stack
    underflow on 00EE", either sets [has_exit], and [_cpu_tick] then does
    nothing any more.  In [Tetris] neither case is a failure: with 16
    entries on the stack [op_CALL] drops the return address and jumps, and
    [op_RET] on the empty stack sets PC to 0x200. *)
Theorem stack_discipline :
  (forall (n : nat) (s s' : Working.Chip8),
      Working.stack s = [] -> Working.has_exit s = false ->
      working_call_run n s s' ->
      ((n <= 16)%nat ->
       Working.has_exit s' = false /\ length (Working.stack s') = n) /\
      ((17 <= n)%nat -> Working.has_exit s' = true)) /\
  (forall (rnd o : Z) (s : Working.Chip8),
      Working.fetch s = Ok o -> Z.land o 0xF000 = 0x2000 ->
      length (Working.stack s) = 16%nat ->
      (exists s', Working.cycle rnd s =
                    Working.Exc (Exception Stack_overflow_on_CALL) s') /\
      Working.has_exit (Working._cpu_tick rnd s) = true) /\
  (forall (rnd : Z) (s : Working.Chip8),
      Working.fetch s = Ok 0x00EE -> Working.stack s = [] ->
      (exists s', Working.cycle rnd s =
                    Working.Exc (Exception Stack_underflow_on_00EE) s') /\
      Working.has_exit (Working._cpu_tick rnd s) = true) /\
  (forall (rnd : Z) (s : Working.Chip8),
      Working.has_exit s = true -> Working._cpu_tick rnd s = s) /\
  (forall (rnd o : Z) (s : Tetris.Chip8),
      Tetris.fetch s = Ok o -> Z.land o 0xF000 = 0x2000 ->
      16 <= Tetris.sp s ->
      exists s',
        Tetris.tick rnd s = Ok s' /\
        Tetris.stack s' = Tetris.stack s /\ Tetris.sp s' = Tetris.sp s /\
        Tetris.pc s' = Z.land o 0x0FFF) /\
  (forall (rnd : Z) (s : Tetris.Chip8),
      Tetris.fetch s = Ok 0x00EE -> Tetris.sp s = 0 ->
      exists s',
        Tetris.tick rnd s = Ok s' /\
        Tetris.stack s' = Tetris.stack s /\ Tetris.sp s' = Tetris.sp s /\
        Tetris.pc s' = 0x200).
Proof.
  split; [|split; [|split; [|split; [|split]]]].
  - intros n s s'. apply working_call_run_depth.
  - intros rnd o s Hf Ho Hl.
    destruct (working_call_overflow rnd o s Hf Ho) as (s' & C); [lia|].
    split; [eauto|]. eapply working_cpu_tick_halts. exact C.
  - intros rnd s Hf Hs.
    destruct (working_ret_underflow rnd s Hf Hs) as (s' & C).
    split; [eauto|]. eapply working_cpu_tick_halts. exact C.
  - apply working_cpu_tick_halted.
  - apply tetris_call_full.
  - apply tetris_ret_empty.
Qed.

Ltac self_calls :=
  first
    [ apply call_run_O
    | eapply (call_run_S _ _ _ 0 0x2200);
      [self_calls | vm_compute; reflexivity | reflexivity] ].

(** A ROM that calls itself, CALL 0x200 at 0x200: [Working] halts on the
    17th call. *)
Lemma stack_discipline_witness :
  (exists s',
      working_call_run 17 (working_boot [0x22; 0x00]) s' /\
      Working.has_exit s' = true) /\
  (exists s',
      working_call_run 16 (working_boot [0x22; 0x00]) s' /\
      Working.has_exit s' = false /\ length (Working.stack s') = 16%nat).
Proof.
  destruct stack_discipline as (Run & _).
  assert (Hs : Working.stack (working_boot [0x22; 0x00]) = [])
    by (vm_compute; reflexivity).
  assert (Hh : Working.has_exit (working_boot [0x22; 0x00]) = false)
    by (vm_compute; reflexivity).
  split.
  - assert (R : exists s', working_call_run 17 (working_boot [0x22; 0x00]) s')
      by (eexists; self_calls).
    destruct R as (s' & R). exists s'. split; [exact R|].
    destruct (Run _ _ _ Hs Hh R) as [_ High]. apply High. lia.
  - assert (R : exists s', working_call_run 16 (working_boot [0x22; 0x00]) s')
      by (eexists; self_calls).
    destruct R as (s' & R). exists s'. split; [exact R|].
    destruct (Run _ _ _ Hs Hh R) as [Low _]. apply Low. lia.
Defined.

(** C2 as stated fails on [Tetris]: the ROM CALL 0x200 at 0x200 runs 17
    consecutive CALLs without any failure, the stack pointer staying at 16;
    and RET on a fresh machine, whose stack is empty, succeeds too. *)
Lemma seventeen_calls_counterexample :
  (exists s s17 : Tetris.Chip8,
      Tetris.init [0x22; 0x00] = Ok s /\
      tetris_ticks (replicate 17 0) s = Ok s17 /\
      Tetris.sp s17 = 16 /\ Tetris.pc s17 = 0x200) /\
  (exists s s1 : Tetris.Chip8,
      Tetris.init [0x00; 0xEE] = Ok s /\
      Tetris.sp s = 0 /\
      Tetris.tick 0 s = Ok s1 /\ Tetris.pc s1 = 0x200).
Proof.
  split.
  - eexists. eexists. split; [vm_compute; reflexivity|].
    split; [vm_compute; reflexivity|]. split; vm_compute; reflexivity.
  - eexists. eexists. split; [vm_compute; reflexivity|].
    split; [vm_compute; reflexivity|]. split; vm_compute; reflexivity.
Qed.

(** ** Unknown opcodes in the dispatch table *)

Lemma tetris_dispatch_no_match (table : list (Z * Z * Tetris.handler))
                               (o : Z) (s : Tetris.Chip8) :
  matches_no_pattern table o = true ->
  Tetris.dispatch table o s =
    Ok (Tetris.set_stdout s (Tetris.stdout s ++ [o])).
Proof.
  induction table as [|[[m p] h] rest IH]; intros H; [reflexivity|].
  cbn [matches_no_pattern forallb fst snd] in H.
  apply andb_true_iff in H as [H0 Hr].
  cbn [Tetris.dispatch]. destruct (Z.land o m =? p); [discriminate|].
  apply IH. exact Hr.
Qed.

(** C7: a word that matches no entry of [self.opcodes] is not fatal.  The
    tick returns normally, PC has moved on by 2, the word is printed as
    unknown, and registers, I, memory, stack, timers, video RAM and keys are
    as before. *)
Theorem unknown_opcode_skipped (rnd o : Z) (s : Tetris.Chip8) :
  Tetris.fetch s = Ok o ->
  matches_no_pattern (Tetris.opcodes rnd) o = true ->
  0 <= Tetris.pc s < 65534 ->
  exists s',
    Tetris.tick rnd s = Ok s' /\
    Tetris.pc s' = Tetris.pc s + 2 /\
    Tetris.stdout s' = Tetris.stdout s ++ [o] /\
    Tetris.V s' = Tetris.V s /\
    Tetris.I s' = Tetris.I s /\
    Tetris.memory s' = Tetris.memory s /\
    Tetris.stack s' = Tetris.stack s /\
    Tetris.sp s' = Tetris.sp s /\
    Tetris.delay s' = Tetris.delay s /\
    Tetris.sound s' = Tetris.sound s /\
    Tetris.vram s' = Tetris.vram s /\
    Tetris.keys s' = Tetris.keys s.
Proof.
  intros Hf Hm Hp. eexists. split.
  - unfold Tetris.tick. cbv zeta.
    rewrite (tetris_fetch_ext s) by reflexivity. rewrite Hf. cbn [bind].
    rewrite tetris_dispatch_no_match by exact Hm. reflexivity.
  - tetris_simpl. split; [apply uint16_small; lia|]. repeat split.
Qed.

(** 0123 (SYS) and B300 (JP V0, absent from the table) are such words. *)
Lemma unknown_opcode_skipped_witness :
  (exists s',
      Tetris.tick 0 (tetris_boot [0x01; 0x23]) = Ok s' /\
      Tetris.pc s' = 0x202 /\ Tetris.stdout s' = [0x0123] /\
      Tetris.V s' = Tetris.V (tetris_boot [0x01; 0x23])) /\
  (exists s',
      Tetris.tick 0 (tetris_boot [0xB3; 0x00]) = Ok s' /\
      Tetris.pc s' = 0x202 /\ Tetris.stdout s' = [0xB300] /\
      Tetris.V s' = Tetris.V (tetris_boot [0xB3; 0x00])).
Proof.
  split.
  - destruct (unknown_opcode_skipped 0 0x0123 (tetris_boot [0x01; 0x23]))
      as (s' & T & P & O & HV & _);
      [vm_compute; reflexivity|vm_compute; reflexivity
      |vm_compute; split; [intros Hc; discriminate Hc|reflexivity]|].
    exists s'. auto.
  - destruct (unknown_opcode_skipped 0 0xB300 (tetris_boot [0xB3; 0x00]))
      as (s' & T & P & O & HV & _);
      [vm_compute; reflexivity|vm_compute; reflexivity
      |vm_compute; split; [intros Hc; discriminate Hc|reflexivity]|].
    exists s'. auto.
Defined.

(** ** Loading a ROM *)

Lemma splice_nil (p : nat) (m : list Z) : splice p [] m = m.
Proof.
  unfold splice. cbn [app length]. rewrite Nat.add_0_r. apply take_drop.
Qed.

Lemma splice_cons (p : nat) (b : Z) (r m : list Z) :
  (p < length m)%nat ->
  splice (S p) r (<[p := b]> m) = splice p (b :: r) m.
Proof.
  intros Hp. unfold splice.
  rewrite (take_S_r _ _ b) by (apply list_lookup_insert_eq; exact Hp).
  rewrite take_insert_ge by lia.
  rewrite drop_insert_lt by lia.
  rewrite <- app_assoc. cbn [app length].
  replace (S p + length r)%nat with (p + S (length r))%nat by lia.
  reflexivity.
Qed.

Lemma plain_set_memory_id (s : Plain.Chip8) :
  Plain.set_memory s (Plain.memory s) = s.
Proof. destruct s. reflexivity. Qed.

Lemma plain_load_bytes_ok (base : Z) (l : list Z) :
  forall (i : Z) (s : Plain.Chip8),
    0 <= base + i ->
    base + i + Z.of_nat (length l) <= Z.of_nat (length (Plain.memory s)) ->
    Plain.load_bytes base (enumerate_from i l) s =
      Ok (Plain.set_memory s
            (splice (Z.to_nat (base + i)) l (Plain.memory s))).
Proof.
  induction l as [|b r IH]; intros i s H0 H1.
  - cbn [enumerate_from Plain.load_bytes]. rewrite splice_nil.
    rewrite plain_set_memory_id. reflexivity.
  - cbn [enumerate_from Plain.load_bytes]. cbn [length] in H1.
    unfold Plain.write_memory. rewrite setitem_in_range by lia.
    cbn [bind]. rewrite IH.
    + plain_simpl. f_equal. unfold Plain.set_memory. plain_simpl. f_equal.
      replace (Z.to_nat (base + (i + 1))) with (S (Z.to_nat (base + i)))
        by lia.
      apply splice_cons. lia.
    + lia.
    + plain_simpl. rewrite length_insert. lia.
Qed.

Lemma plain_load_bytes_overflow (base : Z) (l : list Z) :
  forall (i : Z) (s : Plain.Chip8),
    0 <= base + i <= Z.of_nat (length (Plain.memory s)) ->
    Z.of_nat (length (Plain.memory s)) < base + i + Z.of_nat (length l) ->
    Plain.load_bytes base (enumerate_from i l) s = Raise IndexError.
Proof.
  induction l as [|b r IH]; intros i s H0 H1.
  - cbn [length] in H1. lia.
  - cbn [enumerate_from Plain.load_bytes]. cbn [length] in H1.
    unfold Plain.write_memory.
    destruct (Z.lt_ge_cases (base + i) (Z.of_nat (length (Plain.memory s)))).
    + rewrite setitem_in_range by lia. cbn [bind].
      apply IH; plain_simpl; rewrite length_insert; lia.
    + rewrite setitem_past_end by lia. reflexivity.
Qed.

Lemma plain_init_font :
  Plain.load_bytes 0 (enumerate (take 80 FONTSET)) Plain.blank =
    Ok (Plain.set_memory Plain.blank fresh_memory).
Proof. vm_compute. reflexivity. Qed.

Lemma plain_init_ok (rom : list Z) :
  (length rom <= 3584)%nat ->
  exists s, Plain.init rom = Ok s /\
            Plain.memory s = splice 0x200 rom fresh_memory /\
            Plain.pc s = 0x200.
Proof.
  intros Hl. eexists. split.
  - unfold Plain.init. rewrite plain_init_font. cbn [bind].
    unfold enumerate. rewrite plain_load_bytes_ok; [reflexivity|lia|].
    plain_simpl. change (length fresh_memory) with 4096%nat. lia.
  - plain_simpl. split; reflexivity.
Qed.

Lemma plain_init_overflow (rom : list Z) :
  (3584 < length rom)%nat -> Plain.init rom = Raise IndexError.
Proof.
  intros Hl. unfold Plain.init. rewrite plain_init_font. cbn [bind].
  unfold enumerate.
  apply plain_load_bytes_overflow; plain_simpl;
    change (length fresh_memory) with 4096%nat; lia.
Qed.

Lemma working_set_memory_id (s : Working.Chip8) :
  Working.set_memory s (Working.memory s) = s.
Proof. destruct s. reflexivity. Qed.

(** [load_rom] writes while [0x200 + i < 4096] and passes over every later
    byte in silence. *)
Lemma working_load_rom_loop_spec (l : list Z) :
  forall (i : Z) (s : Working.Chip8),
    0 <= i -> length (Working.memory s) = 4096%nat ->
    Working.load_rom_loop (enumerate_from i l) s =
      Working.Val tt
        (Working.set_memory s
           (splice (Z.to_nat (0x200 + i)) (take (Z.to_nat (3584 - i)) l)
                   (Working.memory s))).
Proof.
  induction l as [|b r IH]; intros i s H0 Hm.
  - cbn [enumerate_from Working.load_rom_loop]. rewrite take_nil, splice_nil.
    rewrite working_set_memory_id. reflexivity.
  - cbn [enumerate_from Working.load_rom_loop].
    destruct (Z.ltb_spec (0x200 + i) 4096) as [Hlt|Hge].
    + unfold Working.write_memory. rewrite setitem_in_range by lia.
      cbn [Working.eval Working.Done Working.and_then].
      rewrite IH; [|lia|working_simpl; rewrite length_insert; exact Hm].
      working_simpl. f_equal. unfold Working.set_memory. working_simpl.
      f_equal.
      replace (Z.to_nat (3584 - i)) with (S (Z.to_nat (3584 - (i + 1))))
        by lia.
      cbn [take].
      replace (Z.to_nat (0x200 + (i + 1))) with (S (Z.to_nat (0x200 + i)))
        by lia.
      apply splice_cons. lia.
    + cbn [Working.Done Working.and_then].
      rewrite IH by (done || lia).
      replace (Z.to_nat (3584 - i)) with 0%nat by lia.
      replace (Z.to_nat (3584 - (i + 1))) with 0%nat by lia.
      cbn [take]. rewrite !splice_nil. reflexivity.
Qed.

Lemma working_load_rom_spec (data : list Z) (s : Working.Chip8) :
  length (Working.memory s) = 4096%nat ->
  Working.load_rom data s =
    Working.Val tt
      (Working.set_memory s (splice 0x200 (take 3584 data) (Working.memory s))).
Proof.
  intros Hm. unfold Working.load_rom, enumerate.
  rewrite working_load_rom_loop_spec by (done || lia). reflexivity.
Qed.

Lemma working_init_spec :
  Working.init = Working.Val tt (Working.set_memory Working.blank fresh_memory).
Proof. vm_compute. reflexivity. Qed.

(** C8, as the code has it.  A ROM of at most 4096 - 0x200 = 3584 bytes is
    copied to memory from offset 0x200 on, by [Plain.init] and by
    [Working.load_rom] alike.  A longer ROM is never reported as too large:
    the constructor of [Plain] faults with IndexError on the byte that would
    go to address 4096, and [Working.load_rom] stores the first 3584 bytes,
    passes over the rest and returns normally. *)
Theorem rom_load_bounds :
  (forall rom : list Z,
      (length rom <= 3584)%nat ->
      exists s, Plain.init rom = Ok s /\
                Plain.memory s = splice 0x200 rom fresh_memory /\
                Plain.pc s = 0x200) /\
  (forall rom : list Z,
      (3584 < length rom)%nat -> Plain.init rom = Raise IndexError) /\
  (exists s0, Working.init = Working.Val tt s0 /\
              Working.memory s0 = fresh_memory) /\
  (forall (data : list Z) (s : Working.Chip8),
      length (Working.memory s) = 4096%nat ->
      exists s',
        Working.load_rom data s = Working.Val tt s' /\
        Working.memory s' = splice 0x200 (take 3584 data) (Working.memory s) /\
        ((length data <= 3584)%nat ->
         Working.memory s' = splice 0x200 data (Working.memory s))).
Proof.
  split; [|split; [|split]].
  - apply plain_init_ok.
  - apply plain_init_overflow.
  - eexists. split; [apply working_init_spec|reflexivity].
  - intros data s Hm. eexists. split; [apply working_load_rom_spec; exact Hm|].
    working_simpl. split; [reflexivity|].
    intros Hl. rewrite take_ge by lia. reflexivity.
Qed.

Lemma rom_load_bounds_witness :
  (exists s, Plain.init [0x12; 0x34; 0x56] = Ok s /\
             Plain.memory s = splice 0x200 [0x12; 0x34; 0x56] fresh_memory) /\
  Plain.init (replicate 3585 1) = Raise IndexError /\
  (exists s',
      Working.load_rom (replicate 3585 1) (working_boot []) =
        Working.Val tt s' /\
      Working.memory s' =
        splice 0x200 (take 3584 (replicate 3585 1))
               (Working.memory (working_boot []))).
Proof.
  destruct rom_load_bounds as (P1 & P2 & _ & W).
  split; [|split].
  - destruct (P1 [0x12; 0x34; 0x56]) as (s & Hi & Hm & _);
      [vm_compute; lia|].
    exists s. auto.
  - apply P2. vm_compute. lia.
  - destruct (W (replicate 3585 1) (working_boot [])) as (s' & Hl & Hm & _);
      [vm_compute; reflexivity|].
    exists s'. auto.
Defined.

(** C8 as stated fails: [load_rom] takes a ROM of 3585 bytes without any
    report; memory ends up holding its first 3584 bytes and the machine is
    as loaded as with any other ROM. *)
Lemma rom_too_large_counterexample :
  exists s0 s' : Working.Chip8,
    Working.init = Working.Val tt s0 /\
    Working.load_rom (replicate 3585 1) s0 = Working.Val tt s' /\
    Working.memory s' = take 0x200 fresh_memory ++ replicate 3584 1 /\
    Working.pc s' = 0x200 /\ Working.has_exit s' = false.
Proof.
  eexists. eexists. split; [vm_compute; reflexivity|].
  split; [vm_compute; reflexivity|].
  split; [vm_compute; reflexivity|]. split; vm_compute; reflexivity.
Qed.

(** ** What the instructions of [Plain.tick] leave alone *)

Lemma for_each_preserves {S : Type} (R : S -> S -> Prop)
      (body : Z -> S -> result S) :
  (forall s, R s s) ->
  (forall s1 s2 s3, R s1 s2 -> R s2 s3 -> R s1 s3) ->
  (forall i s s', body i s = Ok s' -> R s s') ->
  forall l s s', for_each body l s = Ok s' -> R s s'.
Proof.
  intros Hrefl Htrans Hbody. induction l as [|i r IH]; intros s s' H.
  - injection H as <-. apply Hrefl.
  - cbn [for_each] in H. destruct (body i s) as [s1|] eqn:E; [|discriminate].
    cbn [bind] in H. eapply Htrans; [eapply Hbody; exact E|]. apply IH. exact H.
Qed.

Lemma plain_write_V_core (i v : Z) (s s' : Plain.Chip8) :
  Plain.write_V i v s = Ok s' -> plain_core s' = plain_core s.
Proof.
  unfold Plain.write_V. destruct (setitem _ _ _); [|discriminate].
  intros [= <-]. reflexivity.
Qed.

Lemma plain_write_memory_core (a v : Z) (s s' : Plain.Chip8) :
  Plain.write_memory a v s = Ok s' -> plain_core s' = plain_core s.
Proof.
  unfold Plain.write_memory. destruct (setitem _ _ _); [|discriminate].
  intros [= <-]. reflexivity.
Qed.

Lemma plain_for_each_core (body : Z -> Plain.Chip8 -> result Plain.Chip8) :
  (forall i s s', body i s = Ok s' -> plain_core s' = plain_core s) ->
  forall l s s', for_each body l s = Ok s' -> plain_core s' = plain_core s.
Proof.
  intros Hbody l s s' H.
  apply (for_each_preserves (fun a b => plain_core b = plain_core a) body)
    with (l := l); [done|congruence|exact Hbody|exact H].
Qed.

(** Take a chain of binds apart; every state that appears comes with its
    [plain_core] equation. *)
Ltac plain_binds H :=
  repeat
    (cbv beta in H;
     lazymatch type of H with
     | bind ?m _ = Ok _ =>
         let E := fresh "E" in
         destruct m eqn:E; cbn [bind] in H; [|discriminate H];
         try apply plain_write_V_core in E;
         try apply plain_write_memory_core in E
     | Plain.fall _ = Ok _ => unfold Plain.fall in H
     | match ?x with Some _ => _ | None => _ end = Ok _ =>
         destruct x
     | (let '(_, _) := ?x in _) = Ok _ => destruct x
     end).

Ltac plain_core_done H :=
  injection H as <-; unfold plain_core in *; cbn [plain_flow_state];
  plain_simpl;
  repeat match goal with
         | E : (_, _, _) = (_, _, _) |- _ => injection E as ? ? ?
         end;
  unfold Plain.skip_if;
  repeat match goal with |- context [if ?b then _ else _] => destruct b end;
  plain_simpl; repeat split; intros;
  first [congruence | eexists; reflexivity].

Lemma plain_execute_frame (o : Z) (s : Plain.Chip8) (f : Plain.flow) :
  Plain.execute o s = Ok f ->
  (Z.land o 0xF0FF <> 0xF015 ->
   Plain.delay (plain_flow_state f) = Plain.delay s) /\
  (Z.land o 0xF0FF <> 0xF018 ->
   Plain.sound (plain_flow_state f) = Plain.sound s) /\
  (o <> 0x00EE -> Z.land o 0xF000 <> 0x2000 ->
   Plain.stack (plain_flow_state f) = Plain.stack s) /\
  (Z.land o 0xF0FF <> 0xF00A -> exists t, f = Plain.Fall t).
Proof.
  intros H. unfold Plain.execute in H. cbv zeta in H.
  repeat
    lazymatch type of H with
    | (if ?c then _ else _) = _ =>
        let T := fresh "T" in
        destruct c eqn:T;
        [ try (apply Z.eqb_eq in T); plain_binds H;
          try (apply plain_for_each_core in E;
               [|intros ? ? ? Hb; plain_binds Hb;
                 first [ exact (plain_write_memory_core _ _ _ _ Hb)
                       | exact (plain_write_V_core _ _ _ _ Hb) ]]);
          plain_core_done H
        | clear T ]
    end.
  plain_core_done H.
Qed.

Lemma plain_timers_countdown (s : Plain.Chip8) :
  Plain.delay (Plain.timers s) = countdown (Plain.delay s) /\
  Plain.sound (Plain.timers s) = countdown (Plain.sound s).
Proof.
  unfold Plain.timers, countdown. cbv zeta.
  destruct (0 <? Plain.delay s); plain_simpl;
    destruct (0 <? Plain.sound s); plain_simpl; split; reflexivity.
Qed.

Lemma plain_tick_stack (o : Z) (s s' : Plain.Chip8) :
  Plain.fetch s = Ok o -> Plain.tick s = Ok s' ->
  o <> 0x00EE -> Z.land o 0xF000 <> 0x2000 ->
  Plain.stack s' = Plain.stack s.
Proof.
  intros Hf Ht Hret Hcall. unfold Plain.tick in Ht. rewrite Hf in Ht.
  cbn [bind] in Ht.
  destruct (Plain.execute o _) as [f|] eqn:E; [|discriminate]. cbn [bind] in Ht.
  apply plain_execute_frame in E as (_ & _ & St & _).
  specialize (St Hret Hcall). plain_simpl_in St.
  destruct f as [t|t]; injection Ht as <-; cbn [plain_flow_state] in St.
  - destruct (plain_timers_frame t) as (_ & _ & _ & _ & _ & Es & _).
    congruence.
  - exact St.
Qed.

(** Every tick of [Plain] that falls through its opcode chain ends by
    counting both timers down. *)
Lemma plain_tick_timers (o : Z) (s s' : Plain.Chip8) :
  Plain.fetch s = Ok o -> Plain.tick s = Ok s' ->
  Z.land o 0xF0FF <> 0xF00A ->
  (Z.land o 0xF0FF <> 0xF015 -> Plain.delay s' = countdown (Plain.delay s)) /\
  (Z.land o 0xF0FF <> 0xF018 -> Plain.sound s' = countdown (Plain.sound s)).
Proof.
  intros Hf Ht Hw. unfold Plain.tick in Ht. rewrite Hf in Ht.
  cbn [bind] in Ht.
  destruct (Plain.execute o _) as [f|] eqn:E; [|discriminate]. cbn [bind] in Ht.
  apply plain_execute_frame in E as (D & S & _ & F).
  destruct (F Hw) as (t & ->). cbn [plain_flow_state] in *.
  injection Ht as <-. plain_simpl_in D. plain_simpl_in S.
  destruct (plain_timers_countdown t) as (Ed & Es).
  split; intros Hne; [rewrite Ed, D|rewrite Es, S]; done.
Qed.

(** ** What the handlers of [Tetris] leave alone *)

Lemma tetris_write_V_timers (i v : Z) (s s' : Tetris.Chip8) :
  Tetris.write_V i v s = Ok s' ->
  Tetris.delay s' = Tetris.delay s /\ Tetris.sound s' = Tetris.sound s.
Proof.
  unfold Tetris.write_V. destruct (setitem _ _ _); [|discriminate].
  intros [= <-]. split; reflexivity.
Qed.

Lemma tetris_write_memory_timers (a v : Z) (s s' : Tetris.Chip8) :
  Tetris.write_memory a v s = Ok s' ->
  Tetris.delay s' = Tetris.delay s /\ Tetris.sound s' = Tetris.sound s.
Proof.
  unfold Tetris.write_memory. destruct (ba_setitem _ _ _); [|discriminate].
  intros [= <-]. split; reflexivity.
Qed.

Ltac tetris_binds H :=
  repeat
    (cbv beta zeta in H;
     lazymatch type of H with
     | bind (if ?c then _ else _) _ = Ok _ => destruct c
     | bind (bind ?m _) _ = Ok _ =>
         let E := fresh "E" in
         destruct m eqn:E; cbn [bind] in H; [|discriminate H]
     | bind ?m _ = Ok _ =>
         let E := fresh "E" in
         destruct m eqn:E; cbn [bind] in H; [|discriminate H];
         try apply tetris_write_V_timers in E;
         try apply tetris_write_memory_timers in E
     | (if ?c then _ else _) = Ok _ => destruct c
     | match ?x with Some _ => _ | None => _ end = Ok _ => destruct x
     | Tetris.write_V _ _ _ = Ok _ => apply tetris_write_V_timers in H
     | Tetris.write_memory _ _ _ = Ok _ =>
         apply tetris_write_memory_timers in H
     end).

Ltac tetris_timers_done H :=
  try (injection H as <-); unfold Tetris.skip_if;
  repeat match goal with |- context [if ?b then _ else _] => destruct b end;
  tetris_simpl;
  repeat match goal with E : _ /\ _ |- _ => destruct E end;
  repeat split; intros; congruence.

Lemma tetris_dispatch_timers (rnd o : Z) (s s' : Tetris.Chip8) :
  Tetris.dispatch (Tetris.opcodes rnd) o s = Ok s' ->
  (Z.land o 0xF0FF <> 0xF015 -> Tetris.delay s' = Tetris.delay s) /\
  (Z.land o 0xF0FF <> 0xF018 -> Tetris.sound s' = Tetris.sound s).
Proof.
  intros H. unfold Tetris.opcodes in H. cbn [Tetris.dispatch] in H.
  repeat
    lazymatch type of H with
    | (if ?c then _ else _) = _ =>
        let T := fresh "T" in
        destruct c eqn:T;
        [ try (apply Z.eqb_eq in T);
          unfold Tetris.op_CLS, Tetris.op_RET, Tetris.op_JP, Tetris.op_CALL,
            Tetris.op_SE_Vx_kk, Tetris.op_SNE_Vx_kk, Tetris.op_SE_Vx_Vy,
            Tetris.op_LD_Vx_kk, Tetris.op_ADD_Vx_kk, Tetris.op_LD_Vx_Vy,
            Tetris.op_OR, Tetris.op_AND, Tetris.op_XOR, Tetris.op_ADD,
            Tetris.op_SUB, Tetris.op_SHR, Tetris.op_SUBN, Tetris.op_SHL,
            Tetris.op_SNE_Vx_Vy, Tetris.op_LD_I, Tetris.op_DRW, Tetris.op_SKP,
            Tetris.op_SKNP, Tetris.op_LD_Vx_DT, Tetris.op_WAITKEY,
            Tetris.op_LD_DT_Vx, Tetris.op_LD_ST_Vx, Tetris.op_ADD_I_Vx,
            Tetris.op_FONT, Tetris.op_BCD, Tetris.op_STORE, Tetris.op_LOAD,
            Tetris.op_RND in H;
          tetris_binds H; tetris_timers_done H
        | clear T ]
    end.
  tetris_timers_done H.
Qed.

(** ** The timers *)

Lemma countdown_cases (t : Z) :
  (0 < t -> countdown t = t - 1) /\ (t <= 0 -> countdown t = t) /\
  (0 <= t -> 0 <= countdown t).
Proof.
  unfold countdown. destruct (Z.ltb_spec 0 t); repeat split; intros; lia.
Qed.

Lemma tetris_timer_tick_countdown (s : Tetris.Chip8) :
  Tetris.delay (Tetris._timer_tick s) = countdown (Tetris.delay s) /\
  Tetris.sound (Tetris._timer_tick s) = countdown (Tetris.sound s).
Proof.
  unfold Tetris._timer_tick, countdown. cbv zeta.
  destruct (0 <? Tetris.delay s); tetris_simpl;
    destruct (0 <? Tetris.sound s); tetris_simpl;
    try destruct (negb _); split; reflexivity.
Qed.

Lemma tetris_tick_timers (rnd o : Z) (s s' : Tetris.Chip8) :
  Tetris.fetch s = Ok o -> Tetris.tick rnd s = Ok s' ->
  (Z.land o 0xF0FF <> 0xF015 -> Tetris.delay s' = Tetris.delay s) /\
  (Z.land o 0xF0FF <> 0xF018 -> Tetris.sound s' = Tetris.sound s).
Proof.
  intros Hf Ht. unfold Tetris.tick in Ht. cbv zeta in Ht.
  rewrite (tetris_fetch_ext s) in Ht by reflexivity. rewrite Hf in Ht.
  cbn [bind] in Ht. apply tetris_dispatch_timers in Ht. exact Ht.
Qed.

(** A scan of the keys that finds none has read a 0 from every key. *)
Lemma first_pressed_None_inv (ks l : list Z) :
  first_pressed ks l = Ok None ->
  forall i, i ∈ l -> exists v, getitem ks i = Ok v /\ truthy v = false.
Proof.
  induction l as [|a r IH]; intros H i Hi; [inversion Hi|].
  cbn [first_pressed] in H.
  destruct (getitem ks a) as [v|] eqn:G; [|discriminate H]. cbn [bind] in H.
  destruct (truthy v) eqn:T; [discriminate H|].
  apply elem_of_cons in Hi as [->|Hi]; [eauto|]. apply IH; assumption.
Qed.

Lemma none_pressed_of_scan (ks : list Z) :
  first_pressed ks (range (Z.of_nat (length ks))) = Ok None ->
  none_pressed ks = true.
Proof.
  intros H. unfold none_pressed. apply forallb_forall. intros x Hx.
  apply list_elem_of_In, list_elem_of_lookup in Hx as (j & Lj).
  pose proof (lookup_lt_Some _ _ _ Lj) as Hj.
  destruct (first_pressed_None_inv ks _ H (Z.of_nat j)) as (v & G & T).
  { apply elem_of_seqZ. lia. }
  apply getitem_Ok_nonneg in G as [L _]; [|lia].
  rewrite Nat2Z.id, Lj in L. injection L as ->.
  unfold truthy in T. destruct (v =? 0); [reflexivity|discriminate T].
Qed.

Lemma plain_execute_LD_DT (o : Z) (s : Plain.Chip8) :
  Z.land o 0xF0FF = 0xF015 ->
  Plain.execute o s =
    let* vx := getitem (Plain.V s) (Z.land (Z.shiftr o 8) 0xF) in
    Ok (Plain.Fall (Plain.set_delay s vx)).
Proof. intros H. unfold Plain.execute. cbv zeta. chain H. reflexivity. Qed.

Lemma plain_execute_LD_ST (o : Z) (s : Plain.Chip8) :
  Z.land o 0xF0FF = 0xF018 ->
  Plain.execute o s =
    let* vx := getitem (Plain.V s) (Z.land (Z.shiftr o 8) 0xF) in
    Ok (Plain.Fall (Plain.set_sound s vx)).
Proof. intros H. unfold Plain.execute. cbv zeta. chain H. reflexivity. Qed.

Lemma tetris_dispatch_LD_DT (rnd o : Z) (s : Tetris.Chip8) :
  Z.land o 0xF0FF = 0xF015 ->
  Tetris.dispatch (Tetris.opcodes rnd) o s = Tetris.op_LD_DT_Vx o s.
Proof.
  intros H. unfold Tetris.opcodes. cbn [Tetris.dispatch]. chain H. reflexivity.
Qed.

Lemma tetris_dispatch_LD_ST (rnd o : Z) (s : Tetris.Chip8) :
  Z.land o 0xF0FF = 0xF018 ->
  Tetris.dispatch (Tetris.opcodes rnd) o s = Tetris.op_LD_ST_Vx o s.
Proof.
  intros H. unfold Tetris.opcodes. cbn [Tetris.dispatch]. chain H. reflexivity.
Qed.

Lemma register_index_nonneg (o : Z) : 0 <= Z.land (Z.shiftr o 8) 0xF.
Proof. apply Z.land_nonneg. right. lia. Qed.

(** Fx15 and Fx18 in [Tetris] store Vx in their timer. *)
Lemma tetris_tick_loads_timer (rnd o : Z) (s s' : Tetris.Chip8) :
  Tetris.fetch s = Ok o -> Tetris.tick rnd s = Ok s' ->
  (Z.land o 0xF0FF = 0xF015 ->
   Tetris.V s !! Z.to_nat (Z.land (Z.shiftr o 8) 0xF)
     = Some (Tetris.delay s')) /\
  (Z.land o 0xF0FF = 0xF018 ->
   Tetris.V s !! Z.to_nat (Z.land (Z.shiftr o 8) 0xF)
     = Some (Tetris.sound s')).
Proof.
  intros Hf Ht. unfold Tetris.tick in Ht. cbv zeta in Ht.
  rewrite (tetris_fetch_ext s) in Ht by reflexivity. rewrite Hf in Ht.
  cbn [bind] in Ht. pose proof (register_index_nonneg o) as Rx.
  split; intros H.
  - rewrite tetris_dispatch_LD_DT in Ht by exact H.
    unfold Tetris.op_LD_DT_Vx, Tetris.reg_x in Ht. cbv zeta in Ht.
    tetris_simpl_in Ht.
    destruct (getitem (Tetris.V s) _) as [vx|] eqn:G; [|discriminate Ht].
    cbn [bind] in Ht. injection Ht as <-. tetris_simpl.
    apply getitem_Ok_nonneg in G as [L _]; [exact L|exact Rx].
  - rewrite tetris_dispatch_LD_ST in Ht by exact H.
    unfold Tetris.op_LD_ST_Vx, Tetris.reg_x in Ht. cbv zeta in Ht.
    tetris_simpl_in Ht.
    destruct (getitem (Tetris.V s) _) as [vx|] eqn:G; [|discriminate Ht].
    cbn [bind] in Ht. injection Ht as <-. tetris_simpl.
    apply getitem_Ok_nonneg in G as [L _]; [exact L|exact Rx].
Qed.

(** Fx15 and Fx18 in [Plain]: the timer is written and then counted down
    by the same tick. *)
Lemma plain_tick_loads_timer (o : Z) (s s' : Plain.Chip8) :
  Plain.fetch s = Ok o -> Plain.tick s = Ok s' ->
  (Z.land o 0xF0FF = 0xF015 ->
   exists vx, Plain.V s !! Z.to_nat (Z.land (Z.shiftr o 8) 0xF) = Some vx /\
              Plain.delay s' = countdown vx) /\
  (Z.land o 0xF0FF = 0xF018 ->
   exists vx, Plain.V s !! Z.to_nat (Z.land (Z.shiftr o 8) 0xF) = Some vx /\
              Plain.sound s' = countdown vx).
Proof.
  intros Hf Ht. unfold Plain.tick in Ht. rewrite Hf in Ht. cbn [bind] in Ht.
  pose proof (register_index_nonneg o) as Rx.
  split; intros H.
  - rewrite plain_execute_LD_DT in Ht by exact H. cbv zeta in Ht.
    plain_simpl_in Ht.
    destruct (getitem (Plain.V s) _) as [vx|] eqn:G; [|discriminate Ht].
    cbn [bind] in Ht. injection Ht as <-.
    apply getitem_Ok_nonneg in G as [L _]; [|exact Rx].
    exists vx. split; [exact L|].
    match goal with |- Plain.delay (Plain.timers ?t) = _ =>
      destruct (plain_timers_countdown t) as (-> & _) end.
    reflexivity.
  - rewrite plain_execute_LD_ST in Ht by exact H. cbv zeta in Ht.
    plain_simpl_in Ht.
    destruct (getitem (Plain.V s) _) as [vx|] eqn:G; [|discriminate Ht].
    cbn [bind] in Ht. injection Ht as <-.
    apply getitem_Ok_nonneg in G as [L _]; [|exact Rx].
    exists vx. split; [exact L|].
    match goal with |- Plain.sound (Plain.timers ?t) = _ =>
      destruct (plain_timers_countdown t) as (_ & ->) end.
    reflexivity.
Qed.

(** Fx0A in [Plain] with a key down: the tick returns from inside the scan,
    before the timer code. *)
Lemma plain_tick_wait_found (o : Z) (s s' : Plain.Chip8) :
  Plain.fetch s = Ok o -> Plain.tick s = Ok s' ->
  Z.land o 0xF0FF = 0xF00A ->
  length (Plain.keys s) = 16%nat -> none_pressed (Plain.keys s) = false ->
  Plain.delay s' = Plain.delay s /\ Plain.sound s' = Plain.sound s.
Proof.
  intros Hf Ht Ho Hk Hn. unfold Plain.tick in Ht. rewrite Hf in Ht.
  cbn [bind] in Ht. rewrite plain_execute_WAITKEY in Ht by exact Ho.
  cbv zeta in Ht. plain_simpl_in Ht.
  destruct (first_pressed (Plain.keys s) (range 16)) as [[k|]|] eqn:F;
    cbn [bind] in Ht; [| |discriminate Ht].
  - destruct (Plain.write_V _ k _) as [t|] eqn:W; [|discriminate Ht].
    cbn [bind] in Ht. injection Ht as <-.
    apply plain_write_V_core in W. unfold plain_core in W.
    plain_simpl_in W. injection W as D S _. split; assumption.
  - change 16 with (Z.of_nat 16) in F. rewrite <- Hk in F.
    apply none_pressed_of_scan in F. congruence.
Qed.

(** C9, as the code has it.  In [Tetris] the claim holds: a tick executing
    anything but Fx15 leaves the delay timer as it was, anything but Fx18
    the sound timer (Fx15 and Fx18 store Vx in their timer), and
    [_timer_tick] takes one off each timer that is above 0 and leaves the
    others, so a timer never goes below 0.  [Plain] has no separate timer
    routine: every tick that completes itself ends by taking one off each
    timer that is above 0, whatever instruction it executed, also a WAIT KEY
    that finds no key; after Fx15 or Fx18 the timer just written holds Vx
    counted down in this way.  The one exception is a WAIT KEY that finds a
    key down: it returns before the timer code and leaves both timers as
    they were. *)
Theorem timer_updates :
  (forall (rnd o : Z) (s s' : Tetris.Chip8),
      Tetris.fetch s = Ok o -> Tetris.tick rnd s = Ok s' ->
      let x := Z.to_nat (Z.land (Z.shiftr o 8) 0xF) in
      (Z.land o 0xF0FF <> 0xF015 -> Tetris.delay s' = Tetris.delay s) /\
      (Z.land o 0xF0FF <> 0xF018 -> Tetris.sound s' = Tetris.sound s) /\
      (Z.land o 0xF0FF = 0xF015 ->
       Tetris.V s !! x = Some (Tetris.delay s')) /\
      (Z.land o 0xF0FF = 0xF018 ->
       Tetris.V s !! x = Some (Tetris.sound s'))) /\
  (forall s : Tetris.Chip8,
      (0 < Tetris.delay s ->
       Tetris.delay (Tetris._timer_tick s) = Tetris.delay s - 1) /\
      (Tetris.delay s <= 0 ->
       Tetris.delay (Tetris._timer_tick s) = Tetris.delay s) /\
      (0 < Tetris.sound s ->
       Tetris.sound (Tetris._timer_tick s) = Tetris.sound s - 1) /\
      (Tetris.sound s <= 0 ->
       Tetris.sound (Tetris._timer_tick s) = Tetris.sound s) /\
      (0 <= Tetris.delay s -> 0 <= Tetris.delay (Tetris._timer_tick s)) /\
      (0 <= Tetris.sound s -> 0 <= Tetris.sound (Tetris._timer_tick s))) /\
  (forall (o : Z) (s s' : Plain.Chip8),
      Plain.fetch s = Ok o -> Plain.tick s = Ok s' ->
      length (Plain.keys s) = 16%nat ->
      let x := Z.to_nat (Z.land (Z.shiftr o 8) 0xF) in
      (Z.land o 0xF0FF = 0xF00A -> none_pressed (Plain.keys s) = false ->
       Plain.delay s' = Plain.delay s /\ Plain.sound s' = Plain.sound s) /\
      (Z.land o 0xF0FF <> 0xF00A \/ none_pressed (Plain.keys s) = true ->
       (Z.land o 0xF0FF <> 0xF015 ->
        Plain.delay s' = countdown (Plain.delay s)) /\
       (Z.land o 0xF0FF <> 0xF018 ->
        Plain.sound s' = countdown (Plain.sound s)) /\
       (Z.land o 0xF0FF = 0xF015 ->
        exists vx, Plain.V s !! x = Some vx /\
                   Plain.delay s' = countdown vx) /\
       (Z.land o 0xF0FF = 0xF018 ->
        exists vx, Plain.V s !! x = Some vx /\
                   Plain.sound s' = countdown vx))).
Proof.
  split; [|split].
  - intros rnd o s s' Hf Ht x.
    destruct (tetris_tick_timers rnd o s s' Hf Ht) as (D & S).
    destruct (tetris_tick_loads_timer rnd o s s' Hf Ht) as (LD & LS).
    auto.
  - intros s. destruct (tetris_timer_tick_countdown s) as (-> & ->).
    destruct (countdown_cases (Tetris.delay s)) as (? & ? & ?).
    destruct (countdown_cases (Tetris.sound s)) as (? & ? & ?).
    repeat split; assumption.
  - intros o s s' Hf Ht Hk x. split.
    + intros Ho Hn. exact (plain_tick_wait_found o s s' Hf Ht Ho Hk Hn).
    + intros Hc.
      destruct (plain_tick_loads_timer o s s' Hf Ht) as (LD & LS).
      split; [|split; [|split; [exact LD|exact LS]]].
      * intros Hd.
        destruct (Z.eq_dec (Z.land o 0xF0FF) 0xF00A) as [Ho|Ho].
        -- destruct Hc as [Hc|Hn]; [contradiction|].
           rewrite (plain_wait_stall o s Hk Hn Hf Ho) in Ht.
           injection Ht as <-.
           destruct (plain_timers_countdown s) as (-> & _). reflexivity.
        -- exact (proj1 (plain_tick_timers o s s' Hf Ht Ho) Hd).
      * intros Hs.
        destruct (Z.eq_dec (Z.land o 0xF0FF) 0xF00A) as [Ho|Ho].
        -- destruct Hc as [Hc|Hn]; [contradiction|].
           rewrite (plain_wait_stall o s Hk Hn Hf Ho) in Ht.
           injection Ht as <-.
           destruct (plain_timers_countdown s) as (_ & ->). reflexivity.
        -- exact (proj2 (plain_tick_timers o s s' Hf Ht Ho) Hs).
Qed.

(** The ROM LD V0,5; LD DT,V0; LD V0,0: the third instruction is no timer
    opcode.  And LD V0,5; LD DT,V0; LD V0,K with key 4 down. *)
Lemma timer_updates_witness :
  (Tetris.delay (tetris_after [0; 0] [0x60; 0x05; 0xF0; 0x15; 0x60; 0x00]) = 5 /\
   Tetris.delay (tetris_after [0; 0; 0] [0x60; 0x05; 0xF0; 0x15; 0x60; 0x00])
   = Tetris.delay (tetris_after [0; 0] [0x60; 0x05; 0xF0; 0x15; 0x60; 0x00])) /\
  (Plain.delay (plain_after 2 [0x60; 0x05; 0xF0; 0x15; 0x60; 0x00]) = 4 /\
   Plain.delay (plain_after 3 [0x60; 0x05; 0xF0; 0x15; 0x60; 0x00])
   = countdown
       (Plain.delay (plain_after 2 [0x60; 0x05; 0xF0; 0x15; 0x60; 0x00]))) /\
  (exists s',
      Plain.tick
        (Plain.set_keys (plain_after 2 [0x60; 0x05; 0xF0; 0x15; 0xF0; 0x0A])
           (press_all [4]
              (Plain.keys
                 (plain_after 2 [0x60; 0x05; 0xF0; 0x15; 0xF0; 0x0A]))))
        = Ok s' /\
      Plain.delay s' = 4).
Proof.
  destruct timer_updates as (T & _ & P).
  split; [|split]; [split; [vm_compute; reflexivity|]
                   |split; [vm_compute; reflexivity|]|].
  - refine (proj1 (T 0 0x6000 _ _ _ _) _);
      [vm_compute; reflexivity|vm_compute; reflexivity
      |intros Hc; vm_compute in Hc; discriminate Hc].
  - refine (proj1 (proj2 (P 0x6000 _ _ _ _ _) _) _);
      [vm_compute; reflexivity|vm_compute; reflexivity
      |vm_compute; reflexivity
      |left; intros Hc; vm_compute in Hc; discriminate Hc
      |intros Hc; vm_compute in Hc; discriminate Hc].
  - set (sk := Plain.set_keys _ _).
    assert (E : Plain.tick sk =
                Ok (Plain.set_V (Plain.set_pc sk (Plain.pc sk + 2))
                      (<[0%nat := 4]> (Plain.V sk))))
      by (vm_compute; reflexivity).
    assert (Hf : Plain.fetch sk = Ok 0xF00A) by (vm_compute; reflexivity).
    assert (Hk : length (Plain.keys sk) = 16%nat)
      by (vm_compute; reflexivity).
    assert (Ho : Z.land 0xF00A 0xF0FF = 0xF00A) by reflexivity.
    assert (Hn : none_pressed (Plain.keys sk) = false)
      by (vm_compute; reflexivity).
    destruct (P 0xF00A sk _ Hf E Hk) as (Q & _).
    destruct (Q Ho Hn) as (D & _).
    eexists. split; [exact E|]. rewrite D. vm_compute. reflexivity.
Defined.

(** C9 as stated fails on [Plain]: after LD V0,5 and LD DT,V0 the delay
    timer is 4, and the tick that executes LD V0,0 (6000) leaves it at 3. *)
Lemma tick_counts_timers_counterexample :
  exists s s2 s3 : Plain.Chip8,
    Plain.init [0x60; 0x05; 0xF0; 0x15; 0x60; 0x00] = Ok s /\
    plain_ticks 2 s = Ok s2 /\
    Plain.fetch s2 = Ok 0x6000 /\
    Plain.tick s2 = Ok s3 /\
    Plain.delay s2 = 4 /\ Plain.delay s3 = 3.
Proof.
  eexists. eexists. eexists. split; [vm_compute; reflexivity|].
  split; [vm_compute; reflexivity|]. split; [vm_compute; reflexivity|].
  split; [vm_compute; reflexivity|]. split; vm_compute; reflexivity.
Qed.

(** ** What the handlers of [Working] leave alone *)

Lemma working_write_gpio_stack (i v : Z) (s s' : Working.Chip8) (a : unit) :
  Working.write_gpio i v s = Working.Val a s' ->
  Working.stack s' = Working.stack s.
Proof.
  unfold Working.write_gpio. destruct (setitem _ _ _); cbn [Working.eval];
    [|discriminate].
  intros [= _ <-]. reflexivity.
Qed.

Lemma working_write_memory_stack (i v : Z) (s s' : Working.Chip8) (a : unit) :
  Working.write_memory i v s = Working.Val a s' ->
  Working.stack s' = Working.stack s.
Proof.
  unfold Working.write_memory. destruct (setitem _ _ _); cbn [Working.eval];
    [|discriminate].
  intros [= _ <-]. reflexivity.
Qed.

Ltac working_binds H :=
  repeat
    (cbv beta zeta in H;
     lazymatch type of H with
     | Working.eval ?r _ _ = Working.Val _ _ =>
         destruct r; cbn [Working.eval] in H; [|discriminate H]
     | Working.and_then ?m _ = Working.Val _ _ =>
         let E := fresh "E" in
         destruct m eqn:E; cbn [Working.and_then] in H; [|discriminate H];
         try apply working_write_gpio_stack in E;
         try apply working_write_memory_stack in E
     | (if ?c then _ else _) = Working.Val _ _ => destruct c
     | match ?x with Some _ => _ | None => _ end = Working.Val _ _ =>
         destruct x
     | Working.write_gpio _ _ _ = Working.Val _ _ =>
         apply working_write_gpio_stack in H
     | Working.write_memory _ _ _ = Working.Val _ _ =>
         apply working_write_memory_stack in H
     | Working.Done _ = Working.Val _ _ => unfold Working.Done in H
     end).

Ltac working_stack_done H :=
  try (injection H as ? <-); unfold Working.skip_if;
  repeat match goal with |- context [if ?b then _ else _] => destruct b end;
  working_simpl; congruence.

Lemma working_for_each_stack (body : Z -> Working.Chip8 -> Working.outcome) :
  (forall i s s' a, body i s = Working.Val a s' ->
                    Working.stack s' = Working.stack s) ->
  forall l s s' a, Working.for_each body l s = Working.Val a s' ->
                   Working.stack s' = Working.stack s.
Proof.
  intros Hbody. induction l as [|i r IH]; intros s s' a H.
  - injection H as _ <-. reflexivity.
  - cbn [Working.for_each] in H.
    destruct (body i s) as [u t|] eqn:E; cbn [Working.and_then] in H;
      [|discriminate].
    apply Hbody in E. apply IH in H. congruence.
Qed.

Lemma working_drw_pixel_stack (mask off sprite base x c : Z)
      (s s' : Working.Chip8) (c' : Z) :
  Working.drw_pixel mask off sprite base x c s = Working.Val c' s' ->
  Working.stack s' = Working.stack s.
Proof.
  unfold Working.drw_pixel. intros H. working_binds H; working_stack_done H.
Qed.

Lemma working_drw_row_stack (x y row c : Z) (s s' : Working.Chip8) (c' : Z) :
  Working.drw_row x y row c s = Working.Val c' s' ->
  Working.stack s' = Working.stack s.
Proof.
  unfold Working.drw_row. intros H.
  repeat
    (cbv beta zeta in H;
     lazymatch type of H with
     | Working.eval ?r _ _ = Working.Val _ _ =>
         destruct r; cbn [Working.eval] in H; [|discriminate H]
     | Working.and_then ?m _ = Working.Val _ _ =>
         let E := fresh "E" in
         destruct m eqn:E; cbn [Working.and_then] in H; [|discriminate H];
         apply working_drw_pixel_stack in E
     | (if ?c then _ else _) = Working.Val _ _ => destruct c
     | Working.drw_pixel _ _ _ _ _ _ _ = Working.Val _ _ =>
         apply working_drw_pixel_stack in H
     end);
    working_stack_done H.
Qed.

Lemma working_drw_rows_stack (x y : Z) (rows : list Z) :
  forall (c : Z) (s s' : Working.Chip8) (c' : Z),
    Working.drw_rows x y rows c s = Working.Val c' s' ->
    Working.stack s' = Working.stack s.
Proof.
  induction rows as [|row r IH]; intros c s s' c' H.
  - injection H as _ <-. reflexivity.
  - cbn [Working.drw_rows] in H.
    destruct (Working.drw_row x y row c s) as [u t|] eqn:E;
      cbn [Working.and_then] in H; [|discriminate].
    apply working_drw_row_stack in E. apply IH in H. congruence.
Qed.

Lemma working_dispatch_stack (rnd : Z) (s s' : Working.Chip8) (a : unit) :
  Working.dispatch rnd s = Working.Val a s' ->
  Working.opcode s <> 0x00EE -> Z.land (Working.opcode s) 0xF000 <> 0x2000 ->
  Working.stack s' = Working.stack s.
Proof.
  intros H Hret Hcall. unfold Working.dispatch in H. cbv zeta in H.
  destruct (Z.land (Working.opcode s) 0xF000 =? 0x0000).
  - destruct (Z.eqb_spec (Working.opcode s) 0x00E0).
    + injection H as _ <-. reflexivity.
    + destruct (Z.eqb_spec (Working.opcode s) 0x00EE); [contradiction|].
      injection H as _ <-. reflexivity.
  - unfold Working.funcmap in H. cbn [Working.dict_get] in H.
    repeat
      lazymatch type of H with
      | match (if ?c then _ else _) with Some _ => _ | None => _ end = _ =>
          let T := fresh "T" in
          destruct c eqn:T;
          [ try (apply Z.eqb_eq in T);
            unfold Working._1nnn, Working._2nnn, Working._3xkk, Working._4xkk,
              Working._5xy0, Working._6xkk, Working._7xkk, Working._8xxx,
              Working._9xy0, Working._Annn, Working._Bnnn, Working._Cxkk,
              Working._Dxyn, Working._Exxx, Working._Fxxx in H
          | clear T ]
      end.
    all: try (exfalso; apply Hcall; symmetry; exact T).
    all: working_binds H.
    all: try (apply working_drw_rows_stack in E).
    all: try (apply working_for_each_stack in H;
              [|intros ? ? ? ? Hb; working_binds Hb; working_stack_done Hb]).
    all: working_stack_done H.
Qed.

Lemma working_cycle_stack (rnd o : Z) (s s' : Working.Chip8) :
  Working.fetch s = Ok o -> Working.cycle rnd s = Working.Val tt s' ->
  o <> 0x00EE -> Z.land o 0xF000 <> 0x2000 ->
  Working.stack s' = Working.stack s.
Proof.
  intros Hf Hc Hret Hcall. unfold Working.cycle in Hc. cbv zeta in Hc.
  rewrite (working_fetch_ext s) in Hc by reflexivity. rewrite Hf in Hc.
  cbn [Working.eval] in Hc.
  destruct (Working.dispatch rnd _) as [u t|] eqn:E;
    cbn [Working.and_then] in Hc; [|discriminate].
  apply working_dispatch_stack in E; [|exact Hret|exact Hcall].
  injection Hc as <-.
  match goal with |- Working.stack (Working.timers ?t) = _ =>
    destruct (working_timers_frame t) as (_ & _ & Es & _) end.
  rewrite Es. working_simpl. rewrite E. reflexivity.
Qed.

(** ** CALL ... RET *)

Lemma plain_execute_CALL (o : Z) (s : Plain.Chip8) :
  Z.land o 0xF000 = 0x2000 ->
  Plain.execute o s =
    Ok (Plain.Fall
          (Plain.set_pc (Plain.set_stack s (append (Plain.stack s) (Plain.pc s)))
                        (Z.land o 0x0FFF))).
Proof.
  intros H. unfold Plain.execute. cbv zeta. chain H. reflexivity.
Qed.

Lemma plain_call (o : Z) (s : Plain.Chip8) :
  Plain.fetch s = Ok o -> Z.land o 0xF000 = 0x2000 ->
  exists s1, Plain.tick s = Ok s1 /\
             Plain.pc s1 = Z.land o 0x0FFF /\
             Plain.stack s1 = Plain.stack s ++ [Plain.pc s + 2].
Proof.
  intros Hf Ho. eexists. split.
  - unfold Plain.tick. rewrite Hf. cbn [bind].
    rewrite plain_execute_CALL by exact Ho. cbn [bind]. reflexivity.
  - match goal with |- Plain.pc (Plain.timers ?t) = _ /\ _ =>
      destruct (plain_timers_frame t) as (_ & _ & _ & _ & Ep & Es & _) end.
    rewrite Ep, Es. split; reflexivity.
Qed.

Lemma plain_ret (s : Plain.Chip8) (st : list Z) (a : Z) :
  Plain.fetch s = Ok 0x00EE -> Plain.stack s = st ++ [a] ->
  exists s', Plain.tick s = Ok s' /\ Plain.pc s' = a /\ Plain.stack s' = st.
Proof.
  intros Hf Hs. eexists. split.
  - unfold Plain.tick. rewrite Hf. cbn [bind].
    change (Plain.execute 0x00EE ?t) with
      (let* '(a, st) := pop (Plain.stack t) in
       Ok (Plain.Fall (Plain.set_pc (Plain.set_stack t st) a))).
    plain_simpl. rewrite Hs.
    pose proof (pop_append st a) as P. unfold append in P. rewrite P.
    cbn [bind]. reflexivity.
  - match goal with |- Plain.pc (Plain.timers ?t) = _ /\ _ =>
      destruct (plain_timers_frame t) as (_ & _ & _ & _ & Ep & Es & _) end.
    rewrite Ep, Es. split; reflexivity.
Qed.

Lemma plain_body_run_stack (s s' : Plain.Chip8) :
  plain_body_run s s' -> Plain.stack s' = Plain.stack s.
Proof.
  induction 1 as [s|s s1 s2 o Hf Hret Hcall Ht R IH]; [reflexivity|].
  rewrite IH. eapply plain_tick_stack; eassumption.
Qed.

Lemma working_body_run_stack (s s' : Working.Chip8) :
  working_body_run s s' -> Working.stack s' = Working.stack s.
Proof.
  induction 1 as [s|s s1 s2 rnd o Hf Hret Hcall Ht R IH]; [reflexivity|].
  rewrite IH. eapply working_cycle_stack; eassumption.
Qed.

Lemma working_00EE_pops (s : Working.Chip8) (st : list Z) (a : Z) :
  Working.stack s = st ++ [a] ->
  Working._00EE s = Working.Done (Working.set_pc (Working.set_stack s st) a).
Proof.
  intros Hs. unfold Working._00EE.
  pose proof (pop_append st a) as P. unfold append in P. rewrite <- Hs in P.
  destruct (Working.stack s) eqn:E.
  - symmetry in Hs. apply app_eq_nil in Hs as [_ Hs]. discriminate Hs.
  - rewrite P. reflexivity.
Qed.

Lemma working_ret (rnd : Z) (s : Working.Chip8) (st : list Z) (a : Z) :
  Working.fetch s = Ok 0x00EE -> Working.stack s = st ++ [a] ->
  exists s', Working.cycle rnd s = Working.Val tt s' /\
             Working.pc s' = (a + 2) mod 4096 /\ Working.stack s' = st.
Proof.
  intros Hf Hs. eexists. split.
  - unfold Working.cycle. cbv zeta.
    rewrite (working_fetch_ext s) by reflexivity. rewrite Hf.
    cbn [Working.eval].
    rewrite working_dispatch_RET by reflexivity.
    rewrite (working_00EE_pops _ st a) by exact Hs.
    cbn [Working.and_then Working.Done]. reflexivity.
  - match goal with |- Working.pc (Working.timers ?t) = _ /\ _ =>
      destruct (working_timers_frame t) as (_ & Ep & Es & _) end.
    rewrite Ep, Es. working_simpl. rewrite land_0xFFF. split; reflexivity.
Qed.

Lemma working_fetch_pc_range (s : Working.Chip8) (o : Z) :
  Working.fetch s = Ok o ->
  0 <= Working.pc s /\ Working.pc s + 1 < Z.of_nat (length (Working.memory s)).
Proof.
  unfold Working.fetch.
  destruct (Z.ltb_spec (Working.pc s) 0); [discriminate|].
  destruct (Z.leb_spec (Z.of_nat (length (Working.memory s))) (Working.pc s + 1));
    [discriminate|].
  intros _. lia.
Qed.

(** C6: a CALL pushes the address that follows it, the ticks in between
    that execute neither CALL nor RET leave the stack alone, and the RET
    then puts PC on the address that follows the CALL.  In [Working], whose
    PC is kept to 12 bits, that address is taken modulo 4096. *)
Theorem call_ret_round_trip :
  (forall (o : Z) (s : Plain.Chip8),
      Plain.fetch s = Ok o -> Z.land o 0xF000 = 0x2000 ->
      exists s1,
        Plain.tick s = Ok s1 /\ Plain.pc s1 = Z.land o 0x0FFF /\
        forall s2,
          plain_body_run s1 s2 -> Plain.fetch s2 = Ok 0x00EE ->
          exists s3, Plain.tick s2 = Ok s3 /\ Plain.pc s3 = Plain.pc s + 2) /\
  (forall (rnd o : Z) (s : Working.Chip8),
      Working.fetch s = Ok o -> Z.land o 0xF000 = 0x2000 ->
      (length (Working.stack s) < 16)%nat ->
      exists s1,
        Working.cycle rnd s = Working.Val tt s1 /\
        Working.pc s1 = Z.land o 0x0FFF /\
        forall (rnd' : Z) s2,
          working_body_run s1 s2 -> Working.fetch s2 = Ok 0x00EE ->
          exists s3,
            Working.cycle rnd' s2 = Working.Val tt s3 /\
            Working.pc s3 = (Working.pc s + 2) mod 4096 /\
            (Working.pc s + 2 < 4096 -> Working.pc s3 = Working.pc s + 2)).
Proof.
  split.
  - intros o s Hf Ho.
    destruct (plain_call o s Hf Ho) as (s1 & T1 & P1 & S1).
    exists s1. split; [exact T1|]. split; [exact P1|].
    intros s2 R Hf2. apply plain_body_run_stack in R. rewrite S1 in R.
    destruct (plain_ret s2 _ _ Hf2 R) as (s3 & T3 & P3 & _). eauto.
  - intros rnd o s Hf Ho Hl.
    destruct (working_call_ok rnd o s Hf Ho Hl) as (s1 & C1 & S1 & P1 & _).
    exists s1. split; [exact C1|]. split; [exact P1|].
    intros rnd' s2 R Hf2. apply working_body_run_stack in R. rewrite S1 in R.
    destruct (working_ret rnd' s2 _ _ Hf2 R) as (s3 & C3 & P3 & _).
    exists s3. split; [exact C3|]. split; [exact P3|].
    intros Hlt. rewrite P3. apply Z.mod_small.
    apply working_fetch_pc_range in Hf. lia.
Qed.
Lemma call_ret_round_trip_witness :
  (exists s3, Plain.tick (plain_after 3 rom_call_ret) = Ok s3 /\
              Plain.pc s3 = 0x202) /\
  (exists s3, Working.cycle 0 (working_after 3 rom_call_ret) = Working.Val tt s3 /\
              Working.pc s3 = 0x202).
Proof.
  destruct call_ret_round_trip as (P & W). split.
  - destruct (P 0x2206 (plain_boot rom_call_ret)) as (s1 & T1 & _ & K);
      [vm_compute; reflexivity|reflexivity|].
    assert (E1 : s1 = plain_after 1 rom_call_ret)
      by (vm_compute in T1; injection T1 as <-; vm_compute; reflexivity).
    subst s1.
    destruct (K (plain_after 3 rom_call_ret)) as (s3 & T3 & P3).
    + eapply (plain_body_S _ (plain_after 2 rom_call_ret) _ 0x6005);
        [vm_compute; reflexivity|intros Hc; discriminate Hc
        |intros Hc; vm_compute in Hc; discriminate Hc
        |vm_compute; reflexivity|].
      eapply (plain_body_S _ (plain_after 3 rom_call_ret) _ 0x7001);
        [vm_compute; reflexivity|intros Hc; discriminate Hc
        |intros Hc; vm_compute in Hc; discriminate Hc
        |vm_compute; reflexivity|].
      apply plain_body_O.
    + vm_compute. reflexivity.
    + exists s3. split; [exact T3|]. rewrite P3. vm_compute. reflexivity.
  - destruct (W 0 0x2206 (working_boot rom_call_ret)) as (s1 & T1 & _ & K);
      [vm_compute; reflexivity|reflexivity|vm_compute; lia|].
    assert (E1 : s1 = working_after 1 rom_call_ret)
      by (vm_compute in T1; injection T1 as <-; vm_compute; reflexivity).
    subst s1.
    destruct (K 0 (working_after 3 rom_call_ret)) as (s3 & T3 & P3 & _).
    + eapply (working_body_S _ (working_after 2 rom_call_ret) _ 0 0x6005);
        [vm_compute; reflexivity|intros Hc; discriminate Hc
        |intros Hc; vm_compute in Hc; discriminate Hc
        |vm_compute; reflexivity|].
      eapply (working_body_S _ (working_after 3 rom_call_ret) _ 0 0x7001);
        [vm_compute; reflexivity|intros Hc; discriminate Hc
        |intros Hc; vm_compute in Hc; discriminate Hc
        |vm_compute; reflexivity|].
      apply working_body_O.
    + vm_compute. reflexivity.
    + exists s3. split; [exact T3|]. rewrite P3. vm_compute. reflexivity.
Defined.

(** ** Registers hold bytes *)

Lemma is_byte_range (v : Z) : is_byte v = true <-> 0 <= v <= 255.
Proof. unfold is_byte. rewrite andb_true_iff, Z.leb_le, Z.ltb_lt. lia. Qed.

Lemma byte_ops (a b : Z) :
  0 <= a <= 255 -> 0 <= b <= 255 ->
  0 <= Z.lor a b <= 255 /\ 0 <= Z.land a b <= 255 /\ 0 <= Z.lxor a b <= 255.
Proof.
  intros Ha Hb.
  assert (A : forallb (fun a => forallb (byte_ops_ok a) (seqZ 0 256))
                      (seqZ 0 256) = true) by (vm_compute; reflexivity).
  pose proof (forallb_seqZ _ _ (forallb_seqZ _ _ A a ltac:(lia)) b ltac:(lia))
    as B.
  unfold byte_ops_ok in B. rewrite !andb_true_iff, !is_byte_range in B. tauto.
Qed.

Lemma land_0xFF_byte (a : Z) : 0 <= Z.land a 0xFF <= 255.
Proof. rewrite land_0xFF. pose proof (Z.mod_pos_bound a 256). lia. Qed.

Lemma land_land_0xFF_byte (a b : Z) : 0 <= Z.land a (Z.land b 0xFF) <= 255.
Proof. rewrite Z.land_assoc. apply land_0xFF_byte. Qed.

Lemma land_1_byte (a : Z) : 0 <= Z.land a 1 <= 255.
Proof.
  change 1 with (Z.ones 1). rewrite Z.land_ones by lia.
  pose proof (Z.mod_pos_bound a (2 ^ 1)). lia.
Qed.

Lemma shiftr_1_byte (a : Z) : 0 <= a <= 255 -> 0 <= Z.shiftr a 1 <= 255.
Proof.
  intros H. rewrite Z.shiftr_div_pow2 by lia. change (2 ^ 1) with 2.
  split; [apply Z.div_pos; lia|].
  apply Z.div_le_upper_bound; lia.
Qed.

Lemma bytes_lookup (l : list Z) (i : nat) (v : Z) :
  bytes l -> l !! i = Some v -> 0 <= v <= 255.
Proof. intros H L. eapply (Forall_lookup_1 _ l i v H L). Qed.

Lemma bytes_insert (l : list Z) (i : nat) (v : Z) :
  bytes l -> 0 <= v <= 255 -> bytes (<[i := v]> l).
Proof. intros H Hv. apply Forall_insert; assumption. Qed.

Lemma getitem_bytes (l : list Z) (i v : Z) :
  bytes l -> getitem l i = Ok v -> 0 <= v <= 255.
Proof.
  intros H. unfold getitem. destruct (_ <? 0); [discriminate|].
  destruct (l !! _) eqn:E; [|discriminate]. intros [= <-].
  eapply bytes_lookup; eassumption.
Qed.

Lemma setitem_bytes (l l' : list Z) (i v : Z) :
  bytes l -> 0 <= v <= 255 -> setitem l i v = Ok l' -> bytes l'.
Proof.
  intros H Hv Hs. apply setitem_Ok in Hs as (j & _ & ->).
  apply bytes_insert; assumption.
Qed.

Lemma ba_setitem_bytes (l l' : list Z) (i v : Z) :
  bytes l -> ba_setitem l i v = Ok l' -> bytes l'.
Proof.
  intros H. unfold ba_setitem. destruct (is_byte v) eqn:B; [|discriminate].
  apply is_byte_range in B. apply setitem_bytes; assumption.
Qed.

Lemma getslice_bytes (l : list Z) (a b : Z) : bytes l -> bytes (getslice l a b).
Proof.
  intros H. unfold getslice. apply Forall_take, Forall_drop. exact H.
Qed.

Lemma setslice_bytes (l vals : list Z) (a b : Z) :
  bytes l -> bytes vals -> bytes (setslice l a b vals).
Proof.
  intros H Hv. unfold setslice.
  apply Forall_app. split; [apply Forall_take; exact H|].
  apply Forall_app. split; [exact Hv|apply Forall_drop; exact H].
Qed.

Lemma forallb_is_byte (l : list Z) : forallb is_byte l = true -> bytes l.
Proof.
  intros H. apply Forall_forall. intros v Hv.
  apply is_byte_range. rewrite forallb_forall in H. apply H.
  apply list_elem_of_In. exact Hv.
Qed.

Lemma ba_setslice_bytes (l l' vals : list Z) (a b : Z) :
  bytes l -> ba_setslice l a b vals = Ok l' -> bytes l'.
Proof.
  intros H. unfold ba_setslice. destruct (forallb is_byte vals) eqn:B;
    [|discriminate].
  intros [= <-]. apply setslice_bytes; [exact H|apply forallb_is_byte; exact B].
Qed.

Lemma first_pressed_range (ks l : list Z) (i : Z) :
  first_pressed ks l = Ok (Some i) -> i ∈ l.
Proof.
  induction l as [|j r IH]; [discriminate|].
  cbn [first_pressed]. destruct (getitem ks j); [|discriminate]. cbn [bind].
  destruct (truthy _).
  - intros [= <-]. left.
  - intros H. right. apply IH. exact H.
Qed.

(** The sprite loops only ever store 1 in VF. *)
Lemma drw_bit_bytes (store : list Z -> Z -> Z -> result (list Z))
      (sprite px py row bit : Z) (st st' : list Z * list Z) :
  drw_bit store sprite px py row bit st = Ok st' ->
  bytes (fst st) -> bytes (fst st').
Proof.
  destruct st as [V vram]. unfold drw_bit. destruct (truthy _).
  - destruct (getitem vram _) as [cell|]; [|discriminate]. cbn [bind].
    intros H HV.
    destruct (if cell =? 1 then setitem V 15 1 else Ok V) as [V1|] eqn:E;
      [|discriminate].
    cbn [bind] in H. destruct (store vram _ _); [|discriminate].
    injection H as <-. cbn [fst] in *.
    destruct (cell =? 1).
    + eapply setitem_bytes; [exact HV| |exact E]. lia.
    + injection E as <-. exact HV.
  - intros [= <-] HV. exact HV.
Qed.

Lemma drw_rows_bytes (store : list Z -> Z -> Z -> result (list Z))
      (memory : list Z) (I px py : Z) (rows : list Z)
      (st st' : list Z * list Z) :
  for_each (drw_row store memory I px py) rows st = Ok st' ->
  bytes (fst st) -> bytes (fst st').
Proof.
  apply (for_each_preserves (fun a b => bytes (fst a) -> bytes (fst b))
           (drw_row store memory I px py)); [auto|auto|].
  intros row s s' Hrow. unfold drw_row in Hrow.
  destruct (getitem memory _); [|discriminate]. cbn [bind] in Hrow.
  revert Hrow.
  apply (for_each_preserves (fun a b => bytes (fst a) -> bytes (fst b))).
  - auto.
  - auto.
  - intros bit t t' Hbit. eapply drw_bit_bytes. exact Hbit.
Qed.

Lemma tetris_getitem_V (s : Tetris.Chip8) (i v : Z) :
  tetris_inv s -> getitem (Tetris.V s) i = Ok v -> 0 <= v <= 255.
Proof. intros (HV & _). apply getitem_bytes. exact HV. Qed.

Lemma tetris_write_V_inv (i v : Z) (s s' : Tetris.Chip8) :
  tetris_inv s -> 0 <= v <= 255 -> Tetris.write_V i v s = Ok s' ->
  tetris_inv s'.
Proof.
  intros (HV & HM & HD) Hv. unfold Tetris.write_V.
  destruct (setitem _ _ _) as [l|] eqn:E; [|discriminate]. intros [= <-].
  repeat split; tetris_simpl; try assumption; try lia.
  eapply setitem_bytes; [exact HV|exact Hv|exact E].
Qed.

Lemma tetris_write_memory_inv (a v : Z) (s s' : Tetris.Chip8) :
  tetris_inv s -> Tetris.write_memory a v s = Ok s' -> tetris_inv s'.
Proof.
  intros (HV & HM & HD). unfold Tetris.write_memory.
  destruct (ba_setitem _ _ _) as [l|] eqn:E; [|discriminate]. intros [= <-].
  repeat split; tetris_simpl; try assumption; try lia.
  eapply ba_setitem_bytes; [exact HM|exact E].
Qed.

Ltac byte_solver :=
  first
    [ assumption
    | lia
    | apply land_0xFF_byte
    | apply land_land_0xFF_byte
    | apply land_1_byte
    | apply shiftr_1_byte; assumption
    | refine (proj1 (byte_ops _ _ _ _)); assumption
    | refine (proj1 (proj2 (byte_ops _ _ _ _))); assumption
    | refine (proj2 (proj2 (byte_ops _ _ _ _))); assumption
    | match goal with
      | I : tetris_inv ?t |- 0 <= Tetris.delay ?t <= 255 =>
          exact (proj2 (proj2 I))
      end
    | match goal with
      | E : first_pressed _ (range 16) = Ok (Some ?z) |- 0 <= ?z <= 255 =>
          apply first_pressed_range, elem_of_seqZ in E; lia
      end
    | match goal with |- context [if ?c then _ else _] => destruct c; lia end ].

Ltac inv_binds H :=
  repeat
    (cbv beta zeta in H;
     lazymatch type of H with
     | bind (if ?c then _ else _) _ = Ok _ => destruct c
     | bind (bind ?m _) _ = Ok _ =>
         let E := fresh "E" in
         destruct m eqn:E; cbn [bind] in H; [|discriminate H]
     | bind (getitem (Tetris.V ?t) ?i) _ = Ok _ =>
         let E := fresh "E" in
         destruct (getitem (Tetris.V t) i) eqn:E; cbn [bind] in H;
         [|discriminate H];
         apply (tetris_getitem_V t) in E; [|assumption]
     | bind (Tetris.write_V ?i ?v ?t) _ = Ok _ =>
         let E := fresh "E" in
         destruct (Tetris.write_V i v t) eqn:E; cbn [bind] in H;
         [|discriminate H];
         apply tetris_write_V_inv in E; [|assumption|byte_solver]
     | bind (Tetris.write_memory ?a ?v ?t) _ = Ok _ =>
         let E := fresh "E" in
         destruct (Tetris.write_memory a v t) eqn:E; cbn [bind] in H;
         [|discriminate H];
         apply tetris_write_memory_inv in E; [|assumption]
     | bind ?m _ = Ok _ =>
         let E := fresh "E" in
         destruct m eqn:E; cbn [bind] in H; [|discriminate H]
     | match ?x with Some _ => _ | None => _ end = Ok _ =>
         destruct x
     | (if ?c then _ else _) = Ok _ => destruct c
     end).

Ltac inv_done H :=
  repeat match goal with
         | E : Ok ?x = Ok ?y |- _ =>
             tryif constr_eq E H then fail else (injection E as <-)
         end;
  first
    [ eapply tetris_write_V_inv; [| |exact H]; [assumption|byte_solver]
    | eapply tetris_write_memory_inv; [|exact H]; assumption
    | injection H as <-; unfold Tetris.skip_if;
      repeat match goal with |- context [if ?b then _ else _] => destruct b end;
      repeat match goal with
             | I : tetris_inv _ |- _ => destruct I as (? & ? & ?)
             end;
      unfold tetris_inv; tetris_simpl; repeat split;
      first
        [ assumption | lia
        | eapply ba_setslice_bytes; [|eassumption]; assumption
        | apply setslice_bytes; [assumption|apply getslice_bytes; assumption]
        | match goal with
          | E : for_each (drw_row _ _ _ _ _) _ _ = Ok _ |- _ =>
              apply drw_rows_bytes in E; [exact E|assumption]
          end ] ].

Lemma tetris_dispatch_inv (rnd o : Z) (s s' : Tetris.Chip8) :
  tetris_inv s ->
  Tetris.dispatch (Tetris.opcodes rnd) o s = Ok s' ->
  tetris_inv s'.
Proof.
  intros Inv H. unfold Tetris.opcodes in H. cbn [Tetris.dispatch] in H.
  repeat
    lazymatch type of H with
    | (if ?c then _ else _) = _ =>
        destruct c;
        [ unfold Tetris.op_CLS, Tetris.op_RET, Tetris.op_JP, Tetris.op_CALL,
            Tetris.op_SE_Vx_kk, Tetris.op_SNE_Vx_kk, Tetris.op_SE_Vx_Vy,
            Tetris.op_LD_Vx_kk, Tetris.op_ADD_Vx_kk, Tetris.op_LD_Vx_Vy,
            Tetris.op_OR, Tetris.op_AND, Tetris.op_XOR, Tetris.op_ADD,
            Tetris.op_SUB, Tetris.op_SHR, Tetris.op_SUBN, Tetris.op_SHL,
            Tetris.op_SNE_Vx_Vy, Tetris.op_LD_I, Tetris.op_DRW, Tetris.op_SKP,
            Tetris.op_SKNP, Tetris.op_LD_Vx_DT, Tetris.op_WAITKEY,
            Tetris.op_LD_DT_Vx, Tetris.op_LD_ST_Vx, Tetris.op_ADD_I_Vx,
            Tetris.op_FONT, Tetris.op_BCD, Tetris.op_STORE, Tetris.op_LOAD,
            Tetris.op_RND in H;
          inv_binds H
        | ]
    end.
  all: inv_done H.
Qed.

Lemma tetris_tick_inv (rnd : Z) (s s' : Tetris.Chip8) :
  tetris_inv s -> Tetris.tick rnd s = Ok s' -> tetris_inv s'.
Proof.
  intros Inv H. unfold Tetris.tick in H. cbv zeta in H.
  destruct (Tetris.fetch _) as [o|]; [|discriminate]. cbn [bind] in H.
  eapply tetris_dispatch_inv; [|exact H]. exact Inv.
Qed.

Lemma tetris_timer_tick_inv (s : Tetris.Chip8) :
  tetris_inv s -> tetris_inv (Tetris._timer_tick s).
Proof.
  intros (HV & HM & HD). unfold Tetris._timer_tick. cbv zeta.
  destruct (Z.ltb_spec 0 (Tetris.delay s)); tetris_simpl;
    destruct (0 <? Tetris.sound s); tetris_simpl;
    try destruct (negb _); repeat split; tetris_simpl; try assumption; lia.
Qed.

Lemma tetris_init_inv (rom : list Z) (s : Tetris.Chip8) :
  Tetris.init rom = Ok s -> tetris_inv s.
Proof.
  unfold Tetris.init, Tetris.blank. cbv zeta. tetris_simpl.
  destruct (ba_setslice _ _ _ FONTSET) as [m|] eqn:E1; [|discriminate].
  cbn [bind]. tetris_simpl.
  destruct (ba_setslice m _ _ rom) as [m'|] eqn:E2; [|discriminate].
  cbn [bind]. intros [= <-].
  assert (Z0 : forall n, bytes (replicate n 0)).
  { intros n. apply Forall_replicate. lia. }
  repeat split; tetris_simpl; try lia; [apply (Z0 16%nat)|].
  eapply ba_setslice_bytes; [|exact E2].
  eapply ba_setslice_bytes; [|exact E1]. apply Z0.
Qed.

Lemma tetris_reachable_inv (s : Tetris.Chip8) :
  tetris_reachable s -> tetris_inv s.
Proof.
  induction 1 as [rom s Hi|rnd s s' R IH Ht|s R IH|k s s' R IH Hk|k s s' R IH Hk].
  - eapply tetris_init_inv. exact Hi.
  - eapply tetris_tick_inv; eassumption.
  - apply tetris_timer_tick_inv. exact IH.
  - unfold Tetris.on_key_press in Hk.
    destruct (setitem _ _ _); [|discriminate]. injection Hk as <-. exact IH.
  - unfold Tetris.on_key_release in Hk.
    destruct (setitem _ _ _); [|discriminate]. injection Hk as <-. exact IH.
Qed.

(** ** How many registers [Tetris] has *)

Lemma tetris_write_V_length (i v : Z) (s s' : Tetris.Chip8) :
  Tetris.write_V i v s = Ok s' ->
  length (Tetris.V s') = length (Tetris.V s).
Proof.
  unfold Tetris.write_V.
  destruct (setitem _ _ _) as [l|] eqn:E; [|discriminate].
  intros [= <-]. tetris_simpl. exact (setitem_length _ _ _ _ E).
Qed.

Lemma tetris_write_memory_length (a v : Z) (s s' : Tetris.Chip8) :
  Tetris.write_memory a v s = Ok s' ->
  length (Tetris.V s') = length (Tetris.V s).
Proof.
  unfold Tetris.write_memory. destruct (ba_setitem _ _ _); [|discriminate].
  intros [= <-]. reflexivity.
Qed.

Lemma drw_bit_length (store : list Z -> Z -> Z -> result (list Z))
      (sprite px py row bit : Z) (st st' : list Z * list Z) :
  drw_bit store sprite px py row bit st = Ok st' ->
  length (fst st') = length (fst st).
Proof.
  destruct st as [V vram]. unfold drw_bit. destruct (truthy _).
  - destruct (getitem vram _) as [cell|]; [|discriminate]. cbn [bind].
    intros H.
    destruct (if cell =? 1 then setitem V 15 1 else Ok V) as [V1|] eqn:E;
      [|discriminate].
    cbn [bind] in H. destruct (store vram _ _); [|discriminate].
    injection H as <-. cbn [fst].
    destruct (cell =? 1).
    + exact (setitem_length _ _ _ _ E).
    + injection E as <-. reflexivity.
  - intros [= <-]. reflexivity.
Qed.

Lemma drw_rows_length (store : list Z -> Z -> Z -> result (list Z))
      (memory : list Z) (I px py : Z) (rows : list Z)
      (st st' : list Z * list Z) :
  for_each (drw_row store memory I px py) rows st = Ok st' ->
  length (fst st') = length (fst st).
Proof.
  apply (for_each_preserves (fun a b => length (fst b) = length (fst a))
           (drw_row store memory I px py)); [auto|congruence|].
  intros row s s' Hrow. unfold drw_row in Hrow.
  destruct (getitem memory _); [|discriminate]. cbn [bind] in Hrow.
  revert Hrow.
  apply (for_each_preserves (fun a b => length (fst b) = length (fst a))).
  - auto.
  - congruence.
  - intros bit t t' Hbit. eapply drw_bit_length. exact Hbit.
Qed.

Ltac tetris_binds_len H :=
  repeat
    (cbv beta zeta in H;
     lazymatch type of H with
     | bind (if ?c then _ else _) _ = Ok _ => destruct c
     | bind (bind ?m _) _ = Ok _ =>
         let E := fresh "E" in
         destruct m eqn:E; cbn [bind] in H; [|discriminate H]
     | bind ?m _ = Ok _ =>
         let E := fresh "E" in
         destruct m eqn:E; cbn [bind] in H; [|discriminate H];
         try apply tetris_write_V_length in E;
         try apply tetris_write_memory_length in E;
         try apply drw_rows_length in E
     | (if ?c then _ else _) = Ok _ => destruct c
     | match ?x with Some _ => _ | None => _ end = Ok _ => destruct x
     | Tetris.write_V _ _ _ = Ok _ => apply tetris_write_V_length in H
     | Tetris.write_memory _ _ _ = Ok _ =>
         apply tetris_write_memory_length in H
     end).

Ltac tetris_len_done H :=
  try (injection H as <-); unfold Tetris.skip_if;
  repeat match goal with |- context [if ?b then _ else _] => destruct b end;
  tetris_simpl; cbn [fst snd] in *; congruence.

(** No instruction of [Tetris] but Fx65 changes the number of registers. *)
Lemma tetris_dispatch_V_length (rnd o : Z) (s s' : Tetris.Chip8) :
  Tetris.dispatch (Tetris.opcodes rnd) o s = Ok s' ->
  Z.land o 0xF0FF <> 0xF065 ->
  length (Tetris.V s') = length (Tetris.V s).
Proof.
  intros H Hne. unfold Tetris.opcodes in H. cbn [Tetris.dispatch] in H.
  repeat
    lazymatch type of H with
    | (if ?c then _ else _) = _ =>
        let T := fresh "T" in
        destruct c eqn:T;
        [ first
            [ exfalso; apply Hne; apply Z.eqb_eq; exact T
            | clear T;
              unfold Tetris.op_CLS, Tetris.op_RET, Tetris.op_JP,
                Tetris.op_CALL,
                Tetris.op_SE_Vx_kk, Tetris.op_SNE_Vx_kk, Tetris.op_SE_Vx_Vy,
                Tetris.op_LD_Vx_kk, Tetris.op_ADD_Vx_kk, Tetris.op_LD_Vx_Vy,
                Tetris.op_OR, Tetris.op_AND, Tetris.op_XOR, Tetris.op_ADD,
                Tetris.op_SUB, Tetris.op_SHR, Tetris.op_SUBN, Tetris.op_SHL,
                Tetris.op_SNE_Vx_Vy, Tetris.op_LD_I, Tetris.op_DRW,
                Tetris.op_SKP, Tetris.op_SKNP, Tetris.op_LD_Vx_DT,
                Tetris.op_WAITKEY, Tetris.op_LD_DT_Vx, Tetris.op_LD_ST_Vx,
                Tetris.op_ADD_I_Vx, Tetris.op_FONT, Tetris.op_BCD,
                Tetris.op_STORE, Tetris.op_RND in H;
              tetris_binds_len H; tetris_len_done H ]
        | clear T ]
    end.
  tetris_len_done H.
Qed.

Lemma tetris_tick_V_length (rnd o : Z) (s s' : Tetris.Chip8) :
  Tetris.fetch s = Ok o -> Tetris.tick rnd s = Ok s' ->
  Z.land o 0xF0FF <> 0xF065 ->
  length (Tetris.V s') = length (Tetris.V s).
Proof.
  intros Hf Ht Hne. unfold Tetris.tick in Ht. cbv zeta in Ht.
  rewrite (tetris_fetch_ext s) in Ht by reflexivity. rewrite Hf in Ht.
  cbn [bind] in Ht. apply tetris_dispatch_V_length in Ht; [|exact Hne].
  exact Ht.
Qed.

(** C10 fails on [Tetris] by a slip of [op_LOAD].  On the ROM LD I,0xFFF;
    LD VF,[I]; LD VF,1 the second tick assigns the one cell that memory has
    from 0xFFF on to the slice [V[:16]]: the register list is left with one
    entry, so V1 .. VF hold no value at all in a state the machine reaches,
    and the third tick, which writes VF, raises IndexError. *)
Theorem load_past_end_drops_registers :
  exists s s1 s2 : Tetris.Chip8,
    Tetris.init rom_load_past_end = Ok s /\
    Tetris.tick 0 s = Ok s1 /\
    Tetris.tick 0 s1 = Ok s2 /\
    tetris_reachable s2 /\
    Tetris.V s2 = [0] /\
    Tetris.V s2 !! 15%nat = None /\
    Tetris.tick 0 s2 = Raise IndexError.
Proof.
  exists (tetris_boot rom_load_past_end),
         (tetris_after [0] rom_load_past_end),
         (tetris_after [0; 0] rom_load_past_end).
  assert (Ei : Tetris.init rom_load_past_end =
               Ok (tetris_boot rom_load_past_end))
    by (vm_compute; reflexivity).
  assert (E1 : Tetris.tick 0 (tetris_boot rom_load_past_end) =
               Ok (tetris_after [0] rom_load_past_end))
    by (vm_compute; reflexivity).
  assert (E2 : Tetris.tick 0 (tetris_after [0] rom_load_past_end) =
               Ok (tetris_after [0; 0] rom_load_past_end))
    by (vm_compute; reflexivity).
  split; [exact Ei|]. split; [exact E1|]. split; [exact E2|].
  split.
  { eapply reach_tick; [|exact E2]. eapply reach_tick; [|exact E1].
    eapply reach_init. exact Ei. }
  split; [vm_compute; reflexivity|].
  split; vm_compute; reflexivity.
Qed.

(** In every state of [Tetris] reachable from [__init__] by ticks, timer
    ticks and key events, for any ROM and any random draws, every entry of
    the register list and every memory cell holds a value between 0 and 255,
    and so does the delay timer: each instruction that writes a register
    writes a byte.  The number of registers is another matter: a tick leaves
    it as it is unless it executes Fx65. *)
Theorem registers_are_bytes :
  (forall s : Tetris.Chip8,
      tetris_reachable s ->
      bytes (Tetris.V s) /\ bytes (Tetris.memory s) /\
      0 <= Tetris.delay s <= 255) /\
  (forall (rnd o : Z) (s s' : Tetris.Chip8),
      Tetris.fetch s = Ok o -> Tetris.tick rnd s = Ok s' ->
      Z.land o 0xF0FF <> 0xF065 ->
      length (Tetris.V s') = length (Tetris.V s)).
Proof.
  split.
  - intros s R. exact (tetris_reachable_inv s R).
  - apply tetris_tick_V_length.
Qed.

(** A run that adds with carry, draws a random number and loads from
    memory: LD V0,0xFF; ADD V0,2; LD V1,0xF0; ADD V0,V1; RND V2,0xFF;
    LD V3,[I]. *)
Lemma registers_are_bytes_witness :
  tetris_reachable (tetris_after [0; 0; 0; 0; 777; 0] rom_arith) /\
  bytes (Tetris.V (tetris_after [0; 0; 0; 0; 777; 0] rom_arith)) /\
  length (Tetris.V (tetris_after [0; 0; 0; 0; 777] rom_arith)) =
    length (Tetris.V (tetris_after [0; 0; 0; 0] rom_arith)).
Proof.
  destruct registers_are_bytes as (B & L).
  assert (R : tetris_reachable (tetris_after [0; 0; 0; 0; 777; 0] rom_arith)).
  { eapply (reach_tick 0 (tetris_after [0; 0; 0; 0; 777] rom_arith));
      [|vm_compute; reflexivity].
    eapply (reach_tick 777 (tetris_after [0; 0; 0; 0] rom_arith));
      [|vm_compute; reflexivity].
    eapply (reach_tick 0 (tetris_after [0; 0; 0] rom_arith));
      [|vm_compute; reflexivity].
    eapply (reach_tick 0 (tetris_after [0; 0] rom_arith));
      [|vm_compute; reflexivity].
    eapply (reach_tick 0 (tetris_after [0] rom_arith));
      [|vm_compute; reflexivity].
    eapply (reach_tick 0 (tetris_after [] rom_arith));
      [|vm_compute; reflexivity].
    eapply (reach_init rom_arith). vm_compute. reflexivity. }
  split; [exact R|]. split; [exact (proj1 (B _ R))|].
  apply (L 777 0xC2FF (tetris_after [0; 0; 0; 0] rom_arith)).
  - vm_compute; reflexivity.
  - vm_compute; reflexivity.
  - intros Hc; vm_compute in Hc; discriminate Hc.
Defined.

(** ** Drawing a sprite twice *)

Lemma flip_cell_lookup (v : list Z) (i : Z) (j : nat) :
  flip_cell v i !! j =
    if decide (Z.to_nat i = j) then (fun c => Z.lxor c 1) <$> v !! j
    else v !! j.
Proof.
  unfold flip_cell. rewrite list_lookup_alter.
  destruct (decide (Z.to_nat i = j)) as [->|]; reflexivity.
Qed.

Lemma lxor_1_twice (c : Z) : Z.lxor (Z.lxor c 1) 1 = c.
Proof. rewrite Z.lxor_assoc, Z.lxor_nilpotent. apply Z.lxor_0_r. Qed.

Lemma flip_cell_twice (v : list Z) (i : Z) : flip_cell (flip_cell v i) i = v.
Proof.
  apply list_eq. intros j. rewrite !flip_cell_lookup.
  destruct (decide (Z.to_nat i = j)); [|reflexivity].
  destruct (v !! j); cbn; [|reflexivity]. rewrite lxor_1_twice. reflexivity.
Qed.

Lemma flip_cell_comm (v : list Z) (i j : Z) :
  flip_cell (flip_cell v i) j = flip_cell (flip_cell v j) i.
Proof.
  apply list_eq. intros k. rewrite !flip_cell_lookup.
  destruct (decide (Z.to_nat j = k)), (decide (Z.to_nat i = k)); reflexivity.
Qed.

Lemma flip_cells_cons (i : Z) (r v : list Z) :
  flip_cells (i :: r) v = flip_cells r (flip_cell v i).
Proof. reflexivity. Qed.

Lemma flip_cells_flip_cell (cells : list Z) :
  forall (v : list Z) (i : Z),
    flip_cells cells (flip_cell v i) = flip_cell (flip_cells cells v) i.
Proof.
  induction cells as [|j r IH]; intros v i; [reflexivity|].
  rewrite !flip_cells_cons.
  rewrite flip_cell_comm. apply IH.
Qed.

Lemma flip_cells_twice (cells : list Z) :
  forall v : list Z, flip_cells cells (flip_cells cells v) = v.
Proof.
  induction cells as [|i r IH]; intros v; [reflexivity|].
  rewrite !flip_cells_cons.
  rewrite <- (flip_cells_flip_cell r (flip_cell v i) i), flip_cell_twice.
  apply IH.
Qed.

Lemma flip_cell_length (v : list Z) (i : Z) :
  length (flip_cell v i) = length v.
Proof. apply length_alter. Qed.

Lemma flip_cells_length (cells : list Z) :
  forall v : list Z, length (flip_cells cells v) = length v.
Proof.
  induction cells as [|i r IH]; intros v; [reflexivity|].
  rewrite !flip_cells_cons.
  rewrite IH. apply flip_cell_length.
Qed.

Lemma flip_cells_untouched (cells : list Z) (j : nat) :
  forall v : list Z,
    Forall (fun i => Z.to_nat i <> j) cells ->
    flip_cells cells v !! j = v !! j.
Proof.
  induction cells as [|i r IH]; intros v H; [reflexivity|].
  apply Forall_cons in H as [Hi Hr].
  rewrite !flip_cells_cons. rewrite IH by exact Hr.
  rewrite flip_cell_lookup. destruct (decide (Z.to_nat i = j)); [done|].
  reflexivity.
Qed.

(** A cell that holds 1 and is on the list makes the draw collide. *)
Lemma collides_on_set_cell (cells : list Z) (j : nat) :
  forall v : list Z,
    Exists (fun i => Z.to_nat i = j) cells -> v !! j = Some 1 ->
    collides cells v = true.
Proof.
  induction cells as [|i r IH]; intros v H Hj.
  - apply Exists_nil in H. contradiction.
  - cbn [collides]. destruct (decide (Z.to_nat i = j)) as [->|Hne].
    + rewrite Hj. reflexivity.
    + apply Exists_cons in H as [H|H]; [contradiction|].
      rewrite (IH (flip_cell v i) H); [apply orb_true_r|].
      rewrite flip_cell_lookup. destruct (decide (Z.to_nat i = j)); [done|].
      exact Hj.
Qed.

Lemma collides_after_setting (cells v : list Z) (j : nat) :
  v !! j <> Some 1 -> flip_cells cells v !! j = Some 1 ->
  collides cells (flip_cells cells v) = true.
Proof.
  intros Hv Hf. apply (collides_on_set_cell cells j); [|exact Hf].
  destruct (decide (Exists (fun i => Z.to_nat i = j) cells)) as [E|E];
    [exact E|].
  apply not_Exists_Forall in E; [|intros i; apply _].
  rewrite flip_cells_untouched in Hf by exact E. contradiction.
Qed.

Lemma flip_cell_insert (l : list Z) (i c : Z) :
  l !! Z.to_nat i = Some c ->
  <[Z.to_nat i := Z.lxor c 1]> l = flip_cell l i.
Proof.
  intros Hl. apply list_eq. intros j. rewrite flip_cell_lookup.
  destruct (decide (Z.to_nat i = j)) as [<-|Hne].
  - rewrite list_lookup_insert_eq by (apply lookup_lt_Some in Hl; exact Hl).
    rewrite Hl. reflexivity.
  - apply list_lookup_insert_ne. exact Hne.
Qed.

Lemma cell_index_range (px py row bit : Z) :
  0 <= cell_index px py row bit < 2048.
Proof.
  unfold cell_index.
  pose proof (Z.mod_pos_bound (px + bit) 64).
  pose proof (Z.mod_pos_bound (py + row) 32). lia.
Qed.

Lemma bit_cells_range (sprite px py row : Z) (bits : list Z) :
  Forall (fun i => 0 <= i < 2048) (bit_cells sprite px py row bits).
Proof.
  induction bits as [|bit r IH]; cbn [bit_cells]; [constructor|].
  destruct (truthy _); [|exact IH].
  constructor; [apply cell_index_range|exact IH].
Qed.

Lemma sprite_cells_range (memory : list Z) (I px py : Z) (rows : list Z) :
  forall cells : list Z,
    sprite_cells memory I px py rows = Ok cells ->
    Forall (fun i => 0 <= i < 2048) cells.
Proof.
  induction rows as [|row r IH]; intros cells; cbn [sprite_cells].
  - intros [= <-]. constructor.
  - generalize (range 8). intros bits.
    destruct (getitem memory (I + row)) as [sprite|]; [|discriminate].
    cbn [bind]. destruct (sprite_cells memory I px py r) as [rest|];
      [|discriminate].
    cbn [bind]. intros [= <-]. apply Forall_app. split;
      [apply bit_cells_range|apply IH; reflexivity].
Qed.

Lemma for_each_app {S : Type} (body : Z -> S -> result S) (l1 l2 : list Z) :
  forall s : S,
    for_each body (l1 ++ l2) s = bind (for_each body l1 s) (for_each body l2).
Proof.
  induction l1 as [|i r IH]; intros s; [reflexivity|].
  cbn [app for_each]. destruct (body i s) as [s1|e]; [apply IH|reflexivity].
Qed.

(** The sprite loops, for a video RAM whose item assignment is [store]:
    [setitem] for the list of draft Plain, [ba_setitem] for the bytearray of
    draft Tetris, whose cells stay bytes. *)
Section Toggles.

Variable store : list Z -> Z -> Z -> result (list Z).
Variable good : list Z -> Prop.

Hypothesis store_flip : forall (l : list Z) (i c : Z),
  good l -> 0 <= i -> l !! Z.to_nat i = Some c ->
  store l i (Z.lxor c 1) = Ok (flip_cell l i).

Hypothesis good_flip : forall (l : list Z) (i : Z),
  good l -> good (flip_cell l i).

Lemma good_flip_cells (cells : list Z) :
  forall v : list Z, good v -> good (flip_cells cells v).
Proof.
  induction cells as [|i r IH]; intros v Hv; [exact Hv|].
  rewrite flip_cells_cons. apply IH, good_flip, Hv.
Qed.

Lemma drw_bit_toggle (sprite px py row bit : Z) (st : list Z * list Z) :
  drw_bit store sprite px py row bit st =
    if truthy (Z.land sprite (Z.shiftr 0x80 bit))
    then toggle_at store (cell_index px py row bit) st
    else Ok st.
Proof. destruct st as [V vram]. reflexivity. Qed.

Lemma drw_bits_toggles (sprite px py row : Z) (bits : list Z) :
  forall st : list Z * list Z,
    for_each (drw_bit store sprite px py row) bits st =
    for_each (toggle_at store) (bit_cells sprite px py row bits) st.
Proof.
  induction bits as [|bit r IH]; intros st; [reflexivity|].
  cbn [for_each bit_cells]. rewrite drw_bit_toggle.
  destruct (truthy _); cbn [for_each bind]; [|apply IH].
  destruct (toggle_at store _ st) as [st1|e]; [apply IH|reflexivity].
Qed.

(** When every sprite row can be read, the two loops toggle the cells of the
    sprite one after the other. *)
Lemma drw_rows_toggles (memory : list Z) (I px py : Z) (rows : list Z) :
  forall (cells : list Z) (st : list Z * list Z),
    sprite_cells memory I px py rows = Ok cells ->
    for_each (drw_row store memory I px py) rows st =
    for_each (toggle_at store) cells st.
Proof.
  induction rows as [|row r IH]; intros cells st; cbn [sprite_cells].
  - intros [= <-]. reflexivity.
  - cbn [for_each]. unfold drw_row at 1. generalize (range 8). intros bits.
    destruct (getitem memory (I + row)) as [sprite|]; [|discriminate].
    cbn [bind]. destruct (sprite_cells memory I px py r) as [rest|];
      [|discriminate].
    cbn [bind]. intros [= <-]. rewrite for_each_app, drw_bits_toggles.
    destruct (for_each (toggle_at store) _ st) as [st1|e]; [|reflexivity].
    apply IH. reflexivity.
Qed.

(** The loops only finish if every sprite row could be read. *)
Lemma drw_rows_read (memory : list Z) (I px py : Z) (rows : list Z) :
  forall st st' : list Z * list Z,
    for_each (drw_row store memory I px py) rows st = Ok st' ->
    exists cells, sprite_cells memory I px py rows = Ok cells.
Proof.
  induction rows as [|row r IH]; intros st st'; cbn [sprite_cells for_each].
  - intros _. eexists. reflexivity.
  - unfold drw_row at 1. generalize (range 8). intros bits.
    destruct (getitem memory (I + row)) as [sprite|]; [|discriminate].
    cbn [bind]. destruct (for_each (drw_bit store sprite px py row) _ st)
      as [st1|e]; [|discriminate].
    cbn [bind]. intros H. apply IH in H as [rest ->]. eexists. reflexivity.
Qed.

Lemma toggle_at_ok (V vram : list Z) (index c : Z) :
  good vram -> 0 <= index -> vram !! Z.to_nat index = Some c ->
  (15 < length V)%nat ->
  toggle_at store index (V, vram) =
    Ok (if c =? 1 then <[15%nat := 1]> V else V, flip_cell vram index).
Proof.
  intros Hg Hi Hc HV. unfold toggle_at.
  rewrite (getitem_lookup vram index c) by assumption. cbn [bind].
  rewrite (store_flip vram index c) by assumption.
  destruct (c =? 1); [|reflexivity].
  rewrite setitem_in_range by lia. reflexivity.
Qed.

Lemma toggle_at_read (V vram : list Z) (index : Z) (st' : list Z * list Z) :
  0 <= index -> toggle_at store index (V, vram) = Ok st' ->
  exists c, vram !! Z.to_nat index = Some c.
Proof.
  intros Hi. unfold toggle_at.
  destruct (getitem vram index) as [c|] eqn:E; [|discriminate].
  intros _. exists c. apply getitem_Ok_nonneg in E as [E _]; assumption.
Qed.

(** Toggling a list of cells that lie inside the video RAM: VF becomes 1 if
    a cell held 1, and the cells are flipped. *)
Lemma toggles_ok (cells : list Z) :
  forall V vram : list Z,
    good vram -> (15 < length V)%nat ->
    Forall (fun i => 0 <= i < Z.of_nat (length vram)) cells ->
    for_each (toggle_at store) cells (V, vram) =
      Ok (if collides cells vram then <[15%nat := 1]> V else V,
          flip_cells cells vram).
Proof.
  induction cells as [|i r IH]; intros V vram Hg HV Hr; [reflexivity|].
  apply Forall_cons in Hr as [Hi Hr].
  destruct (lookup_lt_is_Some_2 vram (Z.to_nat i)) as [c Hc]; [lia|].
  cbn [for_each collides]. rewrite (toggle_at_ok V vram i c) by (try lia; assumption).
  cbn [bind]. rewrite Hc, flip_cells_cons, IH.
  - destruct (c =? 1); cbn [orb]; [|reflexivity].
    rewrite list_insert_insert_eq. destruct (collides r _); reflexivity.
  - apply good_flip, Hg.
  - destruct (c =? 1); [rewrite length_insert|]; exact HV.
  - rewrite flip_cell_length. exact Hr.
Qed.

(** The loop only finishes if every cell lies inside the video RAM. *)
Lemma toggles_read (cells : list Z) :
  forall (V vram : list Z) (st' : list Z * list Z),
    good vram -> (15 < length V)%nat -> Forall (fun i => 0 <= i) cells ->
    for_each (toggle_at store) cells (V, vram) = Ok st' ->
    Forall (fun i => 0 <= i < Z.of_nat (length vram)) cells.
Proof.
  induction cells as [|i r IH]; intros V vram st' Hg HV Hr; [constructor|].
  apply Forall_cons in Hr as [Hi Hr]. cbn [for_each].
  destruct (toggle_at store i (V, vram)) as [st1|e] eqn:E; [|discriminate].
  cbn [bind]. destruct (toggle_at_read V vram i st1 Hi E) as [c Hc].
  rewrite (toggle_at_ok V vram i c) in E by assumption.
  injection E as <-. intros H. apply IH in H.
  - rewrite flip_cell_length in H. constructor; [|exact H].
    apply lookup_lt_Some in Hc. lia.
  - apply good_flip, Hg.
  - destruct (c =? 1); [rewrite length_insert|]; exact HV.
  - exact Hr.
Qed.

(** The sprite loops run a second time on what they left: they finish, the
    video RAM is what it was, and VF is 1 if the first run set a cell. *)
Lemma drw_rows_twice (memory : list Z) (I px py : Z) (rows : list Z)
      (V vram V1 vram1 : list Z) :
  good vram -> (15 < length V)%nat ->
  for_each (drw_row store memory I px py) rows (V, vram) = Ok (V1, vram1) ->
  length V1 = length V /\
  forall V' : list Z, (15 < length V')%nat ->
  exists V2,
    for_each (drw_row store memory I px py) rows (V', vram1) = Ok (V2, vram) /\
    length V2 = length V' /\
    ((exists j : nat, vram !! j <> Some 1 /\ vram1 !! j = Some 1) ->
     V2 = <[15%nat := 1]> V').
Proof.
  intros Hg HV H1.
  destruct (drw_rows_read _ _ _ _ _ _ _ H1) as [cells Hcells].
  pose proof (sprite_cells_range _ _ _ _ _ _ Hcells) as Hrange.
  rewrite (drw_rows_toggles _ _ _ _ _ cells _ Hcells) in H1.
  assert (Forall (fun i => 0 <= i < Z.of_nat (length vram)) cells) as Hin.
  { eapply toggles_read; [exact Hg|exact HV| |exact H1].
    eapply Forall_impl; [exact Hrange|]. cbn. intros; lia. }
  rewrite toggles_ok in H1 by assumption. injection H1 as <- <-.
  split; [destruct (collides _ _); [apply length_insert|reflexivity]|].
  intros V' HV'. eexists. rewrite (drw_rows_toggles _ _ _ _ _ cells _ Hcells).
  rewrite toggles_ok.
  - rewrite flip_cells_twice. split; [reflexivity|]. split.
    + destruct (collides _ _); [apply length_insert|reflexivity].
    + intros (j & Hj & Hj1).
      rewrite (collides_after_setting cells vram j Hj Hj1). reflexivity.
  - apply good_flip_cells, Hg.
  - exact HV'.
  - rewrite flip_cells_length. exact Hin.
Qed.

(** The whole DRW body a second time, with Vx and Vy as they were. *)
Lemma draw_body_twice (memory : list Z) (I x y n : Z)
      (V vram V1 vram1 : list Z) :
  good vram -> 0 <= x -> 0 <= y ->
  draw_body store memory I x y n V vram = Ok (V1, vram1) ->
  V1 !! Z.to_nat x = V !! Z.to_nat x ->
  V1 !! Z.to_nat y = V !! Z.to_nat y ->
  exists V2,
    draw_body store memory I x y n V1 vram1 = Ok (V2, vram) /\
    ((exists j : nat, vram !! j <> Some 1 /\ vram1 !! j = Some 1) ->
     V2 !! 15%nat = Some 1).
Proof.
  intros Hg Hx Hy H1 Ex Ey. unfold draw_body in *.
  destruct (getitem V x) as [px|] eqn:Gx; [|discriminate]. cbn [bind] in H1.
  destruct (getitem V y) as [py|] eqn:Gy; [|discriminate]. cbn [bind] in H1.
  destruct (setitem V 15 0) as [Vz|] eqn:Sz; [|discriminate]. cbn [bind] in H1.
  apply getitem_Ok_nonneg in Gx as [Gx _]; [|exact Hx].
  apply getitem_Ok_nonneg in Gy as [Gy _]; [|exact Hy].
  rewrite <- Ex in Gx. rewrite <- Ey in Gy.
  rewrite (getitem_lookup V1 x px Hx Gx), (getitem_lookup V1 y py Hy Gy).
  cbn [bind].
  assert (15 < length V)%nat as HV.
  { destruct (Z.ltb_spec 15 (Z.of_nat (length V))) as [L|L]; [lia|].
    rewrite setitem_past_end in Sz by lia. discriminate Sz. }
  pose proof (setitem_length _ _ _ _ Sz) as Lz.
  destruct (drw_rows_twice memory I px py (range n) Vz vram V1 vram1)
    as (L1 & T); [exact Hg|lia|exact H1|].
  destruct (T (<[15%nat := 0]> V1)) as (V2 & R & L2 & C);
    [rewrite length_insert; lia|].
  rewrite setitem_in_range by lia. cbn [bind]. exists V2.
  split; [exact R|]. intros HC. rewrite (C HC).
  apply list_lookup_insert_eq. rewrite length_insert. lia.
Qed.

End Toggles.

Lemma setitem_flips (l : list Z) (i c : Z) :
  True -> 0 <= i -> l !! Z.to_nat i = Some c ->
  setitem l i (Z.lxor c 1) = Ok (flip_cell l i).
Proof.
  intros _ Hi Hc. rewrite setitem_in_range.
  - rewrite (flip_cell_insert l i c Hc). reflexivity.
  - apply lookup_lt_Some in Hc. lia.
Qed.

Lemma bytes_flip_cell (l : list Z) (i : Z) : bytes l -> bytes (flip_cell l i).
Proof.
  intros Hl. unfold bytes, flip_cell in *. apply Forall_alter; [exact Hl|].
  intros c _ Hc. cbv beta in *. apply (byte_ops c 1); lia.
Qed.

Lemma ba_setitem_flips (l : list Z) (i c : Z) :
  bytes l -> 0 <= i -> l !! Z.to_nat i = Some c ->
  ba_setitem l i (Z.lxor c 1) = Ok (flip_cell l i).
Proof.
  intros Hl Hi Hc. unfold ba_setitem.
  assert (is_byte (Z.lxor c 1) = true) as ->.
  { apply is_byte_range.
    apply (byte_ops c 1); [|lia].
    unfold bytes in Hl. rewrite Forall_lookup in Hl. exact (Hl _ _ Hc). }
  apply setitem_flips; [exact Logic.I|exact Hi|exact Hc].
Qed.

Lemma reg_nonneg (v : Z) : 0 <= Z.land v 0xF.
Proof. apply Z.land_nonneg. right. lia. Qed.

Lemma plain_execute_DRW (o : Z) (s : Plain.Chip8) :
  Z.land o 0xF000 = 0xD000 ->
  Plain.execute o s =
    let n := Z.land o 0x000F in
    let x := Z.land (Z.shiftr o 8) 0xF in
    let y := Z.land (Z.shiftr o 4) 0xF in
    let* px := getitem (Plain.V s) x in
    let* py := getitem (Plain.V s) y in
    let* s := Plain.write_V 0xF 0 s in
    let* st := for_each (drw_row setitem (Plain.memory s) (Plain.I s) px py)
                        (range n) (Plain.V s, Plain.vram s) in
    Ok (Plain.Fall (Plain.set_should_draw
                      (Plain.set_vram (Plain.set_V s (fst st)) (snd st)) true)).
Proof.
  intros H. unfold Plain.execute. cbv zeta. chain H. reflexivity.
Qed.

(** A tick of [Plain] that executes a DRW is [draw_body] on V and the video
    RAM; memory and I stay. *)
Lemma plain_tick_DRW (o : Z) (s : Plain.Chip8) :
  Z.land o 0xF000 = 0xD000 -> Plain.fetch s = Ok o ->
  match draw_body setitem (Plain.memory s) (Plain.I s)
                  (Z.land (Z.shiftr o 8) 0xF) (Z.land (Z.shiftr o 4) 0xF)
                  (Z.land o 0xF) (Plain.V s) (Plain.vram s) with
  | Ok (V1, vram1) =>
      exists s1, Plain.tick s = Ok s1 /\
                 Plain.V s1 = V1 /\ Plain.vram s1 = vram1 /\
                 Plain.memory s1 = Plain.memory s /\ Plain.I s1 = Plain.I s
  | Raise e => Plain.tick s = Raise e
  end.
Proof.
  intros H Hf. unfold Plain.tick. rewrite Hf. cbn [bind].
  rewrite plain_execute_DRW by exact H. cbv zeta. unfold draw_body.
  plain_simpl.
  destruct (getitem (Plain.V s) _) as [px|]; [|reflexivity]. cbn [bind].
  destruct (getitem (Plain.V s) _) as [py|]; [|reflexivity]. cbn [bind].
  unfold Plain.write_V. plain_simpl.
  destruct (setitem (Plain.V s) 15 0) as [Vz|]; [|reflexivity]. cbn [bind].
  plain_simpl.
  destruct (for_each _ _ _) as [[V1 vram1]|]; [|reflexivity]. cbn [bind fst snd].
  eexists. split; [reflexivity|].
  destruct (plain_timers_frame
              (Plain.set_should_draw
                 (Plain.set_vram
                    (Plain.set_V
                       (Plain.set_V (Plain.set_pc s (Plain.pc s + 2)) Vz) V1)
                    vram1) true)) as (Fm & Fv & FV & FI & _).
  rewrite Fm, Fv, FV, FI. repeat split.
Qed.

Lemma plain_draw_twice (o : Z) (s s1 : Plain.Chip8) :
  Z.land o 0xF000 = 0xD000 ->
  Plain.fetch s = Ok o -> Plain.tick s = Ok s1 -> Plain.fetch s1 = Ok o ->
  Plain.V s1 !! Z.to_nat (Z.land (Z.shiftr o 8) 0xF) =
    Plain.V s !! Z.to_nat (Z.land (Z.shiftr o 8) 0xF) ->
  Plain.V s1 !! Z.to_nat (Z.land (Z.shiftr o 4) 0xF) =
    Plain.V s !! Z.to_nat (Z.land (Z.shiftr o 4) 0xF) ->
  exists s2,
    Plain.tick s1 = Ok s2 /\ Plain.vram s2 = Plain.vram s /\
    ((exists j : nat, Plain.vram s !! j <> Some 1 /\
                      Plain.vram s1 !! j = Some 1) ->
     Plain.V s2 !! 15%nat = Some 1).
Proof.
  intros H Hf Ht Hf1 Ex Ey.
  pose proof (plain_tick_DRW o s H Hf) as D.
  destruct (draw_body _ _ _ _ _ _ _ _) as [[V1 vram1]|e] eqn:B;
    [|rewrite Ht in D; discriminate D].
  destruct D as (s1' & Ht' & EV & Ev & Em & EI).
  rewrite Ht in Ht'. injection Ht' as <-.
  rewrite <- EV, <- Ev in B.
  destruct (draw_body_twice setitem (fun _ => True) setitem_flips
              (fun _ _ _ => Logic.I) _ _ _ _ _ _ _ _ _
              Logic.I (reg_nonneg _) (reg_nonneg _) B Ex Ey) as (V2 & B2 & C).
  pose proof (plain_tick_DRW o s1 H Hf1) as D. rewrite Em, EI, B2 in D.
  destruct D as (s2 & Ht2 & EV2 & Ev2 & _).
  exists s2. rewrite EV2, Ev2. auto.
Qed.

Lemma tetris_dispatch_DRW (rnd o : Z) (s : Tetris.Chip8) :
  Z.land o 0xF000 = 0xD000 ->
  Tetris.dispatch (Tetris.opcodes rnd) o s = Tetris.op_DRW o s.
Proof.
  intros H. unfold Tetris.opcodes. cbn [Tetris.dispatch]. chain H. reflexivity.
Qed.

(** A tick of [Tetris] that executes a DRW is [draw_body] as well, with the
    item assignment of a bytearray. *)
Lemma tetris_tick_DRW (rnd o : Z) (s : Tetris.Chip8) :
  Z.land o 0xF000 = 0xD000 -> Tetris.fetch s = Ok o ->
  match draw_body ba_setitem (Tetris.memory s) (Tetris.I s)
                  (Z.land (Z.shiftr o 8) 0xF) (Z.land (Z.shiftr o 4) 0xF)
                  (Z.land o 0xF) (Tetris.V s) (Tetris.vram s) with
  | Ok (V1, vram1) =>
      exists s1, Tetris.tick rnd s = Ok s1 /\
                 Tetris.V s1 = V1 /\ Tetris.vram s1 = vram1 /\
                 Tetris.memory s1 = Tetris.memory s /\
                 Tetris.I s1 = Tetris.I s
  | Raise e => Tetris.tick rnd s = Raise e
  end.
Proof.
  intros H Hf. unfold Tetris.tick. cbv zeta.
  rewrite (tetris_fetch_ext s) by reflexivity. rewrite Hf. cbn [bind].
  rewrite tetris_dispatch_DRW by exact H.
  unfold Tetris.op_DRW, Tetris.reg_x, Tetris.reg_y, draw_body. cbv zeta.
  tetris_simpl.
  destruct (getitem (Tetris.V s) _) as [px|]; [|reflexivity]. cbn [bind].
  destruct (getitem (Tetris.V s) _) as [py|]; [|reflexivity]. cbn [bind].
  unfold Tetris.write_V. tetris_simpl.
  destruct (setitem (Tetris.V s) 15 0) as [Vz|]; [|reflexivity]. cbn [bind].
  tetris_simpl.
  destruct (for_each _ _ _) as [[V1 vram1]|]; [|reflexivity]. cbn [bind fst snd].
  eexists. split; [reflexivity|]. repeat split.
Qed.

Lemma tetris_draw_twice (rnd rnd' o : Z) (s s1 : Tetris.Chip8) :
  Z.land o 0xF000 = 0xD000 -> bytes (Tetris.vram s) ->
  Tetris.fetch s = Ok o -> Tetris.tick rnd s = Ok s1 ->
  Tetris.fetch s1 = Ok o ->
  Tetris.V s1 !! Z.to_nat (Z.land (Z.shiftr o 8) 0xF) =
    Tetris.V s !! Z.to_nat (Z.land (Z.shiftr o 8) 0xF) ->
  Tetris.V s1 !! Z.to_nat (Z.land (Z.shiftr o 4) 0xF) =
    Tetris.V s !! Z.to_nat (Z.land (Z.shiftr o 4) 0xF) ->
  exists s2,
    Tetris.tick rnd' s1 = Ok s2 /\ Tetris.vram s2 = Tetris.vram s /\
    ((exists j : nat, Tetris.vram s !! j <> Some 1 /\
                      Tetris.vram s1 !! j = Some 1) ->
     Tetris.V s2 !! 15%nat = Some 1).
Proof.
  intros H Hb Hf Ht Hf1 Ex Ey.
  pose proof (tetris_tick_DRW rnd o s H Hf) as D.
  destruct (draw_body _ _ _ _ _ _ _ _) as [[V1 vram1]|e] eqn:B;
    [|rewrite Ht in D; discriminate D].
  destruct D as (s1' & Ht' & EV & Ev & Em & EI).
  rewrite Ht in Ht'. injection Ht' as <-.
  rewrite <- EV, <- Ev in B.
  destruct (draw_body_twice ba_setitem bytes ba_setitem_flips
              bytes_flip_cell _ _ _ _ _ _ _ _ _
              Hb (reg_nonneg _) (reg_nonneg _) B Ex Ey) as (V2 & B2 & C).
  pose proof (tetris_tick_DRW rnd' o s1 H Hf1) as D. rewrite Em, EI, B2 in D.
  destruct D as (s2 & Ht2 & EV2 & Ev2 & _).
  exists s2. rewrite EV2, Ev2. auto.
Qed.

(** C5: a tick that executes a DRW, followed by a tick that executes the
    same DRW with Vx and Vy as they were before the first (I and the memory
    are left alone by the draw itself): the second tick finishes, the video
    RAM is again what it was before the first draw, and VF is 1 after the
    second draw if the first one set a cell, that is, left a 1 in a cell that
    did not hold 1.  This holds for [Plain.tick] on every video RAM, and for
    [Tetris.tick] on every video RAM a bytearray can hold. *)
Theorem draw_twice_restores (o : Z) :
  Z.land o 0xF000 = 0xD000 ->
  let x := Z.to_nat (Z.land (Z.shiftr o 8) 0xF) in
  let y := Z.to_nat (Z.land (Z.shiftr o 4) 0xF) in
  (forall s s1 : Plain.Chip8,
      Plain.fetch s = Ok o -> Plain.tick s = Ok s1 ->
      Plain.fetch s1 = Ok o ->
      Plain.V s1 !! x = Plain.V s !! x -> Plain.V s1 !! y = Plain.V s !! y ->
      exists s2,
        Plain.tick s1 = Ok s2 /\
        Plain.vram s2 = Plain.vram s /\
        ((exists j : nat, Plain.vram s !! j <> Some 1 /\
                          Plain.vram s1 !! j = Some 1) ->
         Plain.V s2 !! 15%nat = Some 1)) /\
  (forall (rnd rnd' : Z) (s s1 : Tetris.Chip8),
      bytes (Tetris.vram s) ->
      Tetris.fetch s = Ok o -> Tetris.tick rnd s = Ok s1 ->
      Tetris.fetch s1 = Ok o ->
      Tetris.V s1 !! x = Tetris.V s !! x ->
      Tetris.V s1 !! y = Tetris.V s !! y ->
      exists s2,
        Tetris.tick rnd' s1 = Ok s2 /\
        Tetris.vram s2 = Tetris.vram s /\
        ((exists j : nat, Tetris.vram s !! j <> Some 1 /\
                          Tetris.vram s1 !! j = Some 1) ->
         Tetris.V s2 !! 15%nat = Some 1)).
Proof.
  intros H x y. split.
  - intros s s1 Hf Ht Hf1 Ex Ey.
    exact (plain_draw_twice o s s1 H Hf Ht Hf1 Ex Ey).
  - intros rnd rnd' s s1 Hb Hf Ht Hf1 Ex Ey.
    exact (tetris_draw_twice rnd rnd' o s s1 H Hb Hf Ht Hf1 Ex Ey).
Qed.

Lemma draw_twice_restores_witness :
  Z.land 0xD015 0xF000 = 0xD000 /\
  (exists s2,
      Plain.tick (plain_after 1 rom_draw_twice) = Ok s2 /\
      Plain.vram s2 = Plain.vram (plain_boot rom_draw_twice) /\
      Plain.V s2 !! 15%nat = Some 1) /\
  (exists s2,
      Tetris.tick 0 (tetris_after [0] rom_draw_twice) = Ok s2 /\
      Tetris.vram s2 = Tetris.vram (tetris_boot rom_draw_twice) /\
      Tetris.V s2 !! 15%nat = Some 1).
Proof.
  assert (H : Z.land 0xD015 0xF000 = 0xD000) by reflexivity.
  destruct (draw_twice_restores 0xD015 H) as [P T].
  split; [exact H|]. split.
  - destruct (P (plain_boot rom_draw_twice) (plain_after 1 rom_draw_twice))
      as (s2 & K & E & C).
    + vm_compute; reflexivity.
    + vm_compute; reflexivity.
    + vm_compute; reflexivity.
    + vm_compute; reflexivity.
    + vm_compute; reflexivity.
    + exists s2. split; [exact K|]. split; [exact E|]. apply C.
      exists 0%nat. split; [intros Hc; vm_compute in Hc; discriminate Hc|].
      vm_compute; reflexivity.
  - destruct (T 0 0 (tetris_boot rom_draw_twice)
                (tetris_after [0] rom_draw_twice)) as (s2 & K & E & C).
    + apply forallb_is_byte. vm_compute; reflexivity.
    + vm_compute; reflexivity.
    + vm_compute; reflexivity.
    + vm_compute; reflexivity.
    + vm_compute; reflexivity.
    + vm_compute; reflexivity.
    + exists s2. split; [exact K|]. split; [exact E|]. apply C.
      exists 0%nat. split; [intros Hc; vm_compute in Hc; discriminate Hc|].
      vm_compute; reflexivity.
Defined.

(** ** Arithmetic with a flag: 8xy4, 8xy5, 8xy6, 8xy7, 8xyE *)

Lemma nibble_range (v : Z) : 0 <= Z.land v 0xF < 16.
Proof.
  change 0xF with (Z.ones 4). rewrite Z.land_ones by lia.
  apply Z.mod_pos_bound. lia.
Qed.

Lemma mask_narrow (o m p m' : Z) :
  Z.land o m = p -> Z.land m m' = m' -> Z.land o m' = Z.land p m'.
Proof.
  intros <- Hm. rewrite <- Z.land_assoc, Hm. reflexivity.
Qed.

(** The two ways the drafts extract x and y from an opcode agree. *)
Lemma decode_vx (o : Z) :
  Z.shiftr (Z.land o 0x0F00) 8 = Z.land (Z.shiftr o 8) 0xF.
Proof. rewrite Z.shiftr_land. reflexivity. Qed.

Lemma decode_vy (o : Z) :
  Z.shiftr (Z.land o 0x00F0) 4 = Z.land (Z.shiftr o 4) 0xF.
Proof. rewrite Z.shiftr_land. reflexivity. Qed.

(** A tick of [Plain] whose branch falls through with new registers. *)
Lemma plain_tick_regs (o : Z) (s : Plain.Chip8) (V' : list Z) :
  Plain.fetch s = Ok o ->
  Plain.execute o (Plain.set_pc s (Plain.pc s + 2)) =
    Ok (Plain.Fall (Plain.set_V (Plain.set_pc s (Plain.pc s + 2)) V')) ->
  exists s',
    Plain.tick s = Ok s' /\ Plain.V s' = V' /\
    Plain.pc s' = Plain.pc s + 2 /\ Plain.memory s' = Plain.memory s /\
    Plain.vram s' = Plain.vram s /\ Plain.I s' = Plain.I s /\
    Plain.stack s' = Plain.stack s /\ Plain.keys s' = Plain.keys s.
Proof.
  intros Hf He. eexists. split.
  - unfold Plain.tick. rewrite Hf. cbn [bind]. cbv zeta. rewrite He.
    cbn [bind]. reflexivity.
  - match goal with |- Plain.V (Plain.timers ?t) = _ /\ _ =>
      destruct (plain_timers_frame t) as (Fm & Fv & FV & FI & Fp & Fs & Fk) end.
    rewrite Fm, Fv, FV, FI, Fp, Fs, Fk. repeat split.
Qed.

Lemma tetris_tick_dispatch (rnd o : Z) (s : Tetris.Chip8) :
  Tetris.fetch s = Ok o ->
  Tetris.tick rnd s =
    Tetris.dispatch (Tetris.opcodes rnd) o
      (Tetris.set_pc (Tetris.set_cps_counter s (Tetris._cps_counter s + 1))
                     (uint16 (Tetris.pc s + 2))).
Proof.
  intros Hf. unfold Tetris.tick. cbv zeta.
  rewrite (tetris_fetch_ext s) by reflexivity. rewrite Hf. reflexivity.
Qed.

(** A tick of [Tetris] whose handler only writes registers. *)
Lemma tetris_tick_regs (rnd o : Z) (s : Tetris.Chip8) (V' : list Z) :
  Tetris.fetch s = Ok o ->
  (forall s0, Tetris.V s0 = Tetris.V s ->
     Tetris.dispatch (Tetris.opcodes rnd) o s0 = Ok (Tetris.set_V s0 V')) ->
  exists s',
    Tetris.tick rnd s = Ok s' /\ Tetris.V s' = V' /\
    Tetris.pc s' = uint16 (Tetris.pc s + 2) /\
    Tetris.memory s' = Tetris.memory s /\ Tetris.vram s' = Tetris.vram s /\
    Tetris.I s' = Tetris.I s /\ Tetris.stack s' = Tetris.stack s /\
    Tetris.sp s' = Tetris.sp s /\ Tetris.keys s' = Tetris.keys s /\
    Tetris.delay s' = Tetris.delay s /\ Tetris.sound s' = Tetris.sound s.
Proof.
  intros Hf Hd. eexists. split.
  - rewrite (tetris_tick_dispatch rnd o s Hf). apply Hd. reflexivity.
  - repeat split.
Qed.

Lemma working_cycle_dispatch (rnd o : Z) (s : Working.Chip8) :
  Working.fetch s = Ok o ->
  Working.cycle rnd s =
    Working.and_then
      (Working.dispatch rnd
         (Working.decode o
            (Working.set_cycle_count s (Working.cycle_count s + 1))))
      (fun _ s => Working.Done
                    (Working.timers
                       (Working.set_pc s (Z.land (Working.pc s + 2) 0xFFF)))).
Proof.
  intros Hf. unfold Working.cycle. cbv zeta.
  rewrite (working_fetch_ext s) by reflexivity. rewrite Hf. reflexivity.
Qed.

Lemma working_decode_fields (o : Z) (s : Working.Chip8) :
  Working.opcode (Working.decode o s) = o /\
  Working.vx (Working.decode o s) = Z.land (Z.shiftr o 8) 0xF /\
  Working.vy (Working.decode o s) = Z.land (Z.shiftr o 4) 0xF /\
  Working.gpio (Working.decode o s) = Working.gpio s /\
  Working.memory (Working.decode o s) = Working.memory s /\
  Working.index (Working.decode o s) = Working.index s /\
  Working.pc (Working.decode o s) = Working.pc s /\
  Working.stack (Working.decode o s) = Working.stack s /\
  Working.key_inputs (Working.decode o s) = Working.key_inputs s /\
  Working.display_buffer (Working.decode o s) = Working.display_buffer s.
Proof.
  unfold Working.decode. cbv zeta. working_simpl.
  rewrite decode_vx, decode_vy. repeat split.
Qed.

(** A cycle of [Working] whose handler only writes registers. *)
Lemma working_cycle_regs (rnd o : Z) (s : Working.Chip8) (V' : list Z) :
  Working.fetch s = Ok o ->
  (forall s0, Working.gpio s0 = Working.gpio s ->
     Working.dispatch rnd (Working.decode o s0) =
       Working.Done (Working.set_gpio (Working.decode o s0) V')) ->
  exists s',
    Working.cycle rnd s = Working.Val tt s' /\ Working.gpio s' = V' /\
    Working.pc s' = Z.land (Working.pc s + 2) 0xFFF /\
    Working.memory s' = Working.memory s /\
    Working.index s' = Working.index s /\
    Working.stack s' = Working.stack s /\
    Working.display_buffer s' = Working.display_buffer s /\
    Working.key_inputs s' = Working.key_inputs s.
Proof.
  intros Hf Hd. eexists. split.
  - rewrite (working_cycle_dispatch rnd o s Hf). rewrite Hd by reflexivity.
    cbn [Working.and_then Working.Done]. reflexivity.
  - unfold Working.timers, Working.decode. cbv zeta.
    repeat (destruct (_ <? _); working_simpl); repeat split.
Qed.

(** The handlers of 8xy4 .. 8xyE are the register updates above. *)
Ltac regs_step R :=
  lazymatch type of R with
  | bind ?m _ = Ok _ =>
      let E := fresh "E" in
      destruct m eqn:E; [|discriminate R]; cbn [bind] in R; cbv zeta in R
  end.

Ltac plain_regs R :=
  unfold Plain.write_V, Plain.fall; cbv zeta;
  repeat (plain_simpl; regs_step R; cbn [bind]);
  plain_simpl; rewrite R; reflexivity.

Ltac tetris_regs R :=
  unfold Tetris.write_V, Tetris.reg_x, Tetris.reg_y; cbv zeta;
  repeat (tetris_simpl; regs_step R; cbn [bind]);
  tetris_simpl; rewrite R; reflexivity.

Ltac working_regs R :=
  unfold Working.write_gpio; cbv zeta;
  repeat (working_simpl; regs_step R;
          cbn [Working.eval Working.and_then Working.Done]);
  working_simpl; rewrite R; reflexivity.

Lemma plain_execute_ADD (o : Z) (s : Plain.Chip8) (V' : list Z) :
  Z.land o 0xF00F = 0x8004 ->
  regs_ADD (Z.land (Z.shiftr o 8) 0xF) (Z.land (Z.shiftr o 4) 0xF)
           (Plain.V s) = Ok V' ->
  Plain.execute o s = Ok (Plain.Fall (Plain.set_V s V')).
Proof.
  intros H R. unfold Plain.execute. cbv zeta. chain H.
  unfold regs_ADD in R. plain_regs R.
Qed.

Lemma tetris_dispatch_ADD (rnd o : Z) (s : Tetris.Chip8) (V' : list Z) :
  Z.land o 0xF00F = 0x8004 ->
  regs_ADD (Z.land (Z.shiftr o 8) 0xF) (Z.land (Z.shiftr o 4) 0xF)
           (Tetris.V s) = Ok V' ->
  Tetris.dispatch (Tetris.opcodes rnd) o s = Ok (Tetris.set_V s V').
Proof.
  intros H R. unfold Tetris.opcodes. cbn [Tetris.dispatch]. chain H.
  unfold Tetris.op_ADD. unfold regs_ADD in R. tetris_regs R.
Qed.

Lemma working_dispatch_8xxx (rnd o : Z) (s : Working.Chip8) :
  Z.land o 0xF000 = 0x8000 ->
  Working.dispatch rnd (Working.decode o s) =
    Working._8xxx (Working.decode o s).
Proof.
  intros H. unfold Working.dispatch. cbv zeta.
  destruct (working_decode_fields o s) as (-> & _). rewrite H. reflexivity.
Qed.

Ltac working_8xxx H sub :=
  let Hs := fresh "Hs" in
  rewrite working_dispatch_8xxx
    by (rewrite (mask_narrow _ _ _ 0xF000 H); reflexivity);
  unfold Working._8xxx; cbv zeta;
  match goal with
  | |- context [Working.decode ?o ?s] =>
      destruct (working_decode_fields o s) as (-> & -> & -> & _);
      assert (Hs : Z.land o 0xF = sub)
        by (rewrite (mask_narrow _ _ _ 0xF H); reflexivity);
      rewrite Hs; cbn [Z.eqb Pos.eqb]
  end.

Lemma working_dispatch_ADD (rnd o : Z) (s : Working.Chip8) (V' : list Z) :
  Z.land o 0xF00F = 0x8004 ->
  regs_ADD (Z.land (Z.shiftr o 8) 0xF) (Z.land (Z.shiftr o 4) 0xF)
           (Working.gpio s) = Ok V' ->
  Working.dispatch rnd (Working.decode o s) =
    Working.Done (Working.set_gpio (Working.decode o s) V').
Proof.
  intros H R. working_8xxx H 4.
  destruct (working_decode_fields o s) as (_ & _ & _ & Eg & _).
  unfold regs_ADD in R. rewrite <- Eg in R. working_regs R.
Qed.

Lemma plain_execute_SUB (o : Z) (s : Plain.Chip8) (V' : list Z) :
  Z.land o 0xF00F = 0x8005 ->
  regs_SUB (Z.land (Z.shiftr o 8) 0xF) (Z.land (Z.shiftr o 4) 0xF)
           (Plain.V s) = Ok V' ->
  Plain.execute o s = Ok (Plain.Fall (Plain.set_V s V')).
Proof.
  intros H R. unfold Plain.execute. cbv zeta. chain H.
  unfold regs_SUB in R. plain_regs R.
Qed.

Lemma tetris_dispatch_SUB (rnd o : Z) (s : Tetris.Chip8) (V' : list Z) :
  Z.land o 0xF00F = 0x8005 ->
  regs_SUB (Z.land (Z.shiftr o 8) 0xF) (Z.land (Z.shiftr o 4) 0xF)
           (Tetris.V s) = Ok V' ->
  Tetris.dispatch (Tetris.opcodes rnd) o s = Ok (Tetris.set_V s V').
Proof.
  intros H R. unfold Tetris.opcodes. cbn [Tetris.dispatch]. chain H.
  unfold Tetris.op_SUB. unfold regs_SUB in R. tetris_regs R.
Qed.

Lemma working_dispatch_SUB (rnd o : Z) (s : Working.Chip8) (V' : list Z) :
  Z.land o 0xF00F = 0x8005 ->
  regs_SUB (Z.land (Z.shiftr o 8) 0xF) (Z.land (Z.shiftr o 4) 0xF)
           (Working.gpio s) = Ok V' ->
  Working.dispatch rnd (Working.decode o s) =
    Working.Done (Working.set_gpio (Working.decode o s) V').
Proof.
  intros H R. working_8xxx H 5.
  destruct (working_decode_fields o s) as (_ & _ & _ & Eg & _).
  unfold regs_SUB in R. rewrite <- Eg in R. working_regs R.
Qed.

Lemma plain_execute_SUBN (o : Z) (s : Plain.Chip8) (V' : list Z) :
  Z.land o 0xF00F = 0x8007 ->
  regs_SUBN (Z.land (Z.shiftr o 8) 0xF) (Z.land (Z.shiftr o 4) 0xF)
           (Plain.V s) = Ok V' ->
  Plain.execute o s = Ok (Plain.Fall (Plain.set_V s V')).
Proof.
  intros H R. unfold Plain.execute. cbv zeta. chain H.
  unfold regs_SUBN in R. plain_regs R.
Qed.

Lemma tetris_dispatch_SUBN (rnd o : Z) (s : Tetris.Chip8) (V' : list Z) :
  Z.land o 0xF00F = 0x8007 ->
  regs_SUBN (Z.land (Z.shiftr o 8) 0xF) (Z.land (Z.shiftr o 4) 0xF)
           (Tetris.V s) = Ok V' ->
  Tetris.dispatch (Tetris.opcodes rnd) o s = Ok (Tetris.set_V s V').
Proof.
  intros H R. unfold Tetris.opcodes. cbn [Tetris.dispatch]. chain H.
  unfold Tetris.op_SUBN. unfold regs_SUBN in R. tetris_regs R.
Qed.

Lemma working_dispatch_SUBN (rnd o : Z) (s : Working.Chip8) (V' : list Z) :
  Z.land o 0xF00F = 0x8007 ->
  regs_SUBN (Z.land (Z.shiftr o 8) 0xF) (Z.land (Z.shiftr o 4) 0xF)
           (Working.gpio s) = Ok V' ->
  Working.dispatch rnd (Working.decode o s) =
    Working.Done (Working.set_gpio (Working.decode o s) V').
Proof.
  intros H R. working_8xxx H 7.
  destruct (working_decode_fields o s) as (_ & _ & _ & Eg & _).
  unfold regs_SUBN in R. rewrite <- Eg in R. working_regs R.
Qed.

Lemma plain_execute_SHR (o : Z) (s : Plain.Chip8) (V' : list Z) :
  Z.land o 0xF00F = 0x8006 ->
  regs_SHR (Z.land (Z.shiftr o 8) 0xF)
           (Plain.V s) = Ok V' ->
  Plain.execute o s = Ok (Plain.Fall (Plain.set_V s V')).
Proof.
  intros H R. unfold Plain.execute. cbv zeta. chain H.
  unfold regs_SHR in R. plain_regs R.
Qed.

Lemma tetris_dispatch_SHR (rnd o : Z) (s : Tetris.Chip8) (V' : list Z) :
  Z.land o 0xF00F = 0x8006 ->
  regs_SHR (Z.land (Z.shiftr o 8) 0xF)
           (Tetris.V s) = Ok V' ->
  Tetris.dispatch (Tetris.opcodes rnd) o s = Ok (Tetris.set_V s V').
Proof.
  intros H R. unfold Tetris.opcodes. cbn [Tetris.dispatch]. chain H.
  unfold Tetris.op_SHR. unfold regs_SHR in R. tetris_regs R.
Qed.

Lemma working_dispatch_SHR (rnd o : Z) (s : Working.Chip8) (V' : list Z) :
  Z.land o 0xF00F = 0x8006 ->
  regs_SHR (Z.land (Z.shiftr o 8) 0xF)
           (Working.gpio s) = Ok V' ->
  Working.dispatch rnd (Working.decode o s) =
    Working.Done (Working.set_gpio (Working.decode o s) V').
Proof.
  intros H R. working_8xxx H 6.
  destruct (working_decode_fields o s) as (_ & _ & _ & Eg & _).
  unfold regs_SHR in R. rewrite <- Eg in R. working_regs R.
Qed.

Lemma plain_execute_SHL (o : Z) (s : Plain.Chip8) (V' : list Z) :
  Z.land o 0xF00F = 0x800E ->
  regs_SHL (Z.land (Z.shiftr o 8) 0xF)
           (Plain.V s) = Ok V' ->
  Plain.execute o s = Ok (Plain.Fall (Plain.set_V s V')).
Proof.
  intros H R. unfold Plain.execute. cbv zeta. chain H.
  unfold regs_SHL in R. plain_regs R.
Qed.

Lemma tetris_dispatch_SHL (rnd o : Z) (s : Tetris.Chip8) (V' : list Z) :
  Z.land o 0xF00F = 0x800E ->
  regs_SHL (Z.land (Z.shiftr o 8) 0xF)
           (Tetris.V s) = Ok V' ->
  Tetris.dispatch (Tetris.opcodes rnd) o s = Ok (Tetris.set_V s V').
Proof.
  intros H R. unfold Tetris.opcodes. cbn [Tetris.dispatch]. chain H.
  unfold Tetris.op_SHL. unfold regs_SHL in R. tetris_regs R.
Qed.

Lemma working_dispatch_SHL (rnd o : Z) (s : Working.Chip8) (V' : list Z) :
  Z.land o 0xF00F = 0x800E ->
  regs_SHL (Z.land (Z.shiftr o 8) 0xF)
           (Working.gpio s) = Ok V' ->
  Working.dispatch rnd (Working.decode o s) =
    Working.Done (Working.set_gpio (Working.decode o s) V').
Proof.
  intros H R. working_8xxx H 14.
  destruct (working_decode_fields o s) as (_ & _ & _ & Eg & _).
  unfold regs_SHL in R. rewrite <- Eg in R. working_regs R.
Qed.

(** A register update that the three drafts share, seen through a tick of
    each. *)
Lemma regs_three_drafts (o : Z) (f : list Z -> result (list Z))
      (Q : list Z -> Prop) (P : list Z -> list Z -> Prop) :
  (forall s V', f (Plain.V s) = Ok V' ->
     Plain.execute o s = Ok (Plain.Fall (Plain.set_V s V'))) ->
  (forall rnd s V', f (Tetris.V s) = Ok V' ->
     Tetris.dispatch (Tetris.opcodes rnd) o s = Ok (Tetris.set_V s V')) ->
  (forall rnd s V', f (Working.gpio s) = Ok V' ->
     Working.dispatch rnd (Working.decode o s) =
       Working.Done (Working.set_gpio (Working.decode o s) V')) ->
  (forall V, Q V -> exists V', f V = Ok V' /\ P V V') ->
  (forall s : Plain.Chip8,
      Q (Plain.V s) -> Plain.fetch s = Ok o ->
      exists s', Plain.tick s = Ok s' /\ P (Plain.V s) (Plain.V s') /\
                 Plain.pc s' = Plain.pc s + 2) /\
  (forall (rnd : Z) (s : Tetris.Chip8),
      Q (Tetris.V s) -> Tetris.fetch s = Ok o ->
      exists s', Tetris.tick rnd s = Ok s' /\
                 P (Tetris.V s) (Tetris.V s') /\
                 Tetris.pc s' = uint16 (Tetris.pc s + 2)) /\
  (forall (rnd : Z) (s : Working.Chip8),
      Q (Working.gpio s) -> Working.fetch s = Ok o ->
      exists s', Working.cycle rnd s = Working.Val tt s' /\
                 P (Working.gpio s) (Working.gpio s') /\
                 Working.pc s' = Z.land (Working.pc s + 2) 0xFFF).
Proof.
  intros HP HT HW Hf. split; [|split].
  - intros s HQ Hfe. destruct (Hf _ HQ) as (V' & R & HPV).
    destruct (plain_tick_regs o s V' Hfe) as (s' & T & EV & Ep & _).
    + apply HP. exact R.
    + exists s'. rewrite EV. auto.
  - intros rnd s HQ Hfe. destruct (Hf _ HQ) as (V' & R & HPV).
    destruct (tetris_tick_regs rnd o s V' Hfe) as (s' & T & EV & Ep & _).
    + intros s0 E. apply HT. rewrite E. exact R.
    + exists s'. rewrite EV. auto.
  - intros rnd s HQ Hfe. destruct (Hf _ HQ) as (V' & R & HPV).
    destruct (working_cycle_regs rnd o s V' Hfe) as (s' & T & EV & Ep & _).
    + intros s0 E. apply HW. rewrite E. exact R.
    + exists s'. rewrite EV. auto.
Qed.

Lemma flag_and_value_inserts (V : list Z) (x : nat) (flag value : Z) :
  length V = 16%nat -> (x < 16)%nat -> x <> 15%nat ->
  flag_and_value V (<[x := value]> (<[15%nat := flag]> V)) x flag value.
Proof.
  intros HV Hx Hne. unfold flag_and_value. split; [|split].
  - apply list_lookup_insert_eq. rewrite length_insert. lia.
  - rewrite list_lookup_insert_ne by exact Hne.
    apply list_lookup_insert_eq. lia.
  - intros j Hj Hj'. rewrite !list_lookup_insert_ne by auto. reflexivity.
Qed.

Lemma getitem_insert_ne (l : list Z) (i : nat) (j v : Z) :
  0 <= j -> i <> Z.to_nat j -> getitem (<[i := v]> l) j = getitem l j.
Proof.
  intros Hj Hne. rewrite !getitem_nonneg by exact Hj.
  rewrite list_lookup_insert_ne by exact Hne. reflexivity.
Qed.

Lemma setitem_reg (V : list Z) (x v : Z) :
  length V = 16%nat -> 0 <= x < 16 ->
  setitem V x v = Ok (<[Z.to_nat x := v]> V).
Proof. intros HV Hx. apply setitem_in_range. lia. Qed.

Lemma regs_ADD_spec (x y : Z) (V : list Z) (vx vy : Z) :
  length V = 16%nat -> 0 <= x < 16 -> 0 <= y < 16 ->
  V !! Z.to_nat x = Some vx -> V !! Z.to_nat y = Some vy ->
  regs_ADD x y V =
    Ok (<[Z.to_nat x := Z.land (vx + vy) 0xFF]>
          (<[15%nat := if 0xFF <? vx + vy then 1 else 0]> V)).
Proof.
  intros HV Hx Hy Lx Ly. unfold regs_ADD.
  rewrite (getitem_lookup V x vx), (getitem_lookup V y vy) by (lia || assumption).
  cbn [bind]. cbv zeta. rewrite (setitem_reg V 15) by (assumption || lia).
  cbn [bind]. rewrite setitem_reg by (rewrite ?length_insert; assumption || lia).
  reflexivity.
Qed.

Lemma regs_SUB_spec (x y : Z) (V : list Z) (vx vy : Z) :
  length V = 16%nat -> 0 <= x < 15 -> 0 <= y < 15 ->
  V !! Z.to_nat x = Some vx -> V !! Z.to_nat y = Some vy ->
  regs_SUB x y V =
    Ok (<[Z.to_nat x := Z.land (vx - vy) 0xFF]>
          (<[15%nat := if vy <? vx then 1 else 0]> V)).
Proof.
  intros HV Hx Hy Lx Ly. unfold regs_SUB.
  rewrite (getitem_lookup V x vx), (getitem_lookup V y vy) by (lia || assumption).
  cbn [bind]. rewrite (setitem_reg V 15) by (assumption || lia).
  cbn [bind]. change (Z.to_nat 15) with 15%nat.
  rewrite !getitem_insert_ne by lia.
  rewrite (getitem_lookup V x vx), (getitem_lookup V y vy) by (lia || assumption).
  cbn [bind]. rewrite setitem_reg by (rewrite ?length_insert; assumption || lia).
  reflexivity.
Qed.

Lemma regs_SUBN_spec (x y : Z) (V : list Z) (vx vy : Z) :
  length V = 16%nat -> 0 <= x < 15 -> 0 <= y < 15 ->
  V !! Z.to_nat x = Some vx -> V !! Z.to_nat y = Some vy ->
  regs_SUBN x y V =
    Ok (<[Z.to_nat x := Z.land (vy - vx) 0xFF]>
          (<[15%nat := if vx <? vy then 1 else 0]> V)).
Proof.
  intros HV Hx Hy Lx Ly. unfold regs_SUBN.
  rewrite (getitem_lookup V x vx), (getitem_lookup V y vy) by (lia || assumption).
  cbn [bind]. rewrite (setitem_reg V 15) by (assumption || lia).
  cbn [bind]. change (Z.to_nat 15) with 15%nat.
  rewrite !getitem_insert_ne by lia.
  rewrite (getitem_lookup V x vx), (getitem_lookup V y vy) by (lia || assumption).
  cbn [bind]. rewrite setitem_reg by (rewrite ?length_insert; assumption || lia).
  reflexivity.
Qed.

Lemma regs_SHR_spec (x : Z) (V : list Z) (vx : Z) :
  length V = 16%nat -> 0 <= x < 15 -> V !! Z.to_nat x = Some vx ->
  regs_SHR x V =
    Ok (<[Z.to_nat x := Z.shiftr vx 1]> (<[15%nat := Z.land vx 1]> V)).
Proof.
  intros HV Hx Lx. unfold regs_SHR.
  rewrite (getitem_lookup V x vx) by (lia || assumption).
  cbn [bind]. rewrite (setitem_reg V 15) by (assumption || lia).
  cbn [bind]. change (Z.to_nat 15) with 15%nat.
  rewrite !getitem_insert_ne by lia.
  rewrite (getitem_lookup V x vx) by (lia || assumption).
  cbn [bind]. rewrite setitem_reg by (rewrite ?length_insert; assumption || lia).
  reflexivity.
Qed.

Lemma regs_SHL_spec (x : Z) (V : list Z) (vx : Z) :
  length V = 16%nat -> 0 <= x < 15 -> V !! Z.to_nat x = Some vx ->
  regs_SHL x V =
    Ok (<[Z.to_nat x := Z.land (Z.shiftl vx 1) 0xFF]>
          (<[15%nat := Z.land (Z.shiftr vx 7) 1]> V)).
Proof.
  intros HV Hx Lx. unfold regs_SHL.
  rewrite (getitem_lookup V x vx) by (lia || assumption).
  cbn [bind]. rewrite (setitem_reg V 15) by (assumption || lia).
  cbn [bind]. change (Z.to_nat 15) with 15%nat.
  rewrite !getitem_insert_ne by lia.
  rewrite (getitem_lookup V x vx) by (lia || assumption).
  cbn [bind]. rewrite setitem_reg by (rewrite ?length_insert; assumption || lia).
  reflexivity.
Qed.

(** Bytes: the flag and the low byte as quotient and remainder. *)
Lemma carry_of_bytes (a b : Z) :
  0 <= a <= 255 -> 0 <= b <= 255 ->
  (if 0xFF <? a + b then 1 else 0) = (a + b) / 256.
Proof.
  intros Ha Hb. destruct (Z.ltb_spec 255 (a + b)).
  - apply (Z.div_unique (a + b) 256 1 (a + b - 256)); lia.
  - symmetry. apply Z.div_small. lia.
Qed.

Lemma shift_byte_facts (v : Z) :
  0 <= v <= 255 ->
  Z.shiftr v 1 = v / 2 /\ Z.land v 1 = v mod 2 /\
  Z.land (Z.shiftr v 7) 1 = v / 128 /\
  Z.land (Z.shiftl v 1) 0xFF = (2 * v) mod 256.
Proof.
  intros Hv.
  assert (A : forallb (fun v => (Z.shiftr v 1 =? v / 2) &&
                                (Z.land v 1 =? v mod 2) &&
                                (Z.land (Z.shiftr v 7) 1 =? v / 128) &&
                                (Z.land (Z.shiftl v 1) 0xFF =? (2 * v) mod 256))
                     (seqZ 0 256) = true) by (vm_compute; reflexivity).
  pose proof (forallb_seqZ _ _ A v ltac:(lia)) as B. cbv beta in B.
  rewrite !andb_true_iff, !Z.eqb_eq in B. tauto.
Qed.

(** *** The flag and the value of each instruction *)

(** 8xy4, in the three drafts: with byte registers and x other than 15, a
    tick that executes 8xy4 leaves the low byte of Vx + Vy in Vx and the ninth
    bit of the sum (the carry) in VF, changes no other register and moves on
    to the next instruction. *)
Theorem add_with_carry (o vx vy : Z) :
  Z.land o 0xF00F = 0x8004 ->
  let x := Z.to_nat (Z.land (Z.shiftr o 8) 0xF) in
  let y := Z.to_nat (Z.land (Z.shiftr o 4) 0xF) in
  x <> 15%nat -> 0 <= vx <= 255 -> 0 <= vy <= 255 ->
  (forall s : Plain.Chip8,
      length (Plain.V s) = 16%nat -> Plain.fetch s = Ok o ->
      Plain.V s !! x = Some vx -> Plain.V s !! y = Some vy ->
      exists s',
        Plain.tick s = Ok s' /\
        flag_and_value (Plain.V s) (Plain.V s') x
          ((vx + vy) / 256) ((vx + vy) mod 256) /\
        Plain.pc s' = Plain.pc s + 2) /\
  (forall (rnd : Z) (s : Tetris.Chip8),
      length (Tetris.V s) = 16%nat -> Tetris.fetch s = Ok o ->
      Tetris.V s !! x = Some vx -> Tetris.V s !! y = Some vy ->
      exists s',
        Tetris.tick rnd s = Ok s' /\
        flag_and_value (Tetris.V s) (Tetris.V s') x
          ((vx + vy) / 256) ((vx + vy) mod 256) /\
        Tetris.pc s' = uint16 (Tetris.pc s + 2)) /\
  (forall (rnd : Z) (s : Working.Chip8),
      length (Working.gpio s) = 16%nat -> Working.fetch s = Ok o ->
      Working.gpio s !! x = Some vx -> Working.gpio s !! y = Some vy ->
      exists s',
        Working.cycle rnd s = Working.Val tt s' /\
        flag_and_value (Working.gpio s) (Working.gpio s') x
          ((vx + vy) / 256) ((vx + vy) mod 256) /\
        Working.pc s' = Z.land (Working.pc s + 2) 0xFFF).
Proof.
  intros H x y Hx Hvx Hvy.
  pose proof (nibble_range (Z.shiftr o 8)) as Rx.
  pose proof (nibble_range (Z.shiftr o 4)) as Ry.
  destruct (regs_three_drafts o
              (regs_ADD (Z.land (Z.shiftr o 8) 0xF) (Z.land (Z.shiftr o 4) 0xF))
              (fun V => length V = 16%nat /\ V !! x = Some vx /\ V !! y = Some vy)
              (fun V V' => flag_and_value V V' x
                             ((vx + vy) / 256) ((vx + vy) mod 256)))
    as (P & T & W).
  - intros s V'. apply plain_execute_ADD. exact H.
  - intros rnd s V'. apply tetris_dispatch_ADD. exact H.
  - intros rnd s V'. apply working_dispatch_ADD. exact H.
  - intros V (HV & Lx & Ly). eexists. split.
    + apply (regs_ADD_spec _ _ V vx vy); subst x y; auto; lia.
    + rewrite land_0xFF, carry_of_bytes by assumption.
      apply flag_and_value_inserts; [assumption|subst x; lia|exact Hx].
  - split; [|split].
    + intros s HV Hf Lx Ly. apply P; auto.
    + intros rnd s HV Hf Lx Ly. apply T; auto.
    + intros rnd s HV Hf Lx Ly. apply W; auto.
Qed.

Lemma add_with_carry_witness :
  (exists s',
      Plain.tick (plain_after 2 (rom_two_regs 0xFF 0x02 4)) = Ok s' /\
      Plain.V s' !! 0%nat = Some 1 /\
      Plain.V s' !! 15%nat = Some 1) /\
  (exists s',
      Tetris.tick 0 (tetris_after [0; 0] (rom_two_regs 0xFF 0x02 4)) = Ok s' /\
      Tetris.V s' !! 0%nat = Some 1 /\
      Tetris.V s' !! 15%nat = Some 1) /\
  (exists s',
      Working.cycle 0 (working_after 2 (rom_two_regs 0xFF 0x02 4)) =
        Working.Val tt s' /\
      Working.gpio s' !! 0%nat = Some 1 /\
      Working.gpio s' !! 15%nat = Some 1).
Proof.
  assert (H : Z.land 0x8014 0xF00F = 0x8004) by reflexivity.
  assert (Hx : 0%nat <> 15%nat) by lia.
  assert (Hvx : 0 <= 255 <= 255) by lia.
  assert (Hvy : 0 <= 2 <= 255) by lia.
  destruct (add_with_carry 0x8014 255 2 H Hx Hvx Hvy) as (P & T & W).
  split; [|split].
  - destruct (P (plain_after 2 (rom_two_regs 0xFF 0x02 4)))
      as (s' & K & (Lv & Lf & _) & _).
    + vm_compute; reflexivity.
    + vm_compute; reflexivity.
    + vm_compute; reflexivity.
    + vm_compute; reflexivity.
    + exists s'. auto.
  - destruct (T 0 (tetris_after [0; 0] (rom_two_regs 0xFF 0x02 4)))
      as (s' & K & (Lv & Lf & _) & _).
    + vm_compute; reflexivity.
    + vm_compute; reflexivity.
    + vm_compute; reflexivity.
    + vm_compute; reflexivity.
    + exists s'. auto.
  - destruct (W 0 (working_after 2 (rom_two_regs 0xFF 0x02 4)))
      as (s' & K & (Lv & Lf & _) & _).
    + vm_compute; reflexivity.
    + vm_compute; reflexivity.
    + vm_compute; reflexivity.
    + vm_compute; reflexivity.
    + exists s'. auto.
Defined.

(** 8xy5, in the three drafts: with x and y other than 15, a tick that
    executes 8xy5 leaves (Vx - Vy) mod 256 in Vx and sets VF to 1 exactly when
    Vx > Vy, so equal operands give VF = 0; no other register changes. *)
Theorem sub_flag_is_strict (o vx vy : Z) :
  Z.land o 0xF00F = 0x8005 ->
  let x := Z.to_nat (Z.land (Z.shiftr o 8) 0xF) in
  let y := Z.to_nat (Z.land (Z.shiftr o 4) 0xF) in
  x <> 15%nat -> y <> 15%nat ->
  (forall s : Plain.Chip8,
      length (Plain.V s) = 16%nat -> Plain.fetch s = Ok o ->
      Plain.V s !! x = Some vx -> Plain.V s !! y = Some vy ->
      exists s',
        Plain.tick s = Ok s' /\
        flag_and_value (Plain.V s) (Plain.V s') x
          (if vy <? vx then 1 else 0) ((vx - vy) mod 256) /\
        Plain.pc s' = Plain.pc s + 2) /\
  (forall (rnd : Z) (s : Tetris.Chip8),
      length (Tetris.V s) = 16%nat -> Tetris.fetch s = Ok o ->
      Tetris.V s !! x = Some vx -> Tetris.V s !! y = Some vy ->
      exists s',
        Tetris.tick rnd s = Ok s' /\
        flag_and_value (Tetris.V s) (Tetris.V s') x
          (if vy <? vx then 1 else 0) ((vx - vy) mod 256) /\
        Tetris.pc s' = uint16 (Tetris.pc s + 2)) /\
  (forall (rnd : Z) (s : Working.Chip8),
      length (Working.gpio s) = 16%nat -> Working.fetch s = Ok o ->
      Working.gpio s !! x = Some vx -> Working.gpio s !! y = Some vy ->
      exists s',
        Working.cycle rnd s = Working.Val tt s' /\
        flag_and_value (Working.gpio s) (Working.gpio s') x
          (if vy <? vx then 1 else 0) ((vx - vy) mod 256) /\
        Working.pc s' = Z.land (Working.pc s + 2) 0xFFF).
Proof.
  intros H x y Hx Hy.
  pose proof (nibble_range (Z.shiftr o 8)) as Rx.
  pose proof (nibble_range (Z.shiftr o 4)) as Ry.
  destruct (regs_three_drafts o
              (regs_SUB (Z.land (Z.shiftr o 8) 0xF) (Z.land (Z.shiftr o 4) 0xF))
              (fun V => length V = 16%nat /\ V !! x = Some vx /\ V !! y = Some vy)
              (fun V V' => flag_and_value V V' x
                             (if vy <? vx then 1 else 0) ((vx - vy) mod 256)))
    as (P & T & W).
  - intros s V'. apply plain_execute_SUB. exact H.
  - intros rnd s V'. apply tetris_dispatch_SUB. exact H.
  - intros rnd s V'. apply working_dispatch_SUB. exact H.
  - intros V (HV & Lx & Ly). eexists. split.
    + apply (regs_SUB_spec _ _ V vx vy); subst x y; auto; lia.
    + rewrite land_0xFF.
      apply flag_and_value_inserts; [assumption|subst x; lia|exact Hx].
  - split; [|split].
    + intros s HV Hf Lx Ly. apply P; auto.
    + intros rnd s HV Hf Lx Ly. apply T; auto.
    + intros rnd s HV Hf Lx Ly. apply W; auto.
Qed.

Lemma sub_flag_is_strict_witness :
  (exists s',
      Plain.tick (plain_after 2 (rom_two_regs 0x07 0x07 5)) = Ok s' /\
      Plain.V s' !! 0%nat = Some 0 /\
      Plain.V s' !! 15%nat = Some 0) /\
  (exists s',
      Tetris.tick 0 (tetris_after [0; 0] (rom_two_regs 0x07 0x07 5)) = Ok s' /\
      Tetris.V s' !! 0%nat = Some 0 /\
      Tetris.V s' !! 15%nat = Some 0) /\
  (exists s',
      Working.cycle 0 (working_after 2 (rom_two_regs 0x07 0x07 5)) =
        Working.Val tt s' /\
      Working.gpio s' !! 0%nat = Some 0 /\
      Working.gpio s' !! 15%nat = Some 0).
Proof.
  assert (H : Z.land 0x8015 0xF00F = 0x8005) by reflexivity.
  assert (Hx : 0%nat <> 15%nat) by lia.
  assert (Hy : 1%nat <> 15%nat) by lia.
  destruct (sub_flag_is_strict 0x8015 7 7 H Hx Hy) as (P & T & W).
  split; [|split].
  - destruct (P (plain_after 2 (rom_two_regs 0x07 0x07 5)))
      as (s' & K & (Lv & Lf & _) & _).
    + vm_compute; reflexivity.
    + vm_compute; reflexivity.
    + vm_compute; reflexivity.
    + vm_compute; reflexivity.
    + exists s'. auto.
  - destruct (T 0 (tetris_after [0; 0] (rom_two_regs 0x07 0x07 5)))
      as (s' & K & (Lv & Lf & _) & _).
    + vm_compute; reflexivity.
    + vm_compute; reflexivity.
    + vm_compute; reflexivity.
    + vm_compute; reflexivity.
    + exists s'. auto.
  - destruct (W 0 (working_after 2 (rom_two_regs 0x07 0x07 5)))
      as (s' & K & (Lv & Lf & _) & _).
    + vm_compute; reflexivity.
    + vm_compute; reflexivity.
    + vm_compute; reflexivity.
    + vm_compute; reflexivity.
    + exists s'. auto.
Defined.

(** 8xy7, in the three drafts: with x and y other than 15, a tick that
    executes 8xy7 leaves (Vy - Vx) mod 256 in Vx and sets VF to 1 exactly when
    Vy > Vx, so equal operands give VF = 0; no other register changes. *)
Theorem subn_flag_is_strict (o vx vy : Z) :
  Z.land o 0xF00F = 0x8007 ->
  let x := Z.to_nat (Z.land (Z.shiftr o 8) 0xF) in
  let y := Z.to_nat (Z.land (Z.shiftr o 4) 0xF) in
  x <> 15%nat -> y <> 15%nat ->
  (forall s : Plain.Chip8,
      length (Plain.V s) = 16%nat -> Plain.fetch s = Ok o ->
      Plain.V s !! x = Some vx -> Plain.V s !! y = Some vy ->
      exists s',
        Plain.tick s = Ok s' /\
        flag_and_value (Plain.V s) (Plain.V s') x
          (if vx <? vy then 1 else 0) ((vy - vx) mod 256) /\
        Plain.pc s' = Plain.pc s + 2) /\
  (forall (rnd : Z) (s : Tetris.Chip8),
      length (Tetris.V s) = 16%nat -> Tetris.fetch s = Ok o ->
      Tetris.V s !! x = Some vx -> Tetris.V s !! y = Some vy ->
      exists s',
        Tetris.tick rnd s = Ok s' /\
        flag_and_value (Tetris.V s) (Tetris.V s') x
          (if vx <? vy then 1 else 0) ((vy - vx) mod 256) /\
        Tetris.pc s' = uint16 (Tetris.pc s + 2)) /\
  (forall (rnd : Z) (s : Working.Chip8),
      length (Working.gpio s) = 16%nat -> Working.fetch s = Ok o ->
      Working.gpio s !! x = Some vx -> Working.gpio s !! y = Some vy ->
      exists s',
        Working.cycle rnd s = Working.Val tt s' /\
        flag_and_value (Working.gpio s) (Working.gpio s') x
          (if vx <? vy then 1 else 0) ((vy - vx) mod 256) /\
        Working.pc s' = Z.land (Working.pc s + 2) 0xFFF).
Proof.
  intros H x y Hx Hy.
  pose proof (nibble_range (Z.shiftr o 8)) as Rx.
  pose proof (nibble_range (Z.shiftr o 4)) as Ry.
  destruct (regs_three_drafts o
              (regs_SUBN (Z.land (Z.shiftr o 8) 0xF) (Z.land (Z.shiftr o 4) 0xF))
              (fun V => length V = 16%nat /\ V !! x = Some vx /\ V !! y = Some vy)
              (fun V V' => flag_and_value V V' x
                             (if vx <? vy then 1 else 0) ((vy - vx) mod 256)))
    as (P & T & W).
  - intros s V'. apply plain_execute_SUBN. exact H.
  - intros rnd s V'. apply tetris_dispatch_SUBN. exact H.
  - intros rnd s V'. apply working_dispatch_SUBN. exact H.
  - intros V (HV & Lx & Ly). eexists. split.
    + apply (regs_SUBN_spec _ _ V vx vy); subst x y; auto; lia.
    + rewrite land_0xFF.
      apply flag_and_value_inserts; [assumption|subst x; lia|exact Hx].
  - split; [|split].
    + intros s HV Hf Lx Ly. apply P; auto.
    + intros rnd s HV Hf Lx Ly. apply T; auto.
    + intros rnd s HV Hf Lx Ly. apply W; auto.
Qed.

Lemma subn_flag_is_strict_witness :
  (exists s',
      Plain.tick (plain_after 2 (rom_two_regs 0x09 0x03 7)) = Ok s' /\
      Plain.V s' !! 0%nat = Some 250 /\
      Plain.V s' !! 15%nat = Some 0) /\
  (exists s',
      Tetris.tick 0 (tetris_after [0; 0] (rom_two_regs 0x09 0x03 7)) = Ok s' /\
      Tetris.V s' !! 0%nat = Some 250 /\
      Tetris.V s' !! 15%nat = Some 0) /\
  (exists s',
      Working.cycle 0 (working_after 2 (rom_two_regs 0x09 0x03 7)) =
        Working.Val tt s' /\
      Working.gpio s' !! 0%nat = Some 250 /\
      Working.gpio s' !! 15%nat = Some 0).
Proof.
  assert (H : Z.land 0x8017 0xF00F = 0x8007) by reflexivity.
  assert (Hx : 0%nat <> 15%nat) by lia.
  assert (Hy : 1%nat <> 15%nat) by lia.
  destruct (subn_flag_is_strict 0x8017 9 3 H Hx Hy) as (P & T & W).
  split; [|split].
  - destruct (P (plain_after 2 (rom_two_regs 0x09 0x03 7)))
      as (s' & K & (Lv & Lf & _) & _).
    + vm_compute; reflexivity.
    + vm_compute; reflexivity.
    + vm_compute; reflexivity.
    + vm_compute; reflexivity.
    + exists s'. auto.
  - destruct (T 0 (tetris_after [0; 0] (rom_two_regs 0x09 0x03 7)))
      as (s' & K & (Lv & Lf & _) & _).
    + vm_compute; reflexivity.
    + vm_compute; reflexivity.
    + vm_compute; reflexivity.
    + vm_compute; reflexivity.
    + exists s'. auto.
  - destruct (W 0 (working_after 2 (rom_two_regs 0x09 0x03 7)))
      as (s' & K & (Lv & Lf & _) & _).
    + vm_compute; reflexivity.
    + vm_compute; reflexivity.
    + vm_compute; reflexivity.
    + vm_compute; reflexivity.
    + exists s'. auto.
Defined.

(** 8xy6, in the three drafts: with a byte in Vx and x other than 15, a
    tick that executes 8xy6 halves Vx and puts the bit shifted out in VF, so
    that 2 * Vx' + VF is the old Vx; Vy plays no part and no other register
    changes. *)
Theorem shift_right_halves (o vx : Z) :
  Z.land o 0xF00F = 0x8006 ->
  let x := Z.to_nat (Z.land (Z.shiftr o 8) 0xF) in
  x <> 15%nat -> 0 <= vx <= 255 ->
  (forall s : Plain.Chip8,
      length (Plain.V s) = 16%nat -> Plain.fetch s = Ok o ->
      Plain.V s !! x = Some vx ->
      exists s',
        Plain.tick s = Ok s' /\
        flag_and_value (Plain.V s) (Plain.V s') x
          (vx mod 2) (vx / 2) /\
        Plain.pc s' = Plain.pc s + 2) /\
  (forall (rnd : Z) (s : Tetris.Chip8),
      length (Tetris.V s) = 16%nat -> Tetris.fetch s = Ok o ->
      Tetris.V s !! x = Some vx ->
      exists s',
        Tetris.tick rnd s = Ok s' /\
        flag_and_value (Tetris.V s) (Tetris.V s') x
          (vx mod 2) (vx / 2) /\
        Tetris.pc s' = uint16 (Tetris.pc s + 2)) /\
  (forall (rnd : Z) (s : Working.Chip8),
      length (Working.gpio s) = 16%nat -> Working.fetch s = Ok o ->
      Working.gpio s !! x = Some vx ->
      exists s',
        Working.cycle rnd s = Working.Val tt s' /\
        flag_and_value (Working.gpio s) (Working.gpio s') x
          (vx mod 2) (vx / 2) /\
        Working.pc s' = Z.land (Working.pc s + 2) 0xFFF).
Proof.
  intros H x Hx Hvx.
  pose proof (nibble_range (Z.shiftr o 8)) as Rx.
  destruct (regs_three_drafts o
              (regs_SHR (Z.land (Z.shiftr o 8) 0xF))
              (fun V => length V = 16%nat /\ V !! x = Some vx)
              (fun V V' => flag_and_value V V' x
                             (vx mod 2) (vx / 2)))
    as (P & T & W).
  - intros s V'. apply plain_execute_SHR. exact H.
  - intros rnd s V'. apply tetris_dispatch_SHR. exact H.
  - intros rnd s V'. apply working_dispatch_SHR. exact H.
  - intros V (HV & Lx). eexists. split.
    + apply (regs_SHR_spec _ V vx); subst x; auto; lia.
    + destruct (shift_byte_facts vx Hvx) as (-> & -> & _).
      apply flag_and_value_inserts; [assumption|subst x; lia|exact Hx].
  - split; [|split].
    + intros s HV Hf Lx. apply P; auto.
    + intros rnd s HV Hf Lx. apply T; auto.
    + intros rnd s HV Hf Lx. apply W; auto.
Qed.

Lemma shift_right_halves_witness :
  (exists s',
      Plain.tick (plain_after 2 (rom_two_regs 0x07 0x00 6)) = Ok s' /\
      Plain.V s' !! 0%nat = Some 3 /\
      Plain.V s' !! 15%nat = Some 1) /\
  (exists s',
      Tetris.tick 0 (tetris_after [0; 0] (rom_two_regs 0x07 0x00 6)) = Ok s' /\
      Tetris.V s' !! 0%nat = Some 3 /\
      Tetris.V s' !! 15%nat = Some 1) /\
  (exists s',
      Working.cycle 0 (working_after 2 (rom_two_regs 0x07 0x00 6)) =
        Working.Val tt s' /\
      Working.gpio s' !! 0%nat = Some 3 /\
      Working.gpio s' !! 15%nat = Some 1).
Proof.
  assert (H : Z.land 0x8016 0xF00F = 0x8006) by reflexivity.
  assert (Hx : 0%nat <> 15%nat) by lia.
  assert (Hvx : 0 <= 7 <= 255) by lia.
  destruct (shift_right_halves 0x8016 7 H Hx Hvx) as (P & T & W).
  split; [|split].
  - destruct (P (plain_after 2 (rom_two_regs 0x07 0x00 6)))
      as (s' & K & (Lv & Lf & _) & _).
    + vm_compute; reflexivity.
    + vm_compute; reflexivity.
    + vm_compute; reflexivity.
    + exists s'. auto.
  - destruct (T 0 (tetris_after [0; 0] (rom_two_regs 0x07 0x00 6)))
      as (s' & K & (Lv & Lf & _) & _).
    + vm_compute; reflexivity.
    + vm_compute; reflexivity.
    + vm_compute; reflexivity.
    + exists s'. auto.
  - destruct (W 0 (working_after 2 (rom_two_regs 0x07 0x00 6)))
      as (s' & K & (Lv & Lf & _) & _).
    + vm_compute; reflexivity.
    + vm_compute; reflexivity.
    + vm_compute; reflexivity.
    + exists s'. auto.
Defined.

(** 8xyE, in the three drafts: with a byte in Vx and x other than 15, a
    tick that executes 8xyE leaves the low byte of 2 * Vx in Vx and the top
    bit of the old Vx in VF; Vy plays no part and no other register
    changes. *)
Theorem shift_left_doubles (o vx : Z) :
  Z.land o 0xF00F = 0x800E ->
  let x := Z.to_nat (Z.land (Z.shiftr o 8) 0xF) in
  x <> 15%nat -> 0 <= vx <= 255 ->
  (forall s : Plain.Chip8,
      length (Plain.V s) = 16%nat -> Plain.fetch s = Ok o ->
      Plain.V s !! x = Some vx ->
      exists s',
        Plain.tick s = Ok s' /\
        flag_and_value (Plain.V s) (Plain.V s') x
          (vx / 128) ((2 * vx) mod 256) /\
        Plain.pc s' = Plain.pc s + 2) /\
  (forall (rnd : Z) (s : Tetris.Chip8),
      length (Tetris.V s) = 16%nat -> Tetris.fetch s = Ok o ->
      Tetris.V s !! x = Some vx ->
      exists s',
        Tetris.tick rnd s = Ok s' /\
        flag_and_value (Tetris.V s) (Tetris.V s') x
          (vx / 128) ((2 * vx) mod 256) /\
        Tetris.pc s' = uint16 (Tetris.pc s + 2)) /\
  (forall (rnd : Z) (s : Working.Chip8),
      length (Working.gpio s) = 16%nat -> Working.fetch s = Ok o ->
      Working.gpio s !! x = Some vx ->
      exists s',
        Working.cycle rnd s = Working.Val tt s' /\
        flag_and_value (Working.gpio s) (Working.gpio s') x
          (vx / 128) ((2 * vx) mod 256) /\
        Working.pc s' = Z.land (Working.pc s + 2) 0xFFF).
Proof.
  intros H x Hx Hvx.
  pose proof (nibble_range (Z.shiftr o 8)) as Rx.
  destruct (regs_three_drafts o
              (regs_SHL (Z.land (Z.shiftr o 8) 0xF))
              (fun V => length V = 16%nat /\ V !! x = Some vx)
              (fun V V' => flag_and_value V V' x
                             (vx / 128) ((2 * vx) mod 256)))
    as (P & T & W).
  - intros s V'. apply plain_execute_SHL. exact H.
  - intros rnd s V'. apply tetris_dispatch_SHL. exact H.
  - intros rnd s V'. apply working_dispatch_SHL. exact H.
  - intros V (HV & Lx). eexists. split.
    + apply (regs_SHL_spec _ V vx); subst x; auto; lia.
    + destruct (shift_byte_facts vx Hvx) as (_ & _ & -> & ->).
      apply flag_and_value_inserts; [assumption|subst x; lia|exact Hx].
  - split; [|split].
    + intros s HV Hf Lx. apply P; auto.
    + intros rnd s HV Hf Lx. apply T; auto.
    + intros rnd s HV Hf Lx. apply W; auto.
Qed.

Lemma shift_left_doubles_witness :
  (exists s',
      Plain.tick (plain_after 2 (rom_two_regs 0x81 0x00 14)) = Ok s' /\
      Plain.V s' !! 0%nat = Some 2 /\
      Plain.V s' !! 15%nat = Some 1) /\
  (exists s',
      Tetris.tick 0 (tetris_after [0; 0] (rom_two_regs 0x81 0x00 14)) = Ok s' /\
      Tetris.V s' !! 0%nat = Some 2 /\
      Tetris.V s' !! 15%nat = Some 1) /\
  (exists s',
      Working.cycle 0 (working_after 2 (rom_two_regs 0x81 0x00 14)) =
        Working.Val tt s' /\
      Working.gpio s' !! 0%nat = Some 2 /\
      Working.gpio s' !! 15%nat = Some 1).
Proof.
  assert (H : Z.land 0x801E 0xF00F = 0x800E) by reflexivity.
  assert (Hx : 0%nat <> 15%nat) by lia.
  assert (Hvx : 0 <= 129 <= 255) by lia.
  destruct (shift_left_doubles 0x801E 129 H Hx Hvx) as (P & T & W).
  split; [|split].
  - destruct (P (plain_after 2 (rom_two_regs 0x81 0x00 14)))
      as (s' & K & (Lv & Lf & _) & _).
    + vm_compute; reflexivity.
    + vm_compute; reflexivity.
    + vm_compute; reflexivity.
    + exists s'. auto.
  - destruct (T 0 (tetris_after [0; 0] (rom_two_regs 0x81 0x00 14)))
      as (s' & K & (Lv & Lf & _) & _).
    + vm_compute; reflexivity.
    + vm_compute; reflexivity.
    + vm_compute; reflexivity.
    + exists s'. auto.
  - destruct (W 0 (working_after 2 (rom_two_regs 0x81 0x00 14)))
      as (s' & K & (Lv & Lf & _) & _).
    + vm_compute; reflexivity.
    + vm_compute; reflexivity.
    + vm_compute; reflexivity.
    + exists s'. auto.
Defined.

(** ** One tick through its handler *)

Lemma plain_tick_fall (o : Z) (s t : Plain.Chip8) :
  Plain.fetch s = Ok o ->
  Plain.execute o (Plain.set_pc s (Plain.pc s + 2)) = Ok (Plain.Fall t) ->
  exists s',
    Plain.tick s = Ok s' /\
    Plain.memory s' = Plain.memory t /\ Plain.vram s' = Plain.vram t /\
    Plain.V s' = Plain.V t /\ Plain.I s' = Plain.I t /\
    Plain.pc s' = Plain.pc t /\ Plain.stack s' = Plain.stack t /\
    Plain.keys s' = Plain.keys t.
Proof.
  intros Hf He. exists (Plain.timers t). split.
  - unfold Plain.tick. rewrite Hf. cbn [bind]. cbv zeta. rewrite He.
    reflexivity.
  - apply plain_timers_frame.
Qed.

Lemma plain_tick_raise (o : Z) (s : Plain.Chip8) (e : exn) :
  Plain.fetch s = Ok o ->
  Plain.execute o (Plain.set_pc s (Plain.pc s + 2)) = Raise e ->
  Plain.tick s = Raise e.
Proof.
  intros Hf He. unfold Plain.tick. rewrite Hf. cbn [bind]. cbv zeta.
  rewrite He. reflexivity.
Qed.

Lemma working_timers_fields (s : Working.Chip8) :
  Working.memory (Working.timers s) = Working.memory s /\
  Working.gpio (Working.timers s) = Working.gpio s /\
  Working.index (Working.timers s) = Working.index s /\
  Working.pc (Working.timers s) = Working.pc s /\
  Working.stack (Working.timers s) = Working.stack s /\
  Working.display_buffer (Working.timers s) = Working.display_buffer s /\
  Working.key_inputs (Working.timers s) = Working.key_inputs s /\
  Working.has_exit (Working.timers s) = Working.has_exit s /\
  Working.stdout (Working.timers s) = Working.stdout s.
Proof.
  unfold Working.timers. cbv zeta.
  repeat (destruct (_ <? _); working_simpl); repeat split.
Qed.

Lemma working_cycle_done (rnd o : Z) (s t : Working.Chip8) :
  Working.fetch s = Ok o ->
  Working.dispatch rnd
    (Working.decode o (Working.set_cycle_count s (Working.cycle_count s + 1)))
    = Working.Done t ->
  exists s',
    Working.cycle rnd s = Working.Val tt s' /\
    Working.memory s' = Working.memory t /\
    Working.gpio s' = Working.gpio t /\
    Working.index s' = Working.index t /\
    Working.pc s' = Z.land (Working.pc t + 2) 0xFFF /\
    Working.stack s' = Working.stack t /\
    Working.display_buffer s' = Working.display_buffer t /\
    Working.key_inputs s' = Working.key_inputs t /\
    Working.has_exit s' = Working.has_exit t /\
    Working.stdout s' = Working.stdout t.
Proof.
  intros Hf Hd. eexists. split.
  - rewrite (working_cycle_dispatch rnd o s Hf), Hd.
    cbn [Working.and_then Working.Done]. reflexivity.
  - match goal with |- Working.memory (Working.timers ?u) = _ /\ _ =>
      destruct (working_timers_fields u)
        as (E1 & E2 & E3 & E4 & E5 & E6 & E7 & E8 & E9) end.
    rewrite E1, E2, E3, E4, E5, E6, E7, E8, E9. repeat split.
Qed.

Lemma working_cycle_exc (rnd o : Z) (s t : Working.Chip8) (e : exn) :
  Working.fetch s = Ok o ->
  Working.dispatch rnd
    (Working.decode o (Working.set_cycle_count s (Working.cycle_count s + 1)))
    = Working.Exc e t ->
  Working.cycle rnd s = Working.Exc e t.
Proof.
  intros Hf Hd. rewrite (working_cycle_dispatch rnd o s Hf), Hd. reflexivity.
Qed.

Lemma working_dispatch_prefix (rnd o : Z) (s : Working.Chip8)
      (p : Z) (h : Working.handler) :
  Z.land o 0xF000 = p -> p <> 0 ->
  Working.dict_get (Working.funcmap rnd) p = Some h ->
  Working.dispatch rnd (Working.decode o s) = h (Working.decode o s).
Proof.
  intros H Hp Hg. unfold Working.dispatch. cbv zeta.
  destruct (working_decode_fields o s) as (-> & _). rewrite H.
  destruct (Z.eqb_spec p 0); [contradiction|]. rewrite Hg. reflexivity.
Qed.

(** ** Fx33: binary-coded decimal *)

Lemma ba_setitem_byte (l : list Z) (i v : Z) :
  0 <= v <= 255 -> ba_setitem l i v = setitem l i v.
Proof.
  intros Hv. unfold ba_setitem.
  rewrite (proj2 (is_byte_range v) Hv). reflexivity.
Qed.

Lemma bcd_digits_of_byte (v : Z) :
  0 <= v <= 255 ->
  0 <= v / 100 <= 9 /\ 0 <= (v / 10) mod 10 <= 9 /\ 0 <= v mod 10 <= 9 /\
  100 * (v / 100) + 10 * ((v / 10) mod 10) + v mod 10 = v.
Proof.
  intros Hv.
  pose proof (Z.mod_pos_bound (v / 10) 10 ltac:(lia)).
  pose proof (Z.mod_pos_bound v 10 ltac:(lia)).
  pose proof (Z.div_mod v 10 ltac:(lia)).
  pose proof (Z.div_mod (v / 10) 10 ltac:(lia)).
  assert (v / 10 / 10 = v / 100) by (rewrite Z.div_div by lia; reflexivity).
  assert (0 <= v / 100) by (apply Z.div_pos; lia).
  assert (v / 100 <= 2).
  { apply Z.lt_succ_r. apply Z.div_lt_upper_bound; lia. }
  lia.
Qed.

Lemma mem_BCD_ba (I v : Z) (m : list Z) :
  0 <= v <= 255 -> mem_BCD ba_setitem I v m = mem_BCD setitem I v m.
Proof.
  intros Hv. destruct (bcd_digits_of_byte v Hv) as (H2 & H1 & H0 & _).
  unfold mem_BCD. rewrite (ba_setitem_byte m) by lia.
  destruct (setitem m I (v / 100)) as [m1|]; [|reflexivity]. cbn [bind].
  rewrite (ba_setitem_byte m1) by lia.
  destruct (setitem m1 (I + 1) _) as [m2|]; [|reflexivity]. cbn [bind].
  apply ba_setitem_byte. lia.
Qed.

Lemma mem_BCD_ok (I v : Z) (m : list Z) :
  0 <= v <= 255 -> 0 <= I -> I + 2 < Z.of_nat (length m) ->
  exists m', mem_BCD setitem I v m = Ok m' /\ bcd_at m m' (Z.to_nat I) v.
Proof.
  intros Hv HI Hm. destruct (bcd_digits_of_byte v Hv) as (H2 & H1 & H0 & E).
  eexists. split.
  - unfold mem_BCD. rewrite setitem_in_range by lia. cbn [bind].
    rewrite setitem_in_range by (rewrite length_insert; lia). cbn [bind].
    rewrite setitem_in_range by (rewrite !length_insert; lia). reflexivity.
  - exists (v / 100), ((v / 10) mod 10), (v mod 10).
    replace (Z.to_nat (I + 1)) with (Z.to_nat I + 1)%nat by lia.
    replace (Z.to_nat (I + 2)) with (Z.to_nat I + 2)%nat by lia.
    repeat split; try lia.
    + rewrite !list_lookup_insert_ne by lia.
      apply list_lookup_insert_eq. lia.
    + rewrite list_lookup_insert_ne by lia.
      apply list_lookup_insert_eq. rewrite length_insert. lia.
    + apply list_lookup_insert_eq. rewrite !length_insert. lia.
    + rewrite !length_insert. reflexivity.
    + intros j Hj. rewrite !list_lookup_insert_ne by lia. reflexivity.
Qed.

Lemma mem_BCD_past_end (I v : Z) (m : list Z) :
  0 <= I -> Z.of_nat (length m) <= I + 2 ->
  mem_BCD setitem I v m = Raise IndexError.
Proof.
  intros HI Hm. unfold mem_BCD.
  destruct (Z.lt_ge_cases I (Z.of_nat (length m))) as [L|L];
    [|rewrite setitem_past_end by lia; reflexivity].
  rewrite setitem_in_range by lia. cbn [bind].
  destruct (Z.lt_ge_cases (I + 1) (Z.of_nat (length m))) as [L1|L1];
    [|rewrite setitem_past_end by (rewrite length_insert; lia); reflexivity].
  rewrite setitem_in_range by (rewrite length_insert; lia). cbn [bind].
  apply setitem_past_end. rewrite !length_insert. lia.
Qed.

Lemma plain_execute_BCD (o : Z) (s : Plain.Chip8) :
  Z.land o 0xF0FF = 0xF033 ->
  Plain.execute o s =
    let* v := getitem (Plain.V s) (Z.land (Z.shiftr o 8) 0xF) in
    let* m := mem_BCD setitem (Plain.I s) v (Plain.memory s) in
    Ok (Plain.Fall (Plain.set_memory s m)).
Proof.
  intros H. unfold Plain.execute. cbv zeta. chain H.
  unfold mem_BCD, Plain.write_memory, Plain.fall.
  destruct (getitem (Plain.V s) _) as [v|]; [|reflexivity]. cbn [bind].
  destruct (setitem (Plain.memory s) _ _) as [m1|]; [|reflexivity].
  cbn [bind]. plain_simpl.
  destruct (setitem m1 _ _) as [m2|]; [|reflexivity]. cbn [bind]. plain_simpl.
  destruct (setitem m2 _ _) as [m3|]; reflexivity.
Qed.

Lemma tetris_dispatch_BCD (rnd o : Z) (s : Tetris.Chip8) :
  Z.land o 0xF0FF = 0xF033 ->
  Tetris.dispatch (Tetris.opcodes rnd) o s =
    let* v := getitem (Tetris.V s) (Z.land (Z.shiftr o 8) 0xF) in
    let* m := mem_BCD ba_setitem (Tetris.I s) v (Tetris.memory s) in
    Ok (Tetris.set_memory s m).
Proof.
  intros H. unfold Tetris.opcodes. cbn [Tetris.dispatch]. chain H.
  unfold Tetris.op_BCD, Tetris.reg_x, mem_BCD, Tetris.write_memory. cbv zeta.
  destruct (getitem (Tetris.V s) _) as [v|]; [|reflexivity]. cbn [bind].
  destruct (ba_setitem (Tetris.memory s) _ _) as [m1|]; [|reflexivity].
  cbn [bind]. tetris_simpl.
  destruct (ba_setitem m1 _ _) as [m2|]; [|reflexivity]. cbn [bind].
  tetris_simpl.
  destruct (ba_setitem m2 _ _) as [m3|]; reflexivity.
Qed.

Lemma working_dispatch_Fxxx (rnd o : Z) (s : Working.Chip8) :
  Z.land o 0xF000 = 0xF000 ->
  Working.dispatch rnd (Working.decode o s) =
    Working._Fxxx (Working.decode o s).
Proof.
  intros H. apply (working_dispatch_prefix rnd o s 0xF000); [exact H|lia|].
  reflexivity.
Qed.

Ltac working_Fxxx H kk :=
  let Hs := fresh "Hs" in
  rewrite working_dispatch_Fxxx
    by (rewrite (mask_narrow _ _ _ 0xF000 H); reflexivity);
  unfold Working._Fxxx; cbv zeta;
  match goal with
  | |- context [Working.decode ?o ?s] =>
      destruct (working_decode_fields o s) as (-> & _);
      assert (Hs : Z.land o 0xFF = kk)
        by (rewrite (mask_narrow _ _ _ 0xFF H); reflexivity);
      rewrite Hs; cbn [Z.eqb Pos.eqb]
  end.

Lemma working_dispatch_BCD (rnd o v : Z) (s : Working.Chip8) (m : list Z) :
  Z.land o 0xF0FF = 0xF033 ->
  getitem (Working.gpio s) (Z.land (Z.shiftr o 8) 0xF) = Ok v ->
  Working.index s < 4094 ->
  mem_BCD setitem (Working.index s) v (Working.memory s) = Ok m ->
  Working.dispatch rnd (Working.decode o s) =
    Working.Done (Working.set_memory (Working.decode o s) m).
Proof.
  intros H G Hi Em. working_Fxxx H 0x33.
  destruct (working_decode_fields o s) as (_ & _ & _ & Eg & Emem & EI & _).
  rewrite Eg, G, EI. cbn [Working.eval].
  destruct (Z.ltb_spec (Working.index s) 4094); [|lia].
  unfold mem_BCD in Em. unfold Working.write_memory. rewrite Emem.
  destruct (setitem (Working.memory s) _ _) as [m1|]; [|discriminate Em].
  cbn [bind] in Em.
  cbn [Working.eval Working.and_then Working.Done]. working_simpl. rewrite EI.
  destruct (setitem m1 _ _) as [m2|]; [|discriminate Em]. cbn [bind] in Em.
  cbn [Working.eval Working.and_then Working.Done]. working_simpl. rewrite EI.
  rewrite Em. reflexivity.
Qed.

Lemma working_dispatch_BCD_skip (rnd o v : Z) (s : Working.Chip8) :
  Z.land o 0xF0FF = 0xF033 ->
  getitem (Working.gpio s) (Z.land (Z.shiftr o 8) 0xF) = Ok v ->
  4094 <= Working.index s ->
  Working.dispatch rnd (Working.decode o s) = Working.Done (Working.decode o s).
Proof.
  intros H G Hi. working_Fxxx H 0x33.
  destruct (working_decode_fields o s) as (_ & _ & _ & Eg & Emem & EI & _).
  rewrite Eg, G, EI. cbn [Working.eval].
  destruct (Z.ltb_spec (Working.index s) 4094); [lia|]. reflexivity.
Qed.

(** Fx33, in the three drafts: with a byte v in Vx and I, I+1, I+2 inside
    the memory (and, in [Working], I below 4094, which its guard demands), a
    tick that executes Fx33 stores the hundreds, tens and ones digit of v at
    I, I+1 and I+2: three digits between 0 and 9 with
    100 h + 10 t + u = v.  No other memory cell, no register and not I
    changes. *)
Theorem bcd_digits (o v : Z) :
  Z.land o 0xF0FF = 0xF033 ->
  let x := Z.to_nat (Z.land (Z.shiftr o 8) 0xF) in
  0 <= v <= 255 ->
  (forall s : Plain.Chip8,
      Plain.fetch s = Ok o -> Plain.V s !! x = Some v ->
      0 <= Plain.I s -> Plain.I s + 2 < Z.of_nat (length (Plain.memory s)) ->
      exists s',
        Plain.tick s = Ok s' /\
        bcd_at (Plain.memory s) (Plain.memory s') (Z.to_nat (Plain.I s)) v /\
        Plain.V s' = Plain.V s /\ Plain.I s' = Plain.I s) /\
  (forall (rnd : Z) (s : Tetris.Chip8),
      Tetris.fetch s = Ok o -> Tetris.V s !! x = Some v ->
      0 <= Tetris.I s ->
      Tetris.I s + 2 < Z.of_nat (length (Tetris.memory s)) ->
      exists s',
        Tetris.tick rnd s = Ok s' /\
        bcd_at (Tetris.memory s) (Tetris.memory s') (Z.to_nat (Tetris.I s)) v /\
        Tetris.V s' = Tetris.V s /\ Tetris.I s' = Tetris.I s) /\
  (forall (rnd : Z) (s : Working.Chip8),
      Working.fetch s = Ok o -> Working.gpio s !! x = Some v ->
      0 <= Working.index s -> Working.index s < 4094 ->
      Working.index s + 2 < Z.of_nat (length (Working.memory s)) ->
      exists s',
        Working.cycle rnd s = Working.Val tt s' /\
        bcd_at (Working.memory s) (Working.memory s')
               (Z.to_nat (Working.index s)) v /\
        Working.gpio s' = Working.gpio s /\
        Working.index s' = Working.index s).
Proof.
  intros H x Hv.
  pose proof (nibble_range (Z.shiftr o 8)) as Rx.
  split; [|split].
  - intros s Hf Lx HI Hm.
    destruct (mem_BCD_ok (Plain.I s) v (Plain.memory s) Hv HI Hm)
      as (m' & Em & B).
    destruct (plain_tick_fall o s
                (Plain.set_memory (Plain.set_pc s (Plain.pc s + 2)) m') Hf)
      as (s' & T & Fm & _ & FV & FI & _).
    + rewrite plain_execute_BCD by exact H. cbv zeta. plain_simpl.
      rewrite (getitem_lookup _ _ v) by (lia || exact Lx). cbn [bind].
      rewrite Em. reflexivity.
    + exists s'. rewrite Fm, FV, FI. auto.
  - intros rnd s Hf Lx HI Hm.
    destruct (mem_BCD_ok (Tetris.I s) v (Tetris.memory s) Hv HI Hm)
      as (m' & Em & B).
    eexists. split.
    + rewrite (tetris_tick_dispatch rnd o s Hf).
      rewrite tetris_dispatch_BCD by exact H. cbv zeta. tetris_simpl.
      rewrite (getitem_lookup _ _ v) by (lia || exact Lx). cbn [bind].
      rewrite mem_BCD_ba by exact Hv. rewrite Em. reflexivity.
    + tetris_simpl. auto.
  - intros rnd s Hf Lx HI HI' Hm.
    destruct (mem_BCD_ok (Working.index s) v (Working.memory s) Hv HI Hm)
      as (m' & Em & B).
    destruct (working_cycle_done rnd o s
                (Working.set_memory
                   (Working.decode o
                      (Working.set_cycle_count s (Working.cycle_count s + 1)))
                   m') Hf)
      as (s' & T & Fm & Fg & Fi & _).
    + apply (working_dispatch_BCD rnd o v); [exact H| |exact HI'|exact Em].
      apply getitem_lookup; [lia|exact Lx].
    + exists s'. rewrite Fm, Fg, Fi. working_simpl.
      destruct (working_decode_fields o
                  (Working.set_cycle_count s (Working.cycle_count s + 1)))
        as (_ & _ & _ & Eg & _ & EI & _).
      rewrite Eg, EI. auto.
Qed.

Lemma bcd_digits_witness :
  (exists s',
      Plain.tick (plain_after 2 (rom_bcd 234 3 0)) = Ok s' /\
      bcd_at (Plain.memory (plain_after 2 (rom_bcd 234 3 0)))
             (Plain.memory s') 0x300 234) /\
  (exists s',
      Tetris.tick 0 (tetris_after [0; 0] (rom_bcd 234 3 0)) = Ok s' /\
      bcd_at (Tetris.memory (tetris_after [0; 0] (rom_bcd 234 3 0)))
             (Tetris.memory s') 0x300 234) /\
  (exists s',
      Working.cycle 0 (working_after 2 (rom_bcd 234 3 0)) =
        Working.Val tt s' /\
      bcd_at (Working.memory (working_after 2 (rom_bcd 234 3 0)))
             (Working.memory s') 0x300 234).
Proof.
  assert (H : Z.land 0xF033 0xF0FF = 0xF033) by reflexivity.
  assert (Hv : 0 <= 234 <= 255) by lia.
  destruct (bcd_digits 0xF033 234 H Hv) as (P & T & W).
  split; [|split].
  - destruct (P (plain_after 2 (rom_bcd 234 3 0))) as (s' & K & B & _).
    + vm_compute; reflexivity.
    + vm_compute; reflexivity.
    + vm_compute; intros Hc; discriminate Hc.
    + vm_compute; reflexivity.
    + exists s'. auto.
  - destruct (T 0 (tetris_after [0; 0] (rom_bcd 234 3 0)))
      as (s' & K & B & _).
    + vm_compute; reflexivity.
    + vm_compute; reflexivity.
    + vm_compute; intros Hc; discriminate Hc.
    + vm_compute; reflexivity.
    + exists s'. auto.
  - destruct (W 0 (working_after 2 (rom_bcd 234 3 0))) as (s' & K & B & _).
    + vm_compute; reflexivity.
    + vm_compute; reflexivity.
    + vm_compute; intros Hc; discriminate Hc.
    + vm_compute; reflexivity.
    + vm_compute; reflexivity.
    + exists s'. auto.
Defined.

(** Fx33 at the end of the memory: when I + 2 is past the last cell, the
    tick of [Plain] and of [Tetris] raises IndexError, while the cycle of
    [Working] with I at 4094 or more stores no digit at all, not even at the
    cells that exist, and goes on. *)
Theorem bcd_at_memory_end (o v : Z) :
  Z.land o 0xF0FF = 0xF033 ->
  let x := Z.to_nat (Z.land (Z.shiftr o 8) 0xF) in
  0 <= v <= 255 ->
  (forall s : Plain.Chip8,
      Plain.fetch s = Ok o -> Plain.V s !! x = Some v ->
      0 <= Plain.I s -> Z.of_nat (length (Plain.memory s)) <= Plain.I s + 2 ->
      Plain.tick s = Raise IndexError) /\
  (forall (rnd : Z) (s : Tetris.Chip8),
      Tetris.fetch s = Ok o -> Tetris.V s !! x = Some v ->
      0 <= Tetris.I s ->
      Z.of_nat (length (Tetris.memory s)) <= Tetris.I s + 2 ->
      Tetris.tick rnd s = Raise IndexError) /\
  (forall (rnd : Z) (s : Working.Chip8),
      Working.fetch s = Ok o -> Working.gpio s !! x = Some v ->
      4094 <= Working.index s ->
      exists s',
        Working.cycle rnd s = Working.Val tt s' /\
        Working.memory s' = Working.memory s /\
        Working.gpio s' = Working.gpio s /\
        Working.index s' = Working.index s).
Proof.
  intros H x Hv.
  pose proof (nibble_range (Z.shiftr o 8)) as Rx.
  split; [|split].
  - intros s Hf Lx HI Hm. apply (plain_tick_raise o s _ Hf).
    rewrite plain_execute_BCD by exact H. cbv zeta. plain_simpl.
    rewrite (getitem_lookup _ _ v) by (lia || exact Lx). cbn [bind].
    rewrite mem_BCD_past_end by assumption. reflexivity.
  - intros rnd s Hf Lx HI Hm.
    rewrite (tetris_tick_dispatch rnd o s Hf).
    rewrite tetris_dispatch_BCD by exact H. cbv zeta. tetris_simpl.
    rewrite (getitem_lookup _ _ v) by (lia || exact Lx). cbn [bind].
    rewrite mem_BCD_ba by exact Hv.
    rewrite mem_BCD_past_end by assumption. reflexivity.
  - intros rnd s Hf Lx HI.
    destruct (working_cycle_done rnd o s
                (Working.decode o
                   (Working.set_cycle_count s (Working.cycle_count s + 1)))
                Hf)
      as (s' & T & Fm & Fg & Fi & _).
    + apply (working_dispatch_BCD_skip rnd o v); [exact H| |exact HI].
      apply getitem_lookup; [lia|exact Lx].
    + exists s'. rewrite Fm, Fg, Fi.
      destruct (working_decode_fields o
                  (Working.set_cycle_count s (Working.cycle_count s + 1)))
        as (_ & _ & _ & Eg & Em & EI & _).
      rewrite Eg, Em, EI. auto.
Qed.

Lemma bcd_at_memory_end_witness :
  Plain.tick (plain_after 2 (rom_bcd 234 0xF 0xFE)) = Raise IndexError /\
  Tetris.tick 0 (tetris_after [0; 0] (rom_bcd 234 0xF 0xFE)) =
    Raise IndexError /\
  (exists s',
      Working.cycle 0 (working_after 2 (rom_bcd 234 0xF 0xFE)) =
        Working.Val tt s' /\
      Working.memory s' = Working.memory (working_after 2 (rom_bcd 234 0xF 0xFE))).
Proof.
  assert (H : Z.land 0xF033 0xF0FF = 0xF033) by reflexivity.
  assert (Hv : 0 <= 234 <= 255) by lia.
  destruct (bcd_at_memory_end 0xF033 234 H Hv) as (P & T & W).
  split; [|split].
  - apply P.
    + vm_compute; reflexivity.
    + vm_compute; reflexivity.
    + vm_compute; intros Hc; discriminate Hc.
    + vm_compute; intros Hc; discriminate Hc.
  - apply T.
    + vm_compute; reflexivity.
    + vm_compute; reflexivity.
    + vm_compute; intros Hc; discriminate Hc.
    + vm_compute; intros Hc; discriminate Hc.
  - destruct (W 0 (working_after 2 (rom_bcd 234 0xF 0xFE)))
      as (s' & K & M & _).
    + vm_compute; reflexivity.
    + vm_compute; reflexivity.
    + vm_compute; intros Hc; discriminate Hc.
    + exists s'. auto.
Defined.

(** ** Fx55 and Fx65: registers to memory and back *)

Lemma seqZ_succ (a : Z) (n : nat) :
  seqZ a (Z.of_nat (S n)) = a :: seqZ (a + 1) (Z.of_nat n).
Proof.
  rewrite seqZ_cons by lia. f_equal. f_equal; lia.
Qed.

Lemma copy_loop_ok (guard : Z -> bool) (g s d : Z) (src : list Z) (n : nat) :
  forall (a : Z) (dst : list Z),
    (forall i, a <= i < a + Z.of_nat n -> guard (g + i) = true) ->
    0 <= s + a -> s + a + Z.of_nat n <= Z.of_nat (length src) ->
    0 <= d + a -> d + a + Z.of_nat n <= Z.of_nat (length dst) ->
    copy_loop guard g s d src (seqZ a (Z.of_nat n)) dst =
      Ok (splice (Z.to_nat (d + a)) (take n (drop (Z.to_nat (s + a)) src))
                 dst).
Proof.
  induction n as [|n IH]; intros a dst Hg Hs0 Hs Hd0 Hd.
  - cbn [Z.of_nat]. rewrite seqZ_nil by lia. cbn [copy_loop take].
    rewrite splice_nil. reflexivity.
  - rewrite seqZ_succ. cbn [copy_loop]. rewrite Hg by lia.
    destruct (lookup_lt_is_Some_2 src (Z.to_nat (s + a))) as [v Hv]; [lia|].
    rewrite (getitem_lookup src (s + a) v) by (lia || exact Hv).
    cbn [bind]. rewrite setitem_in_range by lia. cbn [bind].
    rewrite IH; [|intros; apply Hg; lia|lia|lia|lia|rewrite length_insert; lia].
    f_equal. replace (Z.to_nat (d + (a + 1))) with (S (Z.to_nat (d + a))) by lia.
    rewrite splice_cons by lia. f_equal.
    rewrite (drop_S src v (Z.to_nat (s + a)) Hv). cbn [take]. f_equal.
    f_equal. f_equal. lia.
Qed.

(** The copy raises IndexError when the destination ends too early... *)
Lemma copy_loop_dst_ends (guard : Z -> bool) (g s d : Z) (src : list Z)
      (n : nat) :
  forall (a : Z) (dst : list Z),
    (forall i, a <= i < a + Z.of_nat n -> guard (g + i) = true) ->
    0 <= s + a -> s + a + Z.of_nat n <= Z.of_nat (length src) ->
    0 <= d + a <= Z.of_nat (length dst) ->
    Z.of_nat (length dst) < d + a + Z.of_nat n ->
    copy_loop guard g s d src (seqZ a (Z.of_nat n)) dst = Raise IndexError.
Proof.
  induction n as [|n IH]; intros a dst Hg Hs0 Hs Hd0 Hd; [lia|].
  rewrite seqZ_succ. cbn [copy_loop]. rewrite Hg by lia.
  destruct (lookup_lt_is_Some_2 src (Z.to_nat (s + a))) as [v Hv]; [lia|].
  rewrite (getitem_lookup src (s + a) v) by (lia || exact Hv).
  cbn [bind].
  destruct (Z.lt_ge_cases (d + a) (Z.of_nat (length dst))) as [L|L].
  - rewrite setitem_in_range by lia. cbn [bind].
    apply IH; [intros; apply Hg; lia|lia|lia|rewrite length_insert; lia|].
    rewrite length_insert. lia.
  - rewrite setitem_past_end by lia. reflexivity.
Qed.

(** ... and when the source does. *)
Lemma copy_loop_src_ends (guard : Z -> bool) (g s d : Z) (src : list Z)
      (n : nat) :
  forall (a : Z) (dst : list Z),
    (forall i, a <= i < a + Z.of_nat n -> guard (g + i) = true) ->
    0 <= s + a <= Z.of_nat (length src) ->
    Z.of_nat (length src) < s + a + Z.of_nat n ->
    0 <= d + a -> d + a + Z.of_nat n <= Z.of_nat (length dst) ->
    copy_loop guard g s d src (seqZ a (Z.of_nat n)) dst = Raise IndexError.
Proof.
  induction n as [|n IH]; intros a dst Hg Hs0 Hs Hd0 Hd; [lia|].
  rewrite seqZ_succ. cbn [copy_loop]. rewrite Hg by lia.
  destruct (Z.lt_ge_cases (s + a) (Z.of_nat (length src))) as [L|L].
  - destruct (lookup_lt_is_Some_2 src (Z.to_nat (s + a))) as [v Hv]; [lia|].
    rewrite (getitem_lookup src (s + a) v) by (lia || exact Hv).
    cbn [bind]. rewrite setitem_in_range by lia. cbn [bind].
    apply IH; [intros; apply Hg; lia|lia|lia|lia|rewrite length_insert; lia].
  - rewrite getitem_past_end by lia. reflexivity.
Qed.

Lemma copy_loop_skip (guard : Z -> bool) (g s d : Z) (src : list Z)
      (idxs : list Z) (dst : list Z) :
  Forall (fun i => guard (g + i) = false) idxs ->
  copy_loop guard g s d src idxs dst = Ok dst.
Proof.
  induction 1 as [|i r Hi _ IH]; [reflexivity|].
  cbn [copy_loop]. rewrite Hi. exact IH.
Qed.

Lemma copy_loop_app (guard : Z -> bool) (g s d : Z) (src : list Z)
      (l1 l2 : list Z) :
  forall dst : list Z,
    copy_loop guard g s d src (l1 ++ l2) dst =
      bind (copy_loop guard g s d src l1 dst) (copy_loop guard g s d src l2).
Proof.
  induction l1 as [|i r IH]; intros dst; [reflexivity|].
  cbn [app copy_loop]. destruct (guard (g + i)); [|apply IH].
  destruct (getitem src (s + i)) as [v|]; [|reflexivity]. cbn [bind].
  destruct (setitem dst (d + i) v) as [dst1|]; [|reflexivity]. cbn [bind].
  apply IH.
Qed.

(** With the guard of [Working], the copy stops short of address 4096
    instead of raising: of [n] items from [g] on, the first [k] that lie
    below 4096 are copied. *)
Lemma copy_loop_guarded (g s d : Z) (src dst : list Z) (n k : nat) :
  (k <= n)%nat ->
  g + Z.of_nat k <= 4096 -> ((k < n)%nat -> 4096 <= g + Z.of_nat k) ->
  0 <= s -> s + Z.of_nat k <= Z.of_nat (length src) ->
  0 <= d -> d + Z.of_nat k <= Z.of_nat (length dst) ->
  copy_loop below_4096 g s d src (seqZ 0 (Z.of_nat n)) dst =
    Ok (splice (Z.to_nat d) (take k (drop (Z.to_nat s) src)) dst).
Proof.
  intros Hk Hg1 Hg2 Hs0 Hs Hd0 Hd.
  replace (Z.of_nat n) with (Z.of_nat k + Z.of_nat (n - k)) by lia.
  rewrite seqZ_app by lia. rewrite copy_loop_app.
  rewrite copy_loop_ok by (try lia; intros i Hi; unfold below_4096;
                           apply Z.ltb_lt; lia).
  cbn [bind]. rewrite copy_loop_skip.
  - rewrite !Z.add_0_r. reflexivity.
  - apply Forall_seqZ. intros i Hi. unfold below_4096. apply Z.ltb_ge.
    assert (k < n)%nat by lia. specialize (Hg2 ltac:(assumption)). lia.
Qed.

(** The loops of the drafts are this copy. *)
Lemma plain_store_loop (idxs : list Z) :
  forall s : Plain.Chip8,
    for_each (fun i s => let* v := getitem (Plain.V s) i in
                         Plain.write_memory (Plain.I s + i) v s) idxs s =
      let* m := copy_loop no_guard (Plain.I s) 0 (Plain.I s) (Plain.V s) idxs
                          (Plain.memory s) in
      Ok (Plain.set_memory s m).
Proof.
  induction idxs as [|i r IH]; intros s.
  - cbn [for_each copy_loop bind]. rewrite plain_set_memory_id. reflexivity.
  - cbn [for_each copy_loop]. unfold no_guard at 1. rewrite Z.add_0_l.
    destruct (getitem (Plain.V s) i) as [v|]; [|reflexivity]. cbn [bind].
    unfold Plain.write_memory.
    destruct (setitem (Plain.memory s) _ v) as [m1|]; [|reflexivity].
    cbn [bind]. rewrite IH. plain_simpl.
    destruct (copy_loop _ _ _ _ _ r m1); reflexivity.
Qed.

Lemma plain_set_V_id (s : Plain.Chip8) : Plain.set_V s (Plain.V s) = s.
Proof. destruct s. reflexivity. Qed.

Lemma plain_load_loop (idxs : list Z) :
  forall s : Plain.Chip8,
    for_each (fun i s => let* v := getitem (Plain.memory s) (Plain.I s + i) in
                         Plain.write_V i v s) idxs s =
      let* V' := copy_loop no_guard (Plain.I s) (Plain.I s) 0 (Plain.memory s)
                           idxs (Plain.V s) in
      Ok (Plain.set_V s V').
Proof.
  induction idxs as [|i r IH]; intros s.
  - cbn [for_each copy_loop bind]. rewrite plain_set_V_id. reflexivity.
  - cbn [for_each copy_loop]. unfold no_guard at 1. rewrite Z.add_0_l.
    destruct (getitem (Plain.memory s) _) as [v|]; [|reflexivity].
    cbn [bind]. unfold Plain.write_V.
    destruct (setitem (Plain.V s) i v) as [V1|]; [|reflexivity].
    cbn [bind]. rewrite IH. plain_simpl.
    destruct (copy_loop _ _ _ _ _ r V1); reflexivity.
Qed.

Lemma working_set_gpio_id (s : Working.Chip8) :
  Working.set_gpio s (Working.gpio s) = s.
Proof. destruct s. reflexivity. Qed.

Lemma working_store_loop (idxs : list Z) :
  forall (s : Working.Chip8) (m : list Z),
    copy_loop below_4096 (Working.index s) 0 (Working.index s)
              (Working.gpio s) idxs (Working.memory s) = Ok m ->
    Working.for_each
      (fun i s =>
         if Working.index s + i <? 4096 then
           Working.eval (getitem (Working.gpio s) i) s
             (fun g => Working.write_memory (Working.index s + i) g s)
         else Working.Done s) idxs s =
      Working.Done (Working.set_memory s m).
Proof.
  induction idxs as [|i r IH]; intros s m.
  - cbn [copy_loop Working.for_each]. intros [= <-].
    rewrite working_set_memory_id. reflexivity.
  - cbn [copy_loop Working.for_each]. unfold below_4096 at 1.
    rewrite Z.add_0_l.
    destruct (Working.index s + i <? 4096).
    + destruct (getitem (Working.gpio s) i) as [v|]; [|discriminate].
      cbn [bind Working.eval]. unfold Working.write_memory.
      destruct (setitem (Working.memory s) _ v) as [m1|]; [|discriminate].
      cbn [bind Working.eval Working.and_then Working.Done]. intros R.
      rewrite (IH _ m) by (working_simpl; exact R). reflexivity.
    + cbn [Working.and_then Working.Done]. apply IH.
Qed.

Lemma working_load_loop (idxs : list Z) :
  forall (s : Working.Chip8) (V' : list Z),
    copy_loop below_4096 (Working.index s) (Working.index s) 0
              (Working.memory s) idxs (Working.gpio s) = Ok V' ->
    Working.for_each
      (fun i s =>
         if Working.index s + i <? 4096 then
           Working.eval (getitem (Working.memory s) (Working.index s + i)) s
             (fun m => Working.write_gpio i m s)
         else Working.Done s) idxs s =
      Working.Done (Working.set_gpio s V').
Proof.
  induction idxs as [|i r IH]; intros s V'.
  - cbn [copy_loop Working.for_each]. intros [= <-].
    rewrite working_set_gpio_id. reflexivity.
  - cbn [copy_loop Working.for_each]. unfold below_4096 at 1.
    rewrite Z.add_0_l.
    destruct (Working.index s + i <? 4096).
    + destruct (getitem (Working.memory s) _) as [v|]; [|discriminate].
      cbn [bind Working.eval]. unfold Working.write_gpio.
      destruct (setitem (Working.gpio s) i v) as [V1|]; [|discriminate].
      cbn [bind Working.eval Working.and_then Working.Done]. intros R.
      rewrite (IH _ V') by (working_simpl; exact R). reflexivity.
    + cbn [Working.and_then Working.Done]. apply IH.
Qed.

(** Slices of [Tetris]. *)
Lemma getslice_inside (l : list Z) (a b : Z) :
  0 <= a <= b -> b <= Z.of_nat (length l) ->
  getslice l a b = take (Z.to_nat (b - a)) (drop (Z.to_nat a) l).
Proof.
  intros H1 H2. unfold getslice, slice_bound. cbv zeta.
  destruct (Z.ltb_spec a 0); [lia|]. destruct (Z.ltb_spec b 0); [lia|].
  f_equal; [|f_equal]; lia.
Qed.

Lemma getslice_to_end (l : list Z) (a b : Z) :
  0 <= a <= Z.of_nat (length l) -> Z.of_nat (length l) <= b ->
  getslice l a b = drop (Z.to_nat a) l.
Proof.
  intros H1 H2. unfold getslice, slice_bound. cbv zeta.
  destruct (Z.ltb_spec a 0); [lia|]. destruct (Z.ltb_spec b 0); [lia|].
  replace (Z.to_nat (Z.min a (Z.of_nat (length l)))) with (Z.to_nat a) by lia.
  apply take_ge. rewrite length_drop. lia.
Qed.

Lemma setslice_inside (l vals : list Z) (a b : Z) :
  0 <= a -> b = a + Z.of_nat (length vals) -> b <= Z.of_nat (length l) ->
  setslice l a b vals = splice (Z.to_nat a) vals l.
Proof.
  intros H1 -> H2. unfold setslice, slice_bound, splice. cbv zeta.
  destruct (Z.ltb_spec a 0); [lia|].
  destruct (Z.ltb_spec (a + Z.of_nat (length vals)) 0); [lia|].
  f_equal; [f_equal; lia|]. f_equal. f_equal. lia.
Qed.

Lemma setslice_to_end (l vals : list Z) (a b : Z) :
  0 <= a <= Z.of_nat (length l) -> Z.of_nat (length l) <= b ->
  setslice l a b vals = take (Z.to_nat a) l ++ vals.
Proof.
  intros H1 H2. unfold setslice, slice_bound. cbv zeta.
  destruct (Z.ltb_spec a 0); [lia|]. destruct (Z.ltb_spec b 0); [lia|].
  replace (Z.to_nat (Z.min a (Z.of_nat (length l)))) with (Z.to_nat a) by lia.
  rewrite (drop_ge l) by lia. rewrite app_nil_r. reflexivity.
Qed.

Lemma bytes_forallb (l : list Z) : bytes l -> forallb is_byte l = true.
Proof.
  intros H. apply forallb_forall. intros v Hv. apply is_byte_range.
  unfold bytes in H. rewrite Forall_forall in H. apply H.
  apply list_elem_of_In. exact Hv.
Qed.

Lemma ba_setslice_of_bytes (l vals : list Z) (a b : Z) :
  bytes vals -> ba_setslice l a b vals = Ok (setslice l a b vals).
Proof.
  intros H. unfold ba_setslice. rewrite (bytes_forallb vals H). reflexivity.
Qed.

Lemma range_succ_nibble (v : Z) :
  range (Z.land v 0xF + 1) = seqZ 0 (Z.of_nat (S (Z.to_nat (Z.land v 0xF)))).
Proof.
  pose proof (nibble_range v). unfold range. f_equal. lia.
Qed.

Lemma plain_execute_STORE (o : Z) (s : Plain.Chip8) :
  Z.land o 0xF0FF = 0xF055 ->
  Plain.execute o s =
    let* m := copy_loop no_guard (Plain.I s) 0 (Plain.I s) (Plain.V s)
                        (range (Z.land (Z.shiftr o 8) 0xF + 1))
                        (Plain.memory s) in
    Ok (Plain.Fall (Plain.set_memory s m)).
Proof.
  intros H. unfold Plain.execute. cbv zeta. chain H.
  unfold Plain.fall. rewrite plain_store_loop.
  destruct (copy_loop _ _ _ _ _ _ _); reflexivity.
Qed.

Lemma plain_execute_LOAD (o : Z) (s : Plain.Chip8) :
  Z.land o 0xF0FF = 0xF065 ->
  Plain.execute o s =
    let* V' := copy_loop no_guard (Plain.I s) (Plain.I s) 0 (Plain.memory s)
                         (range (Z.land (Z.shiftr o 8) 0xF + 1))
                         (Plain.V s) in
    Ok (Plain.Fall (Plain.set_V s V')).
Proof.
  intros H. unfold Plain.execute. cbv zeta. chain H.
  unfold Plain.fall. rewrite plain_load_loop.
  destruct (copy_loop _ _ _ _ _ _ _); reflexivity.
Qed.

Lemma tetris_dispatch_STORE (rnd o : Z) (s : Tetris.Chip8) :
  Z.land o 0xF0FF = 0xF055 ->
  Tetris.dispatch (Tetris.opcodes rnd) o s = Tetris.op_STORE o s.
Proof.
  intros H. unfold Tetris.opcodes. cbn [Tetris.dispatch]. chain H. reflexivity.
Qed.

Lemma tetris_dispatch_LOAD (rnd o : Z) (s : Tetris.Chip8) :
  Z.land o 0xF0FF = 0xF065 ->
  Tetris.dispatch (Tetris.opcodes rnd) o s = Tetris.op_LOAD o s.
Proof.
  intros H. unfold Tetris.opcodes. cbn [Tetris.dispatch]. chain H. reflexivity.
Qed.

Lemma working_dispatch_STORE (rnd o : Z) (s : Working.Chip8) (m : list Z) :
  Z.land o 0xF0FF = 0xF055 ->
  copy_loop below_4096 (Working.index s) 0 (Working.index s) (Working.gpio s)
            (range (Z.land (Z.shiftr o 8) 0xF + 1)) (Working.memory s) = Ok m ->
  Working.dispatch rnd (Working.decode o s) =
    Working.Done (Working.set_memory (Working.decode o s) m).
Proof.
  intros H R. working_Fxxx H 0x55.
  apply working_store_loop.
  destruct (working_decode_fields o s) as (_ & _ & _ & Eg & Em & EI & _).
  rewrite Eg, Em, EI. exact R.
Qed.

Lemma working_dispatch_LOAD (rnd o : Z) (s : Working.Chip8) (V' : list Z) :
  Z.land o 0xF0FF = 0xF065 ->
  copy_loop below_4096 (Working.index s) (Working.index s) 0
            (Working.memory s) (range (Z.land (Z.shiftr o 8) 0xF + 1))
            (Working.gpio s) = Ok V' ->
  Working.dispatch rnd (Working.decode o s) =
    Working.Done (Working.set_gpio (Working.decode o s) V').
Proof.
  intros H R. working_Fxxx H 0x65.
  apply working_load_loop.
  destruct (working_decode_fields o s) as (_ & _ & _ & Eg & Em & EI & _).
  rewrite Eg, Em, EI. exact R.
Qed.

(** Fx55 inside the memory, in the three drafts: when the cells I .. I+x
    exist (in [Working]: lie below 4096), a tick that executes Fx55 copies
    V0 .. Vx to them, in this order, and changes no other cell, no register
    and not I.  [Tetris] assigns a slice of its bytearray, which takes byte
    values only. *)
Theorem store_registers (o : Z) :
  Z.land o 0xF0FF = 0xF055 ->
  let x := Z.to_nat (Z.land (Z.shiftr o 8) 0xF) in
  (forall s : Plain.Chip8,
      length (Plain.V s) = 16%nat -> Plain.fetch s = Ok o ->
      0 <= Plain.I s ->
      Plain.I s + Z.of_nat x < Z.of_nat (length (Plain.memory s)) ->
      exists s',
        Plain.tick s = Ok s' /\
        Plain.memory s' =
          splice (Z.to_nat (Plain.I s)) (take (S x) (Plain.V s))
                 (Plain.memory s) /\
        Plain.V s' = Plain.V s /\ Plain.I s' = Plain.I s) /\
  (forall (rnd : Z) (s : Tetris.Chip8),
      length (Tetris.V s) = 16%nat -> bytes (Tetris.V s) ->
      Tetris.fetch s = Ok o -> 0 <= Tetris.I s ->
      Tetris.I s + Z.of_nat x < Z.of_nat (length (Tetris.memory s)) ->
      exists s',
        Tetris.tick rnd s = Ok s' /\
        Tetris.memory s' =
          splice (Z.to_nat (Tetris.I s)) (take (S x) (Tetris.V s))
                 (Tetris.memory s) /\
        Tetris.V s' = Tetris.V s /\ Tetris.I s' = Tetris.I s) /\
  (forall (rnd : Z) (s : Working.Chip8),
      length (Working.gpio s) = 16%nat -> Working.fetch s = Ok o ->
      0 <= Working.index s -> Working.index s + Z.of_nat x < 4096 ->
      Working.index s + Z.of_nat x < Z.of_nat (length (Working.memory s)) ->
      exists s',
        Working.cycle rnd s = Working.Val tt s' /\
        Working.memory s' =
          splice (Z.to_nat (Working.index s)) (take (S x) (Working.gpio s))
                 (Working.memory s) /\
        Working.gpio s' = Working.gpio s /\
        Working.index s' = Working.index s).
Proof.
  intros H x. pose proof (nibble_range (Z.shiftr o 8)) as Rx.
  split; [|split].
  - intros s HV Hf HI Hm.
    destruct (plain_tick_fall o s
                (Plain.set_memory (Plain.set_pc s (Plain.pc s + 2))
                   (splice (Z.to_nat (Plain.I s)) (take (S x) (Plain.V s))
                           (Plain.memory s))) Hf)
      as (s' & T & Fm & _ & FV & FI & _).
    + rewrite plain_execute_STORE by exact H. cbv zeta. plain_simpl.
      rewrite range_succ_nibble. fold x.
      rewrite copy_loop_ok by (try reflexivity; lia).
      cbn [bind]. rewrite !Z.add_0_r. reflexivity.
    + exists s'. rewrite Fm, FV, FI. auto.
  - intros rnd s HV Hb Hf HI Hm. eexists. split.
    + rewrite (tetris_tick_dispatch rnd o s Hf).
      rewrite tetris_dispatch_STORE by exact H.
      unfold Tetris.op_STORE, Tetris.reg_x. cbv zeta. tetris_simpl.
      rewrite getslice_inside by lia.
      replace (Z.to_nat (Z.land (Z.shiftr o 8) 0xF + 1 - 0)) with (S x) by lia.
      change (Z.to_nat 0) with 0%nat. rewrite drop_0.
      rewrite ba_setslice_of_bytes by (apply Forall_take; exact Hb).
      rewrite setslice_inside;
        [reflexivity|lia|rewrite length_take; lia|lia].
    + tetris_simpl. auto.
  - intros rnd s HV Hf HI HI' Hm.
    destruct (working_cycle_done rnd o s
                (Working.set_memory
                   (Working.decode o
                      (Working.set_cycle_count s (Working.cycle_count s + 1)))
                   (splice (Z.to_nat (Working.index s))
                           (take (S x) (Working.gpio s)) (Working.memory s)))
                Hf)
      as (s' & T & Fm & Fg & Fi & _).
    + apply working_dispatch_STORE; [exact H|]. working_simpl.
      rewrite range_succ_nibble. fold x.
      rewrite copy_loop_ok;
        [rewrite !Z.add_0_r; reflexivity| |lia|lia|lia|lia].
      intros i Hi. unfold below_4096. apply Z.ltb_lt. lia.
    + exists s'. rewrite Fm, Fg, Fi. working_simpl.
      destruct (working_decode_fields o
                  (Working.set_cycle_count s (Working.cycle_count s + 1)))
        as (_ & _ & _ & Eg & _ & EI & _).
      rewrite Eg, EI. auto.
Qed.

Lemma store_registers_witness :
  (exists s',
      Plain.tick (plain_after 3 (rom_copy 0x11 0x22 3 0 0x55)) = Ok s' /\
      Plain.memory s' =
        splice 0x300 (take 2 (Plain.V (plain_after 3 (rom_copy 0x11 0x22 3 0 0x55))))
               (Plain.memory (plain_after 3 (rom_copy 0x11 0x22 3 0 0x55)))) /\
  (exists s',
      Tetris.tick 0 (tetris_after [0; 0; 0] (rom_copy 0x11 0x22 3 0 0x55)) =
        Ok s' /\
      Tetris.memory s' =
        splice 0x300
          (take 2 (Tetris.V (tetris_after [0; 0; 0] (rom_copy 0x11 0x22 3 0 0x55))))
          (Tetris.memory (tetris_after [0; 0; 0] (rom_copy 0x11 0x22 3 0 0x55)))) /\
  (exists s',
      Working.cycle 0 (working_after 3 (rom_copy 0x11 0x22 3 0 0x55)) =
        Working.Val tt s' /\
      Working.memory s' =
        splice 0x300
          (take 2 (Working.gpio (working_after 3 (rom_copy 0x11 0x22 3 0 0x55))))
          (Working.memory (working_after 3 (rom_copy 0x11 0x22 3 0 0x55)))).
Proof.
  assert (H : Z.land 0xF155 0xF0FF = 0xF055) by reflexivity.
  destruct (store_registers 0xF155 H) as (P & T & W).
  split; [|split].
  - destruct (P (plain_after 3 (rom_copy 0x11 0x22 3 0 0x55)))
      as (s' & K & M & _).
    + vm_compute; reflexivity.
    + vm_compute; reflexivity.
    + vm_compute; intros Hc; discriminate Hc.
    + vm_compute; reflexivity.
    + exists s'. split; [exact K|exact M].
  - destruct (T 0 (tetris_after [0; 0; 0] (rom_copy 0x11 0x22 3 0 0x55)))
      as (s' & K & M & _).
    + vm_compute; reflexivity.
    + apply forallb_is_byte. vm_compute; reflexivity.
    + vm_compute; reflexivity.
    + vm_compute; intros Hc; discriminate Hc.
    + vm_compute; reflexivity.
    + exists s'. split; [exact K|exact M].
  - destruct (W 0 (working_after 3 (rom_copy 0x11 0x22 3 0 0x55)))
      as (s' & K & M & _).
    + vm_compute; reflexivity.
    + vm_compute; reflexivity.
    + vm_compute; intros Hc; discriminate Hc.
    + vm_compute; reflexivity.
    + vm_compute; reflexivity.
    + exists s'. split; [exact K|exact M].
Defined.

(** Fx65 inside the memory, in the three drafts: when the cells I .. I+x
    exist (in [Working]: lie below 4096), a tick that executes Fx65 loads
    V0 .. Vx from them and changes no other register, no memory cell and
    not I. *)
Theorem load_registers (o : Z) :
  Z.land o 0xF0FF = 0xF065 ->
  let x := Z.to_nat (Z.land (Z.shiftr o 8) 0xF) in
  (forall s : Plain.Chip8,
      length (Plain.V s) = 16%nat -> Plain.fetch s = Ok o ->
      0 <= Plain.I s ->
      Plain.I s + Z.of_nat x < Z.of_nat (length (Plain.memory s)) ->
      exists s',
        Plain.tick s = Ok s' /\
        Plain.V s' =
          take (S x) (drop (Z.to_nat (Plain.I s)) (Plain.memory s)) ++
          drop (S x) (Plain.V s) /\
        Plain.memory s' = Plain.memory s /\ Plain.I s' = Plain.I s) /\
  (forall (rnd : Z) (s : Tetris.Chip8),
      length (Tetris.V s) = 16%nat -> Tetris.fetch s = Ok o ->
      0 <= Tetris.I s ->
      Tetris.I s + Z.of_nat x < Z.of_nat (length (Tetris.memory s)) ->
      exists s',
        Tetris.tick rnd s = Ok s' /\
        Tetris.V s' =
          take (S x) (drop (Z.to_nat (Tetris.I s)) (Tetris.memory s)) ++
          drop (S x) (Tetris.V s) /\
        Tetris.memory s' = Tetris.memory s /\ Tetris.I s' = Tetris.I s) /\
  (forall (rnd : Z) (s : Working.Chip8),
      length (Working.gpio s) = 16%nat -> Working.fetch s = Ok o ->
      0 <= Working.index s -> Working.index s + Z.of_nat x < 4096 ->
      Working.index s + Z.of_nat x < Z.of_nat (length (Working.memory s)) ->
      exists s',
        Working.cycle rnd s = Working.Val tt s' /\
        Working.gpio s' =
          take (S x) (drop (Z.to_nat (Working.index s)) (Working.memory s)) ++
          drop (S x) (Working.gpio s) /\
        Working.memory s' = Working.memory s /\
        Working.index s' = Working.index s).
Proof.
  intros H x. pose proof (nibble_range (Z.shiftr o 8)) as Rx.
  assert (Sp : forall (m V : list Z) (i : nat),
             (i + S x <= length m)%nat ->
             splice 0 (take (S x) (drop i m)) V =
               take (S x) (drop i m) ++ drop (S x) V).
  { intros m V i Hi. unfold splice. rewrite take_0. cbn [app].
    rewrite length_take, length_drop. do 2 f_equal. lia. }
  split; [|split].
  - intros s HV Hf HI Hm.
    destruct (plain_tick_fall o s
                (Plain.set_V (Plain.set_pc s (Plain.pc s + 2))
                   (take (S x) (drop (Z.to_nat (Plain.I s)) (Plain.memory s)) ++
                    drop (S x) (Plain.V s))) Hf)
      as (s' & T & Fm & _ & FV & FI & _).
    + rewrite plain_execute_LOAD by exact H. cbv zeta. plain_simpl.
      rewrite range_succ_nibble. fold x.
      rewrite copy_loop_ok by (try reflexivity; lia).
      cbn [bind]. rewrite !Z.add_0_r. change (Z.to_nat 0) with 0%nat.
      rewrite Sp by lia. reflexivity.
    + exists s'. rewrite Fm, FV, FI. auto.
  - intros rnd s HV Hf HI Hm. eexists. split.
    + rewrite (tetris_tick_dispatch rnd o s Hf).
      rewrite tetris_dispatch_LOAD by exact H.
      unfold Tetris.op_LOAD, Tetris.reg_x. cbv zeta. tetris_simpl.
      rewrite getslice_inside by lia.
      replace (Z.to_nat (Tetris.I s + Z.land (Z.shiftr o 8) 0xF + 1 -
                         Tetris.I s)) with (S x) by lia.
      rewrite setslice_inside; [|lia|rewrite length_take, length_drop; lia|lia].
      change (Z.to_nat 0) with 0%nat. rewrite Sp by lia. reflexivity.
    + tetris_simpl. auto.
  - intros rnd s HV Hf HI HI' Hm.
    destruct (working_cycle_done rnd o s
                (Working.set_gpio
                   (Working.decode o
                      (Working.set_cycle_count s (Working.cycle_count s + 1)))
                   (take (S x)
                         (drop (Z.to_nat (Working.index s)) (Working.memory s))
                    ++ drop (S x) (Working.gpio s)))
                Hf)
      as (s' & T & Fm & Fg & Fi & _).
    + apply working_dispatch_LOAD; [exact H|]. working_simpl.
      rewrite range_succ_nibble. fold x.
      rewrite copy_loop_ok;
        [rewrite !Z.add_0_r; change (Z.to_nat 0) with 0%nat;
         rewrite Sp by lia; reflexivity| |lia|lia|lia|lia].
      intros i Hi. unfold below_4096. apply Z.ltb_lt. lia.
    + exists s'. rewrite Fm, Fg, Fi. working_simpl.
      destruct (working_decode_fields o
                  (Working.set_cycle_count s (Working.cycle_count s + 1)))
        as (_ & _ & _ & _ & Em & EI & _).
      rewrite Em, EI. auto.
Qed.

Lemma load_registers_witness :
  (exists s',
      Plain.tick (plain_after 3 (rom_copy 0x11 0x22 0 5 0x65)) = Ok s' /\
      Plain.V s' !! 0%nat = Some 0x20 /\ Plain.V s' !! 1%nat = Some 0x60) /\
  (exists s',
      Tetris.tick 0 (tetris_after [0; 0; 0] (rom_copy 0x11 0x22 0 5 0x65)) =
        Ok s' /\
      Tetris.V s' !! 0%nat = Some 0x20 /\ Tetris.V s' !! 1%nat = Some 0x60) /\
  (exists s',
      Working.cycle 0 (working_after 3 (rom_copy 0x11 0x22 0 5 0x65)) =
        Working.Val tt s' /\
      Working.gpio s' !! 0%nat = Some 0x20 /\
      Working.gpio s' !! 1%nat = Some 0x60).
Proof.
  assert (H : Z.land 0xF165 0xF0FF = 0xF065) by reflexivity.
  destruct (load_registers 0xF165 H) as (P & T & W).
  split; [|split].
  - destruct (P (plain_after 3 (rom_copy 0x11 0x22 0 5 0x65)))
      as (s' & K & M & _).
    + vm_compute; reflexivity.
    + vm_compute; reflexivity.
    + vm_compute; intros Hc; discriminate Hc.
    + vm_compute; reflexivity.
    + exists s'. split; [exact K|]. rewrite M. split; vm_compute; reflexivity.
  - destruct (T 0 (tetris_after [0; 0; 0] (rom_copy 0x11 0x22 0 5 0x65)))
      as (s' & K & M & _).
    + vm_compute; reflexivity.
    + vm_compute; reflexivity.
    + vm_compute; intros Hc; discriminate Hc.
    + vm_compute; reflexivity.
    + exists s'. split; [exact K|]. rewrite M. split; vm_compute; reflexivity.
  - destruct (W 0 (working_after 3 (rom_copy 0x11 0x22 0 5 0x65)))
      as (s' & K & M & _).
    + vm_compute; reflexivity.
    + vm_compute; reflexivity.
    + vm_compute; intros Hc; discriminate Hc.
    + vm_compute; reflexivity.
    + vm_compute; reflexivity.
    + exists s'. split; [exact K|]. rewrite M. split; vm_compute; reflexivity.
Defined.

Lemma setslice_prefix (l vals : list Z) (b : Z) :
  0 <= b <= Z.of_nat (length l) ->
  setslice l 0 b vals = vals ++ drop (Z.to_nat b) l.
Proof.
  intros H. unfold setslice, slice_bound. cbv zeta.
  destruct (Z.ltb_spec b 0); [lia|]. cbn [Z.ltb Z.compare].
  replace (Z.to_nat (Z.min 0 (Z.of_nat (length l)))) with 0%nat by lia.
  rewrite take_0. cbn [app]. do 2 f_equal. lia.
Qed.

(** Fx55 when the cell I+x lies past the end of the memory: the three
    drafts part ways.  [Plain] raises IndexError; [Tetris] assigns the slice
    all the same, which makes its bytearray longer: it ends with V0 .. Vx and
    has I+x+1 cells; [Working] stores the registers that go below address
    4096 and passes over the others. *)
Theorem store_past_memory_end (o : Z) :
  Z.land o 0xF0FF = 0xF055 ->
  let x := Z.to_nat (Z.land (Z.shiftr o 8) 0xF) in
  (forall s : Plain.Chip8,
      length (Plain.V s) = 16%nat -> Plain.fetch s = Ok o ->
      0 <= Plain.I s <= Z.of_nat (length (Plain.memory s)) ->
      Z.of_nat (length (Plain.memory s)) <= Plain.I s + Z.of_nat x ->
      Plain.tick s = Raise IndexError) /\
  (forall (rnd : Z) (s : Tetris.Chip8),
      length (Tetris.V s) = 16%nat -> bytes (Tetris.V s) ->
      Tetris.fetch s = Ok o ->
      0 <= Tetris.I s <= Z.of_nat (length (Tetris.memory s)) ->
      Z.of_nat (length (Tetris.memory s)) <= Tetris.I s + Z.of_nat x ->
      exists s',
        Tetris.tick rnd s = Ok s' /\
        Tetris.memory s' =
          take (Z.to_nat (Tetris.I s)) (Tetris.memory s) ++
          take (S x) (Tetris.V s) /\
        Z.of_nat (length (Tetris.memory s')) = Tetris.I s + Z.of_nat x + 1) /\
  (forall (rnd : Z) (s : Working.Chip8),
      length (Working.gpio s) = 16%nat ->
      length (Working.memory s) = 4096%nat -> Working.fetch s = Ok o ->
      0 <= Working.index s <= 4096 ->
      4096 <= Working.index s + Z.of_nat x ->
      exists s',
        Working.cycle rnd s = Working.Val tt s' /\
        Working.memory s' =
          splice (Z.to_nat (Working.index s))
                 (take (Z.to_nat (4096 - Working.index s)) (Working.gpio s))
                 (Working.memory s) /\
        length (Working.memory s') = 4096%nat).
Proof.
  intros H x. pose proof (nibble_range (Z.shiftr o 8)) as Rx.
  split; [|split].
  - intros s HV Hf HI Hm. apply (plain_tick_raise o s _ Hf).
    rewrite plain_execute_STORE by exact H. cbv zeta. plain_simpl.
    rewrite range_succ_nibble. fold x.
    rewrite copy_loop_dst_ends by (try reflexivity; lia). reflexivity.
  - intros rnd s HV Hb Hf HI Hm. eexists. split; [|split].
    + rewrite (tetris_tick_dispatch rnd o s Hf).
      rewrite tetris_dispatch_STORE by exact H.
      unfold Tetris.op_STORE, Tetris.reg_x. cbv zeta. tetris_simpl.
      rewrite getslice_inside by lia.
      replace (Z.to_nat (Z.land (Z.shiftr o 8) 0xF + 1 - 0)) with (S x) by lia.
      change (Z.to_nat 0) with 0%nat. rewrite drop_0.
      rewrite ba_setslice_of_bytes by (apply Forall_take; exact Hb).
      rewrite setslice_to_end by lia. reflexivity.
    + tetris_simpl. reflexivity.
    + tetris_simpl. rewrite length_app, !length_take. lia.
  - intros rnd s HV HM Hf HI Hm.
    destruct (working_cycle_done rnd o s
                (Working.set_memory
                   (Working.decode o
                      (Working.set_cycle_count s (Working.cycle_count s + 1)))
                   (splice (Z.to_nat (Working.index s))
                           (take (Z.to_nat (4096 - Working.index s))
                                 (Working.gpio s))
                           (Working.memory s)))
                Hf)
      as (s' & T & Fm & _).
    + apply working_dispatch_STORE; [exact H|]. working_simpl.
      rewrite range_succ_nibble. fold x.
      rewrite (copy_loop_guarded _ _ _ _ _ _
                 (Z.to_nat (4096 - Working.index s))) by lia.
      change (Z.to_nat 0) with 0%nat. rewrite drop_0. reflexivity.
    + exists s'. rewrite Fm. working_simpl. split; [exact T|].
      split; [reflexivity|].
      unfold splice. rewrite !length_app, !length_take, length_drop. lia.
Qed.

Lemma store_past_memory_end_witness :
  Plain.tick (plain_after 3 (rom_copy 0x11 0x22 0xF 0xFF 0x55)) =
    Raise IndexError /\
  (exists s',
      Tetris.tick 0 (tetris_after [0; 0; 0] (rom_copy 0x11 0x22 0xF 0xFF 0x55)) =
        Ok s' /\
      Z.of_nat (length (Tetris.memory s')) = 4097) /\
  (exists s',
      Working.cycle 0 (working_after 3 (rom_copy 0x11 0x22 0xF 0xFF 0x55)) =
        Working.Val tt s' /\
      length (Working.memory s') = 4096%nat).
Proof.
  assert (H : Z.land 0xF155 0xF0FF = 0xF055) by reflexivity.
  destruct (store_past_memory_end 0xF155 H) as (P & T & W).
  split; [|split].
  - apply P.
    + vm_compute; reflexivity.
    + vm_compute; reflexivity.
    + vm_compute. split; intros Hc; discriminate Hc.
    + vm_compute; intros Hc; discriminate Hc.
  - destruct (T 0 (tetris_after [0; 0; 0] (rom_copy 0x11 0x22 0xF 0xFF 0x55)))
      as (s' & K & _ & L).
    + vm_compute; reflexivity.
    + apply forallb_is_byte. vm_compute; reflexivity.
    + vm_compute; reflexivity.
    + vm_compute. split; intros Hc; discriminate Hc.
    + vm_compute; intros Hc; discriminate Hc.
    + exists s'. split; [exact K|]. rewrite L. vm_compute; reflexivity.
  - destruct (W 0 (working_after 3 (rom_copy 0x11 0x22 0xF 0xFF 0x55)))
      as (s' & K & _ & L).
    + vm_compute; reflexivity.
    + vm_compute; reflexivity.
    + vm_compute; reflexivity.
    + vm_compute. split; intros Hc; discriminate Hc.
    + vm_compute; intros Hc; discriminate Hc.
    + exists s'. split; [exact K|exact L].
Defined.

(** Fx65 when the cell I+x lies past the end of the memory.  [Plain] raises
    IndexError.  [Tetris] assigns the slice that is left of the memory to
    [V[:x+1]], which makes the register list shorter than 16: the registers
    V0 .. Vx are replaced by the cells from I to the end, which are fewer.
    [Working] loads the registers whose cell lies below address 4096 and
    leaves the others. *)
Theorem load_past_memory_end (o : Z) :
  Z.land o 0xF0FF = 0xF065 ->
  let x := Z.to_nat (Z.land (Z.shiftr o 8) 0xF) in
  (forall s : Plain.Chip8,
      length (Plain.V s) = 16%nat -> Plain.fetch s = Ok o ->
      0 <= Plain.I s <= Z.of_nat (length (Plain.memory s)) ->
      Z.of_nat (length (Plain.memory s)) <= Plain.I s + Z.of_nat x ->
      Plain.tick s = Raise IndexError) /\
  (forall (rnd : Z) (s : Tetris.Chip8),
      length (Tetris.V s) = 16%nat -> Tetris.fetch s = Ok o ->
      0 <= Tetris.I s <= Z.of_nat (length (Tetris.memory s)) ->
      Z.of_nat (length (Tetris.memory s)) <= Tetris.I s + Z.of_nat x ->
      exists s',
        Tetris.tick rnd s = Ok s' /\
        Tetris.V s' =
          drop (Z.to_nat (Tetris.I s)) (Tetris.memory s) ++
          drop (S x) (Tetris.V s) /\
        (length (Tetris.V s') < 16)%nat) /\
  (forall (rnd : Z) (s : Working.Chip8),
      length (Working.gpio s) = 16%nat ->
      length (Working.memory s) = 4096%nat -> Working.fetch s = Ok o ->
      0 <= Working.index s <= 4096 ->
      4096 <= Working.index s + Z.of_nat x ->
      exists s',
        Working.cycle rnd s = Working.Val tt s' /\
        Working.gpio s' =
          drop (Z.to_nat (Working.index s)) (Working.memory s) ++
          drop (Z.to_nat (4096 - Working.index s)) (Working.gpio s) /\
        length (Working.gpio s') = 16%nat).
Proof.
  intros H x. pose proof (nibble_range (Z.shiftr o 8)) as Rx.
  split; [|split].
  - intros s HV Hf HI Hm. apply (plain_tick_raise o s _ Hf).
    rewrite plain_execute_LOAD by exact H. cbv zeta. plain_simpl.
    rewrite range_succ_nibble. fold x.
    rewrite copy_loop_src_ends by (try reflexivity; lia). reflexivity.
  - intros rnd s HV Hf HI Hm. eexists. split; [|split].
    + rewrite (tetris_tick_dispatch rnd o s Hf).
      rewrite tetris_dispatch_LOAD by exact H.
      unfold Tetris.op_LOAD, Tetris.reg_x. cbv zeta. tetris_simpl.
      rewrite getslice_to_end by lia. rewrite setslice_prefix by lia.
      replace (Z.to_nat (Z.land (Z.shiftr o 8) 0xF + 1)) with (S x) by lia.
      reflexivity.
    + tetris_simpl. reflexivity.
    + tetris_simpl. rewrite length_app, !length_drop. lia.
  - intros rnd s HV HM Hf HI Hm.
    assert (E : take (Z.to_nat (4096 - Working.index s))
                     (drop (Z.to_nat (Working.index s)) (Working.memory s)) =
                drop (Z.to_nat (Working.index s)) (Working.memory s))
      by (apply take_ge; rewrite length_drop; lia).
    destruct (working_cycle_done rnd o s
                (Working.set_gpio
                   (Working.decode o
                      (Working.set_cycle_count s (Working.cycle_count s + 1)))
                   (drop (Z.to_nat (Working.index s)) (Working.memory s) ++
                    drop (Z.to_nat (4096 - Working.index s)) (Working.gpio s)))
                Hf)
      as (s' & T & _ & Fg & _).
    + apply working_dispatch_LOAD; [exact H|]. working_simpl.
      rewrite range_succ_nibble. fold x.
      rewrite (copy_loop_guarded _ _ _ _ _ _
                 (Z.to_nat (4096 - Working.index s))) by lia.
      rewrite E. unfold splice. change (Z.to_nat 0) with 0%nat.
      rewrite take_0. cbn [app]. rewrite length_drop. do 3 f_equal. lia.
    + exists s'. rewrite Fg. working_simpl. split; [exact T|].
      split; [reflexivity|]. rewrite length_app, !length_drop. lia.
Qed.

Lemma load_past_memory_end_witness :
  Plain.tick (plain_after 3 (rom_copy 0x11 0x22 0xF 0xFF 0x65)) =
    Raise IndexError /\
  (exists s',
      Tetris.tick 0 (tetris_after [0; 0; 0] (rom_copy 0x11 0x22 0xF 0xFF 0x65)) =
        Ok s' /\
      length (Tetris.V s') = 15%nat) /\
  (exists s',
      Working.cycle 0 (working_after 3 (rom_copy 0x11 0x22 0xF 0xFF 0x65)) =
        Working.Val tt s' /\
      Working.gpio s' !! 0%nat = Some 0 /\
      Working.gpio s' !! 1%nat = Some 0x22).
Proof.
  assert (H : Z.land 0xF165 0xF0FF = 0xF065) by reflexivity.
  destruct (load_past_memory_end 0xF165 H) as (P & T & W).
  split; [|split].
  - apply P.
    + vm_compute; reflexivity.
    + vm_compute; reflexivity.
    + vm_compute. split; intros Hc; discriminate Hc.
    + vm_compute; intros Hc; discriminate Hc.
  - destruct (T 0 (tetris_after [0; 0; 0] (rom_copy 0x11 0x22 0xF 0xFF 0x65)))
      as (s' & K & M & _).
    + vm_compute; reflexivity.
    + vm_compute; reflexivity.
    + vm_compute. split; intros Hc; discriminate Hc.
    + vm_compute; intros Hc; discriminate Hc.
    + exists s'. split; [exact K|]. rewrite M. vm_compute; reflexivity.
  - destruct (W 0 (working_after 3 (rom_copy 0x11 0x22 0xF 0xFF 0x65)))
      as (s' & K & M & _).
    + vm_compute; reflexivity.
    + vm_compute; reflexivity.
    + vm_compute; reflexivity.
    + vm_compute. split; intros Hc; discriminate Hc.
    + vm_compute; intros Hc; discriminate Hc.
    + exists s'. split; [exact K|]. rewrite M. split; vm_compute; reflexivity.
Defined.

(** ** Calls, jumps and the opcodes [Plain] does not know *)

(** The call stack of [Plain] is a list without a bound: a CALL succeeds
    whatever the depth, and pushes the address that follows it.  A RET on
    an empty stack raises IndexError, which nothing catches. *)
Theorem plain_stack_has_no_bound :
  (forall (o : Z) (s : Plain.Chip8),
      Plain.fetch s = Ok o -> Z.land o 0xF000 = 0x2000 ->
      exists s',
        Plain.tick s = Ok s' /\
        Plain.stack s' = Plain.stack s ++ [Plain.pc s + 2] /\
        Plain.pc s' = Z.land o 0x0FFF) /\
  (forall s : Plain.Chip8,
      Plain.fetch s = Ok 0x00EE -> Plain.stack s = [] ->
      Plain.tick s = Raise IndexError).
Proof.
  split.
  - intros o s Hf Ho. destruct (plain_call o s Hf Ho) as (s' & T & P & S).
    exists s'. auto.
  - intros s Hf Hs. apply (plain_tick_raise _ s _ Hf).
    change (Plain.execute 0x00EE ?t) with
      (let* '(a, st) := pop (Plain.stack t) in
       Ok (Plain.Fall (Plain.set_pc (Plain.set_stack t st) a))).
    plain_simpl. rewrite Hs. reflexivity.
Qed.

Lemma plain_stack_has_no_bound_witness :
  length (Plain.stack (plain_after 17 rom_self_call)) = 17%nat /\
  (exists s',
      Plain.tick (plain_after 17 rom_self_call) = Ok s' /\
      length (Plain.stack s') = 18%nat) /\
  Plain.tick (plain_boot (rom_one 0x00 0xEE)) = Raise IndexError.
Proof.
  destruct plain_stack_has_no_bound as (C & R).
  split; [vm_compute; reflexivity|]. split.
  - destruct (C 0x2200 (plain_after 17 rom_self_call)) as (s' & T & S & _).
    + vm_compute; reflexivity.
    + reflexivity.
    + exists s'. split; [exact T|]. rewrite S. vm_compute; reflexivity.
  - apply R; vm_compute; reflexivity.
Defined.

(** [Plain.tick] has no branch for Bnnn (JP V0, addr) nor for Cxkk (RND): a
    tick that fetches one of them does nothing but move on to the next
    instruction and count the timers down; it neither jumps, nor writes a
    register, nor reports the opcode. *)
Theorem plain_skips_Bnnn_and_Cxkk (o : Z) (s : Plain.Chip8) :
  Z.land o 0xF000 = 0xB000 \/ Z.land o 0xF000 = 0xC000 ->
  Plain.fetch s = Ok o ->
  Plain.tick s = Ok (Plain.timers (Plain.set_pc s (Plain.pc s + 2))) /\
  exists s',
    Plain.tick s = Ok s' /\ Plain.pc s' = Plain.pc s + 2 /\
    Plain.V s' = Plain.V s /\ Plain.I s' = Plain.I s /\
    Plain.memory s' = Plain.memory s /\ Plain.vram s' = Plain.vram s /\
    Plain.stack s' = Plain.stack s.
Proof.
  intros Ho Hf.
  assert (E : Plain.execute o (Plain.set_pc s (Plain.pc s + 2)) =
              Ok (Plain.Fall (Plain.set_pc s (Plain.pc s + 2)))).
  { unfold Plain.execute. cbv zeta.
    destruct Ho as [H|H]; chain H; reflexivity. }
  split.
  - unfold Plain.tick. rewrite Hf. cbn [bind]. cbv zeta. rewrite E.
    reflexivity.
  - destruct (plain_tick_fall o s _ Hf E)
      as (s' & T & Fm & Fv & FV & FI & Fp & Fs & _).
    exists s'. rewrite Fm, Fv, FV, FI, Fp, Fs. repeat split. exact T.
Qed.

Lemma plain_skips_Bnnn_and_Cxkk_witness :
  exists s',
    Plain.tick (plain_after 1 (rom_v0_then 4 0xB3 0x00)) = Ok s' /\
    Plain.pc s' = 0x204 /\
    Plain.V s' = Plain.V (plain_after 1 (rom_v0_then 4 0xB3 0x00)).
Proof.
  destruct (plain_skips_Bnnn_and_Cxkk 0xB300
              (plain_after 1 (rom_v0_then 4 0xB3 0x00)))
    as (_ & s' & T & P & V & _).
  - left. reflexivity.
  - vm_compute; reflexivity.
  - exists s'. split; [exact T|]. split; [rewrite P; vm_compute; reflexivity|].
    exact V.
Defined.

(** ** Jumps and random numbers *)

Lemma land_le_r (a b : Z) : 0 <= b -> 0 <= Z.land a b <= b.
Proof.
  intros Hb. split; [apply Z.land_nonneg; right; exact Hb|].
  assert (E : Z.ldiff (Z.land a b) b = 0).
  { apply Z.bits_inj'. intros n Hn.
    rewrite Z.ldiff_spec, Z.land_spec, Z.bits_0.
    destruct (Z.testbit a n), (Z.testbit b n); reflexivity. }
  pose proof (Z.sub_nocarry_ldiff _ _ E) as D.
  assert (0 <= Z.ldiff b (Z.land a b)) by (apply Z.ldiff_nonneg; left; exact Hb).
  lia.
Qed.

Lemma tetris_dispatch_JP (rnd o : Z) (s : Tetris.Chip8) :
  Z.land o 0xF000 = 0x1000 ->
  Tetris.dispatch (Tetris.opcodes rnd) o s = Tetris.op_JP o s.
Proof.
  intros H. unfold Tetris.opcodes. cbn [Tetris.dispatch]. chain H. reflexivity.
Qed.

Lemma tetris_dispatch_RND (rnd o : Z) (s : Tetris.Chip8) :
  Z.land o 0xF000 = 0xC000 ->
  Tetris.dispatch (Tetris.opcodes rnd) o s = Tetris.op_RND rnd o s.
Proof.
  intros H. unfold Tetris.opcodes. cbn [Tetris.dispatch]. chain H. reflexivity.
Qed.

(** 1nnn, in the three drafts: the tick leaves PC on nnn, also in
    [Working], whose handler sets PC to nnn - 2 (a negative number for nnn
    below 2) and relies on the increment that follows.  Bnnn, which only
    [Working] implements, leaves PC on (nnn + V0) mod 4096. *)
Theorem jumps_land_on_target :
  (forall (o : Z) (s : Plain.Chip8),
      Plain.fetch s = Ok o -> Z.land o 0xF000 = 0x1000 ->
      exists s', Plain.tick s = Ok s' /\ Plain.pc s' = Z.land o 0x0FFF) /\
  (forall (rnd o : Z) (s : Tetris.Chip8),
      Tetris.fetch s = Ok o -> Z.land o 0xF000 = 0x1000 ->
      exists s', Tetris.tick rnd s = Ok s' /\ Tetris.pc s' = Z.land o 0x0FFF) /\
  (forall (rnd o : Z) (s : Working.Chip8),
      Working.fetch s = Ok o -> Z.land o 0xF000 = 0x1000 ->
      exists s',
        Working.cycle rnd s = Working.Val tt s' /\
        Working.pc s' = Z.land o 0x0FFF) /\
  (forall (rnd o v0 : Z) (s : Working.Chip8),
      Working.fetch s = Ok o -> Z.land o 0xF000 = 0xB000 ->
      Working.gpio s !! 0%nat = Some v0 ->
      exists s',
        Working.cycle rnd s = Working.Val tt s' /\
        Working.pc s' = (Z.land o 0x0FFF + v0) mod 4096).
Proof.
  split; [|split; [|split]].
  - intros o s Hf Ho.
    destruct (plain_tick_fall o s
                (Plain.set_pc (Plain.set_pc s (Plain.pc s + 2))
                              (Z.land o 0x0FFF)) Hf)
      as (s' & T & _ & _ & _ & _ & Fp & _).
    + apply plain_execute_JP. exact Ho.
    + exists s'. rewrite Fp. auto.
  - intros rnd o s Hf Ho. eexists. split.
    + rewrite (tetris_tick_dispatch rnd o s Hf).
      rewrite tetris_dispatch_JP by exact Ho. reflexivity.
    + tetris_simpl. apply uint16_small.
      pose proof (land_0xFFF_range o). lia.
  - intros rnd o s Hf Ho.
    destruct (working_cycle_done rnd o s
                (Working.set_pc
                   (Working.decode o
                      (Working.set_cycle_count s (Working.cycle_count s + 1)))
                   (Z.land o 0x0FFF - 2)) Hf)
      as (s' & T & _ & _ & _ & Fp & _).
    + rewrite (working_dispatch_prefix rnd o _ 0x1000 Working._1nnn Ho)
        by (lia || reflexivity).
      unfold Working._1nnn.
      destruct (working_decode_fields o
                  (Working.set_cycle_count s (Working.cycle_count s + 1)))
        as (-> & _). reflexivity.
    + exists s'. split; [exact T|]. rewrite Fp. working_simpl.
      replace (Z.land o 0x0FFF - 2 + 2) with (Z.land o 0x0FFF) by lia.
      rewrite land_0xFFF. apply Z.mod_small. apply land_0xFFF_range.
  - intros rnd o v0 s Hf Ho L0.
    destruct (working_cycle_done rnd o s
                (Working.set_pc
                   (Working.decode o
                      (Working.set_cycle_count s (Working.cycle_count s + 1)))
                   (Z.land (Z.land o 0x0FFF + v0 - 2) 0xFFF)) Hf)
      as (s' & T & _ & _ & _ & Fp & _).
    + rewrite (working_dispatch_prefix rnd o _ 0xB000 Working._Bnnn Ho)
        by (lia || reflexivity).
      unfold Working._Bnnn.
      destruct (working_decode_fields o
                  (Working.set_cycle_count s (Working.cycle_count s + 1)))
        as (-> & _ & _ & -> & _).
      working_simpl.
      rewrite (getitem_lookup _ 0 v0) by (lia || exact L0). reflexivity.
    + exists s'. split; [exact T|]. rewrite Fp. working_simpl.
      rewrite !land_0xFFF. rewrite Z.add_mod_idemp_l by lia. f_equal. lia.
Qed.

Lemma jumps_land_on_target_witness :
  (exists s', Plain.tick (plain_boot (rom_one 0x10 0x01)) = Ok s' /\
              Plain.pc s' = 1) /\
  (exists s', Tetris.tick 0 (tetris_boot (rom_one 0x10 0x01)) = Ok s' /\
              Tetris.pc s' = 1) /\
  (exists s',
      Working.cycle 0 (working_boot (rom_one 0x10 0x01)) = Working.Val tt s' /\
      Working.pc s' = 1) /\
  (exists s',
      Working.cycle 0 (working_after 1 (rom_v0_then 4 0xBF 0xFE)) =
        Working.Val tt s' /\
      Working.pc s' = 2).
Proof.
  destruct jumps_land_on_target as (P & T & W & B).
  split; [|split; [|split]].
  - destruct (P 0x1001 (plain_boot (rom_one 0x10 0x01))) as (s' & K & E).
    + vm_compute; reflexivity.
    + reflexivity.
    + exists s'. split; [exact K|]. rewrite E. reflexivity.
  - destruct (T 0 0x1001 (tetris_boot (rom_one 0x10 0x01))) as (s' & K & E).
    + vm_compute; reflexivity.
    + reflexivity.
    + exists s'. split; [exact K|]. rewrite E. reflexivity.
  - destruct (W 0 0x1001 (working_boot (rom_one 0x10 0x01))) as (s' & K & E).
    + vm_compute; reflexivity.
    + reflexivity.
    + exists s'. split; [exact K|]. rewrite E. reflexivity.
  - destruct (B 0 0xBFFE 4 (working_after 1 (rom_v0_then 4 0xBF 0xFE)))
      as (s' & K & E).
    + vm_compute; reflexivity.
    + reflexivity.
    + vm_compute; reflexivity.
    + exists s'. split; [exact K|]. rewrite E. reflexivity.
Defined.

(** Cxkk, in the two drafts that implement it: whatever number the random
    generator returns, the byte stored in Vx has no bit outside kk, so it
    lies between 0 and kk; no other register changes. *)
Theorem random_is_masked (o rnd : Z) :
  Z.land o 0xF000 = 0xC000 ->
  let x := Z.to_nat (Z.land (Z.shiftr o 8) 0xF) in
  let kk := Z.land o 0xFF in
  (forall s : Tetris.Chip8,
      length (Tetris.V s) = 16%nat -> Tetris.fetch s = Ok o ->
      exists s' r,
        Tetris.tick rnd s = Ok s' /\
        Tetris.V s' = <[x := r]> (Tetris.V s) /\
        0 <= r <= kk /\ Z.land r kk = r) /\
  (forall s : Working.Chip8,
      length (Working.gpio s) = 16%nat -> Working.fetch s = Ok o ->
      exists s' r,
        Working.cycle rnd s = Working.Val tt s' /\
        Working.gpio s' = <[x := r]> (Working.gpio s) /\
        0 <= r <= kk /\ Z.land r kk = r).
Proof.
  intros Ho x kk. pose proof (nibble_range (Z.shiftr o 8)) as Rx.
  assert (Hk : 0 <= kk) by (apply Z.land_nonneg; right; lia).
  assert (Hr : 0 <= Z.land rnd kk <= kk /\ Z.land (Z.land rnd kk) kk = Z.land rnd kk).
  { split; [apply land_le_r; exact Hk|].
    rewrite <- Z.land_assoc, Z.land_diag. reflexivity. }
  split.
  - intros s HV Hf. eexists. exists (Z.land rnd kk). split; [|split].
    + rewrite (tetris_tick_dispatch rnd o s Hf).
      rewrite tetris_dispatch_RND by exact Ho.
      unfold Tetris.op_RND, Tetris.reg_x, Tetris.write_V. cbv zeta.
      tetris_simpl. rewrite setitem_reg by (assumption || lia).
      cbn [bind]. reflexivity.
    + tetris_simpl. reflexivity.
    + exact Hr.
  - intros s HV Hf.
    destruct (working_cycle_done rnd o s
                (Working.set_gpio
                   (Working.decode o
                      (Working.set_cycle_count s (Working.cycle_count s + 1)))
                   (<[x := Z.land rnd kk]> (Working.gpio s))) Hf)
      as (s' & T & _ & Fg & _).
    + rewrite (working_dispatch_prefix rnd o _ 0xC000 (Working._Cxkk rnd) Ho)
        by (lia || reflexivity).
      unfold Working._Cxkk, Working.write_gpio.
      destruct (working_decode_fields o
                  (Working.set_cycle_count s (Working.cycle_count s + 1)))
        as (-> & -> & _ & -> & _).
      working_simpl. rewrite setitem_reg by (assumption || lia).
      reflexivity.
    + exists s', (Z.land rnd kk). rewrite Fg. working_simpl. auto.
Qed.

Lemma random_is_masked_witness :
  (exists s' r,
      Tetris.tick 0xAB (tetris_boot (rom_one 0xC3 0x0F)) = Ok s' /\
      Tetris.V s' !! 3%nat = Some r /\ 0 <= r <= 15) /\
  (exists s' r,
      Working.cycle 0xAB (working_boot (rom_one 0xC3 0x0F)) =
        Working.Val tt s' /\
      Working.gpio s' !! 3%nat = Some r /\ 0 <= r <= 15).
Proof.
  assert (H : Z.land 0xC30F 0xF000 = 0xC000) by reflexivity.
  destruct (random_is_masked 0xC30F 0xAB H) as (T & W).
  split.
  - destruct (T (tetris_boot (rom_one 0xC3 0x0F))) as (s' & r & K & E & R & _).
    + vm_compute; reflexivity.
    + vm_compute; reflexivity.
    + exists s', r. split; [exact K|]. split; [|exact R].
      rewrite E. apply list_lookup_insert_eq. vm_compute. lia.
  - destruct (W (working_boot (rom_one 0xC3 0x0F))) as (s' & r & K & E & R & _).
    + vm_compute; reflexivity.
    + vm_compute; reflexivity.
    + exists s', r. split; [exact K|]. split; [|exact R].
      rewrite E. apply list_lookup_insert_eq. vm_compute. lia.
Defined.

(** ** Ex9E and ExA1: skips on a key *)

Lemma plain_execute_SKP (o : Z) (s : Plain.Chip8) :
  Z.land o 0xF0FF = 0xE09E ->
  Plain.execute o s =
    let* vx := getitem (Plain.V s) (Z.land (Z.shiftr o 8) 0xF) in
    let* k := getitem (Plain.keys s) vx in
    Ok (Plain.Fall (Plain.skip_if (truthy k) s)).
Proof. intros H. unfold Plain.execute. cbv zeta. chain H. reflexivity. Qed.

Lemma plain_execute_SKNP (o : Z) (s : Plain.Chip8) :
  Z.land o 0xF0FF = 0xE0A1 ->
  Plain.execute o s =
    let* vx := getitem (Plain.V s) (Z.land (Z.shiftr o 8) 0xF) in
    let* k := getitem (Plain.keys s) vx in
    Ok (Plain.Fall (Plain.skip_if (negb (truthy k)) s)).
Proof. intros H. unfold Plain.execute. cbv zeta. chain H. reflexivity. Qed.

Lemma tetris_dispatch_SKP (rnd o : Z) (s : Tetris.Chip8) :
  Z.land o 0xF0FF = 0xE09E ->
  Tetris.dispatch (Tetris.opcodes rnd) o s = Tetris.op_SKP o s.
Proof.
  intros H. unfold Tetris.opcodes. cbn [Tetris.dispatch]. chain H. reflexivity.
Qed.

Lemma tetris_dispatch_SKNP (rnd o : Z) (s : Tetris.Chip8) :
  Z.land o 0xF0FF = 0xE0A1 ->
  Tetris.dispatch (Tetris.opcodes rnd) o s = Tetris.op_SKNP o s.
Proof.
  intros H. unfold Tetris.opcodes. cbn [Tetris.dispatch]. chain H. reflexivity.
Qed.

Lemma working_dispatch_Exxx (rnd o : Z) (s : Working.Chip8) :
  Z.land o 0xF000 = 0xE000 ->
  Working.dispatch rnd (Working.decode o s) =
    Working._Exxx (Working.decode o s).
Proof.
  intros H. apply (working_dispatch_prefix rnd o s 0xE000); [exact H|lia|].
  reflexivity.
Qed.

(** What the key instruction [o] skips on: key down for Ex9E, key up for
    ExA1. *)
Lemma key_test_cases (o : Z) :
  Z.land o 0xF0FF = 0xE09E \/ Z.land o 0xF0FF = 0xE0A1 ->
  Z.land o 0xF000 = 0xE000 /\
  (Z.land o 0xFF = 0x9E \/ Z.land o 0xFF = 0xA1).
Proof.
  intros [H|H]; (split; [rewrite (mask_narrow o _ _ 0xF000 H); reflexivity|]).
  - left. rewrite (mask_narrow o _ _ 0xFF H); reflexivity.
  - right. rewrite (mask_narrow o _ _ 0xFF H); reflexivity.
Qed.

(** Ex9E and ExA1 with a key number below 16 in Vx, in the three drafts:
    Ex9E skips the next instruction exactly when key Vx is down, ExA1
    exactly when it is up.  PC moves by 4 or by 2, modulo 65536 in [Tetris]
    and modulo 4096 in [Working]. *)
Theorem key_skips (o vx kst : Z) :
  Z.land o 0xF0FF = 0xE09E \/ Z.land o 0xF0FF = 0xE0A1 ->
  let x := Z.to_nat (Z.land (Z.shiftr o 8) 0xF) in
  let skip := if Z.land o 0xFF =? 0x9E then truthy kst else negb (truthy kst) in
  0 <= vx < 16 ->
  (forall s : Plain.Chip8,
      Plain.fetch s = Ok o -> Plain.V s !! x = Some vx ->
      Plain.keys s !! Z.to_nat vx = Some kst ->
      exists s',
        Plain.tick s = Ok s' /\
        Plain.pc s' = Plain.pc s + (if skip then 4 else 2)) /\
  (forall (rnd : Z) (s : Tetris.Chip8),
      Tetris.fetch s = Ok o -> Tetris.V s !! x = Some vx ->
      Tetris.keys s !! Z.to_nat vx = Some kst ->
      exists s',
        Tetris.tick rnd s = Ok s' /\
        Tetris.pc s' = (Tetris.pc s + (if skip then 4 else 2)) mod 65536) /\
  (forall (rnd : Z) (s : Working.Chip8),
      Working.fetch s = Ok o -> Working.gpio s !! x = Some vx ->
      Working.key_inputs s !! Z.to_nat vx = Some kst ->
      exists s',
        Working.cycle rnd s = Working.Val tt s' /\
        Working.pc s' = (Working.pc s + (if skip then 4 else 2)) mod 4096).
Proof.
  intros Ho x skip Hvx. pose proof (nibble_range (Z.shiftr o 8)) as Rx.
  destruct (key_test_cases o Ho) as (Hp & Hk).
  split; [|split].
  - intros s Hf Lx Lk.
    destruct (plain_tick_fall o s
                (Plain.skip_if skip (Plain.set_pc s (Plain.pc s + 2))) Hf)
      as (s' & T & _ & _ & _ & _ & Fp & _).
    + subst skip. destruct Ho as [H|H].
      * rewrite plain_execute_SKP by exact H. cbv zeta. plain_simpl.
        rewrite (getitem_lookup _ _ vx) by (lia || exact Lx). cbn [bind].
        rewrite (getitem_lookup _ _ kst) by (lia || exact Lk). cbn [bind].
        rewrite (mask_narrow o _ _ 0xFF H) by reflexivity. reflexivity.
      * rewrite plain_execute_SKNP by exact H. cbv zeta. plain_simpl.
        rewrite (getitem_lookup _ _ vx) by (lia || exact Lx). cbn [bind].
        rewrite (getitem_lookup _ _ kst) by (lia || exact Lk). cbn [bind].
        rewrite (mask_narrow o _ _ 0xFF H) by reflexivity. reflexivity.
    + exists s'. split; [exact T|]. rewrite Fp. unfold Plain.skip_if.
      destruct skip; plain_simpl; lia.
  - intros rnd s Hf Lx Lk. exists
      (Tetris.skip_if skip
         (Tetris.set_pc
            (Tetris.set_cps_counter s (Tetris._cps_counter s + 1))
            (uint16 (Tetris.pc s + 2)))). split.
    + rewrite (tetris_tick_dispatch rnd o s Hf). subst skip.
      destruct Ho as [H|H].
      * rewrite tetris_dispatch_SKP by exact H.
        unfold Tetris.op_SKP, Tetris.reg_x. cbv zeta. tetris_simpl.
        rewrite (getitem_lookup _ _ vx) by (lia || exact Lx). cbn [bind].
        rewrite (getitem_lookup _ _ kst) by (lia || exact Lk). cbn [bind].
        rewrite (mask_narrow o _ _ 0xFF H) by reflexivity. reflexivity.
      * rewrite tetris_dispatch_SKNP by exact H.
        unfold Tetris.op_SKNP, Tetris.reg_x. cbv zeta. tetris_simpl.
        rewrite (getitem_lookup _ _ vx) by (lia || exact Lx). cbn [bind].
        rewrite (getitem_lookup _ _ kst) by (lia || exact Lk). cbn [bind].
        rewrite (mask_narrow o _ _ 0xFF H) by reflexivity. reflexivity.
    + unfold Tetris.skip_if, uint16. destruct skip; tetris_simpl.
      * rewrite Z.add_mod_idemp_l by lia. f_equal. lia.
      * reflexivity.
  - intros rnd s Hf Lx Lk.
    destruct (working_cycle_done rnd o s
                (Working.skip_if skip
                   (Working.decode o
                      (Working.set_cycle_count s (Working.cycle_count s + 1))))
                Hf)
      as (s' & T & _ & _ & _ & Fp & _).
    + rewrite working_dispatch_Exxx by exact Hp.
      unfold Working._Exxx. cbv zeta.
      destruct (working_decode_fields o
                  (Working.set_cycle_count s (Working.cycle_count s + 1)))
        as (-> & _ & _ & -> & _ & _ & _ & _ & -> & _).
      working_simpl.
      rewrite (getitem_lookup _ _ vx) by (lia || exact Lx).
      cbn [Working.eval].
      assert (Ek : Z.land vx 0xF = vx).
      { change 0xF with (Z.ones 4). rewrite Z.land_ones by lia.
        apply Z.mod_small. lia. }
      rewrite Ek.
      assert (Hl : vx < Z.of_nat (length (Working.key_inputs s)))
        by (apply lookup_lt_Some in Lk; lia).
      destruct (Z.ltb_spec vx (Z.of_nat (length (Working.key_inputs s))));
        [|lia].
      rewrite (getitem_lookup _ _ kst) by (lia || exact Lk).
      cbn [Working.eval]. subst skip.
      destruct Hk as [E|E]; rewrite E; reflexivity.
    + exists s'. split; [exact T|]. rewrite Fp. unfold Working.skip_if.
      destruct (working_decode_fields o
                  (Working.set_cycle_count s (Working.cycle_count s + 1)))
        as (_ & _ & _ & _ & _ & _ & Ep & _).
      destruct skip; working_simpl; rewrite Ep; working_simpl;
        rewrite !land_0xFFF.
      * rewrite Z.add_mod_idemp_l by lia. f_equal. lia.
      * reflexivity.
Qed.

Lemma key_skips_witness :
  (exists s',
      Plain.tick (plain_after 1 (rom_v0_then 5 0xE0 0xA1)) = Ok s' /\
      Plain.pc s' = 0x206) /\
  (exists s',
      Tetris.tick 0 (tetris_after [0] (rom_v0_then 5 0xE0 0xA1)) = Ok s' /\
      Tetris.pc s' = 0x206) /\
  (exists s',
      Working.cycle 0 (working_after 1 (rom_v0_then 5 0xE0 0xA1)) =
        Working.Val tt s' /\
      Working.pc s' = 0x206).
Proof.
  assert (H : Z.land 0xE0A1 0xF0FF = 0xE09E \/ Z.land 0xE0A1 0xF0FF = 0xE0A1)
    by (right; reflexivity).
  assert (Hv : 0 <= 5 < 16) by lia.
  destruct (key_skips 0xE0A1 5 0 H Hv) as (P & T & W).
  split; [|split].
  - destruct (P (plain_after 1 (rom_v0_then 5 0xE0 0xA1))) as (s' & K & E).
    + vm_compute; reflexivity.
    + vm_compute; reflexivity.
    + vm_compute; reflexivity.
    + exists s'. split; [exact K|]. rewrite E. vm_compute; reflexivity.
  - destruct (T 0 (tetris_after [0] (rom_v0_then 5 0xE0 0xA1)))
      as (s' & K & E).
    + vm_compute; reflexivity.
    + vm_compute; reflexivity.
    + vm_compute; reflexivity.
    + exists s'. split; [exact K|]. rewrite E. vm_compute; reflexivity.
  - destruct (W 0 (working_after 1 (rom_v0_then 5 0xE0 0xA1)))
      as (s' & K & E).
    + vm_compute; reflexivity.
    + vm_compute; reflexivity.
    + vm_compute; reflexivity.
    + exists s'. split; [exact K|]. rewrite E. vm_compute; reflexivity.
Defined.

(** Ex9E and ExA1 with 16 or more in Vx.  [Plain] and [Tetris] index the
    16 keys with Vx as it is, so the tick raises IndexError.  [Working]
    takes the low four bits of Vx as the key number and never faults: it
    skips on key Vx mod 16. *)
Theorem key_number_out_of_range (o vx : Z) :
  Z.land o 0xF0FF = 0xE09E \/ Z.land o 0xF0FF = 0xE0A1 ->
  let x := Z.to_nat (Z.land (Z.shiftr o 8) 0xF) in
  16 <= vx ->
  (forall s : Plain.Chip8,
      Plain.fetch s = Ok o -> Plain.V s !! x = Some vx ->
      length (Plain.keys s) = 16%nat ->
      Plain.tick s = Raise IndexError) /\
  (forall (rnd : Z) (s : Tetris.Chip8),
      Tetris.fetch s = Ok o -> Tetris.V s !! x = Some vx ->
      length (Tetris.keys s) = 16%nat ->
      Tetris.tick rnd s = Raise IndexError) /\
  (forall (rnd kst : Z) (s : Working.Chip8),
      Working.fetch s = Ok o -> Working.gpio s !! x = Some vx ->
      Working.key_inputs s !! Z.to_nat (vx mod 16) = Some kst ->
      let skip :=
        if Z.land o 0xFF =? 0x9E then truthy kst else negb (truthy kst) in
      exists s',
        Working.cycle rnd s = Working.Val tt s' /\
        Working.pc s' = (Working.pc s + (if skip then 4 else 2)) mod 4096).
Proof.
  intros Ho x Hvx. pose proof (nibble_range (Z.shiftr o 8)) as Rx.
  destruct (key_test_cases o Ho) as (Hp & Hk).
  split; [|split].
  - intros s Hf Lx Hl. apply (plain_tick_raise o s _ Hf).
    destruct Ho as [H|H];
      [rewrite plain_execute_SKP by exact H
      |rewrite plain_execute_SKNP by exact H];
      cbv zeta; plain_simpl;
      rewrite (getitem_lookup _ _ vx) by (lia || exact Lx); cbn [bind];
      rewrite getitem_past_end by lia; reflexivity.
  - intros rnd s Hf Lx Hl. rewrite (tetris_tick_dispatch rnd o s Hf).
    destruct Ho as [H|H];
      [rewrite tetris_dispatch_SKP by exact H; unfold Tetris.op_SKP
      |rewrite tetris_dispatch_SKNP by exact H; unfold Tetris.op_SKNP];
      unfold Tetris.reg_x; cbv zeta; tetris_simpl;
      rewrite (getitem_lookup _ _ vx) by (lia || exact Lx); cbn [bind];
      rewrite getitem_past_end by lia; reflexivity.
  - intros rnd kst s Hf Lx Lk skip.
    assert (Ek : Z.land vx 0xF = vx mod 16).
    { change 0xF with (Z.ones 4). rewrite Z.land_ones by lia. reflexivity. }
    pose proof (Z.mod_pos_bound vx 16 ltac:(lia)) as Hm.
    destruct (working_cycle_done rnd o s
                (Working.skip_if skip
                   (Working.decode o
                      (Working.set_cycle_count s (Working.cycle_count s + 1))))
                Hf)
      as (s' & T & _ & _ & _ & Fp & _).
    + rewrite working_dispatch_Exxx by exact Hp.
      unfold Working._Exxx. cbv zeta.
      destruct (working_decode_fields o
                  (Working.set_cycle_count s (Working.cycle_count s + 1)))
        as (-> & _ & _ & -> & _ & _ & _ & _ & -> & _).
      working_simpl.
      rewrite (getitem_lookup _ _ vx) by (lia || exact Lx).
      cbn [Working.eval]. rewrite Ek.
      assert (Hl : vx mod 16 < Z.of_nat (length (Working.key_inputs s)))
        by (apply lookup_lt_Some in Lk; lia).
      destruct (Z.ltb_spec (vx mod 16)
                           (Z.of_nat (length (Working.key_inputs s))));
        [|lia].
      rewrite (getitem_lookup _ _ kst) by (lia || exact Lk).
      cbn [Working.eval]. subst skip.
      destruct Hk as [E|E]; rewrite E; reflexivity.
    + exists s'. split; [exact T|]. rewrite Fp. unfold Working.skip_if.
      destruct (working_decode_fields o
                  (Working.set_cycle_count s (Working.cycle_count s + 1)))
        as (_ & _ & _ & _ & _ & _ & Ep & _).
      destruct skip; working_simpl; rewrite Ep; working_simpl;
        rewrite !land_0xFFF.
      * rewrite Z.add_mod_idemp_l by lia. f_equal. lia.
      * reflexivity.
Qed.

Lemma key_number_out_of_range_witness :
  Plain.tick (plain_after 1 (rom_v0_then 0x15 0xE0 0x9E)) = Raise IndexError /\
  Tetris.tick 0 (tetris_after [0] (rom_v0_then 0x15 0xE0 0x9E)) =
    Raise IndexError /\
  (exists s',
      Working.cycle 0 (working_after 1 (rom_v0_then 0x15 0xE0 0x9E)) =
        Working.Val tt s' /\
      Working.pc s' = 0x204).
Proof.
  assert (H : Z.land 0xE09E 0xF0FF = 0xE09E \/ Z.land 0xE09E 0xF0FF = 0xE0A1)
    by (left; reflexivity).
  assert (Hv : 16 <= 0x15) by lia.
  destruct (key_number_out_of_range 0xE09E 0x15 H Hv) as (P & T & W).
  split; [|split].
  - apply P; vm_compute; reflexivity.
  - apply T; vm_compute; reflexivity.
  - destruct (W 0 0 (working_after 1 (rom_v0_then 0x15 0xE0 0x9E)))
      as (s' & K & E).
    + vm_compute; reflexivity.
    + vm_compute; reflexivity.
    + vm_compute; reflexivity.
    + exists s'. split; [exact K|]. rewrite E. vm_compute; reflexivity.
Defined.

(** ** The constructor of [Tetris] *)

Lemma tetris_init_font :
  ba_setslice (Tetris.memory Tetris.blank) 0 (Z.of_nat (length FONTSET))
              FONTSET = Ok fresh_memory.
Proof. vm_compute. reflexivity. Qed.

(** [Tetris.__init__] puts the ROM in with one slice assignment to a
    bytearray.  A ROM of at most 4096 - 0x200 = 3584 bytes lands at 0x200
    and the memory keeps its 4096 cells.  A longer ROM is put in all the
    same: nothing is raised or cut off, the bytearray grows to
    0x200 + len(rom) cells. *)
Theorem tetris_rom_load (rom : list Z) :
  bytes rom ->
  ((length rom <= 3584)%nat ->
   exists s, Tetris.init rom = Ok s /\
             Tetris.memory s = splice 0x200 rom fresh_memory /\
             length (Tetris.memory s) = 4096%nat /\ Tetris.pc s = 0x200) /\
  ((3584 < length rom)%nat ->
   exists s, Tetris.init rom = Ok s /\
             Tetris.memory s = take 0x200 fresh_memory ++ rom /\
             length (Tetris.memory s) = (0x200 + length rom)%nat /\
             Tetris.pc s = 0x200).
Proof.
  intros Hb. split; intros Hl.
  - eexists. split; [|split; [|split]].
    + unfold Tetris.init. cbv zeta. rewrite tetris_init_font. cbn [bind].
      rewrite ba_setslice_of_bytes by exact Hb. reflexivity.
    + cbn [Tetris.memory Tetris.set_memory].
      rewrite setslice_inside; [reflexivity|lia|reflexivity|].
      change (length fresh_memory) with 4096%nat. lia.
    + cbn [Tetris.memory Tetris.set_memory].
      rewrite setslice_inside; [|lia|reflexivity|
        change (length fresh_memory) with 4096%nat; lia].
      unfold splice. rewrite !length_app, length_take, length_drop.
      change (length fresh_memory) with 4096%nat. lia.
    + reflexivity.
  - eexists. split; [|split; [|split]].
    + unfold Tetris.init. cbv zeta. rewrite tetris_init_font. cbn [bind].
      rewrite ba_setslice_of_bytes by exact Hb. reflexivity.
    + cbn [Tetris.memory Tetris.set_memory].
      rewrite setslice_to_end;
        [reflexivity| |]; change (length fresh_memory) with 4096%nat; lia.
    + cbn [Tetris.memory Tetris.set_memory].
      rewrite setslice_to_end
        by (change (length fresh_memory) with 4096%nat; lia).
      rewrite length_app, length_take.
      change (length fresh_memory) with 4096%nat. lia.
    + reflexivity.
Qed.

Lemma tetris_rom_load_witness :
  (exists s, Tetris.init [0x12; 0x34; 0x56] = Ok s /\
             length (Tetris.memory s) = 4096%nat) /\
  (exists s, Tetris.init (replicate 3585 1) = Ok s /\
             length (Tetris.memory s) = 4097%nat).
Proof.
  split.
  - assert (Hb : bytes [0x12; 0x34; 0x56])
      by (apply forallb_is_byte; vm_compute; reflexivity).
    destruct (tetris_rom_load [0x12; 0x34; 0x56] Hb) as (A & _).
    destruct A as (s & I & _ & L & _); [vm_compute; lia|].
    exists s. auto.
  - assert (Hb : bytes (replicate 3585 1))
      by (apply forallb_is_byte; vm_compute; reflexivity).
    destruct (tetris_rom_load (replicate 3585 1) Hb) as (_ & B).
    destruct B as (s & I & _ & L & _); [rewrite length_replicate; lia|].
    exists s. split; [exact I|]. rewrite L, length_replicate. reflexivity.
Defined.

(** ** Fx1E and Fx29: the index register *)

Lemma plain_execute_ADD_I (o : Z) (s : Plain.Chip8) :
  Z.land o 0xF0FF = 0xF01E ->
  Plain.execute o s =
    let* vx := getitem (Plain.V s) (Z.land (Z.shiftr o 8) 0xF) in
    Ok (Plain.Fall (Plain.set_I s (Z.land (Plain.I s + vx) 0xFFF))).
Proof. intros H. unfold Plain.execute. cbv zeta. chain H. reflexivity. Qed.

Lemma plain_execute_FONT (o : Z) (s : Plain.Chip8) :
  Z.land o 0xF0FF = 0xF029 ->
  Plain.execute o s =
    let* vx := getitem (Plain.V s) (Z.land (Z.shiftr o 8) 0xF) in
    Ok (Plain.Fall (Plain.set_I s (vx * 5))).
Proof. intros H. unfold Plain.execute. cbv zeta. chain H. reflexivity. Qed.

Lemma tetris_dispatch_ADD_I (rnd o : Z) (s : Tetris.Chip8) :
  Z.land o 0xF0FF = 0xF01E ->
  Tetris.dispatch (Tetris.opcodes rnd) o s = Tetris.op_ADD_I_Vx o s.
Proof.
  intros H. unfold Tetris.opcodes. cbn [Tetris.dispatch]. chain H. reflexivity.
Qed.

Lemma tetris_dispatch_FONT (rnd o : Z) (s : Tetris.Chip8) :
  Z.land o 0xF0FF = 0xF029 ->
  Tetris.dispatch (Tetris.opcodes rnd) o s = Tetris.op_FONT o s.
Proof.
  intros H. unfold Tetris.opcodes. cbn [Tetris.dispatch]. chain H. reflexivity.
Qed.

(** Fx1E.  [Plain] and [Tetris] keep I to 12 bits, I = (I + Vx) mod 4096,
    and touch no register.  [Working] keeps it to 16 bits, so that I can
    leave the memory, and sets VF to 1 exactly when I + Vx is above
    0xFFF. *)
Theorem add_to_index (o vx : Z) :
  Z.land o 0xF0FF = 0xF01E ->
  let x := Z.to_nat (Z.land (Z.shiftr o 8) 0xF) in
  (forall s : Plain.Chip8,
      Plain.fetch s = Ok o -> Plain.V s !! x = Some vx ->
      exists s',
        Plain.tick s = Ok s' /\
        Plain.I s' = (Plain.I s + vx) mod 4096 /\ Plain.V s' = Plain.V s) /\
  (forall (rnd : Z) (s : Tetris.Chip8),
      Tetris.fetch s = Ok o -> Tetris.V s !! x = Some vx ->
      exists s',
        Tetris.tick rnd s = Ok s' /\
        Tetris.I s' = (Tetris.I s + vx) mod 4096 /\
        Tetris.V s' = Tetris.V s) /\
  (forall (rnd : Z) (s : Working.Chip8),
      length (Working.gpio s) = 16%nat ->
      Working.fetch s = Ok o -> Working.gpio s !! x = Some vx ->
      exists s',
        Working.cycle rnd s = Working.Val tt s' /\
        Working.index s' = (Working.index s + vx) mod 65536 /\
        Working.gpio s' =
          <[15%nat := if 0xFFF <? Working.index s + vx then 1 else 0]>
            (Working.gpio s)).
Proof.
  intros H x. pose proof (nibble_range (Z.shiftr o 8)) as Rx.
  split; [|split].
  - intros s Hf Lx.
    destruct (plain_tick_fall o s
                (Plain.set_I (Plain.set_pc s (Plain.pc s + 2))
                             (Z.land (Plain.I s + vx) 0xFFF)) Hf)
      as (s' & T & _ & _ & FV & FI & _).
    + rewrite plain_execute_ADD_I by exact H. cbv zeta. plain_simpl.
      rewrite (getitem_lookup _ _ vx) by (lia || exact Lx). reflexivity.
    + exists s'. rewrite FV, FI. plain_simpl. rewrite land_0xFFF. auto.
  - intros rnd s Hf Lx. eexists. split.
    + rewrite (tetris_tick_dispatch rnd o s Hf).
      rewrite tetris_dispatch_ADD_I by exact H.
      unfold Tetris.op_ADD_I_Vx, Tetris.reg_x. cbv zeta. tetris_simpl.
      rewrite (getitem_lookup _ _ vx) by (lia || exact Lx). reflexivity.
    + tetris_simpl. rewrite land_0xFFF. auto.
  - intros rnd s HV Hf Lx.
    destruct (working_cycle_done rnd o s
                (Working.set_index
                   (Working.set_gpio
                      (Working.decode o
                         (Working.set_cycle_count s
                            (Working.cycle_count s + 1)))
                      (<[15%nat := if 0xFFF <? Working.index s + vx
                                   then 1 else 0]> (Working.gpio s)))
                   (Z.land (Working.index s + vx) 0xFFFF)) Hf)
      as (s' & T & _ & Fg & Fi & _).
    + working_Fxxx H 0x1E.
      destruct (working_decode_fields o
                  (Working.set_cycle_count s (Working.cycle_count s + 1)))
        as (_ & _ & _ & Eg & _ & EI & _).
      rewrite Eg, EI. working_simpl.
      rewrite (getitem_lookup _ _ vx) by (lia || exact Lx).
      cbn [Working.eval]. unfold Working.write_gpio. rewrite Eg.
      working_simpl. rewrite (setitem_reg _ 15) by (assumption || lia).
      cbn [Working.eval Working.and_then Working.Done]. reflexivity.
    + exists s'. rewrite Fg, Fi. working_simpl. split; [exact T|].
      split; [|reflexivity].
      change 0xFFFF with (Z.ones 16). rewrite Z.land_ones by lia. reflexivity.
Qed.

Lemma add_to_index_witness :
  (exists s',
      Plain.tick (plain_after 2 [0x60; 0x02; 0xAF; 0xFF; 0xF0; 0x1E]) = Ok s' /\
      Plain.I s' = 1) /\
  (exists s',
      Tetris.tick 0 (tetris_after [0; 0] [0x60; 0x02; 0xAF; 0xFF; 0xF0; 0x1E]) =
        Ok s' /\
      Tetris.I s' = 1) /\
  (exists s',
      Working.cycle 0 (working_after 2 [0x60; 0x02; 0xAF; 0xFF; 0xF0; 0x1E]) =
        Working.Val tt s' /\
      Working.index s' = 0x1001 /\ Working.gpio s' !! 15%nat = Some 1).
Proof.
  assert (H : Z.land 0xF01E 0xF0FF = 0xF01E) by reflexivity.
  destruct (add_to_index 0xF01E 2 H) as (P & T & W).
  split; [|split].
  - destruct (P (plain_after 2 [0x60; 0x02; 0xAF; 0xFF; 0xF0; 0x1E]))
      as (s' & K & E & _).
    + vm_compute; reflexivity.
    + vm_compute; reflexivity.
    + exists s'. split; [exact K|]. rewrite E. vm_compute; reflexivity.
  - destruct (T 0 (tetris_after [0; 0] [0x60; 0x02; 0xAF; 0xFF; 0xF0; 0x1E]))
      as (s' & K & E & _).
    + vm_compute; reflexivity.
    + vm_compute; reflexivity.
    + exists s'. split; [exact K|]. rewrite E. vm_compute; reflexivity.
  - destruct (W 0 (working_after 2 [0x60; 0x02; 0xAF; 0xFF; 0xF0; 0x1E]))
      as (s' & K & E & G).
    + vm_compute; reflexivity.
    + vm_compute; reflexivity.
    + vm_compute; reflexivity.
    + exists s'. split; [exact K|]. rewrite E, G.
      split; vm_compute; reflexivity.
Defined.

Lemma glyph_in_font_area (m : list Z) (d : nat) :
  take 80 m = FONTSET -> (d < 16)%nat ->
  take 5 (drop (5 * d) m) = take 5 (drop (5 * d) FONTSET).
Proof.
  intros Hm Hd. rewrite <- Hm. rewrite !take_drop_commute.
  rewrite take_take. f_equal. f_equal. lia.
Qed.

(** Fx29 on a machine whose first 80 memory cells still hold the font
    table.  In [Plain] and [Tetris], I becomes 5 * Vx, which for a digit
    Vx below 16 is where the five rows of its glyph lie.  [Working] takes the
    low four bits of Vx first, so every value of Vx leads to a glyph, that of
    Vx mod 16. *)
Theorem font_address (o vx : Z) :
  Z.land o 0xF0FF = 0xF029 ->
  let x := Z.to_nat (Z.land (Z.shiftr o 8) 0xF) in
  0 <= vx ->
  (forall s : Plain.Chip8,
      Plain.fetch s = Ok o -> Plain.V s !! x = Some vx ->
      exists s',
        Plain.tick s = Ok s' /\ Plain.I s' = 5 * vx /\
        (vx < 16 -> take 80 (Plain.memory s) = FONTSET ->
         take 5 (drop (Z.to_nat (Plain.I s')) (Plain.memory s')) =
           take 5 (drop (5 * Z.to_nat vx) FONTSET))) /\
  (forall (rnd : Z) (s : Tetris.Chip8),
      Tetris.fetch s = Ok o -> Tetris.V s !! x = Some vx ->
      exists s',
        Tetris.tick rnd s = Ok s' /\ Tetris.I s' = 5 * vx /\
        (vx < 16 -> take 80 (Tetris.memory s) = FONTSET ->
         take 5 (drop (Z.to_nat (Tetris.I s')) (Tetris.memory s')) =
           take 5 (drop (5 * Z.to_nat vx) FONTSET))) /\
  (forall (rnd : Z) (s : Working.Chip8),
      Working.fetch s = Ok o -> Working.gpio s !! x = Some vx ->
      exists s',
        Working.cycle rnd s = Working.Val tt s' /\
        Working.index s' = 5 * (vx mod 16) /\
        (take 80 (Working.memory s) = FONTSET ->
         take 5 (drop (Z.to_nat (Working.index s')) (Working.memory s')) =
           take 5 (drop (5 * Z.to_nat (vx mod 16)) FONTSET))).
Proof.
  intros H x Hvx. pose proof (nibble_range (Z.shiftr o 8)) as Rx.
  split; [|split].
  - intros s Hf Lx.
    destruct (plain_tick_fall o s
                (Plain.set_I (Plain.set_pc s (Plain.pc s + 2)) (vx * 5)) Hf)
      as (s' & T & Fm & _ & _ & FI & _).
    + rewrite plain_execute_FONT by exact H. cbv zeta. plain_simpl.
      rewrite (getitem_lookup _ _ vx) by (lia || exact Lx). reflexivity.
    + exists s'. rewrite Fm, FI. plain_simpl. split; [exact T|].
      split; [lia|]. intros Hd Hm.
      replace (Z.to_nat (vx * 5)) with (5 * Z.to_nat vx)%nat by lia.
      apply glyph_in_font_area; [exact Hm|lia].
  - intros rnd s Hf Lx. eexists. split.
    + rewrite (tetris_tick_dispatch rnd o s Hf).
      rewrite tetris_dispatch_FONT by exact H.
      unfold Tetris.op_FONT, Tetris.reg_x. cbv zeta. tetris_simpl.
      rewrite (getitem_lookup _ _ vx) by (lia || exact Lx). reflexivity.
    + tetris_simpl. split; [lia|]. intros Hd Hm.
      replace (Z.to_nat (vx * 5)) with (5 * Z.to_nat vx)%nat by lia.
      apply glyph_in_font_area; [exact Hm|lia].
  - intros rnd s Hf Lx.
    assert (Ek : Z.land vx 0xF = vx mod 16).
    { change 0xF with (Z.ones 4). rewrite Z.land_ones by lia. reflexivity. }
    pose proof (Z.mod_pos_bound vx 16 ltac:(lia)) as Hm16.
    destruct (working_cycle_done rnd o s
                (Working.set_index
                   (Working.decode o
                      (Working.set_cycle_count s (Working.cycle_count s + 1)))
                   (Z.land vx 0xF * 5)) Hf)
      as (s' & T & Fm & _ & Fi & _).
    + working_Fxxx H 0x29.
      destruct (working_decode_fields o
                  (Working.set_cycle_count s (Working.cycle_count s + 1)))
        as (_ & _ & _ & Eg & _).
      rewrite Eg. working_simpl.
      rewrite (getitem_lookup _ _ vx) by (lia || exact Lx). reflexivity.
    + exists s'. rewrite Fm, Fi. working_simpl. rewrite Ek.
      split; [exact T|]. split; [lia|]. intros Hm.
      destruct (working_decode_fields o
                  (Working.set_cycle_count s (Working.cycle_count s + 1)))
        as (_ & _ & _ & _ & Em & _).
      rewrite Em. working_simpl.
      replace (Z.to_nat (vx mod 16 * 5)) with (5 * Z.to_nat (vx mod 16))%nat
        by lia.
      apply glyph_in_font_area; [exact Hm|lia].
Qed.

Lemma font_address_witness :
  (exists s',
      Plain.tick (plain_after 1 (rom_v0_then 0x0A 0xF0 0x29)) = Ok s' /\
      Plain.I s' = 50 /\
      take 5 (drop 50 (Plain.memory s')) = [0xF0; 0x90; 0xF0; 0x90; 0x90]) /\
  (exists s',
      Tetris.tick 0 (tetris_after [0] (rom_v0_then 0x0A 0xF0 0x29)) = Ok s' /\
      Tetris.I s' = 50 /\
      take 5 (drop 50 (Tetris.memory s')) = [0xF0; 0x90; 0xF0; 0x90; 0x90]) /\
  (exists s',
      Working.cycle 0 (working_after 1 (rom_v0_then 0x1A 0xF0 0x29)) =
        Working.Val tt s' /\
      Working.index s' = 50 /\
      take 5 (drop 50 (Working.memory s')) = [0xF0; 0x90; 0xF0; 0x90; 0x90]).
Proof.
  assert (H : Z.land 0xF029 0xF0FF = 0xF029) by reflexivity.
  split; [|split].
  - destruct (font_address 0xF029 0x0A H ltac:(lia)) as (P & _ & _).
    destruct (P (plain_after 1 (rom_v0_then 0x0A 0xF0 0x29)))
      as (s' & K & E & G).
    + vm_compute; reflexivity.
    + vm_compute; reflexivity.
    + exists s'. split; [exact K|]. split; [exact E|].
      rewrite E in G. apply G; [lia|vm_compute; reflexivity].
  - destruct (font_address 0xF029 0x0A H ltac:(lia)) as (_ & T & _).
    destruct (T 0 (tetris_after [0] (rom_v0_then 0x0A 0xF0 0x29)))
      as (s' & K & E & G).
    + vm_compute; reflexivity.
    + vm_compute; reflexivity.
    + exists s'. split; [exact K|]. split; [exact E|].
      rewrite E in G. apply G; [lia|vm_compute; reflexivity].
  - destruct (font_address 0xF029 0x1A H ltac:(lia)) as (_ & _ & W).
    destruct (W 0 (working_after 1 (rom_v0_then 0x1A 0xF0 0x29)))
      as (s' & K & E & G).
    + vm_compute; reflexivity.
    + vm_compute; reflexivity.
    + exists s'. split; [exact K|]. split; [exact E|].
      rewrite E in G. apply G. vm_compute; reflexivity.
Defined.

(** ** The timers of [Working] *)

Lemma mask_join (o : Z) :
  Z.land o 0xF0FF = Z.lor (Z.land o 0xF000) (Z.land o 0xFF).
Proof.
  change 0xF0FF with (Z.lor 0xF000 0xFF). apply Z.land_lor_distr_r.
Qed.

Lemma working_write_gpio_timers (i v : Z) (s s' : Working.Chip8) (a : unit) :
  Working.write_gpio i v s = Working.Val a s' ->
  Working.delay_timer s' = Working.delay_timer s /\
  Working.sound_timer s' = Working.sound_timer s.
Proof.
  unfold Working.write_gpio. destruct (setitem _ _ _); cbn [Working.eval];
    [|discriminate].
  intros [= _ <-]. split; reflexivity.
Qed.

Lemma working_write_memory_timers (i v : Z) (s s' : Working.Chip8) (a : unit) :
  Working.write_memory i v s = Working.Val a s' ->
  Working.delay_timer s' = Working.delay_timer s /\
  Working.sound_timer s' = Working.sound_timer s.
Proof.
  unfold Working.write_memory. destruct (setitem _ _ _); cbn [Working.eval];
    [|discriminate].
  intros [= _ <-]. split; reflexivity.
Qed.

Ltac working_binds_t H :=
  repeat
    (cbv beta zeta in H;
     lazymatch type of H with
     | Working.eval ?r _ _ = Working.Val _ _ =>
         destruct r; cbn [Working.eval] in H; [|discriminate H]
     | Working.and_then ?m _ = Working.Val _ _ =>
         let E := fresh "E" in
         destruct m eqn:E; cbn [Working.and_then] in H; [|discriminate H];
         try apply working_write_gpio_timers in E;
         try apply working_write_memory_timers in E
     | (if ?c then _ else _) = Working.Val _ _ =>
         let C := fresh "C" in destruct c eqn:C
     | match ?x with Some _ => _ | None => _ end = Working.Val _ _ =>
         destruct x
     | Working.write_gpio _ _ _ = Working.Val _ _ =>
         apply working_write_gpio_timers in H
     | Working.write_memory _ _ _ = Working.Val _ _ =>
         apply working_write_memory_timers in H
     | Working.Done _ = Working.Val _ _ => unfold Working.Done in H
     end).

Ltac working_timers_done H :=
  try (injection H as ? <-); unfold Working.skip_if;
  repeat match goal with |- context [if ?b then _ else _] => destruct b end;
  working_simpl;
  repeat match goal with E : _ /\ _ |- _ => destruct E end;
  repeat split; intros; congruence.

Lemma working_for_each_timers (body : Z -> Working.Chip8 -> Working.outcome) :
  (forall i s s' a, body i s = Working.Val a s' ->
                    Working.delay_timer s' = Working.delay_timer s /\
                    Working.sound_timer s' = Working.sound_timer s) ->
  forall l s s' a, Working.for_each body l s = Working.Val a s' ->
                   Working.delay_timer s' = Working.delay_timer s /\
                   Working.sound_timer s' = Working.sound_timer s.
Proof.
  intros Hbody. induction l as [|i r IH]; intros s s' a H.
  - injection H as _ <-. split; reflexivity.
  - cbn [Working.for_each] in H.
    destruct (body i s) as [u t|] eqn:E; cbn [Working.and_then] in H;
      [|discriminate].
    apply Hbody in E. apply IH in H. destruct E, H. split; congruence.
Qed.

Lemma working_drw_pixel_timers (mask off sprite base x c : Z)
      (s s' : Working.Chip8) (c' : Z) :
  Working.drw_pixel mask off sprite base x c s = Working.Val c' s' ->
  Working.delay_timer s' = Working.delay_timer s /\
  Working.sound_timer s' = Working.sound_timer s.
Proof.
  unfold Working.drw_pixel. intros H. working_binds_t H; working_timers_done H.
Qed.

Lemma working_drw_row_timers (x y row c : Z) (s s' : Working.Chip8) (c' : Z) :
  Working.drw_row x y row c s = Working.Val c' s' ->
  Working.delay_timer s' = Working.delay_timer s /\
  Working.sound_timer s' = Working.sound_timer s.
Proof.
  unfold Working.drw_row. intros H.
  repeat
    (cbv beta zeta in H;
     lazymatch type of H with
     | Working.eval ?r _ _ = Working.Val _ _ =>
         destruct r; cbn [Working.eval] in H; [|discriminate H]
     | Working.and_then ?m _ = Working.Val _ _ =>
         let E := fresh "E" in
         destruct m eqn:E; cbn [Working.and_then] in H; [|discriminate H];
         apply working_drw_pixel_timers in E
     | (if ?c then _ else _) = Working.Val _ _ => destruct c
     | Working.drw_pixel _ _ _ _ _ _ _ = Working.Val _ _ =>
         apply working_drw_pixel_timers in H
     end);
    working_timers_done H.
Qed.

Lemma working_drw_rows_timers (x y : Z) (rows : list Z) :
  forall (c : Z) (s s' : Working.Chip8) (c' : Z),
    Working.drw_rows x y rows c s = Working.Val c' s' ->
    Working.delay_timer s' = Working.delay_timer s /\
    Working.sound_timer s' = Working.sound_timer s.
Proof.
  induction rows as [|row r IH]; intros c s s' c' H.
  - injection H as _ <-. split; reflexivity.
  - cbn [Working.drw_rows] in H.
    destruct (Working.drw_row x y row c s) as [u t|] eqn:E;
      cbn [Working.and_then] in H; [|discriminate].
    apply working_drw_row_timers in E. apply IH in H. destruct E, H.
    split; congruence.
Qed.

Lemma working_Fxxx_timers (s s' : Working.Chip8) (a : unit) :
  Working._Fxxx s = Working.Val a s' ->
  (Z.land (Working.opcode s) 0xFF <> 0x15 ->
   Working.delay_timer s' = Working.delay_timer s) /\
  (Z.land (Working.opcode s) 0xFF <> 0x18 ->
   Working.sound_timer s' = Working.sound_timer s).
Proof.
  intros H. unfold Working._Fxxx in H. cbv zeta in H.
  repeat
    lazymatch type of H with
    | (if Z.eqb ?a ?b then _ else _) = _ =>
        destruct (Z.eqb_spec a b)
    end.
  all: working_binds_t H.
  all: try (apply working_for_each_timers in H;
            [|intros ? ? ? ? Hb; working_binds_t Hb; working_timers_done Hb]).
  all: try (injection H as ? <-); working_simpl;
    repeat match goal with E : _ /\ _ |- _ => destruct E end;
    split; intros Hn; try congruence; try contradiction.
Qed.

Lemma working_dispatch_timers (rnd : Z) (s s' : Working.Chip8) (a : unit) :
  Working.dispatch rnd s = Working.Val a s' ->
  (Z.land (Working.opcode s) 0xF0FF <> 0xF015 ->
   Working.delay_timer s' = Working.delay_timer s) /\
  (Z.land (Working.opcode s) 0xF0FF <> 0xF018 ->
   Working.sound_timer s' = Working.sound_timer s).
Proof.
  intros H. unfold Working.dispatch in H. cbv zeta in H.
  destruct (Z.land (Working.opcode s) 0xF000 =? 0x0000).
  - destruct (Z.eqb_spec (Working.opcode s) 0x00E0).
    + injection H as _ <-. split; reflexivity.
    + destruct (Z.eqb_spec (Working.opcode s) 0x00EE).
      * unfold Working._00EE in H. destruct (Working.stack s); [discriminate|].
        working_binds_t H. injection H as _ <-. split; reflexivity.
      * injection H as _ <-. split; reflexivity.
  - unfold Working.funcmap in H. cbn [Working.dict_get] in H.
    repeat
      lazymatch type of H with
      | match (if ?c then _ else _) with Some _ => _ | None => _ end = _ =>
          let T := fresh "T" in
          destruct c eqn:T;
          [ try (apply Z.eqb_eq in T);
            unfold Working._1nnn, Working._2nnn, Working._3xkk, Working._4xkk,
              Working._5xy0, Working._6xkk, Working._7xkk, Working._8xxx,
              Working._9xy0, Working._Annn, Working._Bnnn, Working._Cxkk,
              Working._Dxyn, Working._Exxx in H
          | clear T ]
      end.
    16: { injection H as _ <-. split; reflexivity. }
    15: { apply working_Fxxx_timers in H. destruct H as [Hd Hs].
          split; intros Hn; [apply Hd|apply Hs]; intros Hk; apply Hn;
            rewrite mask_join, <- T, Hk; reflexivity. }
    all: working_binds_t H.
    all: try (apply working_drw_rows_timers in E).
    all: working_timers_done H.
Qed.

Lemma working_timers_countdown (s : Working.Chip8) :
  Working.delay_timer (Working.timers s) = countdown (Working.delay_timer s) /\
  Working.sound_timer (Working.timers s) = countdown (Working.sound_timer s).
Proof.
  unfold Working.timers, countdown. cbv zeta.
  destruct (0 <? Working.delay_timer s); working_simpl;
    destruct (0 <? Working.sound_timer s); working_simpl; split; reflexivity.
Qed.

(** The timers of [Working] are counted down in two places.  Every cycle
    that completes ends by taking one off each timer that is above 0: after
    a cycle that executes anything but Fx15 the delay timer is one less (or
    still 0), and likewise the sound timer for anything but Fx18; a cycle
    that executes Fx15 leaves the delay timer at Vx - 1 already.
    [_timer_tick] takes one off each timer as well, and leaves the beep flag
    set exactly when the sound timer was above 0. *)
Theorem working_counts_timers_twice :
  (forall (rnd o : Z) (s s' : Working.Chip8),
      Working.fetch s = Ok o -> Working.cycle rnd s = Working.Val tt s' ->
      (Z.land o 0xF0FF <> 0xF015 ->
       Working.delay_timer s' = countdown (Working.delay_timer s)) /\
      (Z.land o 0xF0FF <> 0xF018 ->
       Working.sound_timer s' = countdown (Working.sound_timer s))) /\
  (forall (rnd o vx : Z) (s : Working.Chip8),
      Working.fetch s = Ok o -> Z.land o 0xF0FF = 0xF015 ->
      Working.gpio s !! Z.to_nat (Z.land (Z.shiftr o 8) 0xF) = Some vx ->
      exists s',
        Working.cycle rnd s = Working.Val tt s' /\
        Working.delay_timer s' = countdown vx) /\
  (forall s : Working.Chip8,
      Working.delay_timer (Working._timer_tick s) =
        countdown (Working.delay_timer s) /\
      Working.sound_timer (Working._timer_tick s) =
        countdown (Working.sound_timer s) /\
      Working.sound_playing (Working._timer_tick s) =
        (0 <? Working.sound_timer s)).
Proof.
  split; [|split].
  - intros rnd o s s' Hf Hc.
    rewrite (working_cycle_dispatch rnd o s Hf) in Hc.
    destruct (Working.dispatch rnd _) as [u t|] eqn:E;
      cbn [Working.and_then Working.Done] in Hc; [|discriminate].
    injection Hc as <-.
    apply working_dispatch_timers in E.
    destruct (working_decode_fields o
                (Working.set_cycle_count s (Working.cycle_count s + 1)))
      as (Eo & _).
    rewrite Eo in E. destruct E as [Ed Es].
    match goal with |- context [Working.timers ?u] =>
      destruct (working_timers_countdown u) as (-> & ->) end.
    working_simpl. unfold Working.decode in Ed, Es. cbv zeta in Ed, Es.
    working_simpl_in Ed. working_simpl_in Es.
    split; intros Hn; [rewrite Ed by exact Hn|rewrite Es by exact Hn];
      reflexivity.
  - intros rnd o vx s Hf H Lx.
    pose proof (nibble_range (Z.shiftr o 8)) as Rx.
    set (t := Working.set_delay_timer
                (Working.decode o
                   (Working.set_cycle_count s (Working.cycle_count s + 1)))
                vx).
    exists (Working.timers
              (Working.set_pc t (Z.land (Working.pc t + 2) 0xFFF))).
    split.
    + rewrite (working_cycle_dispatch rnd o s Hf).
      working_Fxxx H 0x15.
      destruct (working_decode_fields o
                  (Working.set_cycle_count s (Working.cycle_count s + 1)))
        as (_ & _ & _ & Eg & _).
      rewrite Eg. working_simpl.
      rewrite (getitem_lookup _ _ vx) by (lia || exact Lx).
      cbn [Working.eval Working.and_then Working.Done]. reflexivity.
    + match goal with |- context [Working.timers ?u] =>
        destruct (working_timers_countdown u) as (-> & _) end.
      subst t. working_simpl. reflexivity.
  - intros s. unfold Working._timer_tick, countdown. cbv zeta.
    destruct (0 <? Working.delay_timer s); working_simpl;
      destruct (0 <? Working.sound_timer s); working_simpl;
      destruct (Working.sound_playing s) eqn:E; cbn [negb]; working_simpl;
      rewrite ?E; repeat split.
Qed.

Lemma working_counts_timers_twice_witness :
  (exists s',
      Working.cycle 0 (working_after 1 [0x60; 0x05; 0xF0; 0x15; 0x60; 0x00]) =
        Working.Val tt s' /\
      Working.delay_timer s' = 4) /\
  Working.delay_timer
    (working_after 3 [0x60; 0x05; 0xF0; 0x15; 0x60; 0x00]) = 3.
Proof.
  destruct working_counts_timers_twice as (A & B & _).
  split.
  - destruct (B 0 0xF015 5 (working_after 1 [0x60; 0x05; 0xF0; 0x15; 0x60; 0x00]))
      as (s' & C & D).
    + vm_compute; reflexivity.
    + reflexivity.
    + vm_compute; reflexivity.
    + exists s'. split; [exact C|]. rewrite D. reflexivity.
  - destruct (A 0 0x6000
                (working_after 2 [0x60; 0x05; 0xF0; 0x15; 0x60; 0x00])
                (working_after 3 [0x60; 0x05; 0xF0; 0x15; 0x60; 0x00]))
      as (D & _).
    + vm_compute; reflexivity.
    + vm_compute; reflexivity.
    + rewrite D by (vm_compute; intros Hc; discriminate Hc).
      vm_compute; reflexivity.
Defined.

(** ** Keyboard and window *)

Lemma keymap_get_range (symbol : key.symbol) (k : Z) :
  keymap_get KEYMAP symbol = Some k ->
  0 <= k < 16 /\ symbol_of_key k = symbol.
Proof.
  intros H. destruct symbol; vm_compute in H; try discriminate H;
    injection H as <-; (split; [lia|reflexivity]).
Qed.

Lemma keymap_get_symbol_of_key (k : Z) :
  0 <= k < 16 -> keymap_get KEYMAP (symbol_of_key k) = Some k.
Proof.
  intros Hk.
  assert (A : forallb (fun k => match keymap_get KEYMAP (symbol_of_key k) with
                                | Some k' => k' =? k
                                | None => false
                                end) (seqZ 0 16) = true)
    by (vm_compute; reflexivity).
  pose proof (forallb_seqZ _ _ A k Hk) as B. cbv beta in B.
  destruct (keymap_get KEYMAP (symbol_of_key k)) as [k'|]; [|discriminate B].
  apply Z.eqb_eq in B. subst k'. reflexivity.
Qed.

(** The key handlers of [Plain] and [Tetris].  The table sends exactly one
    keyboard symbol to each keypad key 0 .. F.  Pressing a symbol of the
    table sets the entry of its key to 1 and releasing it sets it to 0,
    other keys being left as they are; a symbol outside the table changes
    nothing. *)
Theorem keypad_mapping :
  (forall k : Z,
      0 <= k < 16 ->
      keymap_get KEYMAP (symbol_of_key k) = Some k /\
      forall symbol, keymap_get KEYMAP symbol = Some k ->
                     symbol = symbol_of_key k) /\
  (forall (symbol : key.symbol) (k : Z),
      keymap_get KEYMAP symbol = Some k -> 0 <= k < 16) /\
  (forall (symbol : key.symbol) (s : Plain.Chip8),
      keymap_get KEYMAP symbol = None ->
      Plain.key_press symbol s = Ok s /\ Plain.key_release symbol s = Ok s) /\
  (forall (symbol : key.symbol) (s : Tetris.Chip8),
      keymap_get KEYMAP symbol = None ->
      Tetris.key_press symbol s = Ok s /\
      Tetris.key_release symbol s = Ok s) /\
  (forall (symbol : key.symbol) (k : Z) (s : Plain.Chip8),
      keymap_get KEYMAP symbol = Some k -> length (Plain.keys s) = 16%nat ->
      exists s1 s2,
        Plain.key_press symbol s = Ok s1 /\
        Plain.keys s1 = <[Z.to_nat k := 1]> (Plain.keys s) /\
        Plain.key_release symbol s1 = Ok s2 /\
        Plain.keys s2 = <[Z.to_nat k := 0]> (Plain.keys s)) /\
  (forall (symbol : key.symbol) (k : Z) (s : Tetris.Chip8),
      keymap_get KEYMAP symbol = Some k -> length (Tetris.keys s) = 16%nat ->
      exists s1 s2,
        Tetris.key_press symbol s = Ok s1 /\
        Tetris.keys s1 = <[Z.to_nat k := 1]> (Tetris.keys s) /\
        Tetris.key_release symbol s1 = Ok s2 /\
        Tetris.keys s2 = <[Z.to_nat k := 0]> (Tetris.keys s)).
Proof.
  split; [|split; [|split; [|split; [|split]]]].
  - intros k Hk. split; [apply keymap_get_symbol_of_key; exact Hk|].
    intros symbol H. apply keymap_get_range in H as [_ H]. symmetry. exact H.
  - intros symbol k H. apply keymap_get_range in H as [H _]. exact H.
  - intros symbol s H. unfold Plain.key_press, Plain.key_release.
    rewrite H. split; reflexivity.
  - intros symbol s H. unfold Tetris.key_press, Tetris.key_release.
    rewrite H. split; reflexivity.
  - intros symbol k s H Hl. pose proof (keymap_get_range _ _ H) as [Hk _].
    exists (Plain.set_keys s (<[Z.to_nat k := 1]> (Plain.keys s))),
           (Plain.set_keys s (<[Z.to_nat k := 0]> (Plain.keys s))).
    unfold Plain.key_press, Plain.key_release. rewrite H.
    unfold Plain.on_key_press, Plain.on_key_release. plain_simpl.
    rewrite !setitem_in_range by (rewrite ?length_insert; lia). cbn [bind].
    rewrite list_insert_insert_eq. repeat split.
  - intros symbol k s H Hl. pose proof (keymap_get_range _ _ H) as [Hk _].
    exists (Tetris.set_keys s (<[Z.to_nat k := 1]> (Tetris.keys s))),
           (Tetris.set_keys s (<[Z.to_nat k := 0]> (Tetris.keys s))).
    unfold Tetris.key_press, Tetris.key_release. rewrite H.
    unfold Tetris.on_key_press, Tetris.on_key_release. tetris_simpl.
    rewrite !setitem_in_range by (rewrite ?length_insert; lia). cbn [bind].
    rewrite list_insert_insert_eq. repeat split.
Qed.

Lemma keypad_mapping_witness :
  keymap_get KEYMAP key.W = Some 5 /\
  (exists s1 s2,
      Plain.key_press key.W (plain_boot []) = Ok s1 /\
      Plain.keys s1 !! 5%nat = Some 1 /\
      Plain.key_release key.W s1 = Ok s2 /\
      Plain.keys s2 = Plain.keys (plain_boot [])) /\
  Tetris.key_press key.ESCAPE (tetris_boot []) = Ok (tetris_boot []).
Proof.
  destruct keypad_mapping as (A & _ & _ & N & P & _).
  split; [|split].
  - destruct (A 5) as (G & _); [lia|]. exact G.
  - destruct (P key.W 5 (plain_boot [])) as (s1 & s2 & K1 & E1 & K2 & E2).
    + vm_compute; reflexivity.
    + vm_compute; reflexivity.
    + exists s1, s2. split; [exact K1|]. split; [|split; [exact K2|]].
      * rewrite E1. vm_compute; reflexivity.
      * rewrite E2. vm_compute; reflexivity.
  - destruct (N key.ESCAPE (tetris_boot [])) as (G & _);
      [vm_compute; reflexivity|exact G].
Defined.

Lemma cell_blit_inj (i j : Z) :
  0 <= i -> 0 <= j -> cell_blit i = cell_blit j -> i = j.
Proof.
  intros Hi Hj. unfold cell_blit. intros [= Hx Hy].
  pose proof (Z.div_mod i 64 ltac:(lia)).
  pose proof (Z.div_mod j 64 ltac:(lia)). lia.
Qed.

Lemma cell_blit_inside (i : Z) :
  0 <= i < 2048 ->
  exists x y, cell_blit i = Plain.Blit x y /\ 0 <= x <= 630 /\ 0 <= y <= 310.
Proof.
  intros Hi. unfold cell_blit. eexists. eexists. split; [reflexivity|].
  pose proof (Z.mod_pos_bound i 64 ltac:(lia)).
  assert (0 <= i / 64) by (apply Z.div_pos; lia).
  assert (i / 64 < 32) by (apply Z.div_lt_upper_bound; lia).
  lia.
Qed.

(** The blit loop over cells that exist: one blit per lit cell. *)
Lemma blit_loop_spec (vram : list Z) (idxs : list Z) :
  Forall (fun i => 0 <= i < Z.of_nat (length vram)) idxs -> NoDup idxs ->
  exists blits,
    Plain.blit_loop vram idxs = Ok blits /\
    (forall g, g ∈ blits <->
               exists i c, i ∈ idxs /\ vram !! Z.to_nat i = Some c /\
                           c <> 0 /\ g = cell_blit i) /\
    NoDup blits.
Proof.
  induction idxs as [|i r IH]; intros Hr Hn.
  - exists []. split; [reflexivity|]. split; [|constructor].
    intros g. split.
    + intros Hg. apply elem_of_nil in Hg. contradiction.
    + intros (i & c & Hi & _). apply elem_of_nil in Hi. contradiction.
  - apply Forall_cons in Hr as [Hi Hr]. apply NoDup_cons in Hn as [Hni Hn].
    destruct (IH Hr Hn) as (rest & Er & Hm & Hd).
    destruct (lookup_lt_is_Some_2 vram (Z.to_nat i)) as [c Hc]; [lia|].
    cbn [Plain.blit_loop]. rewrite (getitem_lookup vram i c) by (lia || exact Hc).
    cbn [bind]. rewrite Er. cbn [bind]. eexists. split; [reflexivity|].
    unfold truthy. destruct (Z.eqb_spec c 0) as [E0|E0]; cbn [negb].
    + split; [|exact Hd]. intros g. rewrite Hm. split.
      * intros (j & c' & Hj & Lj & Nj & Eg). exists j, c'.
        split; [apply elem_of_cons; right; exact Hj|auto].
      * intros (j & c' & Hj & Lj & Nj & Eg). exists j, c'.
        apply elem_of_cons in Hj as [->|Hj]; [congruence|auto].
    + split.
      * intros g. rewrite elem_of_cons, Hm. split.
        -- intros [->|(j & c' & Hj & Lj & Nj & Eg)].
           ++ exists i, c. split; [apply elem_of_cons; left; reflexivity|auto].
           ++ exists j, c'. split; [apply elem_of_cons; right; exact Hj|auto].
        -- intros (j & c' & Hj & Lj & Nj & Eg).
           apply elem_of_cons in Hj as [->|Hj]; [left; exact Eg|].
           right. exists j, c'. auto.
      * apply NoDup_cons. split; [|exact Hd].
        rewrite Hm. intros (j & c' & Hj & Lj & Nj & Eg).
        apply cell_blit_inj in Eg; [|lia|].
        -- subst j. contradiction.
        -- rewrite Forall_forall in Hr. apply Hr in Hj. lia.
Qed.

(** [Plain.on_draw] with a frame to draw: the window is cleared and every
    cell of the video RAM that is not 0 is blitted exactly once, cell i at
    x = 10 (i mod 64), y = 310 - 10 (i div 64), which lies inside the 640 by
    320 window with row 0 at the top; cells that are 0 are not blitted.  The
    video RAM stays and [should_draw] is reset, so that [draw_frame] sends
    nothing more until a CLS or DRW sets it again.  Without a frame to draw
    [on_draw] sends nothing at all. *)
Theorem on_draw_blits_lit_cells :
  (forall s : Plain.Chip8,
      Plain.should_draw s = true -> length (Plain.vram s) = 2048%nat ->
      exists blits s',
        Plain.on_draw s = Ok (Plain.Clear :: blits, s') /\
        Plain.vram s' = Plain.vram s /\
        (forall i : Z,
            0 <= i < 2048 ->
            (cell_blit i ∈ blits <->
             exists c, Plain.vram s !! Z.to_nat i = Some c /\ c <> 0)) /\
        (forall g, g ∈ blits ->
           exists x y, g = Plain.Blit x y /\ 0 <= x <= 630 /\ 0 <= y <= 310) /\
        NoDup blits /\
        Plain.draw_frame s' = Ok ([], s')) /\
  (forall s : Plain.Chip8,
      Plain.should_draw s = false ->
      Plain.on_draw s = Ok ([], s) /\ Plain.draw_frame s = Ok ([], s)).
Proof.
  split.
  - intros s Hd Hl.
    destruct (blit_loop_spec (Plain.vram s) (range 2048))
      as (blits & Eb & Hm & Hn).
    + apply Forall_seqZ. intros i Hi. lia.
    + apply NoDup_seqZ.
    + exists blits, (Plain.set_should_draw s false).
      split; [|split; [|split; [|split; [|split]]]].
      * unfold Plain.on_draw. rewrite Hd. cbn [negb]. rewrite Eb. reflexivity.
      * reflexivity.
      * intros i Hi. rewrite Hm. split.
        -- intros (j & c & Hj & Lj & Nj & Eg).
           apply elem_of_seqZ in Hj.
           apply cell_blit_inj in Eg; [|lia|lia]. subst j. exists c. auto.
        -- intros (c & Lc & Nc). exists i, c.
           split; [apply elem_of_seqZ; lia|auto].
      * intros g Hg. apply Hm in Hg as (j & c & Hj & _ & _ & ->).
        apply elem_of_seqZ in Hj. apply cell_blit_inside. lia.
      * exact Hn.
      * unfold Plain.draw_frame. plain_simpl. reflexivity.
  - intros s Hd. unfold Plain.draw_frame, Plain.on_draw. rewrite Hd.
    split; reflexivity.
Qed.

Lemma on_draw_blits_lit_cells_witness :
  exists blits s',
    Plain.on_draw (plain_after 1 rom_draw_twice) =
      Ok (Plain.Clear :: blits, s') /\
    Plain.Blit 0 310 ∈ blits /\ ~ Plain.Blit 40 310 ∈ blits /\
    Plain.draw_frame s' = Ok ([], s').
Proof.
  destruct on_draw_blits_lit_cells as (A & _).
  destruct (A (plain_after 1 rom_draw_twice))
    as (blits & s' & K & _ & M & _ & _ & F).
  - vm_compute; reflexivity.
  - vm_compute; reflexivity.
  - exists blits, s'. split; [exact K|]. split; [|split; [|exact F]].
    + apply (M 0); [lia|]. exists 1. split; [vm_compute; reflexivity|lia].
    + intros Hc. apply (M 4) in Hc; [|lia]. destruct Hc as (c & Lc & Nc).
      vm_compute in Lc. injection Lc as <-. apply Nc. reflexivity.
Defined.

(** ** The call stack of [Tetris] *)

Lemma tetris_write_V_stack (i v : Z) (s s' : Tetris.Chip8) :
  Tetris.write_V i v s = Ok s' ->
  Tetris.sp s' = Tetris.sp s /\ Tetris.stack s' = Tetris.stack s.
Proof.
  unfold Tetris.write_V. destruct (setitem _ _ _); [|discriminate].
  intros [= <-]. split; reflexivity.
Qed.

Lemma tetris_write_memory_stack (a v : Z) (s s' : Tetris.Chip8) :
  Tetris.write_memory a v s = Ok s' ->
  Tetris.sp s' = Tetris.sp s /\ Tetris.stack s' = Tetris.stack s.
Proof.
  unfold Tetris.write_memory. destruct (ba_setitem _ _ _); [|discriminate].
  intros [= <-]. split; reflexivity.
Qed.

Ltac tetris_binds_s H :=
  repeat
    (cbv beta zeta in H;
     lazymatch type of H with
     | bind (if ?c then _ else _) _ = Ok _ => destruct c
     | bind (bind ?m _) _ = Ok _ =>
         let E := fresh "E" in
         destruct m eqn:E; cbn [bind] in H; [|discriminate H]
     | bind ?m _ = Ok _ =>
         let E := fresh "E" in
         destruct m eqn:E; cbn [bind] in H; [|discriminate H];
         try apply tetris_write_V_stack in E;
         try apply tetris_write_memory_stack in E
     | (if ?c then _ else _) = Ok _ => destruct c
     | match ?x with Some _ => _ | None => _ end = Ok _ => destruct x
     | Tetris.write_V _ _ _ = Ok _ => apply tetris_write_V_stack in H
     | Tetris.write_memory _ _ _ = Ok _ =>
         apply tetris_write_memory_stack in H
     end).

Ltac tetris_stack_done H :=
  try (injection H as <-); unfold Tetris.skip_if;
  repeat match goal with |- context [if ?b then _ else _] => destruct b end;
  tetris_simpl;
  repeat match goal with E : _ /\ _ |- _ => destruct E end;
  split; congruence.

Lemma tetris_op_CALL_stack_ok (o : Z) (s s' : Tetris.Chip8) :
  Tetris.op_CALL o s = Ok s' -> tetris_stack_ok s -> tetris_stack_ok s'.
Proof.
  unfold Tetris.op_CALL, tetris_stack_ok. intros H [Hsp Hl].
  destruct (Z.ltb_spec (Tetris.sp s) 16).
  - destruct (setitem (Tetris.stack s) _ _) as [st|] eqn:E; [|discriminate H].
    apply setitem_length in E. cbn [bind] in H. injection H as <-.
    tetris_simpl. split; [lia|congruence].
  - cbn [bind] in H. injection H as <-. tetris_simpl. split; [lia|exact Hl].
Qed.

Lemma tetris_op_RET_stack_ok (o : Z) (s s' : Tetris.Chip8) :
  Tetris.op_RET o s = Ok s' -> tetris_stack_ok s -> tetris_stack_ok s'.
Proof.
  unfold Tetris.op_RET, tetris_stack_ok. intros H [Hsp Hl].
  destruct (Z.eqb_spec (Tetris.sp s) 0).
  - injection H as <-. tetris_simpl. split; [lia|exact Hl].
  - cbv zeta in H. tetris_simpl_in H.
    destruct (getitem (Tetris.stack s) _); [|discriminate H].
    cbn [bind] in H. injection H as <-. tetris_simpl. split; [lia|exact Hl].
Qed.

Lemma tetris_dispatch_stack_ok (rnd o : Z) (s s' : Tetris.Chip8) :
  Tetris.dispatch (Tetris.opcodes rnd) o s = Ok s' ->
  tetris_stack_ok s -> tetris_stack_ok s'.
Proof.
  intros H Hok. unfold Tetris.opcodes in H. cbn [Tetris.dispatch] in H.
  assert (Frame : Tetris.sp s' = Tetris.sp s /\
                  Tetris.stack s' = Tetris.stack s -> tetris_stack_ok s').
  { intros [E1 E2]. unfold tetris_stack_ok. rewrite E1, E2. exact Hok. }
  repeat
    lazymatch type of H with
    | (if ?c then _ else _) = _ =>
        let T := fresh "T" in
        destruct c eqn:T;
        [ clear T;
          first
            [ exact (tetris_op_CALL_stack_ok _ _ _ H Hok)
            | exact (tetris_op_RET_stack_ok _ _ _ H Hok)
            | apply Frame;
              unfold Tetris.op_CLS, Tetris.op_JP,
                Tetris.op_SE_Vx_kk, Tetris.op_SNE_Vx_kk, Tetris.op_SE_Vx_Vy,
                Tetris.op_LD_Vx_kk, Tetris.op_ADD_Vx_kk, Tetris.op_LD_Vx_Vy,
                Tetris.op_OR, Tetris.op_AND, Tetris.op_XOR, Tetris.op_ADD,
                Tetris.op_SUB, Tetris.op_SHR, Tetris.op_SUBN, Tetris.op_SHL,
                Tetris.op_SNE_Vx_Vy, Tetris.op_LD_I, Tetris.op_DRW,
                Tetris.op_SKP, Tetris.op_SKNP, Tetris.op_LD_Vx_DT,
                Tetris.op_WAITKEY, Tetris.op_LD_DT_Vx, Tetris.op_LD_ST_Vx,
                Tetris.op_ADD_I_Vx, Tetris.op_FONT, Tetris.op_BCD,
                Tetris.op_STORE, Tetris.op_LOAD, Tetris.op_RND in H;
              tetris_binds_s H; tetris_stack_done H ]
        | clear T ]
    end.
  apply Frame. tetris_stack_done H.
Qed.

Lemma tetris_reachable_stack_ok (s : Tetris.Chip8) :
  tetris_reachable s -> tetris_stack_ok s.
Proof.
  induction 1 as [rom s Hi|rnd s s' R IH Ht|s R IH|k s s' R IH Hk|k s s' R IH Hk].
  - unfold Tetris.init in Hi. cbv zeta in Hi.
    destruct (ba_setslice _ _ _ FONTSET); [|discriminate Hi]. cbn [bind] in Hi.
    destruct (ba_setslice _ _ _ rom); [|discriminate Hi]. cbn [bind] in Hi.
    injection Hi as <-. unfold tetris_stack_ok, Tetris.blank. tetris_simpl.
    split; [lia|reflexivity].
  - unfold Tetris.tick in Ht. cbv zeta in Ht.
    destruct (Tetris.fetch _); [|discriminate Ht]. cbn [bind] in Ht.
    apply tetris_dispatch_stack_ok in Ht; [exact Ht|]. exact IH.
  - unfold tetris_stack_ok, Tetris._timer_tick in *. cbv zeta.
    destruct (0 <? Tetris.delay s); tetris_simpl;
      destruct (0 <? Tetris.sound s); tetris_simpl;
      try destruct (negb _); tetris_simpl; exact IH.
  - unfold Tetris.on_key_press in Hk.
    destruct (setitem _ _ _); [|discriminate]. injection Hk as <-. exact IH.
  - unfold Tetris.on_key_release in Hk.
    destruct (setitem _ _ _); [|discriminate]. injection Hk as <-. exact IH.
Qed.

(** The call stack of [Tetris] in every state that the constructor, the
    ticks, the timer ticks and the key handlers can produce, for any ROM:
    [sp] stays within 0 .. 16 and the stack array keeps its 16 entries.  So
    a CALL and a RET never raise: below 16 entries a CALL stores the address
    that follows it at [stack[sp]] and adds one to [sp]; with entries on the
    stack a RET takes one off [sp] and continues at [stack[sp]]. *)
Theorem tetris_call_stack_is_safe :
  (forall s : Tetris.Chip8,
      tetris_reachable s ->
      0 <= Tetris.sp s <= 16 /\ length (Tetris.stack s) = 16%nat) /\
  (forall (rnd o : Z) (s : Tetris.Chip8),
      tetris_reachable s -> Tetris.fetch s = Ok o ->
      Z.land o 0xF000 = 0x2000 ->
      exists s',
        Tetris.tick rnd s = Ok s' /\ Tetris.pc s' = Z.land o 0x0FFF /\
        (Tetris.sp s < 16 ->
         Tetris.sp s' = Tetris.sp s + 1 /\
         Tetris.stack s' =
           <[Z.to_nat (Tetris.sp s) := uint16 (Tetris.pc s + 2)]>
             (Tetris.stack s))) /\
  (forall (rnd : Z) (s : Tetris.Chip8),
      tetris_reachable s -> Tetris.fetch s = Ok 0x00EE ->
      exists s',
        Tetris.tick rnd s = Ok s' /\ Tetris.stack s' = Tetris.stack s /\
        (0 < Tetris.sp s ->
         Tetris.sp s' = Tetris.sp s - 1 /\
         Tetris.stack s !! Z.to_nat (Tetris.sp s - 1) = Some (Tetris.pc s'))).
Proof.
  split; [|split].
  - intros s R. exact (tetris_reachable_stack_ok s R).
  - intros rnd o s R Hf Ho.
    destruct (tetris_reachable_stack_ok s R) as [Hsp Hl].
    destruct (Z.lt_ge_cases (Tetris.sp s) 16) as [L|L].
    + eexists. split; [|split].
      * rewrite (tetris_tick_dispatch rnd o s Hf).
        rewrite tetris_dispatch_CALL by exact Ho.
        unfold Tetris.op_CALL. tetris_simpl.
        destruct (Z.ltb_spec (Tetris.sp s) 16); [|lia].
        rewrite setitem_in_range by lia. cbn [bind]. reflexivity.
      * tetris_simpl. apply uint16_small. pose proof (land_0xFFF_range o). lia.
      * intros _. tetris_simpl. split; reflexivity.
    + destruct (tetris_call_full rnd o s Hf Ho L) as (s' & T & _ & _ & P).
      exists s'. split; [exact T|]. split; [exact P|]. intros Hc. lia.
  - intros rnd s R Hf.
    destruct (tetris_reachable_stack_ok s R) as [Hsp Hl].
    destruct (Z.eq_dec (Tetris.sp s) 0) as [E|E].
    + destruct (tetris_ret_empty rnd s Hf E) as (s' & T & S & _).
      exists s'. split; [exact T|]. split; [exact S|]. intros Hc. lia.
    + destruct (lookup_lt_is_Some_2 (Tetris.stack s)
                  (Z.to_nat (Tetris.sp s - 1))) as [a La]; [lia|].
      exists (Tetris.set_pc
                (Tetris.set_sp
                   (Tetris.set_pc
                      (Tetris.set_cps_counter s (Tetris._cps_counter s + 1))
                      (uint16 (Tetris.pc s + 2)))
                   (Tetris.sp s - 1)) a).
      split; [|split].
      * rewrite (tetris_tick_dispatch rnd _ s Hf).
        rewrite tetris_dispatch_RET. unfold Tetris.op_RET. tetris_simpl.
        destruct (Z.eqb_spec (Tetris.sp s) 0); [contradiction|].
        cbv zeta. tetris_simpl.
        rewrite (getitem_lookup _ _ a) by (lia || exact La). reflexivity.
      * reflexivity.
      * intros _. tetris_simpl. split; [reflexivity|exact La].
Qed.

Lemma tetris_call_stack_is_safe_witness :
  tetris_reachable (tetris_after [0; 0; 0] rom_call_ret) /\
  (exists s',
      Tetris.tick 0 (tetris_after [] rom_call_ret) = Ok s' /\
      Tetris.sp s' = 1) /\
  (exists s',
      Tetris.tick 0 (tetris_after [0; 0; 0] rom_call_ret) = Ok s' /\
      Tetris.pc s' = 0x202).
Proof.
  destruct tetris_call_stack_is_safe as (_ & C & R).
  assert (R0 : tetris_reachable (tetris_after [] rom_call_ret))
    by (eapply (reach_init rom_call_ret); vm_compute; reflexivity).
  assert (R1 : tetris_reachable (tetris_after [0] rom_call_ret))
    by (eapply (reach_tick 0 _ _ R0); vm_compute; reflexivity).
  assert (R2 : tetris_reachable (tetris_after [0; 0] rom_call_ret))
    by (eapply (reach_tick 0 _ _ R1); vm_compute; reflexivity).
  assert (R3 : tetris_reachable (tetris_after [0; 0; 0] rom_call_ret))
    by (eapply (reach_tick 0 _ _ R2); vm_compute; reflexivity).
  split; [exact R3|]. split.
  - destruct (C 0 0x2206 (tetris_after [] rom_call_ret) R0)
      as (s' & T & _ & S).
    + vm_compute; reflexivity.
    + reflexivity.
    + exists s'. split; [exact T|].
      destruct S as [S _]; [vm_compute; reflexivity|]. rewrite S.
      vm_compute; reflexivity.
  - destruct (R 0 (tetris_after [0; 0; 0] rom_call_ret) R3)
      as (s' & T & _ & S).
    + vm_compute; reflexivity.
    + exists s'. split; [exact T|].
      destruct S as [_ S]; [vm_compute; reflexivity|].
      vm_compute in S. injection S as S. symmetry. exact S.
Defined.
(** ** Fx0A with several keys down *)

Lemma lowest_pressed_lookup (k : Z) (ks : list Z) :
  lowest_pressed k ks = true ->
  (exists v, ks !! Z.to_nat k = Some v /\ truthy v = true) /\
  (forall (j : nat) (v : Z),
      (j < Z.to_nat k)%nat -> ks !! j = Some v -> truthy v = false).
Proof.
  unfold lowest_pressed. intros H. apply andb_prop in H as [Hn Hk]. split.
  - destruct (ks !! Z.to_nat k) as [v|]; [|discriminate Hk]. eauto.
  - intros j v Hj L.
    rewrite (none_pressed_lookup (take (Z.to_nat k) ks) j v Hn).
    + reflexivity.
    + rewrite lookup_take_lt by exact Hj. exact L.
Qed.

Lemma first_pressed_lowest (k : Z) (ks : list Z) (n : Z) :
  lowest_pressed k ks = true -> 0 <= k < n ->
  first_pressed ks (range n) = Ok (Some k).
Proof.
  intros H Hk. apply lowest_pressed_lookup in H as ((v & Lk & Tk) & Hlow).
  pose proof (lookup_lt_Some _ _ _ Lk) as Hlen.
  unfold range. replace n with (k + (n - k)) by lia.
  rewrite seqZ_app by lia. rewrite first_pressed_skip.
  - rewrite seqZ_cons by lia. cbn [first_pressed]. rewrite Z.add_0_l.
    rewrite (getitem_lookup _ _ v) by (lia || exact Lk). cbn [bind].
    rewrite Tk. reflexivity.
  - intros i Hi. apply elem_of_seqZ in Hi.
    destruct (getitem_in_range ks i) as (w & G & L); [lia|].
    exists w. split; [exact G|]. apply (Hlow (Z.to_nat i)); [lia|exact L].
Qed.

Lemma find_pressed_lowest (n : nat) :
  forall (ks : list Z) (i v : Z),
    ks !! n = Some v -> truthy v = true ->
    (forall (j : nat) (w : Z),
        (j < n)%nat -> ks !! j = Some w -> truthy w = false) ->
    Working.find_pressed i ks = Some (i + Z.of_nat n).
Proof.
  induction n as [|n IH]; intros ks i v L T Hlow.
  - destruct ks as [|a r]; [discriminate L|]. injection L as ->.
    cbn [Working.find_pressed]. rewrite T. f_equal. lia.
  - destruct ks as [|a r]; [discriminate L|].
    cbn [Working.find_pressed].
    rewrite (Hlow 0%nat a) by (lia || reflexivity).
    rewrite (IH r (i + 1) v L T).
    + f_equal. lia.
    + intros j w Hj Lj. apply (Hlow (S j) w); [lia|exact Lj].
Qed.

Lemma find_pressed_none (ks : list Z) :
  none_pressed ks = true -> forall i, Working.find_pressed i ks = None.
Proof.
  induction ks as [|a r IH]; intros H i; [reflexivity|].
  cbn [Working.find_pressed].
  unfold none_pressed in H. cbn [forallb] in H.
  apply andb_prop in H as [Ha Hr].
  unfold truthy. rewrite Ha. cbn [negb]. apply IH. exact Hr.
Qed.

(** Fx0A with any number of keys down: Vx becomes the number of the lowest
    key that is down, and PC moves past the instruction.  [Plain] returns
    from the tick at that point, so this tick leaves both timers as they
    are.  [Working], which C3 does not cover, behaves alike on a key, and
    with no key down sets PC back so that the cycle ends where it began,
    with the registers untouched. *)
Theorem wait_key_takes_lowest (o k : Z) :
  Z.land o 0xF0FF = 0xF00A -> 0 <= k < 16 ->
  let x := Z.to_nat (Z.land (Z.shiftr o 8) 0xF) in
  (forall s : Plain.Chip8,
      length (Plain.V s) = 16%nat ->
      Plain.fetch s = Ok o -> lowest_pressed k (Plain.keys s) = true ->
      exists s',
        Plain.tick s = Ok s' /\
        Plain.V s' = <[x := k]> (Plain.V s) /\
        Plain.pc s' = Plain.pc s + 2 /\
        Plain.delay s' = Plain.delay s /\ Plain.sound s' = Plain.sound s) /\
  (forall (rnd : Z) (s : Tetris.Chip8),
      length (Tetris.V s) = 16%nat ->
      Tetris.fetch s = Ok o -> lowest_pressed k (Tetris.keys s) = true ->
      exists s',
        Tetris.tick rnd s = Ok s' /\
        Tetris.V s' = <[x := k]> (Tetris.V s) /\
        Tetris.pc s' = uint16 (Tetris.pc s + 2)) /\
  (forall (rnd : Z) (s : Working.Chip8),
      length (Working.gpio s) = 16%nat ->
      Working.fetch s = Ok o ->
      (lowest_pressed k (Working.key_inputs s) = true ->
       exists s',
         Working.cycle rnd s = Working.Val tt s' /\
         Working.gpio s' = <[x := k]> (Working.gpio s) /\
         Working.pc s' = (Working.pc s + 2) mod 4096) /\
      (none_pressed (Working.key_inputs s) = true ->
       exists s',
         Working.cycle rnd s = Working.Val tt s' /\
         Working.gpio s' = Working.gpio s /\
         Working.pc s' = Working.pc s mod 4096)).
Proof.
  intros H Hk x. pose proof (nibble_range (Z.shiftr o 8)) as Rx.
  split; [|split].
  - intros s HV Hf Hl. unfold Plain.tick. rewrite Hf. cbn [bind].
    rewrite plain_execute_WAITKEY by exact H. cbv zeta. plain_simpl.
    rewrite (first_pressed_lowest k) by (assumption || lia). cbn [bind].
    unfold Plain.write_V. plain_simpl.
    rewrite setitem_reg by (assumption || lia). cbn [bind].
    eexists. split; [reflexivity|]. plain_simpl. repeat split.
  - intros rnd s HV Hf Hl. unfold Tetris.tick. cbv zeta.
    rewrite (tetris_fetch_ext s) by reflexivity. rewrite Hf. cbn [bind].
    rewrite tetris_dispatch_WAITKEY by exact H.
    unfold Tetris.op_WAITKEY, Tetris.reg_x. cbv zeta. tetris_simpl.
    rewrite (first_pressed_lowest k) by (assumption || lia). cbn [bind].
    unfold Tetris.write_V. tetris_simpl.
    rewrite setitem_reg by (assumption || lia). cbn [bind].
    eexists. split; [reflexivity|]. tetris_simpl. repeat split.
  - intros rnd s HV Hf.
    destruct (working_decode_fields o
                (Working.set_cycle_count s (Working.cycle_count s + 1)))
      as (_ & _ & _ & Eg & _ & _ & Ep & _ & Ek & _).
    split.
    + intros Hl.
      apply lowest_pressed_lookup in Hl as ((v & Lk & Tk) & Hlow).
      destruct (working_cycle_done rnd o s
                  (Working.set_gpio
                     (Working.decode o
                        (Working.set_cycle_count s
                           (Working.cycle_count s + 1)))
                     (<[x := k]> (Working.gpio s))) Hf)
        as (s' & T & _ & Fg & _ & Fp & _).
      * working_Fxxx H 0x0A. rewrite Ek. working_simpl.
        rewrite (find_pressed_lowest (Z.to_nat k) _ 0 v Lk Tk Hlow).
        replace (0 + Z.of_nat (Z.to_nat k)) with k by lia.
        unfold Working.write_gpio. rewrite Eg. working_simpl.
        rewrite setitem_reg by (assumption || lia).
        cbn [Working.eval Working.and_then Working.Done]. reflexivity.
      * exists s'. rewrite Fg, Fp. working_simpl. split; [exact T|].
        split; [reflexivity|]. rewrite Ep. working_simpl.
        apply land_0xFFF.
    + intros Hn.
      destruct (working_cycle_done rnd o s
                  (Working.set_pc
                     (Working.decode o
                        (Working.set_cycle_count s
                           (Working.cycle_count s + 1)))
                     (Z.land (Working.pc s - 2) 0xFFF)) Hf)
        as (s' & T & _ & Fg & _ & Fp & _).
      * working_Fxxx H 0x0A. rewrite Ek, Ep. working_simpl.
        rewrite find_pressed_none by exact Hn. reflexivity.
      * exists s'. rewrite Fg, Fp. working_simpl. split; [exact T|].
        split; [exact Eg|]. rewrite !land_0xFFF.
        rewrite Zplus_mod_idemp_l. f_equal. lia.
Qed.

Lemma wait_key_takes_lowest_witness :
  (exists s',
      Plain.tick
        (Plain.set_keys (plain_boot (rom_one 0xF3 0x0A))
           (press_all [9; 4] (Plain.keys (plain_boot (rom_one 0xF3 0x0A)))))
        = Ok s' /\
      Plain.V s' !! 3%nat = Some 4) /\
  (exists s',
      Tetris.tick 0
        (Tetris.set_keys (tetris_boot (rom_one 0xF3 0x0A))
           (press_all [9; 4] (Tetris.keys (tetris_boot (rom_one 0xF3 0x0A)))))
        = Ok s' /\
      Tetris.V s' !! 3%nat = Some 4) /\
  (exists s',
      Working.cycle 0
        (Working.set_key_inputs (working_boot (rom_one 0xF3 0x0A))
           (press_all [9; 4]
              (Working.key_inputs (working_boot (rom_one 0xF3 0x0A)))))
        = Working.Val tt s' /\
      Working.gpio s' !! 3%nat = Some 4) /\
  (exists s',
      Working.cycle 0 (working_boot (rom_one 0xF3 0x0A)) = Working.Val tt s' /\
      Working.pc s' = 0x200).
Proof.
  assert (H : Z.land 0xF30A 0xF0FF = 0xF00A) by reflexivity.
  assert (Hk : 0 <= 4 < 16) by lia.
  destruct (wait_key_takes_lowest 0xF30A 4 H Hk) as (P & T & W).
  split; [|split; [|split]].
  - destruct (P (Plain.set_keys (plain_boot (rom_one 0xF3 0x0A))
                   (press_all [9; 4]
                      (Plain.keys (plain_boot (rom_one 0xF3 0x0A))))))
      as (s' & K & E & _).
    + vm_compute; reflexivity.
    + vm_compute; reflexivity.
    + vm_compute; reflexivity.
    + exists s'. split; [exact K|]. rewrite E. vm_compute; reflexivity.
  - destruct (T 0 (Tetris.set_keys (tetris_boot (rom_one 0xF3 0x0A))
                     (press_all [9; 4]
                        (Tetris.keys (tetris_boot (rom_one 0xF3 0x0A))))))
      as (s' & K & E & _).
    + vm_compute; reflexivity.
    + vm_compute; reflexivity.
    + vm_compute; reflexivity.
    + exists s'. split; [exact K|]. rewrite E. vm_compute; reflexivity.
  - destruct (W 0 (Working.set_key_inputs (working_boot (rom_one 0xF3 0x0A))
                     (press_all [9; 4]
                        (Working.key_inputs
                           (working_boot (rom_one 0xF3 0x0A))))))
      as ((s' & K & E & _) & _).
    + vm_compute; reflexivity.
    + vm_compute; reflexivity.
    + vm_compute; reflexivity.
    + exists s'. split; [exact K|]. rewrite E. vm_compute; reflexivity.
  - destruct (W 0 (working_boot (rom_one 0xF3 0x0A))) as (_ & (s' & K & _ & E)).
    + vm_compute; reflexivity.
    + vm_compute; reflexivity.
    + vm_compute; reflexivity.
    + exists s'. split; [exact K|]. rewrite E. vm_compute; reflexivity.
Defined.
(** ** 3xkk, 4xkk, 5xy0, 9xy0: skips on a comparison *)

Lemma plain_execute_SE_kk (o : Z) (s : Plain.Chip8) :
  Z.land o 0xF000 = 0x3000 ->
  Plain.execute o s =
    let* vx := getitem (Plain.V s) (Z.land (Z.shiftr o 8) 0xF) in
    Ok (Plain.Fall (Plain.skip_if (vx =? Z.land o 0xFF) s)).
Proof. intros H. unfold Plain.execute. cbv zeta. chain H. reflexivity. Qed.

Lemma plain_execute_SNE_kk (o : Z) (s : Plain.Chip8) :
  Z.land o 0xF000 = 0x4000 ->
  Plain.execute o s =
    let* vx := getitem (Plain.V s) (Z.land (Z.shiftr o 8) 0xF) in
    Ok (Plain.Fall (Plain.skip_if (negb (vx =? Z.land o 0xFF)) s)).
Proof. intros H. unfold Plain.execute. cbv zeta. chain H. reflexivity. Qed.

Lemma plain_execute_SE_Vy (o : Z) (s : Plain.Chip8) :
  Z.land o 0xF00F = 0x5000 ->
  Plain.execute o s =
    let* vx := getitem (Plain.V s) (Z.land (Z.shiftr o 8) 0xF) in
    let* vy := getitem (Plain.V s) (Z.land (Z.shiftr o 4) 0xF) in
    Ok (Plain.Fall (Plain.skip_if (vx =? vy) s)).
Proof. intros H. unfold Plain.execute. cbv zeta. chain H. reflexivity. Qed.

Lemma plain_execute_SNE_Vy (o : Z) (s : Plain.Chip8) :
  Z.land o 0xF00F = 0x9000 ->
  Plain.execute o s =
    let* vx := getitem (Plain.V s) (Z.land (Z.shiftr o 8) 0xF) in
    let* vy := getitem (Plain.V s) (Z.land (Z.shiftr o 4) 0xF) in
    Ok (Plain.Fall (Plain.skip_if (negb (vx =? vy)) s)).
Proof. intros H. unfold Plain.execute. cbv zeta. chain H. reflexivity. Qed.

Lemma tetris_dispatch_SE_kk (rnd o : Z) (s : Tetris.Chip8) :
  Z.land o 0xF000 = 0x3000 ->
  Tetris.dispatch (Tetris.opcodes rnd) o s = Tetris.op_SE_Vx_kk o s.
Proof.
  intros H. unfold Tetris.opcodes. cbn [Tetris.dispatch]. chain H. reflexivity.
Qed.

Lemma tetris_dispatch_SNE_kk (rnd o : Z) (s : Tetris.Chip8) :
  Z.land o 0xF000 = 0x4000 ->
  Tetris.dispatch (Tetris.opcodes rnd) o s = Tetris.op_SNE_Vx_kk o s.
Proof.
  intros H. unfold Tetris.opcodes. cbn [Tetris.dispatch]. chain H. reflexivity.
Qed.

Lemma tetris_dispatch_SE_Vy (rnd o : Z) (s : Tetris.Chip8) :
  Z.land o 0xF00F = 0x5000 ->
  Tetris.dispatch (Tetris.opcodes rnd) o s = Tetris.op_SE_Vx_Vy o s.
Proof.
  intros H. unfold Tetris.opcodes. cbn [Tetris.dispatch]. chain H. reflexivity.
Qed.

Lemma tetris_dispatch_SNE_Vy (rnd o : Z) (s : Tetris.Chip8) :
  Z.land o 0xF00F = 0x9000 ->
  Tetris.dispatch (Tetris.opcodes rnd) o s = Tetris.op_SNE_Vx_Vy o s.
Proof.
  intros H. unfold Tetris.opcodes. cbn [Tetris.dispatch]. chain H. reflexivity.
Qed.

Lemma working_dispatch_3xkk (rnd o : Z) (s : Working.Chip8) :
  Z.land o 0xF000 = 0x3000 ->
  Working.dispatch rnd (Working.decode o s) =
    Working._3xkk (Working.decode o s).
Proof.
  intros H. apply (working_dispatch_prefix rnd o s 0x3000); [exact H|lia|].
  reflexivity.
Qed.

Lemma working_dispatch_4xkk (rnd o : Z) (s : Working.Chip8) :
  Z.land o 0xF000 = 0x4000 ->
  Working.dispatch rnd (Working.decode o s) =
    Working._4xkk (Working.decode o s).
Proof.
  intros H. apply (working_dispatch_prefix rnd o s 0x4000); [exact H|lia|].
  reflexivity.
Qed.

Lemma working_dispatch_5xy0 (rnd o : Z) (s : Working.Chip8) :
  Z.land o 0xF000 = 0x5000 ->
  Working.dispatch rnd (Working.decode o s) =
    Working._5xy0 (Working.decode o s).
Proof.
  intros H. apply (working_dispatch_prefix rnd o s 0x5000); [exact H|lia|].
  reflexivity.
Qed.

Lemma working_dispatch_9xy0 (rnd o : Z) (s : Working.Chip8) :
  Z.land o 0xF000 = 0x9000 ->
  Working.dispatch rnd (Working.decode o s) =
    Working._9xy0 (Working.decode o s).
Proof.
  intros H. apply (working_dispatch_prefix rnd o s 0x9000); [exact H|lia|].
  reflexivity.
Qed.

(** The test of each comparison instruction, from its mask. *)
Lemma skip_test_cases (o vx vy : Z) :
  (Z.land o 0xF000 = 0x3000 -> skip_test o vx vy = (vx =? Z.land o 0xFF)) /\
  (Z.land o 0xF000 = 0x4000 ->
   skip_test o vx vy = negb (vx =? Z.land o 0xFF)) /\
  (Z.land o 0xF00F = 0x5000 -> skip_test o vx vy = (vx =? vy)) /\
  (Z.land o 0xF00F = 0x9000 -> skip_test o vx vy = negb (vx =? vy)).
Proof.
  unfold skip_test. cbv zeta. repeat split; intros H.
  - rewrite H. reflexivity.
  - rewrite H. reflexivity.
  - rewrite (mask_narrow o _ _ 0xF000 H) by reflexivity. reflexivity.
  - rewrite (mask_narrow o _ _ 0xF000 H) by reflexivity. reflexivity.
Qed.

(** A tick of [Plain] that ends in a skip decided by [b]. *)
Lemma plain_tick_skip (o : Z) (b : bool) (s : Plain.Chip8) :
  Plain.fetch s = Ok o ->
  Plain.execute o (Plain.set_pc s (Plain.pc s + 2)) =
    Ok (Plain.Fall
          (Plain.skip_if b (Plain.set_pc s (Plain.pc s + 2)))) ->
  exists s',
    Plain.tick s = Ok s' /\
    Plain.pc s' = Plain.pc s + (if b then 4 else 2) /\
    Plain.V s' = Plain.V s.
Proof.
  intros Hf He.
  destruct (plain_tick_fall o s _ Hf He) as (s' & T & _ & _ & FV & _ & Fp & _).
  exists s'. split; [exact T|]. rewrite Fp, FV. unfold Plain.skip_if.
  destruct b; plain_simpl; split; (lia || reflexivity).
Qed.

Lemma tetris_tick_skip (rnd o : Z) (b : bool) (s : Tetris.Chip8) :
  Tetris.fetch s = Ok o ->
  (let t := Tetris.set_pc
              (Tetris.set_cps_counter s (Tetris._cps_counter s + 1))
              (uint16 (Tetris.pc s + 2)) in
   Tetris.dispatch (Tetris.opcodes rnd) o t = Ok (Tetris.skip_if b t)) ->
  exists s',
    Tetris.tick rnd s = Ok s' /\
    Tetris.pc s' = (Tetris.pc s + (if b then 4 else 2)) mod 65536 /\
    Tetris.V s' = Tetris.V s.
Proof.
  cbv zeta. intros Hf He. eexists. split.
  - rewrite (tetris_tick_dispatch rnd o s Hf). exact He.
  - unfold Tetris.skip_if, uint16. destruct b; tetris_simpl.
    + split; [|reflexivity].
      rewrite Z.add_mod_idemp_l by lia. f_equal. lia.
    + split; reflexivity.
Qed.

Lemma working_cycle_skip (rnd o : Z) (b : bool) (s : Working.Chip8) :
  Working.fetch s = Ok o ->
  (let t := Working.decode o
              (Working.set_cycle_count s (Working.cycle_count s + 1)) in
   Working.dispatch rnd t = Working.Done (Working.skip_if b t)) ->
  exists s',
    Working.cycle rnd s = Working.Val tt s' /\
    Working.pc s' = (Working.pc s + (if b then 4 else 2)) mod 4096 /\
    Working.gpio s' = Working.gpio s.
Proof.
  cbv zeta. intros Hf He.
  destruct (working_cycle_done rnd o s _ Hf He)
    as (s' & T & _ & Fg & _ & Fp & _).
  exists s'. split; [exact T|]. rewrite Fp, Fg. unfold Working.skip_if.
  destruct (working_decode_fields o
              (Working.set_cycle_count s (Working.cycle_count s + 1)))
    as (_ & _ & _ & Eg & _ & _ & Ep & _).
  destruct b; working_simpl; rewrite Ep, Eg; working_simpl;
    rewrite !land_0xFFF; (split; [|reflexivity]).
  - rewrite Z.add_mod_idemp_l by lia. f_equal. lia.
  - reflexivity.
Qed.

(** 3xkk and 4xkk in the three drafts: the next instruction is skipped
    exactly when Vx = kk (3xkk), or when Vx differs from kk (4xkk).  PC moves
    by 4 or by 2, modulo 65536 in [Tetris] and modulo 4096 in [Working], and
    no register changes. *)
Theorem skips_on_immediate (o vx : Z) :
  Z.land o 0xF000 = 0x3000 \/ Z.land o 0xF000 = 0x4000 ->
  let x := Z.to_nat (Z.land (Z.shiftr o 8) 0xF) in
  let skip := skip_test o vx 0 in
  (forall s : Plain.Chip8,
      Plain.fetch s = Ok o -> Plain.V s !! x = Some vx ->
      exists s',
        Plain.tick s = Ok s' /\
        Plain.pc s' = Plain.pc s + (if skip then 4 else 2) /\
        Plain.V s' = Plain.V s) /\
  (forall (rnd : Z) (s : Tetris.Chip8),
      Tetris.fetch s = Ok o -> Tetris.V s !! x = Some vx ->
      exists s',
        Tetris.tick rnd s = Ok s' /\
        Tetris.pc s' = (Tetris.pc s + (if skip then 4 else 2)) mod 65536 /\
        Tetris.V s' = Tetris.V s) /\
  (forall (rnd : Z) (s : Working.Chip8),
      Working.fetch s = Ok o -> Working.gpio s !! x = Some vx ->
      exists s',
        Working.cycle rnd s = Working.Val tt s' /\
        Working.pc s' = (Working.pc s + (if skip then 4 else 2)) mod 4096 /\
        Working.gpio s' = Working.gpio s).
Proof.
  intros Ho x skip. pose proof (nibble_range (Z.shiftr o 8)) as Rx.
  destruct (skip_test_cases o vx 0) as (T3 & T4 & _ & _).
  split; [|split].
  - intros s Hf Lx. apply (plain_tick_skip o skip s Hf). subst skip.
    destruct Ho as [H|H].
    + rewrite plain_execute_SE_kk by exact H. cbv zeta. plain_simpl.
      rewrite (getitem_lookup _ _ vx) by (lia || exact Lx). cbn [bind].
      rewrite (T3 H). reflexivity.
    + rewrite plain_execute_SNE_kk by exact H. cbv zeta. plain_simpl.
      rewrite (getitem_lookup _ _ vx) by (lia || exact Lx). cbn [bind].
      rewrite (T4 H). reflexivity.
  - intros rnd s Hf Lx. apply (tetris_tick_skip rnd o skip s Hf). cbv zeta.
    subst skip. destruct Ho as [H|H].
    + rewrite tetris_dispatch_SE_kk by exact H.
      unfold Tetris.op_SE_Vx_kk, Tetris.reg_x. cbv zeta. tetris_simpl.
      rewrite (getitem_lookup _ _ vx) by (lia || exact Lx). cbn [bind].
      rewrite (T3 H). reflexivity.
    + rewrite tetris_dispatch_SNE_kk by exact H.
      unfold Tetris.op_SNE_Vx_kk, Tetris.reg_x. cbv zeta. tetris_simpl.
      rewrite (getitem_lookup _ _ vx) by (lia || exact Lx). cbn [bind].
      rewrite (T4 H). reflexivity.
  - intros rnd s Hf Lx. apply (working_cycle_skip rnd o skip s Hf). cbv zeta.
    subst skip.
    destruct (working_decode_fields o
                (Working.set_cycle_count s (Working.cycle_count s + 1)))
      as (Eo & Ex & _ & Eg & _).
    destruct Ho as [H|H].
    + rewrite working_dispatch_3xkk by exact H.
      unfold Working._3xkk. cbv zeta. rewrite Eo, Ex, Eg. working_simpl.
      rewrite (getitem_lookup _ _ vx) by (lia || exact Lx).
      cbn [Working.eval]. rewrite (T3 H). reflexivity.
    + rewrite working_dispatch_4xkk by exact H.
      unfold Working._4xkk. cbv zeta. rewrite Eo, Ex, Eg. working_simpl.
      rewrite (getitem_lookup _ _ vx) by (lia || exact Lx).
      cbn [Working.eval]. rewrite (T4 H). reflexivity.
Qed.

Lemma skips_on_immediate_witness :
  (exists s',
      Plain.tick (plain_after 1 (rom_v0_then 5 0x30 0x05)) = Ok s' /\
      Plain.pc s' = 0x206) /\
  (exists s',
      Tetris.tick 0 (tetris_after [0] (rom_v0_then 5 0x30 0x05)) = Ok s' /\
      Tetris.pc s' = 0x206) /\
  (exists s',
      Working.cycle 0 (working_after 1 (rom_v0_then 5 0x30 0x05)) =
        Working.Val tt s' /\
      Working.pc s' = 0x206).
Proof.
  assert (H : Z.land 0x3005 0xF000 = 0x3000 \/ Z.land 0x3005 0xF000 = 0x4000)
    by (left; reflexivity).
  destruct (skips_on_immediate 0x3005 5 H) as (P & T & W).
  split; [|split].
  - destruct (P (plain_after 1 (rom_v0_then 5 0x30 0x05))) as (s' & K & E & _).
    + vm_compute; reflexivity.
    + vm_compute; reflexivity.
    + exists s'. split; [exact K|]. rewrite E. vm_compute; reflexivity.
  - destruct (T 0 (tetris_after [0] (rom_v0_then 5 0x30 0x05)))
      as (s' & K & E & _).
    + vm_compute; reflexivity.
    + vm_compute; reflexivity.
    + exists s'. split; [exact K|]. rewrite E. vm_compute; reflexivity.
  - destruct (W 0 (working_after 1 (rom_v0_then 5 0x30 0x05)))
      as (s' & K & E & _).
    + vm_compute; reflexivity.
    + vm_compute; reflexivity.
    + exists s'. split; [exact K|]. rewrite E. vm_compute; reflexivity.
Defined.

(** 5xy0 and 9xy0 in the three drafts: the next instruction is skipped
    exactly when Vx = Vy (5xy0), or when Vx differs from Vy (9xy0).  PC
    moves by 4 or by 2, modulo 65536 in [Tetris] and modulo 4096 in
    [Working], and no register changes. *)
Theorem skips_on_registers (o vx vy : Z) :
  Z.land o 0xF00F = 0x5000 \/ Z.land o 0xF00F = 0x9000 ->
  let x := Z.to_nat (Z.land (Z.shiftr o 8) 0xF) in
  let y := Z.to_nat (Z.land (Z.shiftr o 4) 0xF) in
  let skip := skip_test o vx vy in
  (forall s : Plain.Chip8,
      Plain.fetch s = Ok o ->
      Plain.V s !! x = Some vx -> Plain.V s !! y = Some vy ->
      exists s',
        Plain.tick s = Ok s' /\
        Plain.pc s' = Plain.pc s + (if skip then 4 else 2) /\
        Plain.V s' = Plain.V s) /\
  (forall (rnd : Z) (s : Tetris.Chip8),
      Tetris.fetch s = Ok o ->
      Tetris.V s !! x = Some vx -> Tetris.V s !! y = Some vy ->
      exists s',
        Tetris.tick rnd s = Ok s' /\
        Tetris.pc s' = (Tetris.pc s + (if skip then 4 else 2)) mod 65536 /\
        Tetris.V s' = Tetris.V s) /\
  (forall (rnd : Z) (s : Working.Chip8),
      Working.fetch s = Ok o ->
      Working.gpio s !! x = Some vx -> Working.gpio s !! y = Some vy ->
      exists s',
        Working.cycle rnd s = Working.Val tt s' /\
        Working.pc s' = (Working.pc s + (if skip then 4 else 2)) mod 4096 /\
        Working.gpio s' = Working.gpio s).
Proof.
  intros Ho x y skip. pose proof (nibble_range (Z.shiftr o 8)) as Rx.
  pose proof (nibble_range (Z.shiftr o 4)) as Ry.
  destruct (skip_test_cases o vx vy) as (_ & _ & T5 & T9).
  split; [|split].
  - intros s Hf Lx Ly. apply (plain_tick_skip o skip s Hf). subst skip.
    destruct Ho as [H|H].
    + rewrite plain_execute_SE_Vy by exact H. cbv zeta. plain_simpl.
      rewrite (getitem_lookup _ _ vx) by (lia || exact Lx). cbn [bind].
      rewrite (getitem_lookup _ _ vy) by (lia || exact Ly). cbn [bind].
      rewrite (T5 H). reflexivity.
    + rewrite plain_execute_SNE_Vy by exact H. cbv zeta. plain_simpl.
      rewrite (getitem_lookup _ _ vx) by (lia || exact Lx). cbn [bind].
      rewrite (getitem_lookup _ _ vy) by (lia || exact Ly). cbn [bind].
      rewrite (T9 H). reflexivity.
  - intros rnd s Hf Lx Ly. apply (tetris_tick_skip rnd o skip s Hf).
    cbv zeta. subst skip. destruct Ho as [H|H].
    + rewrite tetris_dispatch_SE_Vy by exact H.
      unfold Tetris.op_SE_Vx_Vy, Tetris.reg_x, Tetris.reg_y. cbv zeta.
      tetris_simpl.
      rewrite (getitem_lookup _ _ vx) by (lia || exact Lx). cbn [bind].
      rewrite (getitem_lookup _ _ vy) by (lia || exact Ly). cbn [bind].
      rewrite (T5 H). reflexivity.
    + rewrite tetris_dispatch_SNE_Vy by exact H.
      unfold Tetris.op_SNE_Vx_Vy, Tetris.reg_x, Tetris.reg_y. cbv zeta.
      tetris_simpl.
      rewrite (getitem_lookup _ _ vx) by (lia || exact Lx). cbn [bind].
      rewrite (getitem_lookup _ _ vy) by (lia || exact Ly). cbn [bind].
      rewrite (T9 H). reflexivity.
  - intros rnd s Hf Lx Ly. apply (working_cycle_skip rnd o skip s Hf).
    cbv zeta. subst skip.
    destruct (working_decode_fields o
                (Working.set_cycle_count s (Working.cycle_count s + 1)))
      as (Eo & Ex & Ey & Eg & _).
    destruct Ho as [H|H].
    + rewrite working_dispatch_5xy0
        by (rewrite (mask_narrow o _ _ 0xF000 H); reflexivity).
      unfold Working._5xy0. cbv zeta. rewrite Eo, Ex, Ey, Eg.
      rewrite (mask_narrow o _ _ 0xF H) by reflexivity.
      cbn [Z.eqb negb]. working_simpl.
      rewrite (getitem_lookup _ _ vx) by (lia || exact Lx).
      cbn [Working.eval].
      rewrite (getitem_lookup _ _ vy) by (lia || exact Ly).
      cbn [Working.eval]. rewrite (T5 H). reflexivity.
    + rewrite working_dispatch_9xy0
        by (rewrite (mask_narrow o _ _ 0xF000 H); reflexivity).
      unfold Working._9xy0. cbv zeta. rewrite Eo, Ex, Ey, Eg.
      rewrite (mask_narrow o _ _ 0xF H) by reflexivity.
      cbn [Z.eqb negb]. working_simpl.
      rewrite (getitem_lookup _ _ vx) by (lia || exact Lx).
      cbn [Working.eval].
      rewrite (getitem_lookup _ _ vy) by (lia || exact Ly).
      cbn [Working.eval]. rewrite (T9 H). reflexivity.
Qed.

Lemma skips_on_registers_witness :
  (exists s',
      Plain.tick (plain_after 2 (rom_v0_v1_then 5 7 0x90 0x10)) = Ok s' /\
      Plain.pc s' = 0x208) /\
  (exists s',
      Tetris.tick 0 (tetris_after [0; 0] (rom_v0_v1_then 5 7 0x90 0x10)) =
        Ok s' /\
      Tetris.pc s' = 0x208) /\
  (exists s',
      Working.cycle 0 (working_after 2 (rom_v0_v1_then 5 7 0x90 0x10)) =
        Working.Val tt s' /\
      Working.pc s' = 0x208).
Proof.
  assert (H : Z.land 0x9010 0xF00F = 0x5000 \/ Z.land 0x9010 0xF00F = 0x9000)
    by (right; reflexivity).
  destruct (skips_on_registers 0x9010 5 7 H) as (P & T & W).
  split; [|split].
  - destruct (P (plain_after 2 (rom_v0_v1_then 5 7 0x90 0x10)))
      as (s' & K & E & _).
    + vm_compute; reflexivity.
    + vm_compute; reflexivity.
    + vm_compute; reflexivity.
    + exists s'. split; [exact K|]. rewrite E. vm_compute; reflexivity.
  - destruct (T 0 (tetris_after [0; 0] (rom_v0_v1_then 5 7 0x90 0x10)))
      as (s' & K & E & _).
    + vm_compute; reflexivity.
    + vm_compute; reflexivity.
    + vm_compute; reflexivity.
    + exists s'. split; [exact K|]. rewrite E. vm_compute; reflexivity.
  - destruct (W 0 (working_after 2 (rom_v0_v1_then 5 7 0x90 0x10)))
      as (s' & K & E & _).
    + vm_compute; reflexivity.
    + vm_compute; reflexivity.
    + vm_compute; reflexivity.
    + exists s'. split; [exact K|]. rewrite E. vm_compute; reflexivity.
Defined.
(** ** Dxyn in [Working]: drawing cannot fault *)

Lemma land_0x3F_range (a : Z) : 0 <= Z.land a 0x3F <= 63.
Proof.
  change 0x3F with (Z.ones 6). rewrite Z.land_ones by lia.
  change (2 ^ 6) with 64. change (Z.ones 6) with 63.
  pose proof (Z.mod_pos_bound a 64 ltac:(lia)). lia.
Qed.

Lemma land_0x1F_range (a : Z) : 0 <= Z.land a 0x1F <= 31.
Proof.
  change 0x1F with (Z.ones 5). rewrite Z.land_ones by lia.
  change (2 ^ 5) with 32. change (Z.ones 5) with 31.
  pose proof (Z.mod_pos_bound a 32 ltac:(lia)). lia.
Qed.

Lemma working_drw_pixel_safe (mask off sprite base x c : Z)
      (s : Working.Chip8) :
  0 <= base <= 1984 ->
  length (Working.display_buffer s) = 2048%nat ->
  exists c' s',
    Working.drw_pixel mask off sprite base x c s = Working.Val c' s' /\
    Working.memory s' = Working.memory s /\
    Working.gpio s' = Working.gpio s /\
    Working.index s' = Working.index s /\
    Working.pc s' = Working.pc s /\
    length (Working.display_buffer s') = 2048%nat.
Proof.
  intros Hb Hl. unfold Working.drw_pixel.
  destruct (truthy (Z.land sprite mask)).
  - cbv zeta. pose proof (land_0x3F_range (x + off)) as R.
    destruct (getitem_in_range (Working.display_buffer s)
                (base + Z.land (x + off) 0x3F)) as (v & G & _); [lia|].
    rewrite G. cbn [Working.eval].
    rewrite setitem_in_range by lia. cbn [Working.eval].
    eexists. eexists. split; [reflexivity|]. working_simpl.
    rewrite length_insert. repeat split. exact Hl.
  - exists c, s. repeat split. exact Hl.
Qed.

Lemma working_drw_row_safe (x y row c : Z) (s : Working.Chip8) :
  0 <= Working.index s + row ->
  length (Working.memory s) = 4096%nat ->
  length (Working.display_buffer s) = 2048%nat ->
  exists c' s',
    Working.drw_row x y row c s = Working.Val c' s' /\
    Working.memory s' = Working.memory s /\
    Working.gpio s' = Working.gpio s /\
    Working.index s' = Working.index s /\
    Working.pc s' = Working.pc s /\
    length (Working.display_buffer s') = 2048%nat.
Proof.
  intros Hi Hm Hl. unfold Working.drw_row.
  destruct (Z.leb_spec 4096 (Working.index s + row)).
  { exists c, s. repeat split. exact Hl. }
  destruct (getitem_in_range (Working.memory s) (Working.index s + row))
    as (sprite & G & _); [lia|].
  rewrite G. cbn [Working.eval].
  destruct (sprite =? 0).
  { exists c, s. repeat split. exact Hl. }
  cbv zeta.
  assert (Hb : 0 <= Z.land (y + row) 0x1F * 64 <= 1984).
  { pose proof (land_0x1F_range (y + row)). lia. }
  generalize dependent (Z.land (y + row) 0x1F * 64). intros base Hb.
  destruct (working_drw_pixel_safe 0x80 0 sprite base x c s Hb Hl)
    as (c1 & s1 & -> & M1 & G1 & I1 & P1 & L1).
  cbn [Working.and_then].
  destruct (working_drw_pixel_safe 0x40 1 sprite base x c1 s1 Hb L1)
    as (c2 & s2 & -> & M2 & G2 & I2 & P2 & L2).
  cbn [Working.and_then].
  destruct (working_drw_pixel_safe 0x20 2 sprite base x c2 s2 Hb L2)
    as (c3 & s3 & -> & M3 & G3 & I3 & P3 & L3).
  cbn [Working.and_then].
  destruct (working_drw_pixel_safe 0x10 3 sprite base x c3 s3 Hb L3)
    as (c4 & s4 & -> & M4 & G4 & I4 & P4 & L4).
  cbn [Working.and_then].
  destruct (working_drw_pixel_safe 0x08 4 sprite base x c4 s4 Hb L4)
    as (c5 & s5 & -> & M5 & G5 & I5 & P5 & L5).
  cbn [Working.and_then].
  destruct (working_drw_pixel_safe 0x04 5 sprite base x c5 s5 Hb L5)
    as (c6 & s6 & -> & M6 & G6 & I6 & P6 & L6).
  cbn [Working.and_then].
  destruct (working_drw_pixel_safe 0x02 6 sprite base x c6 s6 Hb L6)
    as (c7 & s7 & -> & M7 & G7 & I7 & P7 & L7).
  cbn [Working.and_then].
  destruct (working_drw_pixel_safe 0x01 7 sprite base x c7 s7 Hb L7)
    as (c8 & s8 & -> & M8 & G8 & I8 & P8 & L8).
  exists c8, s8. split; [reflexivity|].
  repeat split; [congruence..|exact L8].
Qed.

Lemma working_drw_rows_safe (x y : Z) (rows : list Z) :
  Forall (fun row => 0 <= row) rows ->
  forall (c : Z) (s : Working.Chip8),
    0 <= Working.index s ->
    length (Working.memory s) = 4096%nat ->
    length (Working.display_buffer s) = 2048%nat ->
    exists c' s',
      Working.drw_rows x y rows c s = Working.Val c' s' /\
      Working.memory s' = Working.memory s /\
      Working.gpio s' = Working.gpio s /\
      Working.index s' = Working.index s /\
      Working.pc s' = Working.pc s /\
      length (Working.display_buffer s') = 2048%nat.
Proof.
  induction 1 as [|row r Hrow Hr IH]; intros c s Hi Hm Hl.
  - exists c, s. repeat split. exact Hl.
  - cbn [Working.drw_rows].
    destruct (working_drw_row_safe x y row c s) as
      (c1 & s1 & -> & M1 & G1 & I1 & P1 & L1); [lia|exact Hm|exact Hl|].
    cbn [Working.and_then].
    destruct (IH c1 s1) as (c2 & s2 & -> & M2 & G2 & I2 & P2 & L2);
      [lia|congruence|exact L1|].
    exists c2, s2. split; [reflexivity|].
    repeat split; [congruence..|exact L2].
Qed.

Lemma working_dispatch_Dxyn (rnd o : Z) (s : Working.Chip8) :
  Z.land o 0xF000 = 0xD000 ->
  Working.dispatch rnd (Working.decode o s) =
    Working._Dxyn (Working.decode o s).
Proof.
  intros H. apply (working_dispatch_prefix rnd o s 0xD000); [exact H|lia|].
  reflexivity.
Qed.

(** Dxyn in [Working] on a machine with its 4096 memory cells, 2048 video
    cells and 16 registers: whatever the registers and I hold, the cycle
    completes.  The coordinates wrap around the screen and rows that would be
    read at 4096 or above are left out, so nothing is indexed out of range.
    The screen keeps its 2048 cells, the memory is untouched, VF becomes 0
    or 1 and no other register changes. *)
Theorem working_draw_never_faults (rnd o : Z) (s : Working.Chip8) :
  Z.land o 0xF000 = 0xD000 ->
  Working.fetch s = Ok o ->
  length (Working.memory s) = 4096%nat ->
  length (Working.display_buffer s) = 2048%nat ->
  length (Working.gpio s) = 16%nat ->
  0 <= Working.index s ->
  exists s',
    Working.cycle rnd s = Working.Val tt s' /\
    length (Working.display_buffer s') = 2048%nat /\
    Working.memory s' = Working.memory s /\
    (Working.gpio s' = <[15%nat := 0]> (Working.gpio s) \/
     Working.gpio s' = <[15%nat := 1]> (Working.gpio s)) /\
    Working.index s' = Working.index s /\
    Working.pc s' = (Working.pc s + 2) mod 4096.
Proof.
  intros H Hf Hm Hl Hg Hi.
  pose proof (nibble_range (Z.shiftr o 8)) as Rx.
  pose proof (nibble_range (Z.shiftr o 4)) as Ry.
  pose proof (nibble_range o) as Rn.
  set (s0 := Working.decode o
               (Working.set_cycle_count s (Working.cycle_count s + 1))).
  destruct (working_decode_fields o
              (Working.set_cycle_count s (Working.cycle_count s + 1)))
    as (Eo & _ & _ & Eg & Em & EI & Ep & _ & _ & Ed).
  fold s0 in Eo, Eg, Em, EI, Ep, Ed. working_simpl_in Eg.
  working_simpl_in Em. working_simpl_in EI. working_simpl_in Ep.
  working_simpl_in Ed.
  destruct (getitem_in_range (Working.gpio s) (Z.land (Z.shiftr o 8) 0xF))
    as (gx & Gx & _); [lia|].
  destruct (getitem_in_range (Working.gpio s) (Z.land (Z.shiftr o 4) 0xF))
    as (gy & Gy & _); [lia|].
  destruct (working_drw_rows_safe (gx mod 64) (gy mod 32)
              (range (Z.land o 0xF))
              ltac:(apply Forall_forall; intros r Hr;
                    apply elem_of_seqZ in Hr; lia)
              0 s0)
    as (c & s1 & D & M1 & G1 & I1 & P1 & L1);
    [rewrite EI; exact Hi|rewrite Em; exact Hm|rewrite Ed; exact Hl|].
  destruct (working_cycle_done rnd o s
              (Working.set_should_draw
                 (Working.set_gpio s1
                    (<[15%nat := if truthy c then 1 else 0]>
                       (Working.gpio s1)))
                 true) Hf)
    as (s' & T & Fm & Fg & Fi & Fp & _ & Fd & _).
  - rewrite working_dispatch_Dxyn by exact H. fold s0.
    unfold Working._Dxyn. cbv zeta. rewrite Eo, Eg, Gx, Gy.
    cbn [Working.eval]. rewrite D. cbn [Working.and_then].
    unfold Working.write_gpio.
    rewrite (setitem_reg _ 15) by (lia || (rewrite G1, Eg; exact Hg)).
    cbn [Working.eval Working.and_then Working.Done]. reflexivity.
  - exists s'. split; [exact T|]. rewrite Fd, Fm, Fg, Fi, Fp. working_simpl.
    rewrite M1, Em, G1, Eg, I1, EI, P1, Ep, land_0xFFF.
    split; [exact L1|]. split; [reflexivity|].
    split; [destruct (truthy c); auto|]. split; reflexivity.
Qed.

Lemma working_draw_never_faults_witness :
  exists s',
    Working.cycle 0 (working_after 2 [0x60; 0xFF; 0xAF; 0xFE; 0xD0; 0x0F]) =
      Working.Val tt s' /\
    length (Working.display_buffer s') = 2048%nat.
Proof.
  destruct (working_draw_never_faults 0
              0xD00F (working_after 2 [0x60; 0xFF; 0xAF; 0xFE; 0xD0; 0x0F]))
    as (s' & K & L & _).
  - reflexivity.
  - vm_compute; reflexivity.
  - vm_compute; reflexivity.
  - vm_compute; reflexivity.
  - vm_compute; reflexivity.
  - vm_compute; intros Hc; discriminate Hc.
  - exists s'. split; [exact K|exact L].
Defined.
(** ** [Working] raises no IndexError *)

Lemma working_post_for_each (Inv : Working.Chip8 -> Prop)
      (body : Z -> Working.Chip8 -> Working.outcome) (l : list Z) :
  (forall i s, i ∈ l -> Inv s -> working_post Inv (body i s)) ->
  forall s, Inv s -> working_post Inv (Working.for_each body l s).
Proof.
  induction l as [|i r IH]; intros Hb s Hs.
  - exact Hs.
  - cbn [Working.for_each].
    pose proof (Hb i s ltac:(left) Hs) as Hi.
    destruct (body i s) as [u t|e t]; cbn [Working.and_then].
    + apply IH; [|exact Hi]. intros j s' Hj. apply Hb. right. exact Hj.
    + exact Hi.
Qed.

Lemma pop_nonempty (l : list Z) :
  l <> [] -> exists v r, pop l = Ok (v, r).
Proof.
  intros H. unfold pop. destruct (rev l) as [|v r] eqn:E.
  - apply (f_equal (@rev Z)) in E. rewrite rev_involutive in E.
    contradiction.
  - eauto.
Qed.

Ltac nibble_facts :=
  repeat match goal with
         | |- context [Z.land ?g 0xF] =>
             lazymatch goal with
             | _ : 0 <= Z.land g 0xF < 16 |- _ => fail
             | _ => pose proof (nibble_range g)
             end
         end.

Ltac ok_side :=
  working_simpl; rewrite ?length_insert; nibble_facts; lia.

Ltac ok_done :=
  unfold working_ok; working_simpl; rewrite ?length_insert;
  repeat split;
  first [ assumption | lia | apply length_replicate
        | apply Z.land_nonneg; right; lia
        | nibble_facts; lia ].

Ltac wstep :=
  working_simpl;
  lazymatch goal with
  | |- working_post _ (Working.Exc (Exception _) _) =>
      cbn [working_post]; auto
  | |- working_post _ (Working.Done _) => unfold Working.Done
  | |- working_post _ (Working.Val _ (if ?c then _ else _)) => destruct c
  | |- working_post _ (Working.Val _ _) => cbn [working_post]; ok_done
  | |- working_post _ (Working.write_gpio _ _ _) =>
      unfold Working.write_gpio
  | |- working_post _ (Working.write_memory _ _ _) =>
      unfold Working.write_memory
  | |- working_post _ (Working.and_then (Working.write_gpio _ _ _) _) =>
      unfold Working.write_gpio at 1
  | |- working_post _ (Working.and_then (Working.write_memory _ _ _) _) =>
      unfold Working.write_memory at 1
  | |- working_post _ (Working.eval (setitem ?l ?i ?v) _ _) =>
      rewrite (setitem_in_range l i v) by ok_side; cbn [Working.eval]
  | |- working_post _
         (Working.and_then (Working.eval (setitem ?l ?i ?v) _ _) _) =>
      rewrite (setitem_in_range l i v) by ok_side; cbn [Working.eval]
  | |- working_post _ (Working.and_then (Working.Done _) _) =>
      cbn [Working.and_then Working.Done]
  | |- working_post _ (Working.and_then (Working.Val _ _) _) =>
      cbn [Working.and_then]
  | |- working_post _ (Working.eval (getitem ?l ?i) _ _) =>
      let v := fresh "v" in
      let G := fresh "G" in
      destruct (getitem_in_range l i) as (v & G & _);
      [ok_side|]; rewrite G; cbn [Working.eval]
  | |- working_post _ (if ?a <? ?b then _ else _) =>
      destruct (Z.ltb_spec a b)
  | |- working_post _ (if ?a <=? ?b then _ else _) =>
      destruct (Z.leb_spec a b)
  | |- working_post _ (if ?c then _ else _) => destruct c
  end.

Section Handlers.

Variable s : Working.Chip8.
Hypothesis Hm : length (Working.memory s) = 4096%nat.
Hypothesis Hg : length (Working.gpio s) = 16%nat.
Hypothesis Hd : length (Working.display_buffer s) = 2048%nat.
Hypothesis Hi : 0 <= Working.index s.
Hypothesis Hx : 0 <= Working.vx s < 16.
Hypothesis Hy : 0 <= Working.vy s < 16.

Lemma working_0E0_safe : working_post working_ok (Working._0E0 s).
Proof using Hm Hg Hi. unfold Working._0E0. repeat wstep. Qed.

Lemma working_00EE_safe : working_post working_ok (Working._00EE s).
Proof using Hm Hg Hd Hi.
  unfold Working._00EE. destruct (Working.stack s) as [|a r] eqn:E.
  - left. reflexivity.
  - destruct (pop_nonempty (a :: r)) as (v & r' & ->); [discriminate|].
    cbn [Working.eval]. cbv zeta. repeat wstep.
Qed.

Lemma working_jumps_safe :
  working_post working_ok (Working._0nnn s) /\
  working_post working_ok (Working._1nnn s) /\
  working_post working_ok (Working._2nnn s) /\
  working_post working_ok (Working._Annn s) /\
  working_post working_ok (Working._Bnnn s).
Proof using Hm Hg Hd Hi.
  unfold Working._0nnn, Working._1nnn, Working._2nnn, Working._Annn,
    Working._Bnnn.
  split; [|split; [|split; [|split]]]; cbv zeta; repeat wstep.
Qed.

Lemma working_skips_safe :
  working_post working_ok (Working._3xkk s) /\
  working_post working_ok (Working._4xkk s) /\
  working_post working_ok (Working._5xy0 s) /\
  working_post working_ok (Working._9xy0 s) /\
  working_post working_ok (Working._Exxx s).
Proof using Hm Hg Hd Hi Hx Hy.
  unfold Working._3xkk, Working._4xkk, Working._5xy0, Working._9xy0,
    Working._Exxx, Working.skip_if.
  split; [|split; [|split; [|split]]]; cbv zeta; repeat wstep.
Qed.

Lemma working_regs_safe (rnd : Z) :
  working_post working_ok (Working._6xkk s) /\
  working_post working_ok (Working._7xkk s) /\
  working_post working_ok (Working._8xxx s) /\
  working_post working_ok (Working._Cxkk rnd s).
Proof using Hm Hg Hd Hi Hx Hy.
  unfold Working._6xkk, Working._7xkk, Working._8xxx, Working._Cxkk.
  split; [|split; [|split]]; cbv zeta; repeat wstep.
Qed.

Lemma working_Dxyn_safe : working_post working_ok (Working._Dxyn s).
Proof using Hm Hg Hd Hi.
  unfold Working._Dxyn. cbv zeta. wstep. wstep.
  match goal with
  | |- working_post _ (Working.and_then
                         (Working.drw_rows ?x ?y ?rows ?c _) _) =>
      destruct (working_drw_rows_safe x y rows
                  ltac:(apply Forall_forall; intros r Hr;
                        apply elem_of_seqZ in Hr; lia)
                  c s Hi Hm Hd)
        as (c' & s1 & -> & M1 & G1 & I1 & P1 & L1)
  end.
  cbn [Working.and_then]. unfold Working.write_gpio.
  rewrite setitem_in_range by (rewrite G1; lia).
  cbn [Working.eval Working.and_then Working.Done working_post].
  unfold working_ok. working_simpl. rewrite length_insert, M1, G1, I1.
  auto.
Qed.

Lemma working_Fxxx_safe : working_post working_ok (Working._Fxxx s).
Proof using Hm Hg Hd Hi.
  unfold Working._Fxxx. cbv zeta.
  pose proof (nibble_range (Z.shiftr (Working.opcode s) 8)) as Rx.
  repeat lazymatch goal with
         | |- working_post _ (if _ =? _ then _ else _) =>
             destruct (_ =? _)
         end.
  - repeat wstep.
  - destruct (Working.find_pressed 0 (Working.key_inputs s));
      repeat wstep.
  - repeat wstep.
  - repeat wstep.
  - repeat wstep.
  - repeat wstep.
  - repeat wstep.
  - apply working_post_for_each.
    + intros i t Hr (Tm & Tg & Td & Ti). apply elem_of_seqZ in Hr.
      repeat wstep.
    + unfold working_ok; auto.
  - apply working_post_for_each.
    + intros i t Hr (Tm & Tg & Td & Ti). apply elem_of_seqZ in Hr.
      repeat wstep.
    + unfold working_ok; auto.
  - repeat wstep.
Qed.

Lemma working_dispatch_safe (rnd : Z) :
  working_post working_ok (Working.dispatch rnd s).
Proof using Hm Hg Hd Hi Hx Hy.
  destruct working_jumps_safe as (J0 & J1 & J2 & JA & JB).
  destruct working_skips_safe as (S3 & S4 & S5 & S9 & SE).
  destruct (working_regs_safe rnd) as (R6 & R7 & R8 & RC).
  unfold Working.dispatch. cbv zeta.
  destruct (Z.land (Working.opcode s) 0xF000 =? 0x0000).
  - destruct (Working.opcode s =? 0x00E0); [apply working_0E0_safe|].
    destruct (Working.opcode s =? 0x00EE); [apply working_00EE_safe|].
    exact J0.
  - unfold Working.funcmap. cbn [Working.dict_get].
    repeat lazymatch goal with
           | |- working_post _
                  (match (if ?c then _ else _) with
                   | Some _ => _ | None => _ end) =>
               destruct c; [assumption || apply working_Dxyn_safe
                            || apply working_Fxxx_safe|]
           end.
    cbn [working_post Working.Done]. unfold working_ok. working_simpl. auto.
Qed.

End Handlers.

Lemma working_timers_ok (s : Working.Chip8) :
  working_ok s -> working_ok (Working.timers s).
Proof.
  intros (Hm & Hg & Hd & Hi). unfold Working.timers. cbv zeta.
  destruct (0 <? Working.delay_timer s); working_simpl;
    destruct (0 <? Working.sound_timer s); unfold working_ok; working_simpl;
    auto.
Qed.

Lemma working_boot_ok (rom : list Z) : working_ok (working_boot rom).
Proof.
  unfold working_boot. rewrite working_init_spec.
  rewrite working_load_rom_spec by reflexivity.
  unfold working_ok. working_simpl. cbn [Working.blank].
  working_simpl.
  split; [|split; [reflexivity|split; [reflexivity|]]].
  - unfold splice. rewrite !length_app, !length_take, length_drop.
    change (length fresh_memory) with 4096%nat. lia.
  - vm_compute. intros Hc. discriminate Hc.
Qed.

(** [Working] checks every index before it uses it.  A machine as
    [__init__] and [load_rom] leave it has 4096 memory cells, 16 registers,
    2048 video cells and I >= 0, and every cycle that completes keeps it
    so.  A cycle that does not complete raises one of the exceptions the
    source raises itself: PC out of bounds, stack underflow on 00EE or stack
    overflow on CALL; never an IndexError. *)
Theorem working_raises_no_IndexError :
  (forall rom : list Z, working_ok (working_boot rom)) /\
  (forall (rnd : Z) (s : Working.Chip8),
      working_ok s ->
      match Working.cycle rnd s with
      | Working.Val _ s' => working_ok s'
      | Working.Exc e _ =>
          e = Exception (PC_out_of_bounds (Working.pc s)) \/
          e = Exception Stack_underflow_on_00EE \/
          e = Exception Stack_overflow_on_CALL
      end).
Proof.
  split; [apply working_boot_ok|].
  intros rnd s (Hm & Hg & Hd & Hi). unfold Working.cycle. cbv zeta.
  unfold Working.fetch. working_simpl.
  destruct (Z.ltb_spec (Working.pc s) 0) as [Hp|Hp]; cbn [orb].
  { cbn [Working.eval]. left. reflexivity. }
  destruct (Z.leb_spec (Z.of_nat (length (Working.memory s)))
              (Working.pc s + 1)) as [Hq|Hq].
  { cbn [Working.eval]. left. reflexivity. }
  destruct (getitem_in_range (Working.memory s) (Working.pc s))
    as (hi & -> & _); [lia|].
  destruct (getitem_in_range (Working.memory s) (Working.pc s + 1))
    as (lo & -> & _); [lia|].
  cbn [bind Working.eval].
  generalize (Z.lor (Z.shiftl hi 8) lo). intros o.
  destruct (working_decode_fields o
              (Working.set_cycle_count s (Working.cycle_count s + 1)))
    as (_ & Ex & Ey & Eg & Em & EI & _ & _ & _ & Ed).
  pose proof (nibble_range (Z.shiftr o 8)) as Rx.
  pose proof (nibble_range (Z.shiftr o 4)) as Ry.
  pose proof (working_dispatch_safe
                (Working.decode o
                   (Working.set_cycle_count s (Working.cycle_count s + 1))))
    as D.
  rewrite Ex, Ey, Eg, Em, EI, Ed in D. working_simpl_in D.
  specialize (D Hm Hg Hd Hi Rx Ry rnd).
  destruct (Working.dispatch rnd
              (Working.decode o
                 (Working.set_cycle_count s (Working.cycle_count s + 1))))
    as [u t|e t]; cbn [Working.and_then working_post] in *.
  - cbn [Working.Done]. apply working_timers_ok.
    destruct D as (Tm & Tg & Td & Ti). unfold working_ok. working_simpl.
    auto.
  - right. exact D.
Qed.

Lemma working_raises_no_IndexError_witness :
  match Working.cycle 0 (working_boot [0x00; 0xEE]) with
  | Working.Val _ s' => working_ok s'
  | Working.Exc e _ =>
      e = Exception (PC_out_of_bounds 0x200) \/
      e = Exception Stack_underflow_on_00EE \/
      e = Exception Stack_overflow_on_CALL
  end.
Proof.
  destruct working_raises_no_IndexError as (_ & C).
  apply (C 0 (working_boot [0x00; 0xEE])).
  unfold working_ok. repeat split; try (vm_compute; reflexivity).
  vm_compute. intros Hc. discriminate Hc.
Defined.
